(** * Megatron core checkpoint loader: schema registry, rank walker, merge
      engine and stream emitter.

    Shallow embedding of [tools/checkpoint/schema_core.py] and
    [tools/checkpoint/loader_core.py].  Tensors are n-dimensional arrays
    (a shape and row-major data), Python dictionaries are insertion-ordered
    association lists, and the loader is a state-and-exception computation
    over the hand-off queue and the local variables of [_load_checkpoint]. *)

From Stdlib Require Import String Ascii ZArith Lia Bool Arith List.
From Stdlib Require Import DecimalString DecimalNat.
Import ListNotations.
Local Set Warnings "-register-all".
Local Open Scope string_scope.
Local Open Scope list_scope.

(* ================================================================== *)
(** ** Python-level outcomes *)

(** The exceptions the loader can raise.  All of them derive from
    [Exception]; [SystemExit] (raised by [exit(1)]) does not and is a
    separate result. *)
Inductive exn : Type :=
| AssertionError
| KeyError (key : string)
| IndexError
| TypeError
| ValueError
| RuntimeError
| UnboundLocalError (var : string)
| ZeroDivisionError
| PlainException (msg : string).

(** The result of a pure computation: a value or a raised exception. *)
Inductive result (A : Type) : Type :=
| Ok (a : A)
| Error (e : exn).
Arguments Ok {A} a.
Arguments Error {A} e.

Definition obind {A B} (m : result A) (k : A -> result B) : result B :=
  match m with
  | Ok a => k a
  | Error e => Error e
  end.

Declare Scope pure_scope.
Delimit Scope pure_scope with pure.
Notation "x <- m ;; k" := (obind m (fun x => k))
  (at level 61, m at next level, right associativity) : pure_scope.
Notation "m ;;; k" := (obind m (fun _ => k))
  (at level 61, right associativity) : pure_scope.

Definition py_assert (b : bool) : result unit :=
  if b then Ok tt else Error AssertionError.

(** [xs[i]] on a Python list. *)
Definition list_index {A} (xs : list A) (i : nat) : result A :=
  match nth_error xs i with
  | Some x => Ok x
  | None => Error IndexError
  end.

(** [xs[i] = v] on a Python list. *)
Fixpoint list_assign {A} (xs : list A) (i : nat) (v : A) : result (list A) :=
  match xs, i with
  | [], _ => Error IndexError
  | _ :: r, O => Ok (v :: r)
  | x :: r, S j =>
      match list_assign r j v with
      | Ok r' => Ok (x :: r')
      | Error e => Error e
      end
  end.

(** [[f(x) for x in xs]] where [f] may raise. *)
Fixpoint omap {A B} (f : A -> result B) (xs : list A) : result (list B) :=
  match xs with
  | [] => Ok []
  | x :: r =>
      match f x with
      | Ok y =>
          match omap f r with
          | Ok ys => Ok (y :: ys)
          | Error e => Error e
          end
      | Error e => Error e
      end
  end.

(** String concatenation, as in a Python f-string. *)
Infix "^^" := String.append (at level 60, right associativity).

(** [str(n)] for a non-negative integer. *)
Definition str_of_nat (n : nat) : string :=
  NilEmpty.string_of_uint (Nat.to_uint n).

(* ================================================================== *)
(** ** Tensors and the three torch operations the loader uses *)

Module Torch.

Record tensor : Type := mkTensor { shape : list nat; data : list Z }.

Definition numel (s : list nat) : nat := fold_right Nat.mul 1 s.

(** A tensor is well formed when its data fills its shape. *)
Definition wf (t : tensor) : Prop := length (data t) = numel (shape t).

Definition shape_eqb (a b : list nat) : bool :=
  if list_eq_dec Nat.eq_dec a b then true else false.

(** [torch.cat] skips one-dimensional empty tensors (shape [(0,)]). *)
Definition legacy_empty (t : tensor) : bool :=
  match shape t with
  | [0] => true
  | _ => false
  end.

Definition head_dim (t : tensor) : nat := hd 0 (shape t).

(** Does [u] agree with the trailing dimensions [tl] (all but axis 0)? *)
Definition same_tail (tl : list nat) (u : tensor) : bool :=
  match shape u with
  | [] => false
  | _ :: tl' => shape_eqb tl tl'
  end.

(** [torch.cat(ts, dim=0)]. *)
Definition cat0 (ts : list tensor) : result tensor :=
  match ts with
  | [] => Error ValueError
  | _ :: _ =>
      match filter (fun t => negb (legacy_empty t)) ts with
      | [] => Ok (mkTensor [0] [])
      | t :: rest =>
          match shape t with
          | [] => Error RuntimeError
          | _ :: tl =>
              if forallb (same_tail tl) rest
              then Ok (mkTensor
                          (list_sum (map head_dim (t :: rest)) :: tl)
                          (concat (map data (t :: rest))))
              else Error RuntimeError
          end
      end
  end.

(** Row [i] of [t] seen as [d0] slabs of [w] elements. *)
Definition slab (w i : nat) (t : tensor) : list Z :=
  firstn w (skipn (i * w) (data t)).

Definition second_dim (t : tensor) : nat := hd 0 (tl (shape t)).

(** Does [u] agree with [d0] on axis 0 and with [rest] beyond axis 1? *)
Definition same_but_axis1 (d0 : nat) (rest : list nat) (u : tensor) : bool :=
  match shape u with
  | e0 :: _ :: rest' => Nat.eqb d0 e0 && shape_eqb rest rest'
  | _ => false
  end.

(** [torch.cat(ts, dim=1)]. *)
Definition cat1 (ts : list tensor) : result tensor :=
  match ts with
  | [] => Error ValueError
  | _ :: _ =>
      match filter (fun t => negb (legacy_empty t)) ts with
      | [] => Ok (mkTensor [0] [])
      | t :: others =>
          match shape t with
          | d0 :: _ :: rest =>
              if forallb (same_but_axis1 d0 rest) others
              then Ok (mkTensor
                          (d0 :: list_sum (map second_dim (t :: others)) :: rest)
                          (flat_map
                             (fun i =>
                                flat_map
                                  (fun u => slab (second_dim u * numel rest) i u)
                                  (t :: others))
                             (seq 0 d0)))
              else Error RuntimeError
          | [] => Error RuntimeError
          | [_] => Error IndexError
          end
      end
  end.

(** [torch.chunk(t, 2, dim=0)]: pieces of [ceil(n/2)] rows; an axis of
    size 0 gives two empty pieces, an axis of size 1 a single piece. *)
Definition chunk2 (t : tensor) : result (list tensor) :=
  match shape t with
  | [] => Error RuntimeError
  | n :: tl =>
      let split_size := (n + 1) / 2 in
      let w := numel tl in
      match n with
      | 0 => Ok [mkTensor (0 :: tl) []; mkTensor (0 :: tl) []]
      | 1 => Ok [mkTensor (1 :: tl) (firstn w (data t))]
      | _ => Ok [mkTensor (split_size :: tl) (firstn (split_size * w) (data t));
                  mkTensor ((n - split_size) :: tl)
                    (skipn (split_size * w) (data t))]
      end
  end.

(** [t[i]]: the [i]-th row along axis 0. *)
Definition row (t : tensor) (i : nat) : result tensor :=
  match shape t with
  | [] => Error IndexError
  | n :: tl =>
      if Nat.ltb i n
      then Ok (mkTensor tl (slab (numel tl) i t))
      else Error IndexError
  end.

End Torch.
Import Torch.

(* ================================================================== *)
(** ** Python values and dictionaries *)

Inductive pyval : Type :=
| PNone
| PStr (s : string)
| PTensor (t : tensor)
| PTuple (items : list pyval).

(** A dictionary in insertion order. *)
Definition dict (V : Type) : Type := list (string * V).

Fixpoint dict_find {V} (d : dict V) (k : string) : option V :=
  match d with
  | [] => None
  | (k', v) :: r => if String.eqb k' k then Some v else dict_find r k
  end.

(** [d[k]]. *)
Definition dict_get {V} (d : dict V) (k : string) : result V :=
  match dict_find d k with
  | Some v => Ok v
  | None => Error (KeyError k)
  end.

(** [d.get(k)]. *)
Definition dict_get_or_none (d : dict pyval) (k : string) : pyval :=
  match dict_find d k with
  | Some v => v
  | None => PNone
  end.

(** [d[k] = v]. *)
Fixpoint dict_set {V} (d : dict V) (k : string) (v : V) : dict V :=
  match d with
  | [] => [(k, v)]
  | (k', v') :: r =>
      if String.eqb k' k then (k', v) :: r else (k', v') :: dict_set r k v
  end.

Definition dict_keys {V} (d : dict V) : list string := map fst d.

Definition as_tensor (v : pyval) : result tensor :=
  match v with
  | PTensor t => Ok t
  | _ => Error TypeError
  end.

(** [torch.cat(vs, dim=0)] on Python values: every item must be a tensor. *)
Definition torch_cat0 (vs : list pyval) : result pyval :=
  (ts <- omap as_tensor vs ;;
   t <- cat0 ts ;;
   Ok (PTensor t))%pure.

Definition torch_cat1 (vs : list pyval) : result pyval :=
  (ts <- omap as_tensor vs ;;
   t <- cat1 ts ;;
   Ok (PTensor t))%pure.

(** [torch.chunk(v, 2, dim=0)]: a tuple of tensors. *)
Definition torch_chunk2 (v : pyval) : result pyval :=
  (t <- as_tensor v ;;
   cs <- chunk2 t ;;
   Ok (PTuple (map PTensor cs)))%pure.

(** [v[i]] on a tuple or a tensor. *)
Definition py_index (v : pyval) (i : nat) : result pyval :=
  match v with
  | PTuple items => list_index items i
  | PTensor t => (r <- row t i ;; Ok (PTensor r))%pure
  | PStr _ => Error TypeError
  | PNone => Error TypeError
  end.

(** [x.cpu()]. *)
Definition py_cpu (v : pyval) : result pyval :=
  match v with
  | PTensor t => Ok (PTensor t)
  | _ => Error TypeError
  end.

Definition is_none (v : pyval) : bool :=
  match v with
  | PNone => true
  | _ => false
  end.

(* ================================================================== *)
(** ** schema_core.py: the schema registry *)

Module Schema.

(** The mapping handed to [ModelSchema.__init__]: one role-to-path table
    per section, and the prefix under which the layers are stored. *)
Record ModelSchema : Type := mkSchema {
  embeddings : dict string;
  layer_prefix : string;
  layer : dict string;
  final_norm : dict string;
  output_layer : dict string;
  pooler : dict string;
  lm_head : dict string;
  binary_head : dict string
}.

Definition get_core_transformer_block_key (model_key : string) : result string :=
  dict_get [("GPT", "decoder"); ("BERT", "encoder")] model_key.

Definition CoreSchema (model_type : string) (layer_schema : dict string)
  : result ModelSchema :=
  (block_key <- get_core_transformer_block_key model_type ;;
   Ok {| embeddings :=
            [("pos", "embedding.position_embeddings.weight");
             ("word", "embedding.word_embeddings.weight")];
          layer_prefix := block_key ^^ ".layers";
          layer := layer_schema;
          final_norm :=
            [("weight", block_key ^^ ".final_layernorm.weight");
             ("bias", block_key ^^ ".final_layernorm.bias")];
          output_layer := [("weight", "output_layer.weight")];
          pooler :=
            [("weight", "pooler.dense.weight");
             ("bias", "pooler.dense.bias")];
          lm_head :=
            [("dense_weight", "lm_head.dense.weight");
             ("dense_bias", "lm_head.dense.bias");
             ("norm_weight", "lm_head.layer_norm.weight");
             ("norm_bias", "lm_head.layer_norm.bias")];
          binary_head :=
            [("weight", "binary_head.weight");
             ("bias", "binary_head.bias")] |})%pure.

(** The layer table shared, entry for entry, by [CoreLocalSchema] and
    [CoreTESchema]. *)
Definition dense_layer_schema : dict string :=
  [ ("self_attn_norm_weight", "input_layernorm.weight");
    ("self_attn_norm_bias", "input_layernorm.bias");
    ("self_attn_qkv_weight", "self_attention.linear_qkv.weight");
    ("self_attn_qkv_bias", "self_attention.linear_qkv.bias");
    ("self_attn_proj_weight", "self_attention.linear_proj.weight");
    ("self_attn_proj_bias", "self_attention.linear_proj.bias");
    ("self_attn_q_layernorm_weight", "self_attention.q_layernorm.weight");
    ("self_attn_q_layernorm_bias", "self_attention.q_layernorm.bias");
    ("self_attn_k_layernorm_weight", "self_attention.k_layernorm.weight");
    ("self_attn_k_layernorm_bias", "self_attention.k_layernorm.bias");
    ("mlp_norm_weight", "pre_mlp_layernorm.weight");
    ("mlp_norm_bias", "pre_mlp_layernorm.bias");
    ("mlp_fc1_weight", "mlp.linear_fc1.weight");
    ("mlp_fc1_bias", "mlp.linear_fc1.bias");
    ("mlp_fc2_weight", "mlp.linear_fc2.weight");
    ("mlp_fc2_bias", "mlp.linear_fc2.bias");
    ("mlp_xielu_alpha_p", "mlp.activation_func.alpha_p");
    ("mlp_xielu_alpha_n", "mlp.activation_func.alpha_n") ].

Definition CoreLocalSchema (model_type : string) : result ModelSchema :=
  CoreSchema model_type dense_layer_schema.

Definition CoreTESchema (model_type : string) : result ModelSchema :=
  CoreSchema model_type dense_layer_schema.

(** [{f"{role}.{i}" : f"mlp.experts.local_experts.{i}.{leaf}" for i in range(n)}] *)
Definition expert_entries (role leaf : string) (num_local_experts : nat)
  : dict string :=
  map (fun expert_idx =>
         (role ^^ "." ^^ str_of_nat expert_idx,
          "mlp.experts.local_experts." ^^ str_of_nat expert_idx ^^ "." ^^ leaf))
      (seq 0 num_local_experts).

(** [num_experts // expert_model_parallel_size] *)
Definition num_local_experts_of (num_experts expert_model_parallel_size : Z)
  : result Z :=
  if Z.eqb expert_model_parallel_size 0
  then Error ZeroDivisionError
  else Ok (Z.div num_experts expert_model_parallel_size).

Definition moe_layer_schema (num_local_experts : nat) : dict string :=
  [ ("self_attn_norm_weight", "self_attention.linear_qkv.layer_norm_weight");
    ("self_attn_norm_bias", "self_attention.linear_qkv.layer_norm_bias");
    ("self_attn_qkv_weight", "self_attention.linear_qkv.weight");
    ("self_attn_qkv_bias", "self_attention.linear_qkv.bias");
    ("self_attn_proj_weight", "self_attention.linear_proj.weight");
    ("self_attn_proj_bias", "self_attention.linear_proj.bias");
    ("self_attn_q_layernorm_weight", "self_attention.q_layernorm.weight");
    ("self_attn_q_layernorm_bias", "self_attention.q_layernorm.bias");
    ("self_attn_k_layernorm_weight", "self_attention.k_layernorm.weight");
    ("self_attn_k_layernorm_bias", "self_attention.k_layernorm.bias");
    ("mlp_norm_weight", "pre_mlp_layernorm.weight");
    ("mlp_norm_bias", "pre_mlp_layernorm.bias");
    ("router_weight", "mlp.router.weight") ]
  ++ expert_entries "mlp_fc1_weight" "linear_fc1.weight" num_local_experts
  ++ expert_entries "mlp_fc2_weight" "linear_fc2.weight" num_local_experts
  ++ expert_entries "mlp_xielu_alpha_p" "activation_func.alpha_p.weight"
       num_local_experts
  ++ expert_entries "mlp_xielu_alpha_n" "activation_func.alpha_n.weight"
       num_local_experts.

Definition CoreMoETESchema (model_type : string)
    (num_experts expert_model_parallel_size : Z) : result ModelSchema :=
  (num_local_experts <- num_local_experts_of num_experts expert_model_parallel_size ;;
   CoreSchema model_type (moe_layer_schema (Z.to_nat num_local_experts)))%pure.

Definition get_model_schema (model_type transformer_impl : string)
    (num_experts expert_model_parallel_size : option Z) : result ModelSchema :=
  match num_experts with
  | Some n =>
      if Z.ltb 0 n then
        (py_assert (String.eqb transformer_impl "transformer_engine") ;;;
         match expert_model_parallel_size with
         | Some ep => CoreMoETESchema model_type n ep
         | None => Error AssertionError
         end)%pure
      else
        (ctor <- dict_get [("local", CoreLocalSchema);
                           ("transformer_engine", CoreTESchema)] transformer_impl ;;
         ctor model_type)%pure
  | None =>
      (ctor <- dict_get [("local", CoreLocalSchema);
                         ("transformer_engine", CoreTESchema)] transformer_impl ;;
       ctor model_type)%pure
  end.

(** *** The base class's accessors *)

(** Modelled from the spec: [schema_base.py] (the [ModelSchema] base class)
    is not part of the sources.  A model shard "exposes named-tensor lookup
    by storage path": tensors outside the layers are found by their dotted
    path, and the layer list is found under the schema's layer prefix, each
    layer again a lookup by path. *)
Record ModelShard : Type := mkShard {
  named_tensors : dict tensor;
  layer_lists : dict (list (dict tensor))
}.

(** Modelled from the spec: the lookup of one storage path; a path the
    object does not have reads as [None]. *)
Definition get_deep_attr (obj : dict tensor) (path : string) : pyval :=
  match dict_find obj path with
  | Some t => PTensor t
  | None => PNone
  end.

(** Modelled from the spec: "mapping of named tensors", one entry per
    logical role of the table, holding the tensor at the role's path. *)
Definition resolve (table : dict string) (obj : dict tensor) : dict pyval :=
  map (fun entry => (fst entry, get_deep_attr obj (snd entry))) table.

Definition section_of (schema : ModelSchema) (key : string)
  : result (dict string) :=
  dict_get [("embeddings", embeddings schema);
            ("layer", layer schema);
            ("final_norm", final_norm schema);
            ("output_layer", output_layer schema);
            ("pooler", pooler schema);
            ("lm_head", lm_head schema);
            ("binary_head", binary_head schema)] key.

(** Modelled from the spec: [get(section, shard) -> mapping of named tensors]. *)
Definition get (schema : ModelSchema) (key : string) (model : ModelShard)
  : result (dict pyval) :=
  (table <- section_of schema key ;;
   Ok (resolve table (named_tensors model)))%pure.

(** Modelled from the spec: the layer list of a shard; its absence is an
    assertion failure. *)
Definition get_layers (schema : ModelSchema) (model : ModelShard)
  : result (list (dict tensor)) :=
  match dict_find (layer_lists model) (layer_prefix schema) with
  | Some layers => Ok layers
  | None => Error AssertionError
  end.

(** Modelled from the spec: [get_num_layers(shard) -> integer]. *)
Definition get_num_layers (schema : ModelSchema) (model : ModelShard)
  : result nat :=
  (layers <- get_layers schema model ;; Ok (length layers))%pure.

(** Modelled from the spec: [get_layer(shard, layer_index) -> mapping of
    named tensors] for one transformer layer. *)
Definition get_layer (schema : ModelSchema) (model : ModelShard)
    (layer_idx : nat) : result (dict pyval) :=
  (layers <- get_layers schema model ;;
   l <- list_index layers layer_idx ;;
   Ok (resolve (layer schema) l))%pure.

End Schema.
Import Schema.

(* ================================================================== *)
(** ** loader_core.py: configuration values *)

(** The loader's own command-line arguments ([args]). *)
Module args.
Record t : Type := mk {
  model_type : string;
  true_vocab_size : option Z;
  (** The parsed content of the vocabulary file when [--vocab-file] is
      given ([json.load(open(args.vocab_file))]), one entry per token. *)
  vocab_file : option (list string);
  loader_transformer_impl : string;
  test_logits : bool
}.
End args.

(** The arguments stored in the checkpoint ([checkpoint_args]). *)
Module checkpoint_args.
Record t : Type := mk {
  fp16 : bool;
  bf16 : bool;
  (** [None] when the attribute is absent ([hasattr] is false). *)
  normalization : option string
}.
End checkpoint_args.

(** Megatron's arguments ([margs]) as [load_args_from_checkpoint] and
    [validate_args] leave them; a field the checkpoint does not specify is
    [None]. *)
Module margs.
Record t : Type := mk {
  tensor_model_parallel_size : option nat;
  pipeline_model_parallel_size : option nat;
  virtual_pipeline_model_parallel_size : option nat;
  expert_model_parallel_size : Z;
  num_experts : option Z;
  num_layers : option nat;
  hidden_size : option Z;
  seq_length : option Z;
  num_attention_heads : option Z;
  max_position_embeddings : option Z;
  position_embedding_type : option string;
  tokenizer_type : option string;
  iteration : option Z;
  bert_binary_head : option bool;
  disable_bias_linear : option bool;
  params_dtype : option string;
  swiglu : option bool;
  xielu : option bool;
  untie_embeddings_and_output_weights : bool;
  add_bias_linear : bool;
  add_qkv_bias : bool;
  make_vocab_size_divisible_by : Z
}.
End margs.

(** The metadata record ([md]) that opens the stream. *)
Module md.
Record t : Type := mk {
  model_type : string;
  num_layers : nat;
  hidden_size : Z;
  seq_length : Z;
  num_attention_heads : Z;
  max_position_embeddings : Z;
  tokenizer_type : string;
  iteration : Z;
  params_dtype : string;
  bert_binary_head : bool;
  output_layer : bool;
  position_embedding_type : string;
  linear_bias : bool;
  qkv_bias : bool;
  norm_has_bias : bool;
  swiglu : bool;
  previous_tensor_parallel_size : nat;
  previous_pipeline_parallel_size : nat;
  true_vocab_size : option Z;
  make_vocab_size_divisible_by : Z;
  checkpoint_args : checkpoint_args.t;
  use_legacy_models : bool;
  consumed_train_samples : option Z;
  consumed_valid_samples : option Z
}.

Definition with_consumed (m : t) (train valid : option Z) : t :=
  mk (model_type m) (num_layers m) (hidden_size m) (seq_length m)
     (num_attention_heads m) (max_position_embeddings m) (tokenizer_type m)
     (iteration m) (params_dtype m) (bert_binary_head m) (output_layer m)
     (position_embedding_type m) (linear_bias m) (qkv_bias m)
     (norm_has_bias m) (swiglu m) (previous_tensor_parallel_size m)
     (previous_pipeline_parallel_size m) (true_vocab_size m)
     (make_vocab_size_divisible_by m) (checkpoint_args m)
     (use_legacy_models m) train valid.
End md.

(** What travels through the queue: the metadata namespace, a named-tensor
    dictionary, or a string sentinel. *)
Inductive qitem : Type :=
| QMetadata (m : md.t)
| QMessage (msg : dict pyval)
| QStr (s : string).

(* ================================================================== *)
(** ** loader_core.py: the state of a run *)

(** The queue, the two counters shared with [get_models] through
    [nonlocal], the pipeline rank held by [mpu], and the local variables of
    [_load_checkpoint] that outlive a loop iteration. *)
Record state : Type := mkState {
  queue : list qitem;
  consumed_train_samples : option Z;
  consumed_valid_samples : option Z;
  mpu_pipeline_rank : nat;
  all_models : list (list (list ModelShard));
  models : list ModelShard;
  total_layer_num : nat;
  (** The loop variable [model] of the tensor-parallel loop, unbound until
      that loop has run once. *)
  model : option ModelShard
}.

Definition initial_state : state :=
  mkState [] None None 0 [] [] 0 None.

Definition set_queue (q : list qitem) (s : state) : state :=
  mkState q (consumed_train_samples s) (consumed_valid_samples s)
    (mpu_pipeline_rank s) (all_models s) (models s) (total_layer_num s) (model s).
Definition set_consumed_train_samples (c : option Z) (s : state) : state :=
  mkState (queue s) c (consumed_valid_samples s)
    (mpu_pipeline_rank s) (all_models s) (models s) (total_layer_num s) (model s).
Definition set_consumed_valid_samples (c : option Z) (s : state) : state :=
  mkState (queue s) (consumed_train_samples s) c
    (mpu_pipeline_rank s) (all_models s) (models s) (total_layer_num s) (model s).
Definition set_mpu_pipeline_rank (r : nat) (s : state) : state :=
  mkState (queue s) (consumed_train_samples s) (consumed_valid_samples s)
    r (all_models s) (models s) (total_layer_num s) (model s).
Definition set_all_models (a : list (list (list ModelShard))) (s : state) : state :=
  mkState (queue s) (consumed_train_samples s) (consumed_valid_samples s)
    (mpu_pipeline_rank s) a (models s) (total_layer_num s) (model s).
Definition set_models (ms : list ModelShard) (s : state) : state :=
  mkState (queue s) (consumed_train_samples s) (consumed_valid_samples s)
    (mpu_pipeline_rank s) (all_models s) ms (total_layer_num s) (model s).
Definition set_total_layer_num (n : nat) (s : state) : state :=
  mkState (queue s) (consumed_train_samples s) (consumed_valid_samples s)
    (mpu_pipeline_rank s) (all_models s) (models s) n (model s).
Definition set_model (m : option ModelShard) (s : state) : state :=
  mkState (queue s) (consumed_train_samples s) (consumed_valid_samples s)
    (mpu_pipeline_rank s) (all_models s) (models s) (total_layer_num s) m.

(** The outcome of a stateful computation: besides returning or raising, it
    may leave through [exit(code)]. *)
Inductive outcome (A : Type) : Type :=
| Ret (a : A)
| Raise (e : exn)
| SysExit (code : Z).
Arguments Ret {A} a.
Arguments Raise {A} e.
Arguments SysExit {A} code.

(** State-and-exception computations. *)
Definition M (A : Type) : Type := state -> state * outcome A.

Definition mret {A} (a : A) : M A := fun s => (s, Ret a).

Definition mbind {A B} (m : M A) (k : A -> M B) : M B :=
  fun s =>
    match m s with
    | (s', Ret a) => k a s'
    | (s', Raise e) => (s', Raise e)
    | (s', SysExit c) => (s', SysExit c)
    end.

Definition lift {A} (o : result A) : M A :=
  fun s => (s, match o with Ok a => Ret a | Error e => Raise e end).
Definition gets {A} (f : state -> A) : M A := fun s => (s, Ret (f s)).
Definition modify (f : state -> state) : M unit := fun s => (f s, Ret tt).

(** [exit(code)] *)
Definition py_exit {A} (code : Z) : M A := fun s => (s, SysExit code).

(** [queue.put(item)] *)
Definition put (item : qitem) : M unit :=
  modify (fun s => set_queue (queue s ++ [item]) s).

Declare Scope loader_scope.
Delimit Scope loader_scope with loader.
Notation "x <- m ;; k" := (mbind m (fun x => k))
  (at level 61, m at next level, right associativity) : loader_scope.
Notation "m ;;; k" := (mbind m (fun _ => k))
  (at level 61, right associativity) : loader_scope.

(** [for x in xs: body(x)] *)
Fixpoint for_each {A} (xs : list A) (body : A -> M unit) : M unit :=
  match xs with
  | [] => mret tt
  | x :: r => mbind (body x) (fun _ => for_each r body)
  end.

(** [for i in range(n): body(i)] *)
Definition for_range (n : nat) (body : nat -> M unit) : M unit :=
  for_each (seq 0 n) body.

(** A loop over a pure accumulator. *)
Fixpoint ofold {A S} (xs : list A) (body : A -> S -> result S) (acc : S)
  : result S :=
  match xs with
  | [] => Ok acc
  | x :: r => obind (body x acc) (ofold r body)
  end.

(** A loop in [M] over an accumulator. *)
Fixpoint mfold {A S} (xs : list A) (body : A -> S -> M S) (acc : S) : M S :=
  match xs with
  | [] => mret acc
  | x :: r => mbind (body x acc) (mfold r body)
  end.

(* ================================================================== *)
(** ** loader_core.py: the external collaborators *)

(** Everything a run reads from outside: the two argument sets, whether the
    Megatron modules import, the shard provider ([model_provider] followed by
    Megatron's [load_checkpoint], at a pipeline, tensor and virtual-pipeline
    rank) with the consumed-sample counters that loading a shard leaves in
    [margs], and the fabricated batch and forward pass of the logits check. *)
Record environment : Type := mkEnv {
  env_args : args.t;
  env_margs : margs.t;
  env_checkpoint_args : checkpoint_args.t;
  megatron_importable : bool;
  model_provider : nat -> nat -> nat -> ModelShard;
  loaded_consumed_train_samples : nat -> nat -> Z;
  loaded_consumed_valid_samples : nat -> nat -> Z;
  mock_tokens : tensor;
  mock_position_ids : tensor;
  mock_attention_mask : tensor;
  forward : ModelShard -> tensor
}.

(** The tensors gathered from every tensor-parallel rank for one layer. *)
Record parallel_tensors : Type := mkParallel {
  qkv_weight : list pyval;
  qkv_bias : list pyval;
  dense_weight : list pyval;
  mlp_l0_weight : list pyval;
  mlp_l0_bias : list pyval;
  mlp_l1_weight : list pyval
}.

(** [message[label] = src[key]] *)
Definition copy_field (message : dict pyval) (label : string)
    (src : dict pyval) (key : string) : result (dict pyval) :=
  (v <- dict_get src key ;; Ok (dict_set message label v))%pure.

(** [for tp_rank in range(tp_size): xs[tp_rank] = torch.chunk(xs[tp_rank], 2, dim=0)] *)
Definition chunk_each (tp_size : nat) (xs : list pyval) : result (list pyval) :=
  ofold (seq 0 tp_size)
    (fun tp_rank acc =>
       (v <- list_index acc tp_rank ;;
        c <- torch_chunk2 v ;;
        list_assign acc tp_rank c)%pure)
    xs.

(** [torch.cat([w[i] for w in xs], dim=0)] *)
Definition cat_halves (i : nat) (xs : list pyval) : result pyval :=
  (hs <- omap (fun w => py_index w i) xs ;; torch_cat0 hs)%pure.

(** [queue_put(name, msg)] *)
Definition queue_put (name : string) (msg : dict pyval) : M unit :=
  put (QMessage (dict_set msg "name" (PStr name))).

Section Loader.

Variable env : environment.

Let a := env_args env.
Let ma := env_margs env.

(** [check_for_arg(arg_name, default)]: the value of the argument after
    the check, which is the default when the checkpoint has none. *)
Definition check_for_arg {A} (arg_name : string) (value default : option A)
  : M A :=
  match value with
  | Some v => mret v
  | None =>
      match default with
      | Some d => mret d
      | None => (put (QStr "exit") ;;; py_exit 1)%loader
      end
  end.

Definition model_array_len : nat :=
  match margs.virtual_pipeline_model_parallel_size ma with
  | Some n => n
  | None => 1
  end.

(** The body of [for rank in range(count)] in [get_models]. *)
Definition get_models_rank (rank : nat) (models : list (list ModelShard))
  : M (list (list ModelShard)) :=
  (pp_rank <- gets mpu_pipeline_rank ;;
   let model_ :=
     match margs.virtual_pipeline_model_parallel_size ma with
     | Some n => map (fun i => model_provider env pp_rank rank i) (seq 0 n)
     | None => [model_provider env pp_rank rank 0]
     end in
   let loaded_train := loaded_consumed_train_samples env pp_rank rank in
   let loaded_valid := loaded_consumed_valid_samples env pp_rank rank in
   seen_train <- gets consumed_train_samples ;;
   match seen_train with
   | Some c => lift (py_assert (Z.eqb loaded_train c))
   | None => modify (set_consumed_train_samples (Some loaded_train))
   end ;;;
   seen_valid <- gets consumed_valid_samples ;;
   match seen_valid with
   | Some c => lift (py_assert (Z.eqb loaded_valid c))
   | None => modify (set_consumed_valid_samples (Some loaded_valid))
   end ;;;
   lift (ofold (seq 0 model_array_len)
           (fun vp_rank acc =>
              (column <- list_index acc vp_rank ;;
               m <- list_index model_ vp_rank ;;
               list_assign acc vp_rank (column ++ [m]))%pure)
           models))%loader.

Definition get_models (count : nat) : M (list (list ModelShard)) :=
  mfold (seq 0 count) get_models_rank (repeat [] model_array_len).

(** Lines 34-253: imports, argument checks, model type, true vocabulary
    size, the logits-check assertions, and the metadata record (without
    the consumed-sample counters, set once the first stage is loaded). *)
Definition prepare : M md.t :=
  ((if megatron_importable env then mret tt
    else (put (QStr "exit") ;;; py_exit 1)) ;;;
   (* margs.world_size = tp * pp *)
   lift (match margs.tensor_model_parallel_size ma,
               margs.pipeline_model_parallel_size ma with
         | Some _, Some _ => Ok tt
         | _, _ => Error TypeError
         end) ;;;
   tp <- check_for_arg "tensor_model_parallel_size"
           (margs.tensor_model_parallel_size ma) None ;;
   pp <- check_for_arg "pipeline_model_parallel_size"
           (margs.pipeline_model_parallel_size ma) None ;;
   num_layers <- check_for_arg "num_layers" (margs.num_layers ma) None ;;
   hidden_size <- check_for_arg "hidden_size" (margs.hidden_size ma) None ;;
   seq_length <- check_for_arg "seq_length" (margs.seq_length ma) None ;;
   num_attention_heads <- check_for_arg "num_attention_heads"
           (margs.num_attention_heads ma) None ;;
   max_position_embeddings <- check_for_arg "max_position_embeddings"
           (margs.max_position_embeddings ma) None ;;
   position_embedding_type <- check_for_arg "position_embedding_type"
           (margs.position_embedding_type ma) None ;;
   tokenizer_type <- check_for_arg "tokenizer_type"
           (margs.tokenizer_type ma) None ;;
   iteration <- check_for_arg "iteration" (margs.iteration ma) None ;;
   bert_binary_head <- check_for_arg "bert_binary_head"
           (margs.bert_binary_head ma) None ;;
   disable_bias_linear <- check_for_arg "disable_bias_linear"
           (margs.disable_bias_linear ma) (Some false) ;;
   params_dtype <- check_for_arg "params_dtype" (margs.params_dtype ma) None ;;
   swiglu <- check_for_arg "swiglu" (margs.swiglu ma) (Some false) ;;
   xielu <- check_for_arg "xielu" (margs.xielu ma) (Some false) ;;
   (* Determine how to make our models *)
   lift (if String.eqb (args.model_type a) "GPT" then Ok tt
         else if String.eqb (args.model_type a) "BERT" then Ok tt
         else Error (PlainException
                       ("unrecognized model type: " ^^ args.model_type a))) ;;;
   (* Get true (non-padded) vocab size *)
   true_vocab_size <-
     match args.true_vocab_size a with
     | Some v => mret (Some v)
     | None =>
         match args.vocab_file a with
         | Some vocab =>
             let true_vocab_size := Z.of_nat (length vocab) in
             match args.true_vocab_size a with
             | Some v =>
                 if negb (Z.eqb true_vocab_size v)
                 then (put (QStr "exit") ;;; py_exit 1)
                 else mret (Some true_vocab_size)
             | None => mret (Some true_vocab_size)
             end
         | None => mret None
         end
     end ;;
   (* short aliases *)
   let tp_size := tp in
   let pp_size := pp in
   let vp_size := model_array_len in
   (if args.test_logits a then
      lift (py_assert (Nat.eqb tp_size vp_size && Nat.eqb vp_size vp_size
                       && Nat.eqb vp_size 1)) ;;;
      lift (py_assert (String.eqb (args.model_type a) "GPT"))
    else mret tt) ;;;
   (* Layernorm has bias; RMSNorm does not. *)
   let norm_has_bias :=
     match checkpoint_args.normalization (env_checkpoint_args env) with
     | Some n => String.eqb n "LayerNorm"
     | None => true
     end in
   mret (md.mk (args.model_type a) num_layers hidden_size seq_length
           num_attention_heads max_position_embeddings tokenizer_type
           iteration params_dtype bert_binary_head
           (margs.untie_embeddings_and_output_weights ma)
           position_embedding_type
           (margs.add_bias_linear ma) (margs.add_qkv_bias ma)
           norm_has_bias swiglu tp pp true_vocab_size
           (margs.make_vocab_size_divisible_by ma)
           (env_checkpoint_args env) false None None))%loader.

(** *** One transformer layer (lines 299-371) *)

Section Layer.

Variable m : md.t.
Variable schema : ModelSchema.

Let tp_size := md.previous_tensor_parallel_size m.

(** The replicated tensors, read from tensor-parallel rank 0. *)
Definition non_parallel_fields (layer : dict pyval) : result (dict pyval) :=
  (let message := [] in
   message <- copy_field message "input norm weight" layer "self_attn_norm_weight" ;;
   message <- copy_field message "post norm weight" layer "mlp_norm_weight" ;;
   message <-
     (if md.norm_has_bias m then
        message <- copy_field message "input norm bias" layer "self_attn_norm_bias" ;;
        copy_field message "post norm bias" layer "mlp_norm_bias"
      else Ok message) ;;
   message <-
     (if md.linear_bias m then
        message <- copy_field message "dense bias" layer "self_attn_proj_bias" ;;
        copy_field message "mlp l1 bias" layer "mlp_fc2_bias"
      else Ok message) ;;
   (* Add QK normalization parameters if they exist *)
   message <-
     (if negb (is_none (dict_get_or_none layer "self_attn_q_layernorm_weight")) then
        message <- copy_field message "q norm weight" layer "self_attn_q_layernorm_weight" ;;
        if md.norm_has_bias m
        then copy_field message "q norm bias" layer "self_attn_q_layernorm_bias"
        else Ok message
      else Ok message) ;;
   message <-
     (if negb (is_none (dict_get_or_none layer "self_attn_k_layernorm_weight")) then
        message <- copy_field message "k norm weight" layer "self_attn_k_layernorm_weight" ;;
        if md.norm_has_bias m
        then copy_field message "k norm bias" layer "self_attn_k_layernorm_bias"
        else Ok message
      else Ok message) ;;
   (* add Xielu weights *)
   message <-
     (if negb (is_none (dict_get_or_none layer "mlp_xielu_alpha_p")) then
        v <- dict_get layer "mlp_xielu_alpha_p" ;;
        v <- py_cpu v ;;
        Ok (dict_set message "mlp xielu alpha p" v)
      else Ok message) ;;
   (if negb (is_none (dict_get_or_none layer "mlp_xielu_alpha_n")) then
      v <- dict_get layer "mlp_xielu_alpha_n" ;;
      v <- py_cpu v ;;
      Ok (dict_set message "mlp xielu alpha n" v)
    else Ok message))%pure.

(** The body of [for tp_rank, model in enumerate(models)]. *)
Definition grab_parallel (layer_num : nat) (model : ModelShard)
    (acc : parallel_tensors) : result parallel_tensors :=
  (layer <- get_layer schema model layer_num ;;
   qkv_w <- dict_get layer "self_attn_qkv_weight" ;;
   dense_w <- dict_get layer "self_attn_proj_weight" ;;
   l0_w <- dict_get layer "mlp_fc1_weight" ;;
   l1_w <- dict_get layer "mlp_fc2_weight" ;;
   qkv_b <-
     (if md.qkv_bias m then
        v <- dict_get layer "self_attn_qkv_bias" ;; Ok (qkv_bias acc ++ [v])
      else Ok (qkv_bias acc)) ;;
   l0_b <-
     (if md.linear_bias m then
        v <- dict_get layer "mlp_fc1_bias" ;; Ok (mlp_l0_bias acc ++ [v])
      else Ok (mlp_l0_bias acc)) ;;
   Ok (mkParallel (qkv_weight acc ++ [qkv_w]) qkv_b
          (dense_weight acc ++ [dense_w]) (mlp_l0_weight acc ++ [l0_w])
          l0_b (mlp_l1_weight acc ++ [l1_w])))%pure.

(** The merged tensors, added to the message. *)
Definition parallel_fields (message : dict pyval) (p : parallel_tensors)
  : result (dict pyval) :=
  ((* Handle gated linear units *)
   message <-
     (if md.swiglu m then
        chunks <- chunk_each tp_size (mlp_l0_weight p) ;;
        w <- cat_halves 0 chunks ;;
        let message := dict_set message "mlp l0 weight W" w in
        v <- cat_halves 1 chunks ;;
        Ok (dict_set message "mlp l0 weight V" v)
      else
        w <- torch_cat0 (mlp_l0_weight p) ;;
        Ok (dict_set message "mlp l0 weight" w)) ;;
   (* simple concat of the rest *)
   v <- torch_cat0 (qkv_weight p) ;;
   let message := dict_set message "qkv weight" v in
   v <- torch_cat1 (dense_weight p) ;;
   let message := dict_set message "dense weight" v in
   v <- torch_cat1 (mlp_l1_weight p) ;;
   let message := dict_set message "mlp l1 weight" v in
   message <-
     (if md.qkv_bias m then
        v <- torch_cat0 (qkv_bias p) ;;
        Ok (dict_set message "qkv bias" v)
      else Ok message) ;;
   (if md.linear_bias m then
      if md.swiglu m then
        chunks <- chunk_each tp_size (mlp_l0_bias p) ;;
        w <- cat_halves 0 chunks ;;
        let message := dict_set message "mlp l0 bias W" w in
        v <- cat_halves 1 chunks ;;
        Ok (dict_set message "mlp l0 bias V" v)
      else
        v <- torch_cat0 (mlp_l0_bias p) ;;
        Ok (dict_set message "mlp l0 bias" v)
    else Ok message))%pure.

(** The message of layer [layer_num] of the shards [models]. *)
Definition layer_message (models : list ModelShard) (layer_num : nat)
  : result (dict pyval) :=
  ((* Get non-parallel tensors from tp_rank 0 *)
   model0 <- list_index models 0 ;;
   layer <- get_layer schema model0 layer_num ;;
   message <- non_parallel_fields layer ;;
   (* Grab all parallel tensors for this layer *)
   p <- ofold models (grab_parallel layer_num) (mkParallel [] [] [] [] [] []) ;;
   parallel_fields message p)%pure.

(** The body of [for layer_num in range(...)]. *)
Definition send_layer (layer_num : nat) : M unit :=
  (models <- gets models ;;
   message <- lift (layer_message models layer_num) ;;
   modify (set_model (Some (last models (mkShard [] [])))) ;;;
   n <- gets total_layer_num ;;
   queue_put ("transformer layer " ^^ str_of_nat n) message ;;;
   modify (set_total_layer_num (n + 1)))%loader.

(** Lines 293-296: a stage beyond the first is loaded on its first
    visit and appended to the cache. *)
Definition load_stage (vp_rank pp_rank : nat) : M unit :=
  (if Nat.ltb 0 pp_rank then
     modify (set_mpu_pipeline_rank pp_rank) ;;;
     if Nat.eqb vp_rank 0 then
       stage <- get_models tp_size ;;
       modify (fun s => set_all_models (all_models s ++ [stage]) s)
     else mret tt
   else mret tt)%loader.

(** Lines 297-375: the layers of the group at [(pp_rank, vp_rank)]. *)
Definition send_group (vp_rank pp_rank : nat) : M unit :=
  (cache <- gets all_models ;;
   stage <- lift (list_index cache pp_rank) ;;
   models <- lift (list_index stage vp_rank) ;;
   modify (set_models models) ;;;
   model0 <- lift (list_index models 0) ;;
   n <- lift (get_num_layers schema model0) ;;
   for_range n send_layer)%loader.

(** The body of [for pp_rank in range(pp_size)]. *)
Definition send_stage (vp_rank pp_rank : nat) : M unit :=
  (load_stage vp_rank pp_rank ;;; send_group vp_rank pp_rank)%loader.

(** Lines 288-375. *)
Definition send_layers : M unit :=
  (modify (set_total_layer_num 0) ;;;
   for_range model_array_len
     (fun vp_rank =>
        for_range (md.previous_pipeline_parallel_size m) (send_stage vp_rank)))%loader.

(** Lines 278-285: the embeddings message. *)
Definition embeddings_message (models : list ModelShard)
  : result (dict pyval) :=
  (embeddings <- omap (get schema "embeddings") models ;;
   words <- omap (fun e => dict_get e "word") embeddings ;;
   word <- torch_cat0 words ;;
   let message := [("word embeddings", word)] in
   e0 <- list_index embeddings 0 ;;
   pos <- dict_get e0 "pos" ;;
   if String.eqb (md.position_embedding_type m) "learned_absolute"
   then Ok (dict_set message "position embeddings" pos)
   else py_assert (is_none pos) ;;; Ok message)%pure.

(** Lines 277-286. *)
Definition send_embeddings : M unit :=
  (models <- gets models ;;
   message <- lift (embeddings_message models) ;;
   queue_put "embeddings" message)%loader.

(** Lines 378-383: the final-norm message, from tensor-parallel rank 0. *)
Definition final_norm_message (models : list ModelShard)
  : result (dict pyval) :=
  (model0 <- list_index models 0 ;;
   final_norm <- get schema "final_norm" model0 ;;
   w <- dict_get final_norm "weight" ;;
   let message := [("weight", w)] in
   if md.norm_has_bias m
   then copy_field message "bias" final_norm "bias"
   else Ok message)%pure.

(** Lines 377-384. *)
Definition send_final_norm : M unit :=
  (models <- gets models ;;
   message <- lift (final_norm_message models) ;;
   queue_put "final norm" message)%loader.

(** Lines 388-391: the output-layer message. *)
Definition output_layer_message (models : list ModelShard)
  : result (dict pyval) :=
  (output_layer_ranks <- omap (get schema "output_layer") models ;;
   ws <- omap (fun r => dict_get r "weight") output_layer_ranks ;;
   w <- torch_cat0 ws ;;
   Ok [("weight", w)])%pure.

(** Lines 386-392. *)
Definition send_output_layer : M unit :=
  (if md.output_layer m then
     models <- gets models ;;
     message <- lift (output_layer_message models) ;;
     queue_put "output layer" message
   else mret tt)%loader.

(** Lines 398-402: the pooler message. *)
Definition pooler_message (models : list ModelShard) : result (dict pyval) :=
  (model0 <- list_index models 0 ;;
   pooler <- get schema "pooler" model0 ;;
   w <- dict_get pooler "weight" ;;
   b <- dict_get pooler "bias" ;;
   Ok [("weight", w); ("bias", b)])%pure.

(** Lines 406-413: the LM-head message. *)
Definition lm_head_message (models : list ModelShard) : result (dict pyval) :=
  (model0 <- list_index models 0 ;;
   lm_head <- get schema "lm_head" model0 ;;
   dw <- dict_get lm_head "dense_weight" ;;
   db <- dict_get lm_head "dense_bias" ;;
   nw <- dict_get lm_head "norm_weight" ;;
   let message :=
     [("dense weight", dw); ("dense bias", db); ("norm weight", nw)] in
   if md.norm_has_bias m then
     nb <- dict_get lm_head "norm_bias" ;;
     (* the right-hand side ends in a comma: a one-element tuple *)
     Ok (dict_set message "norm bias" (PTuple [nb]))
   else Ok message)%pure.

(** Lines 418-422: the binary-head message. *)
Definition binary_head_message (models : list ModelShard)
  : result (dict pyval) :=
  (model0 <- list_index models 0 ;;
   binary_head <- get schema "binary_head" model0 ;;
   w <- dict_get binary_head "weight" ;;
   b <- dict_get binary_head "bias" ;;
   Ok [("weight", w); ("bias", b)])%pure.

(** Lines 394-423. *)
Definition send_bert : M unit :=
  (if String.eqb (md.model_type m) "BERT" then
     models <- gets models ;;
     (* Pooler. *)
     message <- lift (pooler_message models) ;;
     queue_put "pooler" message ;;;
     (* LM head. *)
     message <- lift (lm_head_message models) ;;
     queue_put "lm head" message ;;;
     (* Binary head. *)
     if md.bert_binary_head m then
       message <- lift (binary_head_message models) ;;
       queue_put "binary head" message
     else mret tt
   else mret tt)%loader.

(** Lines 427-460: the logits-check message, from the fabricated batch
    and the forward pass of the model the loop variable [model] holds. *)
Definition logits_message (bound : option ModelShard) : result (dict pyval) :=
  (model <- match bound with
            | Some x => Ok x
            | None => Error (UnboundLocalError "model")
            end ;;
   let output := forward env model in
   Ok [("tokens", PTensor (mock_tokens env));
       ("position_ids", PTensor (mock_position_ids env));
       ("attention_mask", PTensor (mock_attention_mask env));
       ("output", PTensor output)])%pure.

(** Lines 425-461. *)
Definition send_logits : M unit :=
  (if args.test_logits a then
     bound <- gets model ;;
     message <- lift (logits_message bound) ;;
     queue_put "logits_check" message
   else mret tt)%loader.

End Layer.

(** Lines 255-286: load the first stage, send the metadata, select the
    schema and send the embeddings.  Returns the metadata as sent and the
    schema. *)
Definition send_head (m : md.t) : M (md.t * ModelSchema) :=
  (let tp_size := md.previous_tensor_parallel_size m in
   (* Get first pipe stage. *)
   modify (set_mpu_pipeline_rank 0) ;;;
   stage <- get_models tp_size ;;
   modify (set_all_models [stage]) ;;;
   cache <- gets all_models ;;
   stage0 <- lift (list_index cache 0) ;;
   models <- lift (list_index stage0 0) ;;
   modify (set_models models) ;;;
   train <- gets consumed_train_samples ;;
   valid <- gets consumed_valid_samples ;;
   let m := md.with_consumed m train valid in
   put (QMetadata m) ;;;
   (* Model schema. *)
   schema <- lift (get_model_schema (md.model_type m)
                     (args.loader_transformer_impl a)
                     (margs.num_experts ma)
                     (Some (margs.expert_model_parallel_size ma))) ;;
   send_embeddings m schema ;;;
   mret (m, schema))%loader.

(** Lines 377-464: everything after the layers, and the final marker. *)
Definition send_tail (m : md.t) (schema : ModelSchema) : M unit :=
  (send_final_norm m schema ;;;
   send_output_layer m schema ;;;
   send_bert m schema ;;;
   send_logits ;;;
   (* Done. *)
   put (QStr "done"))%loader.

(** Lines 255-464. *)
Definition send_all (m : md.t) : M unit :=
  (ms <- send_head m ;;
   send_layers (fst ms) (snd ms) ;;;
   send_tail (fst ms) (snd ms))%loader.

(** [_load_checkpoint(queue, args)] *)
Definition _load_checkpoint : M unit :=
  (m <- prepare ;; send_all m)%loader.

(** [load_checkpoint(queue, args)]: any [Exception] pushes ["exit"] and is
    raised again; [SystemExit] is not an [Exception] and passes through. *)
Definition load_checkpoint : M unit :=
  fun s =>
    match _load_checkpoint s with
    | (s', Raise e) => (set_queue (queue s' ++ [QStr "exit"]) s', Raise e)
    | r => r
    end.

(** A run starts from an empty queue. *)
Definition run : state * outcome unit := load_checkpoint initial_state.

End Loader.

(* ================================================================== *)
(** ** Vocabulary of the statements *)

(** The sizes a run works with, read off the environment. *)
Definition tp_size (env : environment) : nat :=
  match margs.tensor_model_parallel_size (env_margs env) with
  | Some n => n
  | None => 0
  end.

Definition pp_size (env : environment) : nat :=
  match margs.pipeline_model_parallel_size (env_margs env) with
  | Some n => n
  | None => 0
  end.

Definition vp_size (env : environment) : nat := model_array_len env.

(** The schema a run selects. *)
Definition schema_of (env : environment) : result ModelSchema :=
  get_model_schema (args.model_type (env_args env))
    (args.loader_transformer_impl (env_args env))
    (margs.num_experts (env_margs env))
    (Some (margs.expert_model_parallel_size (env_margs env))).

(** The first [count] tensor-parallel shards of one (pipeline,
    virtual-pipeline) group, and the matrix [models[vp_rank][tp_rank]] that
    [get_models] builds from them. *)
Definition shards_upto (env : environment) (count pp_rank vp_rank : nat)
  : list ModelShard :=
  map (fun tp_rank => model_provider env pp_rank tp_rank vp_rank) (seq 0 count).

Definition matrix_upto (env : environment) (count pp_rank : nat)
  : list (list ModelShard) :=
  map (shards_upto env count pp_rank) (seq 0 (model_array_len env)).

Definition stage_shards (env : environment) (pp_rank vp_rank : nat)
  : list ModelShard :=
  shards_upto env (tp_size env) pp_rank vp_rank.

Definition shard_matrix (env : environment) (pp_rank : nat)
  : list (list ModelShard) :=
  matrix_upto env (tp_size env) pp_rank.

(** What [get_models] leaves untouched. *)
Definition same_locals (s s' : state) : Prop :=
  queue s' = queue s
  /\ all_models s' = all_models s
  /\ total_layer_num s' = total_layer_num s
  /\ mpu_pipeline_rank s' = mpu_pipeline_rank s
  /\ models s' = models s.

(** The number of layers the group at [(pp_rank, vp_rank)] hosts: the length
    of the layer list of its rank-0 shard. *)
Definition layers_with (env : environment) (schema : ModelSchema)
    (pp_rank vp_rank : nat) : nat :=
  match get_num_layers schema (model_provider env pp_rank 0 vp_rank) with
  | Ok n => n
  | Error _ => 0
  end.

Definition layers_at (env : environment) (pp_rank vp_rank : nat) : nat :=
  match schema_of env with
  | Ok schema => layers_with env schema pp_rank vp_rank
  | Error _ => 0
  end.

(** The layers hosted by the stages before [pp_rank] in the first pass. *)
Definition layers_before (env : environment) (pp_rank : nat) : nat :=
  list_sum (map (fun q => layers_at env q 0) (seq 0 pp_rank)).

Definition message_name (msg : dict pyval) : option string :=
  match dict_find msg "name" with
  | Some (PStr n) => Some n
  | _ => None
  end.

Definition layer_name (n : nat) : string :=
  "transformer layer " ^^ str_of_nat n.

Definition is_layer_item (item : qitem) : bool :=
  match item with
  | QMessage msg =>
      match message_name msg with
      | Some n => String.prefix "transformer layer " n
      | None => false
      end
  | _ => false
  end.

(** The transformer-layer messages of a queue, in order. *)
Definition layer_items (q : list qitem) : list qitem := filter is_layer_item q.

(** A queue item that is not a sentinel. *)
Definition is_payload (item : qitem) : Prop :=
  match item with
  | QStr _ => False
  | _ => True
  end.

(** What a consumer sees of an item without opening it. *)
Inductive tag : Type :=
| Metadata
| Named (name : string)
| Unnamed
| Sentinel (s : string).

Definition tag_of (item : qitem) : tag :=
  match item with
  | QMetadata _ => Metadata
  | QMessage msg =>
      match message_name msg with
      | Some n => Named n
      | None => Unnamed
      end
  | QStr s => Sentinel s
  end.

(** The emission order as the specification words it, for a run that sends
    [n] layer messages. *)
Definition expected_order (env : environment) (n : nat) : list tag :=
  [Metadata; Named "embeddings"]
  ++ map (fun i => Named (layer_name i)) (seq 0 n)
  ++ [Named "final norm"]
  ++ (if margs.untie_embeddings_and_output_weights (env_margs env)
      then [Named "output layer"] else [])
  ++ (if String.eqb (args.model_type (env_args env)) "BERT"
      then [Named "pooler"; Named "lm head"]
           ++ (if match margs.bert_binary_head (env_margs env) with
                  | Some b => b
                  | None => false
                  end
               then [Named "binary head"] else [])
      else [])
  ++ (if args.test_logits (env_args env) then [Named "logits_check"] else [])
  ++ [Sentinel "done"].

(** The layer message with its name set, as [queue_put] sends it. *)
Definition named_layer (n : nat) (msg : dict pyval) : qitem :=
  QMessage (dict_set msg "name" (PStr (layer_name n))).

(** Layer messages numbered consecutively from [n]. *)
Fixpoint number_from (n : nat) (msgs : list (dict pyval)) : list qitem :=
  match msgs with
  | [] => []
  | msg :: r => named_layer n msg :: number_from (S n) r
  end.

(** [[y for x in xs for y in f(x)]] where [f] may raise. *)
Fixpoint oflat_map {A B} (f : A -> result (list B)) (xs : list A)
  : result (list B) :=
  match xs with
  | [] => Ok []
  | x :: r =>
      match f x with
      | Ok ys =>
          match oflat_map f r with
          | Ok zs => Ok (ys ++ zs)
          | Error e => Error e
          end
      | Error e => Error e
      end
  end.

(** The layer messages of one group, of one pass over the stages, and of the
    whole traversal, without their names. *)
Definition stage_messages (env : environment) (m : md.t) (schema : ModelSchema)
    (vp_rank pp_rank : nat) : result (list (dict pyval)) :=
  omap (layer_message m schema (stage_shards env pp_rank vp_rank))
    (seq 0 (layers_with env schema pp_rank vp_rank)).

Definition pass_messages (env : environment) (m : md.t) (schema : ModelSchema)
    (stages : list nat) (vp_rank : nat) : result (list (dict pyval)) :=
  oflat_map (stage_messages env m schema vp_rank) stages.

Definition traversal_messages (env : environment) (m : md.t)
    (schema : ModelSchema) : result (list (dict pyval)) :=
  oflat_map (pass_messages env m schema (seq 0 (pp_size env)))
    (seq 0 (vp_size env)).

(** *** Tensor-parallel sharding, for the round-trip statements *)

(** Piece [i] of [t] cut along axis 0 into pieces of [k] rows. *)
Definition piece (k i : nat) (t : tensor) : tensor :=
  let w := numel (tl (shape t)) in
  mkTensor (k :: tl (shape t)) (firstn (k * w) (skipn (i * (k * w)) (data t))).

(** [t] cut along axis 0 into [tp] equal row shards. *)
Definition row_shards (tp : nat) (t : tensor) : list tensor :=
  map (fun i => piece (head_dim t / tp) i t) (seq 0 tp).

(** [g] stacked over [v] along axis 0. *)
Definition stack (g v : tensor) : tensor :=
  mkTensor ((head_dim g + head_dim v) :: tl (shape g)) (data g ++ data v).

(** The shards a tensor-parallel run holds for a gated first MLP linear:
    shard [i] stacks the [i]-th row shard of the gate over the [i]-th row
    shard of the value. *)
Definition gated_shards (tp : nat) (gate value : tensor) : list tensor :=
  map (fun i => stack (piece (head_dim gate / tp) i gate)
                      (piece (head_dim value / tp) i value))
      (seq 0 tp).

(** A gate and a value that [tp] ranks can share: one shape, with an axis 0
    that [tp] divides, and data that fills the shape. *)
Definition gated_pair (tp : nat) (gate value : tensor) : Prop :=
  shape gate <> []
  /\ shape value = shape gate
  /\ head_dim gate mod tp = 0
  /\ wf gate /\ wf value.

(** The concatenations of lines 359-363 succeed on the gathered lists. *)
Definition plain_merges (m : md.t) (p : parallel_tensors) : Prop :=
  (exists v, torch_cat0 (qkv_weight p) = Ok v)
  /\ (exists v, torch_cat1 (dense_weight p) = Ok v)
  /\ (exists v, torch_cat1 (mlp_l1_weight p) = Ok v)
  /\ (md.qkv_bias m = true -> exists v, torch_cat0 (qkv_bias p) = Ok v).

(** *** Field labels of a layer message *)

(** Every label lines 303-371 can write. *)
Definition dense_labels : list string :=
  [ "input norm weight"; "post norm weight"; "input norm bias";
    "post norm bias"; "dense bias"; "mlp l1 bias"; "q norm weight";
    "q norm bias"; "k norm weight"; "k norm bias"; "mlp xielu alpha p";
    "mlp xielu alpha n"; "mlp l0 weight W"; "mlp l0 weight V";
    "mlp l0 weight"; "qkv weight"; "dense weight"; "mlp l1 weight";
    "qkv bias"; "mlp l0 bias W"; "mlp l0 bias V"; "mlp l0 bias" ].


(** [msg] is a message the layer builder returned. *)
Definition built (m : md.t) (schema : ModelSchema) (msg : dict pyval) : Prop :=
  exists models l, layer_message m schema models l = Ok msg.

(** *** The argument checks, read as a value *)

Definition or_default {A} (d : A) (o : option A) : A :=
  match o with
  | Some x => x
  | None => d
  end.

Definition is_some {A} (o : option A) : bool :=
  match o with
  | Some _ => true
  | None => false
  end.

(** The metadata record lines 231-253 build when every check passes. *)
Definition md_of (env : environment) : md.t :=
  let a := env_args env in
  let ma := env_margs env in
  md.mk (args.model_type a)
    (or_default 0 (margs.num_layers ma))
    (or_default 0%Z (margs.hidden_size ma))
    (or_default 0%Z (margs.seq_length ma))
    (or_default 0%Z (margs.num_attention_heads ma))
    (or_default 0%Z (margs.max_position_embeddings ma))
    (or_default "" (margs.tokenizer_type ma))
    (or_default 0%Z (margs.iteration ma))
    (or_default "" (margs.params_dtype ma))
    (or_default false (margs.bert_binary_head ma))
    (margs.untie_embeddings_and_output_weights ma)
    (or_default "" (margs.position_embedding_type ma))
    (margs.add_bias_linear ma)
    (margs.add_qkv_bias ma)
    (match checkpoint_args.normalization (env_checkpoint_args env) with
     | Some n => String.eqb n "LayerNorm"
     | None => true
     end)
    (or_default false (margs.swiglu ma))
    (tp_size env)
    (pp_size env)
    (match args.true_vocab_size a with
     | Some v => Some v
     | None =>
         match args.vocab_file a with
         | Some vocab => Some (Z.of_nat (length vocab))
         | None => None
         end
     end)
    (margs.make_vocab_size_divisible_by ma)
    (env_checkpoint_args env)
    false None None.

(** The assertions guarding the logits check (lines 219-221). *)
Definition logits_assertions (env : environment) : bool :=
  Nat.eqb (tp_size env) (vp_size env)
  && Nat.eqb (vp_size env) (vp_size env)
  && Nat.eqb (vp_size env) 1
  && String.eqb (args.model_type (env_args env)) "GPT".

(** Every check of lines 34-221 other than the logits-check assertions. *)
Definition argument_checks (env : environment) : bool :=
  let ma := env_margs env in
  megatron_importable env
  && is_some (margs.tensor_model_parallel_size ma)
  && is_some (margs.pipeline_model_parallel_size ma)
  && is_some (margs.num_layers ma)
  && is_some (margs.hidden_size ma)
  && is_some (margs.seq_length ma)
  && is_some (margs.num_attention_heads ma)
  && is_some (margs.max_position_embeddings ma)
  && is_some (margs.position_embedding_type ma)
  && is_some (margs.tokenizer_type ma)
  && is_some (margs.iteration ma)
  && is_some (margs.bert_binary_head ma)
  && is_some (margs.params_dtype ma)
  && (String.eqb (args.model_type (env_args env)) "GPT"
      || String.eqb (args.model_type (env_args env)) "BERT").

Definition prepare_checks (env : environment) : bool :=
  argument_checks env
  && (if args.test_logits (env_args env) then logits_assertions env else true).

(** The environment with another pipeline-parallel size. *)
Definition with_pipeline_size (env : environment) (pp : nat) : environment :=
  let m := env_margs env in
  mkEnv (env_args env)
    (margs.mk (margs.tensor_model_parallel_size m) (Some pp)
       (margs.virtual_pipeline_model_parallel_size m)
       (margs.expert_model_parallel_size m) (margs.num_experts m)
       (margs.num_layers m) (margs.hidden_size m) (margs.seq_length m)
       (margs.num_attention_heads m) (margs.max_position_embeddings m)
       (margs.position_embedding_type m) (margs.tokenizer_type m)
       (margs.iteration m) (margs.bert_binary_head m)
       (margs.disable_bias_linear m) (margs.params_dtype m) (margs.swiglu m)
       (margs.xielu m) (margs.untie_embeddings_and_output_weights m)
       (margs.add_bias_linear m) (margs.add_qkv_bias m)
       (margs.make_vocab_size_divisible_by m))
    (env_checkpoint_args env) (megatron_importable env) (model_provider env)
    (loaded_consumed_train_samples env) (loaded_consumed_valid_samples env)
    (mock_tokens env) (mock_position_ids env) (mock_attention_mask env)
    (forward env).

(** *** Named messages *)

(** A message with its name set, as [queue_put] sends it. *)
Definition named_item (nm : string * dict pyval) : qitem :=
  QMessage (dict_set (snd nm) "name" (PStr (fst nm))).

(** The names of the messages sent after the layers, in order. *)
Definition tail_names (m : md.t) (logits : bool) : list string :=
  ["final norm"]
  ++ (if md.output_layer m then ["output layer"] else [])
  ++ (if String.eqb (md.model_type m) "BERT"
      then ["pooler"; "lm head"]
           ++ (if md.bert_binary_head m then ["binary head"] else [])
      else [])
  ++ (if logits then ["logits_check"] else []).

(** The word-embedding table and the learned position table of a shard. *)
Definition word_table (model : ModelShard) : pyval :=
  get_deep_attr (named_tensors model) "embedding.word_embeddings.weight".

Definition position_table (model : ModelShard) : pyval :=
  get_deep_attr (named_tensors model) "embedding.position_embeddings.weight".

(** The layers hosted by all groups together. *)
Definition total_layers (env : environment) : nat :=
  list_sum
    (map (fun v => list_sum (map (fun p => layers_at env p v) (seq 0 (pp_size env))))
         (seq 0 (vp_size env))).

(** The embeddings table every core schema has. *)
Definition core_embeddings : dict string :=
  [("pos", "embedding.position_embeddings.weight");
   ("word", "embedding.word_embeddings.weight")].

(** The LM-head table every core schema has. *)
Definition core_lm_head : dict string :=
  [("dense_weight", "lm_head.dense.weight");
   ("dense_bias", "lm_head.dense.bias");
   ("norm_weight", "lm_head.layer_norm.weight");
   ("norm_bias", "lm_head.layer_norm.bias")].

(** [writes labels d d']: [d'] is [d] after assignments to labels among
    [labels]. *)
Inductive writes (labels : list string) (d : dict pyval) : dict pyval -> Prop :=
| writes_nothing : writes labels d d
| writes_more (d' : dict pyval) (k : string) (v : pyval) :
    In k labels -> writes labels d d' -> writes labels d (dict_set d' k v).

(** The labels the merged (tensor-parallel) tensors are written under. *)
Definition parallel_labels : list string :=
  [ "mlp l0 weight W"; "mlp l0 weight V"; "mlp l0 weight"; "qkv weight";
    "dense weight"; "mlp l1 weight"; "qkv bias"; "mlp l0 bias W";
    "mlp l0 bias V"; "mlp l0 bias" ].

(** *** Vocabulary of the set-up properties *)

(** Both parallel sizes are specified (line 86 multiplies them). *)
Definition sizes_present (env : environment) : bool :=
  is_some (margs.tensor_model_parallel_size (env_margs env))
  && is_some (margs.pipeline_model_parallel_size (env_margs env)).

(** The arguments lines 114-124 require and give no default for. *)
Definition required_arguments (env : environment) : bool :=
  let ma := env_margs env in
  is_some (margs.num_layers ma)
  && is_some (margs.hidden_size ma)
  && is_some (margs.seq_length ma)
  && is_some (margs.num_attention_heads ma)
  && is_some (margs.max_position_embeddings ma)
  && is_some (margs.position_embedding_type ma)
  && is_some (margs.tokenizer_type ma)
  && is_some (margs.iteration ma)
  && is_some (margs.bert_binary_head ma)
  && is_some (margs.params_dtype ma).

(** The model type is one of the two the loader knows (lines 129-136). *)
Definition known_model_type (env : environment) : bool :=
  String.eqb (args.model_type (env_args env)) "GPT"
  || String.eqb (args.model_type (env_args env)) "BERT".

(** The run leaves through [exit(1)] during set-up. *)
Definition exits (env : environment) : bool :=
  negb (megatron_importable env)
  || (sizes_present env && negb (required_arguments env)).

(** The state in which [exit(1)] leaves a run that had sent nothing. *)
Definition exit_state : state := set_queue [QStr "exit"] initial_state.

(** The environment with another vocabulary file. *)
Definition with_vocab_file (env : environment) (vocab : option (list string))
  : environment :=
  let a := env_args env in
  mkEnv (args.mk (args.model_type a) (args.true_vocab_size a) vocab
           (args.loader_transformer_impl a) (args.test_logits a))
    (env_margs env) (env_checkpoint_args env) (megatron_importable env)
    (model_provider env) (loaded_consumed_train_samples env)
    (loaded_consumed_valid_samples env) (mock_tokens env)
    (mock_position_ids env) (mock_attention_mask env) (forward env).

(** *** Vocabulary of the schema properties *)

(** [num_experts is not None and num_experts > 0] (line 155). *)
Definition is_moe (num_experts : option Z) : bool :=
  match num_experts with
  | Some n => Z.ltb 0 n
  | None => false
  end.

(** The path of a per-expert tensor. *)
Definition expert_path (expert_idx : nat) (leaf : string) : string :=
  "mlp.experts.local_experts." ^^ str_of_nat expert_idx ^^ "." ^^ leaf.

(** *** Computations that send no transformer-layer message *)

(** Whatever its outcome, the computation only appends items that are not
    transformer-layer messages. *)
Definition quiet {A} (c : M A) : Prop :=
  forall s s' o,
    c s = (s', o) ->
    exists items, queue s' = queue s ++ items /\ layer_items items = [].

(** *** Computations that leave the consumed-sample counters alone *)

Definition keeps_counters {A} (c : M A) : Prop :=
  forall s s' o,
    c s = (s', o) ->
    consumed_train_samples s' = consumed_train_samples s
    /\ consumed_valid_samples s' = consumed_valid_samples s.

(** *** Vocabulary of the layer-message properties *)

(** [layer.get(key) is not None] *)
Definition has_entry (layer : dict pyval) (key : string) : bool :=
  negb (is_none (dict_get_or_none layer key)).

(** The labels lines 303-328 write, in order, given the flags and the
    optional tensors of the layer of tensor-parallel rank 0. *)
Definition replicated_labels (m : md.t) (layer : dict pyval) : list string :=
  ["input norm weight"; "post norm weight"]
  ++ (if md.norm_has_bias m then ["input norm bias"; "post norm bias"] else [])
  ++ (if md.linear_bias m then ["dense bias"; "mlp l1 bias"] else [])
  ++ (if has_entry layer "self_attn_q_layernorm_weight"
      then "q norm weight" :: (if md.norm_has_bias m then ["q norm bias"] else [])
      else [])
  ++ (if has_entry layer "self_attn_k_layernorm_weight"
      then "k norm weight" :: (if md.norm_has_bias m then ["k norm bias"] else [])
      else [])
  ++ (if has_entry layer "mlp_xielu_alpha_p" then ["mlp xielu alpha p"] else [])
  ++ (if has_entry layer "mlp_xielu_alpha_n" then ["mlp xielu alpha n"] else []).

(** The labels lines 349-371 write, in order, given the flags. *)
Definition merged_labels (m : md.t) : list string :=
  (if md.swiglu m then ["mlp l0 weight W"; "mlp l0 weight V"] else ["mlp l0 weight"])
  ++ ["qkv weight"; "dense weight"; "mlp l1 weight"]
  ++ (if md.qkv_bias m then ["qkv bias"] else [])
  ++ (if md.linear_bias m
      then if md.swiglu m then ["mlp l0 bias W"; "mlp l0 bias V"] else ["mlp l0 bias"]
      else []).

(** [[get_layer(model, l)[key] for model in models]] *)
Definition rank_entries (schema : ModelSchema) (models : list ModelShard)
    (l : nat) (key : string) : result (list pyval) :=
  omap (fun model => (layer <- get_layer schema model l ;; dict_get layer key)%pure)
       models.

(** *** Computations that leave the loop variable [model] alone *)

Definition keeps_model {A} (c : M A) : Prop :=
  forall s s' o, c s = (s', o) -> model s' = model s.

(** The shard an empty shard list stands for in [last]. *)
Definition no_shard : ModelShard := mkShard [] [].

(* ================================================================== *)
(** ** Concrete checkpoints *)

Module Examples.

Local Open Scope Z_scope.

Definition vec (xs : list Z) : tensor := mkTensor [length xs] xs.
Definition mat (r c : nat) (xs : list Z) : tensor := mkTensor [r; c] xs.

(** A dense layer of hidden size 2 whose entries start at [k]. *)
Definition dense_layer (k : Z) : dict tensor :=
  [ ("input_layernorm.weight", vec [k; k + 1]);
    ("input_layernorm.bias", vec [k + 2; k + 3]);
    ("pre_mlp_layernorm.weight", vec [k + 4; k + 5]);
    ("pre_mlp_layernorm.bias", vec [k + 6; k + 7]);
    ("self_attention.linear_qkv.weight",
      mat 3 2 [k + 10; k + 11; k + 12; k + 13; k + 14; k + 15]);
    ("self_attention.linear_qkv.bias", vec [k + 16; k + 17; k + 18]);
    ("self_attention.linear_proj.weight", mat 2 1 [k + 20; k + 21]);
    ("self_attention.linear_proj.bias", vec [k + 22; k + 23]);
    ("mlp.linear_fc1.weight", mat 2 2 [k + 30; k + 31; k + 32; k + 33]);
    ("mlp.linear_fc1.bias", vec [k + 34; k + 35]);
    ("mlp.linear_fc2.weight", mat 2 2 [k + 40; k + 41; k + 42; k + 43]);
    ("mlp.linear_fc2.bias", vec [k + 44; k + 45]) ].

(** A mixture-of-experts layer with two local experts. *)
Definition moe_layer (k : Z) : dict tensor :=
  [ ("self_attention.linear_qkv.layer_norm_weight", vec [k; k + 1]);
    ("self_attention.linear_qkv.weight",
      mat 3 2 [k + 10; k + 11; k + 12; k + 13; k + 14; k + 15]);
    ("self_attention.linear_proj.weight", mat 2 1 [k + 20; k + 21]);
    ("pre_mlp_layernorm.weight", vec [k + 4; k + 5]);
    ("mlp.router.weight", mat 2 2 [k + 50; k + 51; k + 52; k + 53]);
    ("mlp.experts.local_experts.0.linear_fc1.weight",
      mat 2 2 [k + 60; k + 61; k + 62; k + 63]);
    ("mlp.experts.local_experts.0.linear_fc2.weight",
      mat 2 2 [k + 64; k + 65; k + 66; k + 67]);
    ("mlp.experts.local_experts.1.linear_fc1.weight",
      mat 2 2 [k + 70; k + 71; k + 72; k + 73]);
    ("mlp.experts.local_experts.1.linear_fc2.weight",
      mat 2 2 [k + 74; k + 75; k + 76; k + 77]) ].

(** A shard with [nl] layers built by [mk_layer]; the learned position
    table is present only when [pos] is set. *)
Definition shard (block : string) (mk_layer : Z -> dict tensor)
    (pos : bool) (nl : nat) (k : Z) : ModelShard :=
  mkShard
    ([ ("embedding.word_embeddings.weight", mat 2 2 [k; k + 1; k + 2; k + 3]) ]
     ++ (if pos
         then [ ("embedding.position_embeddings.weight",
                  mat 2 2 [k + 4; k + 5; k + 6; k + 7]) ]
         else [])
     ++ [ (block ^^ ".final_layernorm.weight", vec [k + 8; k + 9]);
          (block ^^ ".final_layernorm.bias", vec [k + 10; k + 11]);
          ("output_layer.weight", mat 2 2 [k + 12; k + 13; k + 14; k + 15]);
          ("pooler.dense.weight", mat 2 2 [k + 16; k + 17; k + 18; k + 19]);
          ("pooler.dense.bias", vec [k + 20; k + 21]);
          ("lm_head.dense.weight", mat 2 2 [k + 22; k + 23; k + 24; k + 25]);
          ("lm_head.dense.bias", vec [k + 26; k + 27]);
          ("lm_head.layer_norm.weight", vec [k + 28; k + 29]);
          ("lm_head.layer_norm.bias", vec [k + 30; k + 31]);
          ("binary_head.weight", mat 2 2 [k + 32; k + 33; k + 34; k + 35]);
          ("binary_head.bias", vec [k + 36; k + 37]) ])
    [ (block ^^ ".layers",
        map (fun i => mk_layer (k + 100 * Z.of_nat (S i))) (seq 0 nl)) ].

(** A shard whose entries encode its coordinate. *)
Definition provider (block : string) (mk_layer : Z -> dict tensor)
    (pos : bool) (nl : nat) (pp_rank tp_rank vp_rank : nat) : ModelShard :=
  shard block mk_layer pos nl
    (Z.of_nat pp_rank * 100000 + Z.of_nat vp_rank * 10000
     + Z.of_nat tp_rank * 1000).

Definition base_margs (tp pp : nat) (vp : option nat) (num_layers : nat)
  : margs.t :=
  margs.mk (Some tp) (Some pp) vp 1 None (Some num_layers) (Some 2) (Some 8)
    (Some 1) (Some 8) (Some "rope") (Some "NullTokenizer") (Some 10)
    (Some false) None (Some "torch.bfloat16") None None false false false 128.

Definition with_flags (m : margs.t) (position : string)
    (binary_head gated untied linear_bias qkv_bias : bool) : margs.t :=
  margs.mk (margs.tensor_model_parallel_size m)
    (margs.pipeline_model_parallel_size m)
    (margs.virtual_pipeline_model_parallel_size m)
    (margs.expert_model_parallel_size m) (margs.num_experts m)
    (margs.num_layers m) (margs.hidden_size m) (margs.seq_length m)
    (margs.num_attention_heads m) (margs.max_position_embeddings m)
    (Some position) (margs.tokenizer_type m) (margs.iteration m)
    (Some binary_head) (margs.disable_bias_linear m) (margs.params_dtype m)
    (Some gated) (margs.xielu m) untied linear_bias qkv_bias
    (margs.make_vocab_size_divisible_by m).

Definition with_experts (m : margs.t) (num_experts ep : Z) : margs.t :=
  margs.mk (margs.tensor_model_parallel_size m)
    (margs.pipeline_model_parallel_size m)
    (margs.virtual_pipeline_model_parallel_size m)
    ep (Some num_experts)
    (margs.num_layers m) (margs.hidden_size m) (margs.seq_length m)
    (margs.num_attention_heads m) (margs.max_position_embeddings m)
    (margs.position_embedding_type m) (margs.tokenizer_type m)
    (margs.iteration m) (margs.bert_binary_head m)
    (margs.disable_bias_linear m) (margs.params_dtype m) (margs.swiglu m)
    (margs.xielu m) (margs.untie_embeddings_and_output_weights m)
    (margs.add_bias_linear m) (margs.add_qkv_bias m)
    (margs.make_vocab_size_divisible_by m).

Definition rms_checkpoint : checkpoint_args.t :=
  checkpoint_args.mk false true (Some "RMSNorm").

Definition layernorm_checkpoint : checkpoint_args.t :=
  checkpoint_args.mk false true (Some "LayerNorm").

Definition make_env (a : args.t) (m : margs.t) (c : checkpoint_args.t)
    (p : nat -> nat -> nat -> ModelShard)
    (train valid : nat -> nat -> Z) : environment :=
  mkEnv a m c true p train valid
    (mat 1 2 [1; 2]) (mat 1 2 [0; 1]) (mat 1 2 [1; 1])
    (fun model => vec (map (fun t => 2 * t)
                         (concat (map (fun e => data (snd e))
                                    (named_tensors model))))).

(** The scenario of the specification: dense decoder, two tensor-parallel
    shards, one pipeline stage, two layers, no gated activation, no bias. *)
Definition dense_tp2 : environment :=
  make_env (args.mk "GPT" None None "transformer_engine" false)
    (base_margs 2 1 None 2) rms_checkpoint
    (provider "decoder" dense_layer false 2)
    (fun _ _ => 7) (fun _ _ => 3).

(** Two pipeline stages visited in two virtual passes, one layer per
    group, with gated activation and every bias. *)
Definition interleaved : environment :=
  make_env (args.mk "GPT" None None "local" false)
    (with_flags (base_margs 2 2 (Some 2%nat) 4) "learned_absolute"
       false true true true true)
    layernorm_checkpoint
    (provider "decoder" dense_layer true 1)
    (fun _ _ => 7) (fun _ _ => 3).

(** An encoder with its heads. *)
Definition bert : environment :=
  make_env (args.mk "BERT" None None "transformer_engine" false)
    (with_flags (base_margs 1 2 None 2) "learned_absolute"
       true false false true false)
    layernorm_checkpoint
    (provider "encoder" dense_layer true 1)
    (fun _ _ => 0) (fun _ _ => 0).

(** A decoder with the logits check requested, over two pipeline stages. *)
Definition with_logits : environment :=
  make_env (args.mk "GPT" None None "transformer_engine" true)
    (base_margs 1 2 None 2) rms_checkpoint
    (provider "decoder" dense_layer false 1)
    (fun _ _ => 7) (fun _ _ => 3).

(** A mixture-of-experts checkpoint: four experts over two expert-parallel
    ranks, one layer. *)
Definition moe (tp : nat) : environment :=
  make_env (args.mk "GPT" None None "transformer_engine" false)
    (with_experts (base_margs tp 1 None 1) 4 2) rms_checkpoint
    (provider "decoder" moe_layer false 1)
    (fun _ _ => 7) (fun _ _ => 3).

(** Both a true vocabulary size and a vocabulary file of another size. *)
Definition vocab_clash : environment :=
  make_env (args.mk "GPT" (Some 100) (Some ["a"; "b"; "c"])
              "transformer_engine" false)
    (base_margs 1 1 None 1) rms_checkpoint
    (provider "decoder" dense_layer false 1)
    (fun _ _ => 7) (fun _ _ => 3).

(** Stage 1 holds two tensor-parallel shards whose consumed-train-sample
    counters differ. *)
Definition diverging : environment :=
  make_env (args.mk "GPT" None None "transformer_engine" false)
    (base_margs 2 2 None 4) rms_checkpoint
    (provider "decoder" dense_layer false 2)
    (fun pp_rank tp_rank =>
       if Nat.eqb pp_rank 1 then 7 + Z.of_nat tp_rank else 7)
    (fun _ _ => 3).

(** A model type the loader does not know. *)
Definition unknown_type : environment :=
  make_env (args.mk "T5" None None "transformer_engine" false)
    (base_margs 1 1 None 1) rms_checkpoint
    (provider "decoder" dense_layer false 1)
    (fun _ _ => 7) (fun _ _ => 3).

(** The logits check requested over two tensor-parallel shards. *)
Definition logits_tp2 : environment :=
  make_env (args.mk "GPT" None None "transformer_engine" true)
    (base_margs 2 3 None 3) rms_checkpoint
    (provider "decoder" dense_layer false 1)
    (fun _ _ => 7) (fun _ _ => 3).

(** A rotary-position checkpoint whose shards still hold a learned
    position table. *)
Definition rope_with_table : environment :=
  make_env (args.mk "GPT" None None "transformer_engine" false)
    (base_margs 2 1 None 1) rms_checkpoint
    (provider "decoder" dense_layer true 1)
    (fun _ _ => 7) (fun _ _ => 3).

(** A transformer implementation the schema registry does not know. *)
Definition unknown_impl : environment :=
  make_env (args.mk "GPT" None None "legacy" false)
    (base_margs 1 1 None 1) rms_checkpoint
    (provider "decoder" dense_layer false 1)
    (fun _ _ => 7) (fun _ _ => 3).

(** The lists the tensor-parallel loop gathers over two ranks, with the
    given first MLP weights and biases. *)
Definition gathered (l0_weight l0_bias : list tensor) : parallel_tensors :=
  mkParallel
    [PTensor (mat 1 2 [1; 2]); PTensor (mat 1 2 [3; 4])]
    [PTensor (vec [1]); PTensor (vec [2])]
    [PTensor (mat 2 1 [1; 2]); PTensor (mat 2 1 [3; 4])]
    (map PTensor l0_weight)
    (map PTensor l0_bias)
    [PTensor (mat 2 1 [5; 6]); PTensor (mat 2 1 [7; 8])].

(** A dense layer whose first MLP weight is [t]. *)
Definition layer_with_fc1 (t : tensor) (k : Z) : dict tensor :=
  dict_set (dense_layer k) "mlp.linear_fc1.weight" t.

(** One shard per given first MLP weight, all else as in [dense_layer]. *)
Definition shards_with_fc1 (ts : list tensor) : list ModelShard :=
  map (fun t => shard "decoder" (layer_with_fc1 t) false 1 0) ts.

(** A gated decoder over two tensor-parallel ranks, without biases. *)
Definition gated_plain : environment :=
  make_env (args.mk "GPT" None None "local" false)
    (with_flags (base_margs 2 1 None 1) "rope" false true false false false)
    rms_checkpoint
    (provider "decoder" dense_layer false 1)
    (fun _ _ => 7) (fun _ _ => 3).

End Examples.

(* ================================================================== *)
(** ** Facts about lists and pure loops *)

Lemma filter_all {A} (f : A -> bool) (l : list A) :
  (forall x, In x l -> f x = true) -> filter f l = l.
Proof.
  induction l as [|x l IH]; intros H; simpl; [reflexivity|].
  rewrite (H x (or_introl eq_refl)), IH; [reflexivity|].
  intros y Hy; apply H; right; exact Hy.
Qed.

Lemma filter_none {A} (f : A -> bool) (l : list A) :
  (forall x, In x l -> f x = false) -> filter f l = [].
Proof.
  induction l as [|x l IH]; intros H; simpl; [reflexivity|].
  rewrite (H x (or_introl eq_refl)). apply IH.
  intros y Hy; apply H; right; exact Hy.
Qed.

Lemma omap_map {A B} (f : A -> result B) (g : A -> B) (l : list A) :
  (forall x, In x l -> f x = Ok (g x)) -> omap f l = Ok (map g l).
Proof.
  induction l as [|x l IH]; intros H; simpl; [reflexivity|].
  rewrite (H x (or_introl eq_refl)), IH; [reflexivity|].
  intros y Hy; apply H; right; exact Hy.
Qed.

Lemma list_index_app_here {A} (pre post : list A) (x : A) :
  list_index (pre ++ x :: post) (length pre) = Ok x.
Proof.
  unfold list_index. rewrite nth_error_app2 by lia.
  rewrite Nat.sub_diag. reflexivity.
Qed.

Lemma list_assign_app_here {A} (pre post : list A) (x y : A) :
  list_assign (pre ++ x :: post) (length pre) y = Ok (pre ++ y :: post).
Proof.
  induction pre as [|p pre IH]; simpl; [reflexivity|].
  rewrite IH. reflexivity.
Qed.

(** Rewriting every position of a list in place, one index at a time, is a
    [map]. *)
Lemma ofold_assign_map {A} (f : A -> result A) (g : A -> A) (post pre : list A) :
  (forall x, In x post -> f x = Ok (g x)) ->
  ofold (seq (length pre) (length post))
    (fun i acc =>
       (v <- list_index acc i ;; c <- f v ;; list_assign acc i c)%pure)
    (pre ++ post)
  = Ok (pre ++ map g post).
Proof.
  revert pre. induction post as [|x post IH]; intros pre H; simpl.
  - reflexivity.
  - rewrite list_index_app_here. simpl.
    rewrite (H x (or_introl eq_refl)). simpl.
    rewrite list_assign_app_here. simpl.
    specialize (IH (pre ++ [g x])).
    rewrite length_app in IH. simpl in IH.
    replace (length pre + 1) with (S (length pre)) in IH by lia.
    rewrite <- !app_assoc in IH. simpl in IH.
    apply IH. intros y Hy. apply H. right. exact Hy.
Qed.

Lemma concat_pieces {A} (c n : nat) (d : list A) :
  length d = n * c ->
  concat (map (fun i => firstn c (skipn (i * c) d)) (seq 0 n)) = d.
Proof.
  revert d. induction n as [|n IH]; intros d Hd.
  - simpl in *. destruct d; [reflexivity | discriminate].
  - rewrite <- cons_seq, <- seq_shift. simpl. rewrite map_map.
    transitivity (firstn c d ++ skipn c d); [| apply firstn_skipn]. f_equal.
    rewrite <- (IH (skipn c d)).
    + f_equal. apply map_ext. intros i.
      rewrite skipn_skipn. f_equal. f_equal. lia.
    + rewrite length_skipn. simpl in Hd. lia.
Qed.

Lemma list_sum_const {A} (f : A -> nat) (k : nat) (l : list A) :
  (forall x, In x l -> f x = k) -> list_sum (map f l) = length l * k.
Proof.
  induction l as [|x l IH]; intros H; simpl; [reflexivity|].
  rewrite (H x (or_introl eq_refl)), IH; [reflexivity|].
  intros y Hy; apply H; right; exact Hy.
Qed.

(* ================================================================== *)
(** ** The merge engine on tensors *)

Lemma shape_eqb_refl (s : list nat) : shape_eqb s s = true.
Proof. unfold shape_eqb. destruct (list_eq_dec Nat.eq_dec s s); congruence. Qed.

(** Concatenating tensors of one common shape along axis 0. *)
Lemma cat0_uniform (k : nat) (rest : list nat) (l : list tensor) :
  l <> [] ->
  (forall u, In u l -> shape u = k :: rest) ->
  k :: rest <> [0] ->
  cat0 l = Ok (mkTensor (length l * k :: rest) (concat (map data l))).
Proof.
  intros Hne Hshape Hlegacy.
  unfold cat0. destruct l as [|t l]; [congruence|].
  rewrite filter_all.
  - rewrite (Hshape t (or_introl eq_refl)).
    assert (Hall : forallb (same_tail rest) l = true).
    { apply forallb_forall. intros u Hu. unfold same_tail.
      rewrite (Hshape u (or_intror Hu)). apply shape_eqb_refl. }
    rewrite Hall. f_equal. f_equal.
    f_equal. apply (list_sum_const head_dim k (t :: l)).
    intros u Hu. unfold head_dim. rewrite (Hshape u Hu). reflexivity.
  - intros u Hu. unfold legacy_empty. rewrite (Hshape u Hu).
    destruct k as [|k]; [|reflexivity].
    destruct rest; [congruence | reflexivity].
Qed.

(** Concatenating one-dimensional empty tensors gives one. *)
Lemma cat0_legacy (l : list tensor) :
  l <> [] ->
  (forall u, In u l -> shape u = [0]) ->
  cat0 l = Ok (mkTensor [0] []).
Proof.
  intros Hne H. unfold cat0. destruct l as [|t l]; [congruence|].
  rewrite filter_none; [reflexivity|].
  intros u Hu. unfold legacy_empty. rewrite (H u Hu). reflexivity.
Qed.

Lemma wf_empty (s : list nat) (d : list Z) :
  wf (mkTensor (0 :: s) d) -> d = [].
Proof. unfold wf. simpl. destruct d; [reflexivity | discriminate]. Qed.

Lemma map_seq_nonempty {A} (f : nat -> A) (n : nat) :
  0 < n -> map f (seq 0 n) <> [].
Proof. destruct n; [lia|]. simpl. discriminate. Qed.

(** The row shards of a tensor concatenate back to it. *)
Lemma cat0_row_pieces (tp k : nat) (rest : list nat) (d : list Z) :
  0 < tp ->
  wf (mkTensor (tp * k :: rest) d) ->
  cat0 (map (fun i => piece k i (mkTensor (tp * k :: rest) d)) (seq 0 tp))
  = Ok (mkTensor (tp * k :: rest) d).
Proof.
  intros Htp Hwf.
  destruct (list_eq_dec Nat.eq_dec (k :: rest) [0]) as [Hleg|Hleg].
  - injection Hleg as -> ->. rewrite Nat.mul_0_r in *.
    rewrite (wf_empty _ _ Hwf). apply cat0_legacy.
    + apply map_seq_nonempty. exact Htp.
    + intros u Hu. apply in_map_iff in Hu. destruct Hu as (i & <- & _). reflexivity.
  - rewrite (cat0_uniform k rest); try assumption.
    2: { apply map_seq_nonempty. exact Htp. }
    + rewrite length_map, length_seq. f_equal. f_equal.
      rewrite map_map. simpl.
      apply (concat_pieces (k * numel rest) tp d).
      unfold wf in Hwf. simpl in Hwf. lia.
    + intros u Hu. apply in_map_iff in Hu. destruct Hu as (i & <- & _). reflexivity.
Qed.

Lemma half_of_double (k : nat) : (k + k + 1) / 2 = k.
Proof.
  replace (k + k + 1) with (k * 2 + 1) by lia.
  rewrite Nat.div_add_l by lia. simpl. lia.
Qed.

Lemma chunk2_general (n : nat) (rest : list nat) (d : list Z) :
  2 <= n ->
  chunk2 (mkTensor (n :: rest) d)
  = Ok [mkTensor ((n + 1) / 2 :: rest) (firstn ((n + 1) / 2 * numel rest) d);
        mkTensor (n - (n + 1) / 2 :: rest) (skipn ((n + 1) / 2 * numel rest) d)].
Proof. intros H. destruct n as [|[|n]]; try lia. reflexivity. Qed.

(** Chunking a stacked pair in two gives the pair back. *)
Lemma chunk2_stack (k : nat) (rest : list nat) (dg dv : list Z) :
  wf (mkTensor (k :: rest) dg) ->
  wf (mkTensor (k :: rest) dv) ->
  chunk2 (stack (mkTensor (k :: rest) dg) (mkTensor (k :: rest) dv))
  = Ok [mkTensor (k :: rest) dg; mkTensor (k :: rest) dv].
Proof.
  intros Hg Hv. unfold stack, head_dim. cbn [shape data hd tl].
  destruct k as [|k].
  - rewrite (wf_empty _ _ Hg), (wf_empty _ _ Hv). reflexivity.
  - rewrite chunk2_general by lia.
    rewrite half_of_double.
    unfold wf in Hg, Hv. cbn [shape data] in Hg, Hv.
    change (numel (S k :: rest)) with (S k * numel rest) in Hg, Hv.
    rewrite firstn_app, skipn_app, Hg.
    rewrite Nat.sub_diag. rewrite firstn_O, skipn_O, app_nil_r.
    rewrite <- Hg. rewrite firstn_all, skipn_all. cbn [app].
    replace (S k + S k - S k) with (S k) by lia. reflexivity.
Qed.

Lemma omap_as_tensor (l : list tensor) : omap as_tensor (map PTensor l) = Ok l.
Proof. induction l as [|t l IH]; simpl; [reflexivity|]. rewrite IH. reflexivity. Qed.

Lemma torch_cat0_tensors (l : list tensor) (t : tensor) :
  cat0 l = Ok t -> torch_cat0 (map PTensor l) = Ok (PTensor t).
Proof. intros H. unfold torch_cat0. rewrite omap_as_tensor. simpl. rewrite H. reflexivity. Qed.

Lemma wf_piece (tp k i : nat) (rest : list nat) (d : list Z) :
  i < tp ->
  wf (mkTensor (tp * k :: rest) d) ->
  wf (piece k i (mkTensor (tp * k :: rest) d)).
Proof.
  unfold wf, piece. cbn [shape data tl]. intros Hi Hwf.
  change (numel (tp * k :: rest)) with (tp * k * numel rest) in Hwf.
  change (numel (k :: rest)) with (k * numel rest).
  rewrite length_firstn, length_skipn, Hwf. nia.
Qed.

(** The chunks of the shards of a gated pair: one (gate piece, value piece)
    tuple per tensor-parallel rank. *)
Lemma chunk_each_gated (tp k : nat) (rest : list nat) (dg dv : list Z) :
  wf (mkTensor (tp * k :: rest) dg) ->
  wf (mkTensor (tp * k :: rest) dv) ->
  chunk_each tp
    (map PTensor
       (map (fun i => stack (piece k i (mkTensor (tp * k :: rest) dg))
                            (piece k i (mkTensor (tp * k :: rest) dv)))
            (seq 0 tp)))
  = Ok (map (fun i => PTuple [PTensor (piece k i (mkTensor (tp * k :: rest) dg));
                              PTensor (piece k i (mkTensor (tp * k :: rest) dv))])
            (seq 0 tp)).
Proof.
  intros Hg Hv. unfold chunk_each.
  set (gate := mkTensor (tp * k :: rest) dg) in *.
  set (value := mkTensor (tp * k :: rest) dv) in *.
  set (post := map PTensor (map (fun i => stack (piece k i gate) (piece k i value)) (seq 0 tp))).
  assert (Hlen : length post = tp).
  { unfold post. rewrite !length_map, length_seq. reflexivity. }
  pose (g := fun v => match torch_chunk2 v with Ok c => c | Error _ => v end).
  assert (Hpieces : forall i, In i (seq 0 tp) ->
            torch_chunk2 (PTensor (stack (piece k i gate) (piece k i value)))
            = Ok (PTuple [PTensor (piece k i gate); PTensor (piece k i value)])).
  { intros i Hi. apply in_seq in Hi.
    unfold torch_chunk2. cbn [as_tensor obind].
    pose proof (wf_piece tp k i rest dg ltac:(lia) Hg) as Wg.
    pose proof (wf_piece tp k i rest dv ltac:(lia) Hv) as Wv.
    unfold gate, value, piece in *. cbn [shape data tl] in *.
    rewrite (chunk2_stack k rest _ _ Wg Wv). reflexivity. }
  pose proof (ofold_assign_map torch_chunk2 g post []) as Hfold.
  cbn [length app] in Hfold. rewrite Hlen in Hfold. rewrite Hfold.
  - f_equal. unfold post. rewrite !map_map. apply map_ext_in.
    intros i Hi. unfold g. rewrite (Hpieces i Hi). reflexivity.
  - intros x Hx. unfold post in Hx. rewrite map_map in Hx.
    apply in_map_iff in Hx. destruct Hx as (i & <- & Hi).
    unfold g. rewrite (Hpieces i Hi). reflexivity.
Qed.

Lemma cat_halves_pairs (j : nat) (f0 f1 : nat -> tensor) (l : list nat) (t : tensor) :
  cat0 (map (if Nat.eqb j 0 then f0 else f1) l) = Ok t ->
  j < 2 ->
  cat_halves j (map (fun i => PTuple [PTensor (f0 i); PTensor (f1 i)]) l)
  = Ok (PTensor t).
Proof.
  intros Hcat Hj. unfold cat_halves.
  rewrite (omap_map _ (fun w => PTensor
             (match w with
              | PTuple [PTensor x; PTensor y] => if Nat.eqb j 0 then x else y
              | _ => mkTensor [] []
              end))).
  - cbn [obind]. rewrite map_map.
    rewrite (map_ext _ (fun i => PTensor ((if Nat.eqb j 0 then f0 else f1) i))).
    + rewrite <- (map_map (if Nat.eqb j 0 then f0 else f1) PTensor).
      apply torch_cat0_tensors. exact Hcat.
    + intros i. destruct (Nat.eqb j 0); reflexivity.
  - intros x Hx. apply in_map_iff in Hx. destruct Hx as (i & <- & _).
    destruct j as [|[|j]]; try lia; reflexivity.
Qed.

(** The halves of the shards of a gated pair: chunking every shard and
    concatenating the first and the second pieces gives the gate and the
    value. *)
Lemma gated_halves (tp : nat) (gate value : tensor) :
  0 < tp ->
  gated_pair tp gate value ->
  exists chunks,
    chunk_each tp (map PTensor (gated_shards tp gate value)) = Ok chunks
    /\ cat_halves 0 chunks = Ok (PTensor gate)
    /\ cat_halves 1 chunks = Ok (PTensor value).
Proof.
  intros Htp (Hdim & Hshape & Hdiv & Hg & Hv).
  destruct gate as [sg dg], value as [sv dv]. cbn [shape] in *. subst sv.
  destruct sg as [|n rest]; [congruence|].
  unfold head_dim in Hdiv. cbn [shape hd] in Hdiv.
  apply Nat.Div0.div_exact in Hdiv.
  set (k := n / tp) in *.
  unfold gated_shards, head_dim. cbn [shape hd].
  fold k. clearbody k. subst n.
  eexists. split; [apply chunk_each_gated; assumption|].
  split.
  - apply (cat_halves_pairs 0); [apply cat0_row_pieces; assumption | lia].
  - apply (cat_halves_pairs 1); [apply cat0_row_pieces; assumption | lia].
Qed.


(* ================================================================== *)
(** ** The argument checks *)

Lemma check_for_arg_default {A} (name : string) (v : option A) (d : A) :
  check_for_arg name v (Some d) = mret (or_default d v).
Proof. destruct v; reflexivity. Qed.

(** [prepare] either passes every check, leaving the queue untouched and
    returning the metadata, or raises with the queue untouched, or leaves
    through [exit(1)] after pushing ["exit"]. *)
Lemma prepare_cases (env : environment) :
  (prepare_checks env = true
   /\ prepare env initial_state = (initial_state, Ret (md_of env)))
  \/ (prepare_checks env = false
      /\ ((exists e, prepare env initial_state = (initial_state, Raise e))
          \/ prepare env initial_state
             = (set_queue [QStr "exit"] initial_state, SysExit 1%Z))).
Proof.
  destruct env as [a ma ca imp prov tr va tok pos mask fwd].
  destruct a as [mt tvs vf impl tl].
  destruct ma as [tp pp vp ep ne nl hs sl nh mp pet tt it bbh dbl pd sw xi
                    untie abl aqb mv].
  unfold prepare_checks, argument_checks, logits_assertions, prepare, md_of,
    tp_size, pp_size, vp_size, model_array_len.
  rewrite !check_for_arg_default.
  cbn [env_args env_margs env_checkpoint_args megatron_importable
       args.model_type args.true_vocab_size args.vocab_file args.test_logits
       margs.tensor_model_parallel_size margs.pipeline_model_parallel_size
       margs.virtual_pipeline_model_parallel_size margs.num_layers
       margs.hidden_size margs.seq_length margs.num_attention_heads
       margs.max_position_embeddings margs.position_embedding_type
       margs.tokenizer_type margs.iteration margs.bert_binary_head
       margs.disable_bias_linear margs.params_dtype margs.swiglu margs.xielu
       margs.untie_embeddings_and_output_weights margs.add_bias_linear
       margs.add_qkv_bias margs.make_vocab_size_divisible_by].
  destruct imp; [|right; split; [reflexivity | right; reflexivity]].
  destruct tp as [tp|]; [|right; split; [reflexivity | left; eexists; reflexivity]].
  destruct pp as [pp|]; [|right; split; [reflexivity | left; eexists; reflexivity]].
  destruct nl as [nl|]; [|right; split; [reflexivity | right; reflexivity]].
  destruct hs as [hs|]; [|right; split; [reflexivity | right; reflexivity]].
  destruct sl as [sl|]; [|right; split; [reflexivity | right; reflexivity]].
  destruct nh as [nh|]; [|right; split; [reflexivity | right; reflexivity]].
  destruct mp as [mp|]; [|right; split; [reflexivity | right; reflexivity]].
  destruct pet as [pet|]; [|right; split; [reflexivity | right; reflexivity]].
  destruct tt as [tt|]; [|right; split; [reflexivity | right; reflexivity]].
  destruct it as [it|]; [|right; split; [reflexivity | right; reflexivity]].
  destruct bbh as [bbh|]; [|right; split; [reflexivity | right; reflexivity]].
  destruct pd as [pd|]; [|right; split; [reflexivity | right; reflexivity]].
  cbn [is_some andb check_for_arg mbind mret lift].
  destruct (String.eqb mt "GPT") eqn:Egpt.
  - cbn [orb].
    destruct tl.
    + destruct (Nat.eqb tp (match vp with Some n => n | None => 1 end)
                && Nat.eqb (match vp with Some n => n | None => 1 end)
                     (match vp with Some n => n | None => 1 end)
                && Nat.eqb (match vp with Some n => n | None => 1 end) 1) eqn:Eassert.
      * left. split; [reflexivity|].
        destruct tvs; [reflexivity|]. destruct vf; reflexivity.
      * right. split; [reflexivity|]. left. exists AssertionError.
        destruct tvs; [reflexivity|]. destruct vf; reflexivity.
    + left. split; [reflexivity|].
      destruct tvs; [reflexivity|]. destruct vf; reflexivity.
  - destruct (String.eqb mt "BERT") eqn:Ebert.
    + cbn [orb].
      destruct tl.
      * right. split; [rewrite andb_false_r; reflexivity|]. left. exists AssertionError.
        destruct (Nat.eqb tp (match vp with Some n => n | None => 1 end)
                && Nat.eqb (match vp with Some n => n | None => 1 end)
                     (match vp with Some n => n | None => 1 end)
                && Nat.eqb (match vp with Some n => n | None => 1 end) 1);
          (destruct tvs; [reflexivity|]; destruct vf; reflexivity).
      * left. split; [reflexivity|].
        destruct tvs; [reflexivity|]. destruct vf; reflexivity.
    + right. split; [reflexivity|]. left. eexists. reflexivity.
Qed.

(* ================================================================== *)
(** ** Reasoning about state-and-exception computations *)

Lemma mbind_inv {A B} (m : M A) (k : A -> M B) (s s' : state) (o : outcome B) :
  mbind m k s = (s', o) ->
  (exists a s1, m s = (s1, Ret a) /\ k a s1 = (s', o))
  \/ (exists e, m s = (s', Raise e) /\ o = Raise e)
  \/ (exists c, m s = (s', SysExit c) /\ o = SysExit c).
Proof.
  unfold mbind. destruct (m s) as [s1 [a|e|c]]; intros H.
  - left. exists a, s1. split; [reflexivity | exact H].
  - right. left. exists e. inversion H. split; reflexivity.
  - right. right. exists c. inversion H. split; reflexivity.
Qed.

Lemma mbind_ret_inv {A B} (m : M A) (k : A -> M B) (s s' : state) (b : B) :
  mbind m k s = (s', Ret b) ->
  exists a s1, m s = (s1, Ret a) /\ k a s1 = (s', Ret b).
Proof.
  intros H. apply mbind_inv in H.
  destruct H as [H | [(e & _ & H) | (c & _ & H)]]; [exact H | discriminate | discriminate].
Qed.

Lemma lift_inv {A} (r : result A) (s s' : state) (o : outcome A) :
  lift r s = (s', o) ->
  s' = s /\ o = match r with Ok a => Ret a | Error e => Raise e end.
Proof. unfold lift. intros H. inversion H. split; reflexivity. Qed.

Lemma lift_ret_inv {A} (r : result A) (s s' : state) (a : A) :
  lift r s = (s', Ret a) -> s' = s /\ r = Ok a.
Proof.
  intros H. apply lift_inv in H. destruct H as [-> H].
  destruct r; inversion H. split; reflexivity.
Qed.

Lemma gets_inv {A} (f : state -> A) (s s' : state) (o : outcome A) :
  gets f s = (s', o) -> s' = s /\ o = Ret (f s).
Proof. unfold gets. intros H. inversion H. split; reflexivity. Qed.

Lemma modify_inv (f : state -> state) (s s' : state) (o : outcome unit) :
  modify f s = (s', o) -> s' = f s /\ o = Ret tt.
Proof. unfold modify. intros H. inversion H. split; reflexivity. Qed.

Lemma mret_inv {A} (a : A) (s s' : state) (o : outcome A) :
  mret a s = (s', o) -> s' = s /\ o = Ret a.
Proof. unfold mret. intros H. inversion H. split; reflexivity. Qed.

(** Reduce projections of updated states, and nothing else. *)
Ltac state_simpl :=
  cbn [queue consumed_train_samples consumed_valid_samples mpu_pipeline_rank
       all_models models total_layer_num model set_queue set_all_models
       set_models set_total_layer_num set_model set_mpu_pipeline_rank
       set_consumed_train_samples set_consumed_valid_samples] in *.

(** Peel one successful step off a hypothesis. *)
Ltac step_ok H :=
  let a := fresh "a" in
  let s1 := fresh "s" in
  let H1 := fresh "Hstep" in
  apply mbind_ret_inv in H; destruct H as (a & s1 & H1 & H);
  first
    [ apply lift_ret_inv in H1; destruct H1 as [-> H1]
    | apply gets_inv in H1; destruct H1 as [-> H1]; inversion H1; subst a; clear H1
    | apply modify_inv in H1; destruct H1 as [-> _]
    | apply mret_inv in H1; destruct H1 as [-> H1]; inversion H1; subst a; clear H1
    | idtac ].

(** *** Computations that only add payload to the queue *)

(** Whatever its outcome, the computation appends items that are not
    sentinels, and it never leaves through [exit]. *)
Definition tame {A} (c : M A) : Prop :=
  forall s s' o,
    c s = (s', o) ->
    (exists items, queue s' = queue s ++ items /\ Forall is_payload items)
    /\ (forall code, o <> SysExit code).

Lemma tame_mret {A} (a : A) : tame (mret a).
Proof.
  intros s s' o H. apply mret_inv in H. destruct H as [-> ->]. split.
  - exists []. rewrite app_nil_r. split; [reflexivity | constructor].
  - discriminate.
Qed.

Lemma tame_lift {A} (r : result A) : tame (lift r).
Proof.
  intros s s' o H. apply lift_inv in H. destruct H as [-> ->]. split.
  - exists []. rewrite app_nil_r. split; [reflexivity | constructor].
  - destruct r; discriminate.
Qed.

Lemma tame_gets {A} (f : state -> A) : tame (gets f).
Proof.
  intros s s' o H. apply gets_inv in H. destruct H as [-> ->]. split.
  - exists []. rewrite app_nil_r. split; [reflexivity | constructor].
  - discriminate.
Qed.

Lemma tame_modify (f : state -> state) :
  (forall s, queue (f s) = queue s) -> tame (modify f).
Proof.
  intros Hf s s' o H. apply modify_inv in H. destruct H as [-> ->]. split.
  - exists []. rewrite app_nil_r, Hf. split; [reflexivity | constructor].
  - discriminate.
Qed.

Lemma tame_put (item : qitem) : is_payload item -> tame (put item).
Proof.
  intros Hp s s' o H. unfold put in H. apply modify_inv in H.
  destruct H as [-> ->]. split.
  - exists [item]. split; [reflexivity | repeat constructor; exact Hp].
  - discriminate.
Qed.

Lemma tame_queue_put (name : string) (msg : dict pyval) : tame (queue_put name msg).
Proof. apply tame_put. exact I. Qed.

Lemma tame_mbind {A B} (m : M A) (k : A -> M B) :
  tame m -> (forall a, tame (k a)) -> tame (mbind m k).
Proof.
  intros Hm Hk s s' o H. apply mbind_inv in H.
  destruct H as [(a & s1 & H1 & H2) | [(e & H1 & ->) | (c & H1 & ->)]].
  - destruct (Hm _ _ _ H1) as [(i1 & Q1 & P1) _].
    destruct (Hk a _ _ _ H2) as [(i2 & Q2 & P2) N2].
    split; [|exact N2].
    exists (i1 ++ i2). rewrite Q2, Q1, app_assoc. split; [reflexivity|].
    apply Forall_app. split; assumption.
  - destruct (Hm _ _ _ H1) as [Q1 N1]. split; [exact Q1 | discriminate].
  - destruct (Hm _ _ _ H1) as [_ N1]. exfalso. exact (N1 c eq_refl).
Qed.

Lemma tame_if {A} (b : bool) (c1 c2 : M A) : tame c1 -> tame c2 -> tame (if b then c1 else c2).
Proof. destruct b; intros; assumption. Qed.

Lemma tame_for_each {A} (xs : list A) (body : A -> M unit) :
  (forall x, tame (body x)) -> tame (for_each xs body).
Proof.
  intros Hb. induction xs as [|x xs IH]; simpl.
  - apply tame_mret.
  - apply tame_mbind; [apply Hb | intros _; exact IH].
Qed.

Lemma tame_mfold {A S} (xs : list A) (body : A -> S -> M S) (acc : S) :
  (forall x a, tame (body x a)) -> tame (mfold xs body acc).
Proof.
  intros Hb. revert acc. induction xs as [|x xs IH]; intros acc; simpl.
  - apply tame_mret.
  - apply tame_mbind; [apply Hb | intros a; apply IH].
Qed.

Ltac tame_tac :=
  repeat first
    [ apply tame_mret
    | apply tame_lift
    | apply tame_gets
    | apply tame_queue_put
    | apply tame_modify; intros []; reflexivity
    | apply tame_for_each; intros ?
    | apply tame_mfold; intros ? ?
    | apply tame_mbind; [ | intros ? ]
    | apply tame_if
    | match goal with
      | |- tame (match ?x with _ => _ end) => destruct x
      end ].

(* ================================================================== *)
(** ** Every emitter only adds payload *)

Section Tame.

Variable env : environment.
Variable m : md.t.
Variable schema : ModelSchema.

Lemma tame_get_models (count : nat) : tame (get_models env count).
Proof. unfold get_models, get_models_rank. tame_tac. Qed.

Lemma tame_send_layer (layer_num : nat) : tame (send_layer m schema layer_num).
Proof. unfold send_layer. tame_tac. Qed.

Lemma tame_send_stage (vp_rank pp_rank : nat) :
  tame (send_stage env m schema vp_rank pp_rank).
Proof.
  unfold send_stage, load_stage, send_group, for_range.
  apply tame_mbind.
  - apply tame_if; [|apply tame_mret].
    apply tame_mbind; [apply tame_modify; intros []; reflexivity|].
    intros _. apply tame_if; [|apply tame_mret].
    apply tame_mbind; [apply tame_get_models|].
    intros stage. apply tame_modify. intros []; reflexivity.
  - intros _. tame_tac.
Qed.

Lemma tame_send_layers : tame (send_layers env m schema).
Proof.
  unfold send_layers, for_range.
  apply tame_mbind; [apply tame_modify; intros []; reflexivity|].
  intros _. apply tame_for_each. intros v.
  apply tame_for_each. intros p. apply tame_send_stage.
Qed.

Lemma tame_send_embeddings : tame (send_embeddings m schema).
Proof. unfold send_embeddings. tame_tac. Qed.

Lemma tame_send_final_norm : tame (send_final_norm m schema).
Proof. unfold send_final_norm. tame_tac. Qed.

Lemma tame_send_output_layer : tame (send_output_layer m schema).
Proof. unfold send_output_layer. tame_tac. Qed.

Lemma tame_send_bert : tame (send_bert m schema).
Proof. unfold send_bert. tame_tac. Qed.

Lemma tame_send_logits : tame (send_logits env).
Proof. unfold send_logits. tame_tac. Qed.

End Tame.

(* ================================================================== *)
(** ** The shape of the queue after a run *)

(** A computation that adds payload and, exactly when it returns, the
    ["done"] marker last. *)
Definition ends_with_done (c : M unit) : Prop :=
  forall s s' o,
    c s = (s', o) ->
    exists items,
      Forall is_payload items
      /\ ((o = Ret tt /\ queue s' = queue s ++ items ++ [QStr "done"])
          \/ ((exists e, o = Raise e) /\ queue s' = queue s ++ items)).

Lemma ends_with_done_put : ends_with_done (put (QStr "done")).
Proof.
  intros s s' o H. unfold put in H. apply modify_inv in H. destruct H as [-> ->].
  exists []. split; [constructor|]. left. split; reflexivity.
Qed.

Lemma ends_with_done_mbind {A} (c : M A) (k : A -> M unit) :
  tame c -> (forall a, ends_with_done (k a)) -> ends_with_done (mbind c k).
Proof.
  intros Hc Hk s s' o H. apply mbind_inv in H.
  destruct H as [(a & s1 & H1 & H2) | [(e & H1 & ->) | (c0 & H1 & ->)]].
  - destruct (Hc _ _ _ H1) as [(i1 & Q1 & P1) _].
    destruct (Hk a _ _ _ H2) as (i2 & P2 & [[-> Q2] | [(e & ->) Q2]]).
    + exists (i1 ++ i2). split; [apply Forall_app; split; assumption|].
      left. split; [reflexivity|]. rewrite Q2, Q1, <- !app_assoc. reflexivity.
    + exists (i1 ++ i2). split; [apply Forall_app; split; assumption|].
      right. split; [exists e; reflexivity|]. rewrite Q2, Q1, <- !app_assoc. reflexivity.
  - destruct (Hc _ _ _ H1) as [(i1 & Q1 & P1) _].
    exists i1. split; [exact P1|]. right. split; [exists e; reflexivity | exact Q1].
  - destruct (Hc _ _ _ H1) as [_ N]. exfalso. exact (N c0 eq_refl).
Qed.

Lemma tame_send_head (env : environment) (m : md.t) : tame (send_head env m).
Proof.
  unfold send_head.
  repeat first
    [ apply tame_send_embeddings
    | apply tame_get_models
    | apply tame_put; exact I
    | apply tame_mret
    | apply tame_lift
    | apply tame_gets
    | apply tame_modify; intros []; reflexivity
    | apply tame_mbind; [ | intros ? ] ].
Qed.

Lemma send_all_ends_with_done (env : environment) (m : md.t) :
  ends_with_done (send_all env m).
Proof.
  unfold send_all, send_tail.
  apply ends_with_done_mbind; [apply tame_send_head | intros ms].
  apply ends_with_done_mbind; [apply tame_send_layers | intros _].
  apply ends_with_done_mbind; [apply tame_send_final_norm | intros _].
  apply ends_with_done_mbind; [apply tame_send_output_layer | intros _].
  apply ends_with_done_mbind; [apply tame_send_bert | intros _].
  apply ends_with_done_mbind; [apply tame_send_logits | intros _].
  apply ends_with_done_put.
Qed.

(** A run unfolds into the argument checks followed by the stream. *)
Lemma run_unfold (env : environment) :
  run env =
  match prepare env initial_state with
  | (s1, Ret m) =>
      match send_all env m s1 with
      | (s2, Raise e) => (set_queue (queue s2 ++ [QStr "exit"]) s2, Raise e)
      | r => r
      end
  | (s1, Raise e) => (set_queue (queue s1 ++ [QStr "exit"]) s1, Raise e)
  | (s1, SysExit c) => (s1, SysExit c)
  end.
Proof.
  unfold run, load_checkpoint, _load_checkpoint, mbind.
  destruct (prepare env initial_state) as [s1 [m|e|c]]; reflexivity.
Qed.

Lemma queue_set_queue (q : list qitem) (s : state) : queue (set_queue q s) = q.
Proof. reflexivity. Qed.

(** The queue after any run: payload, then exactly one sentinel, which is
    ["done"] when the run returns and ["exit"] otherwise. *)
Lemma run_shape (env : environment) (s' : state) (o : outcome unit) :
  run env = (s', o) ->
  exists items,
    Forall is_payload items
    /\ ((o = Ret tt /\ queue s' = items ++ [QStr "done"])
        \/ (o <> Ret tt /\ queue s' = items ++ [QStr "exit"])).
Proof.
  rewrite run_unfold.
  destruct (prepare_cases env) as [[_ Hp] | [_ [(e & Hp) | Hp]]]; rewrite Hp.
  - destruct (send_all env (md_of env) initial_state) as [s2 o2] eqn:Hs.
    destruct (send_all_ends_with_done env _ _ _ _ Hs)
      as (items & P & [[-> Q] | [(e & ->) Q]]).
    + intros H. inversion H; subst. exists items. split; [exact P|].
      left. split; [reflexivity | exact Q].
    + intros H. inversion H; subst. exists items. split; [exact P|].
      right. split; [discriminate|]. rewrite queue_set_queue, Q. reflexivity.
  - intros H. inversion H; subst. exists []. split; [constructor|].
    right. split; [discriminate | reflexivity].
  - intros H. inversion H; subst. exists []. split; [constructor|].
    right. split; [discriminate | reflexivity].
Qed.

(* ================================================================== *)
(** ** The rank walker: [get_models] *)

Lemma list_index_app_at {A} (pre post : list A) (x : A) (n : nat) :
  n = length pre -> list_index (pre ++ x :: post) n = Ok x.
Proof. intros ->. apply list_index_app_here. Qed.

(** Appending one model to every column. *)
Lemma append_columns (ms : list ModelShard) (post : list (list ModelShard)) :
  forall (pre : list (list ModelShard)) (mpre mpost : list ModelShard),
    ms = mpre ++ mpost ->
    length pre = length mpre ->
    length post = length mpost ->
    ofold (seq (length pre) (length post))
      (fun vp_rank acc =>
         (column <- list_index acc vp_rank ;;
          m <- list_index ms vp_rank ;;
          list_assign acc vp_rank (column ++ [m]))%pure)
      (pre ++ post)
    = Ok (pre ++ map (fun cm => fst cm ++ [snd cm]) (combine post mpost)).
Proof.
  induction post as [|c post IH]; intros pre mpre mpost Hms Hpre Hpost.
  - simpl. reflexivity.
  - destruct mpost as [|x mpost]; [discriminate|].
    simpl in Hpost. injection Hpost as Hpost.
    cbn [length seq ofold].
    rewrite list_index_app_here. cbn [obind].
    assert (Hx : list_index ms (length pre) = Ok x).
    { rewrite Hms. apply list_index_app_at. exact Hpre. }
    rewrite Hx. cbn [obind].
    rewrite list_assign_app_here. cbn [obind].
    specialize (IH (pre ++ [c ++ [x]]) (mpre ++ [x]) mpost).
    rewrite !length_app in IH. cbn [length] in IH.
    replace (length pre + 1) with (S (length pre)) in IH by lia.
    rewrite <- !app_assoc in IH. cbn [app] in IH.
    rewrite IH; [reflexivity | exact Hms | lia | exact Hpost].
Qed.

Lemma combine_map_same {A B C} (f : A -> B) (g : A -> C) (l : list A) :
  combine (map f l) (map g l) = map (fun x => (f x, g x)) l.
Proof. induction l as [|x l IH]; simpl; [reflexivity|]. rewrite IH. reflexivity. Qed.

Lemma matrix_upto_0 (env : environment) (p : nat) :
  matrix_upto env 0 p = repeat [] (model_array_len env).
Proof.
  unfold matrix_upto, shards_upto. cbn [seq map].
  generalize 0 at 1. induction (model_array_len env) as [|n IH]; intros a; simpl.
  - reflexivity.
  - rewrite IH. reflexivity.
Qed.

Lemma length_matrix_upto (env : environment) (count p : nat) :
  length (matrix_upto env count p) = model_array_len env.
Proof. unfold matrix_upto. rewrite length_map, length_seq. reflexivity. Qed.

Section Walker.

Variable env : environment.

(** The models one rank loads, one per virtual-pipeline rank. *)
Lemma loaded_models (pp_rank rank : nat) :
  match margs.virtual_pipeline_model_parallel_size (env_margs env) with
  | Some n => map (fun i => model_provider env pp_rank rank i) (seq 0 n)
  | None => [model_provider env pp_rank rank 0]
  end
  = map (fun i => model_provider env pp_rank rank i) (seq 0 (model_array_len env)).
Proof.
  unfold model_array_len.
  destruct (margs.virtual_pipeline_model_parallel_size (env_margs env)); reflexivity.
Qed.

Lemma append_rank (rank p : nat) :
  ofold (seq 0 (model_array_len env))
    (fun vp_rank acc =>
       (column <- list_index acc vp_rank ;;
        m <- list_index
               (map (fun i => model_provider env p rank i)
                  (seq 0 (model_array_len env))) vp_rank ;;
        list_assign acc vp_rank (column ++ [m]))%pure)
    (matrix_upto env rank p)
  = Ok (matrix_upto env (S rank) p).
Proof.
  pose proof (append_columns
                (map (fun i => model_provider env p rank i) (seq 0 (model_array_len env)))
                (matrix_upto env rank p) [] []
                (map (fun i => model_provider env p rank i) (seq 0 (model_array_len env)))
                eq_refl eq_refl) as H.
  rewrite length_matrix_upto in H. cbn [length app] in H.
  rewrite H; [|rewrite length_map, length_seq; reflexivity].
  f_equal. unfold matrix_upto. rewrite combine_map_same, map_map.
  apply map_ext. intros v. cbn [fst snd]. unfold shards_upto.
  rewrite seq_S, map_app. reflexivity.
Qed.

(** One rank of [get_models]: it fails exactly by assertion, and when it
    returns the counters hold what this rank loaded. *)
Lemma get_models_rank_spec (rank : nat) (s s' : state)
    (o : outcome (list (list ModelShard))) :
  get_models_rank env rank (matrix_upto env rank (mpu_pipeline_rank s)) s = (s', o) ->
  same_locals s s'
  /\ (forall c, consumed_train_samples s = Some c -> consumed_train_samples s' = Some c)
  /\ (forall c, consumed_valid_samples s = Some c -> consumed_valid_samples s' = Some c)
  /\ (o = Raise AssertionError
      \/ (o = Ret (matrix_upto env (S rank) (mpu_pipeline_rank s))
          /\ consumed_train_samples s'
             = Some (loaded_consumed_train_samples env (mpu_pipeline_rank s) rank)
          /\ consumed_valid_samples s'
             = Some (loaded_consumed_valid_samples env (mpu_pipeline_rank s) rank))).
Proof.
  destruct s as [q ct cv p am ms tl md].
  unfold get_models_rank, mbind, gets, modify, lift, same_locals.
  cbn [mpu_pipeline_rank consumed_train_samples consumed_valid_samples].
  rewrite loaded_models.
  rewrite (append_rank rank p).
  destruct ct as [ct|]; destruct cv as [cv|]; cbn;
    repeat match goal with
           | |- context [Z.eqb ?x ?y] => destruct (Z.eqb_spec x y); cbn
           end;
    intros H; inversion H; subst; cbn; repeat split; auto; try discriminate;
    try (right; repeat split; congruence).
Qed.

Lemma same_locals_refl (s : state) : same_locals s s.
Proof. unfold same_locals. repeat split; reflexivity. Qed.

Lemma same_locals_trans (s1 s2 s3 : state) :
  same_locals s1 s2 -> same_locals s2 s3 -> same_locals s1 s3.
Proof.
  unfold same_locals. intros (A1 & A2 & A3 & A4 & A5) (B1 & B2 & B3 & B4 & B5).
  repeat split; congruence.
Qed.

(** The ranks [a .. a+n-1] of [get_models], started on the matrix of the
    ranks before [a]. *)
Lemma get_models_from (n : nat) :
  forall (a : nat) (s s' : state) (o : outcome (list (list ModelShard))),
    mfold (seq a n) (get_models_rank env)
      (matrix_upto env a (mpu_pipeline_rank s)) s = (s', o) ->
    same_locals s s'
    /\ (forall c, consumed_train_samples s = Some c -> consumed_train_samples s' = Some c)
    /\ (forall c, consumed_valid_samples s = Some c -> consumed_valid_samples s' = Some c)
    /\ (o = Raise AssertionError
        \/ (o = Ret (matrix_upto env (a + n) (mpu_pipeline_rank s))
            /\ forall t, a <= t < a + n ->
                 consumed_train_samples s'
                 = Some (loaded_consumed_train_samples env (mpu_pipeline_rank s) t)
                 /\ consumed_valid_samples s'
                    = Some (loaded_consumed_valid_samples env (mpu_pipeline_rank s) t))).
Proof.
  induction n as [|n IH]; intros a s s' o H.
  - cbn in H. inversion H; subst.
    split; [apply same_locals_refl|]. split; [auto|]. split; [auto|].
    right. rewrite Nat.add_0_r. split; [reflexivity|]. intros t Ht. lia.
  - cbn [seq mfold] in H. apply mbind_inv in H.
    destruct H as [(r & s1 & H1 & H2) | [(e & H1 & ->) | (c & H1 & ->)]].
    + apply get_models_rank_spec in H1.
      destruct H1 as (L1 & T1 & V1 & [D | (E & Ct & Cv)]); [discriminate|].
      injection E as ->.
      assert (Hp : mpu_pipeline_rank s1 = mpu_pipeline_rank s) by apply L1.
      rewrite <- Hp in H2. apply IH in H2.
      destruct H2 as (L2 & T2 & V2 & R2).
      split; [eapply same_locals_trans; eassumption|].
      split; [intros c Hc; apply T2, T1, Hc|].
      split; [intros c Hc; apply V2, V1, Hc|].
      destruct R2 as [-> | (-> & Hall)]; [left; reflexivity|].
      right. rewrite Hp. split; [f_equal; f_equal; lia|].
      intros t Ht. destruct (Nat.eq_dec t a) as [->|Hne].
      * split; [apply T2, Ct | apply V2, Cv].
      * rewrite <- Hp. apply Hall. lia.
    + apply get_models_rank_spec in H1.
      destruct H1 as (L1 & T1 & V1 & [D | (D & _)]); [|discriminate].
      split; [exact L1|]. split; [exact T1|]. split; [exact V1|].
      left. exact D.
    + apply get_models_rank_spec in H1.
      destruct H1 as (_ & _ & _ & [D | (D & _)]); discriminate.
Qed.

(** [get_models]: the only failure is the assertion; on return the result
    is the shard matrix of the stage and every rank reported the counters
    now held. *)
Lemma get_models_spec (count : nat) (s s' : state)
    (o : outcome (list (list ModelShard))) :
  get_models env count s = (s', o) ->
  same_locals s s'
  /\ (o = Raise AssertionError
      \/ (o = Ret (matrix_upto env count (mpu_pipeline_rank s))
          /\ forall t, t < count ->
               consumed_train_samples s'
               = Some (loaded_consumed_train_samples env (mpu_pipeline_rank s) t)
               /\ consumed_valid_samples s'
                  = Some (loaded_consumed_valid_samples env (mpu_pipeline_rank s) t))).
Proof.
  unfold get_models. rewrite <- (matrix_upto_0 env (mpu_pipeline_rank s)).
  intros H. apply get_models_from in H.
  destruct H as (L & _ & _ & [D | (D & Hall)]).
  - split; [exact L | left; exact D].
  - split; [exact L|]. right. split; [exact D|].
    intros t Ht. apply Hall. lia.
Qed.

(** Two shards of the stage being loaded that disagree on a counter make
    [get_models] fail its assertion, with the queue as it was. *)
Lemma get_models_diverging (count i j : nat) (s : state) :
  i < count -> j < count ->
  loaded_consumed_train_samples env (mpu_pipeline_rank s) i
  <> loaded_consumed_train_samples env (mpu_pipeline_rank s) j
  \/ loaded_consumed_valid_samples env (mpu_pipeline_rank s) i
     <> loaded_consumed_valid_samples env (mpu_pipeline_rank s) j ->
  exists s', get_models env count s = (s', Raise AssertionError)
             /\ same_locals s s'.
Proof.
  intros Hi Hj Hdiff.
  destruct (get_models env count s) as [s' o] eqn:H.
  exists s'. apply get_models_spec in H.
  destruct H as (L & [-> | (-> & Hall)]).
  - split; [reflexivity | exact L].
  - exfalso.
    destruct (Hall i Hi) as [Ti Vi]. destruct (Hall j Hj) as [Tj Vj].
    destruct Hdiff as [D | D]; apply D; congruence.
Qed.

End Walker.

(* ================================================================== *)
(** ** The layer loops *)

Lemma number_from_app (n : nat) (xs ys : list (dict pyval)) :
  number_from n (xs ++ ys) = number_from n xs ++ number_from (n + length xs) ys.
Proof.
  revert n. induction xs as [|x xs IH]; intros n; simpl.
  - rewrite Nat.add_0_r. reflexivity.
  - rewrite IH. do 3 f_equal. lia.
Qed.

Lemma length_number_from (n : nat) (xs : list (dict pyval)) :
  length (number_from n xs) = length xs.
Proof. revert n. induction xs as [|x xs IH]; intros n; simpl; [reflexivity|]. rewrite IH. reflexivity. Qed.

Lemma list_index_map_seq {A} (f : nat -> A) (k i : nat) (x : A) :
  list_index (map f (seq 0 k)) i = Ok x -> x = f i /\ i < k.
Proof.
  unfold list_index. intros H.
  destruct (nth_error (map f (seq 0 k)) i) as [y|] eqn:E; [|discriminate].
  injection H as <-.
  assert (Hi : i < k).
  { assert (Hs : nth_error (map f (seq 0 k)) i <> None) by congruence.
    apply nth_error_Some in Hs. rewrite length_map, length_seq in Hs. exact Hs. }
  split; [|exact Hi].
  rewrite nth_error_map, nth_error_seq in E.
  destruct (Nat.ltb_spec i k); [|lia]. cbn in E. congruence.
Qed.

Lemma omap_length {A B} (f : A -> result B) (xs : list A) (ys : list B) :
  omap f xs = Ok ys -> length ys = length xs.
Proof.
  revert ys. induction xs as [|x xs IH]; intros ys H; simpl in H.
  - injection H as <-. reflexivity.
  - destruct (f x); [|discriminate]. destruct (omap f xs); [|discriminate].
    injection H as <-. simpl. f_equal. apply IH. reflexivity.
Qed.

Section Layers.

Variable env : environment.
Variable m : md.t.
Variable schema : ModelSchema.

Hypothesis tp_of_m : md.previous_tensor_parallel_size m = tp_size env.

(** One layer: either its message is built and sent under the next
    number, or the builder raises and nothing changes in the queue. *)
Lemma send_layer_spec (l : nat) (s s' : state) (o : outcome unit) :
  send_layer m schema l s = (s', o) ->
  all_models s' = all_models s /\ models s' = models s
  /\ ((o = Ret tt
       /\ exists msg,
            layer_message m schema (models s) l = Ok msg
            /\ queue s' = queue s ++ [named_layer (total_layer_num s) msg]
            /\ total_layer_num s' = S (total_layer_num s))
      \/ ((exists e, o = Raise e)
          /\ queue s' = queue s /\ total_layer_num s' = total_layer_num s)).
Proof.
  destruct s as [q ct cv p am ms tl md0].
  unfold send_layer, queue_put, put, mbind, gets, lift, modify. cbn.
  destruct (layer_message m schema ms l) as [msg|e]; cbn;
    intros H; inversion H; subst; cbn.
  - split; [reflexivity|]. split; [reflexivity|]. left.
    split; [reflexivity|]. exists msg. repeat split. lia.
  - split; [reflexivity|]. split; [reflexivity|]. right.
    split; [exists e; reflexivity|]. split; reflexivity.
Qed.

(** The loop over the layers of one group. *)
Lemma layer_loop_spec (ls : list nat) :
  forall (s s' : state) (o : outcome unit),
    for_each ls (send_layer m schema) s = (s', o) ->
    all_models s' = all_models s /\ models s' = models s
    /\ (forall c, o <> SysExit c)
    /\ exists msgs,
         queue s' = queue s ++ number_from (total_layer_num s) msgs
         /\ total_layer_num s' = total_layer_num s + length msgs
         /\ length msgs <= length ls
         /\ (o = Ret tt -> omap (layer_message m schema (models s)) ls = Ok msgs)
         /\ Forall (built m schema) msgs.
Proof.
  induction ls as [|l ls IH]; intros s s' o H.
  - cbn in H. inversion H; subst.
    repeat split; try discriminate.
    exists []. cbn. rewrite app_nil_r, Nat.add_0_r. repeat split; auto.
  - cbn [for_each] in H. apply mbind_inv in H.
    destruct H as [(u & s1 & H1 & H2) | [(e & H1 & ->) | (c & H1 & ->)]].
    + apply send_layer_spec in H1.
      destruct H1 as (A1 & M1 & [(_ & msg & Hmsg & Q1 & T1) | ((e & D) & _)]);
        [|discriminate].
      apply IH in H2. destruct H2 as (A2 & M2 & N2 & msgs & Q2 & T2 & L2 & R2 & B2).
      split; [congruence|]. split; [congruence|]. split; [exact N2|].
      exists (msg :: msgs). cbn [number_from length].
      rewrite Q2, Q1, T1, <- app_assoc. cbn [app].
      split; [reflexivity|]. split; [lia|]. split; [lia|].
      split.
      * intros Ho. cbn [omap]. rewrite Hmsg. rewrite M1 in R2.
        rewrite (R2 Ho). reflexivity.
      * constructor; [exists (models s), l; exact Hmsg | exact B2].
    + apply send_layer_spec in H1.
      destruct H1 as (A1 & M1 & [(D & _) | (_ & Q1 & T1)]); [discriminate|].
      split; [exact A1|]. split; [exact M1|]. split; [discriminate|].
      exists []. cbn. rewrite app_nil_r, Nat.add_0_r.
      repeat split; auto; try lia. discriminate.
    + apply send_layer_spec in H1.
      destruct H1 as (_ & _ & [(D & _) | ((e & D) & _)]); discriminate.
Qed.

(** Loading a stage on its first visit extends the cache by that
    stage's shard matrix; the only failure is the counters' assertion. *)
Lemma load_stage_spec (v p k : nat) (s s' : state) (o : outcome unit) :
  all_models s = map (shard_matrix env) (seq 0 k) ->
  (v = 0 -> k = Nat.max 1 p) ->
  load_stage env m v p s = (s', o) ->
  queue s' = queue s /\ total_layer_num s' = total_layer_num s
  /\ (o = Raise AssertionError
      \/ (o = Ret tt
          /\ all_models s'
             = map (shard_matrix env)
                 (seq 0 (if Nat.eqb v 0 then Nat.max 1 (S p) else k)))).
Proof.
  intros Hcache Hk. unfold load_stage.
  destruct (Nat.ltb_spec 0 p) as [Hp|Hp].
  - intros H. apply mbind_inv in H.
    destruct H as [(u & s1 & H1 & H2) | [(e & H1 & ->) | (c & H1 & ->)]];
      apply modify_inv in H1; destruct H1 as [-> D]; try discriminate.
    destruct (Nat.eqb_spec v 0) as [Hv|Hv].
    + apply mbind_inv in H2.
      destruct H2 as [(r & s2 & H2 & H3) | [(e & H2 & ->) | (c & H2 & ->)]];
        apply get_models_spec in H2; destruct H2 as (L & R).
      * destruct R as [R | (R & _)]; [discriminate|]. injection R as ->.
        apply modify_inv in H3. destruct H3 as [-> ->].
        destruct L as (Lq & La & Lt & _).
        destruct s as [q ct cv p0 am ms tl md0]. state_simpl.
        split; [exact Lq|]. split; [exact Lt|]. right. split; [reflexivity|].
        rewrite La, Hcache, tp_of_m, (Hk Hv).
        replace (Nat.max 1 p) with p by lia.
        replace (Nat.max 1 (S p)) with (S p) by lia.
        rewrite seq_S, map_app. reflexivity.
      * destruct R as [R | (R & _)]; [|discriminate].
        destruct L as (Lq & La & Lt & _).
        destruct s as [q ct cv p0 am ms tl md0]. state_simpl.
        split; [exact Lq|]. split; [exact Lt|]. left.
        injection R as ->. reflexivity.
      * destruct R as [R | (R & _)]; discriminate.
    + apply mret_inv in H2. destruct H2 as [-> ->].
      destruct s as [q ct cv p0 am ms tl md0]. state_simpl.
      split; [reflexivity|]. split; [reflexivity|]. right.
      split; [reflexivity | exact Hcache].
  - intros H. apply mret_inv in H. destruct H as [-> ->].
    split; [reflexivity|]. split; [reflexivity|]. right. split; [reflexivity|].
    destruct (Nat.eqb_spec v 0) as [Hv|Hv]; [|exact Hcache].
    rewrite Hcache, (Hk Hv). replace p with 0 by lia. reflexivity.
Qed.

(** The layers of one group, read from the cache. *)
Lemma send_group_spec (v p k : nat) (s s' : state) (o : outcome unit) :
  all_models s = map (shard_matrix env) (seq 0 k) ->
  send_group m schema v p s = (s', o) ->
  all_models s' = all_models s
  /\ (forall c, o <> SysExit c)
  /\ exists msgs,
       queue s' = queue s ++ number_from (total_layer_num s) msgs
       /\ total_layer_num s' = total_layer_num s + length msgs
       /\ length msgs <= layers_with env schema p v
       /\ (o = Ret tt ->
           stage_messages env m schema v p = Ok msgs
           /\ p < k /\ v < vp_size env /\ 0 < tp_size env
           /\ models s' = stage_shards env p v)
       /\ Forall (built m schema) msgs.
Proof.
  intros Hcache. unfold send_group.
  assert (Hnothing : forall s0 e,
            queue s0 = queue s -> total_layer_num s0 = total_layer_num s ->
            all_models s0 = all_models s ->
            all_models s0 = all_models s
            /\ (forall c, @Raise unit e <> SysExit c)
            /\ exists msgs,
                 queue s0 = queue s ++ number_from (total_layer_num s) msgs
                 /\ total_layer_num s0 = total_layer_num s + length msgs
                 /\ length msgs <= layers_with env schema p v
                 /\ (Raise e = Ret tt ->
                     stage_messages env m schema v p = Ok msgs
                     /\ p < k /\ v < vp_size env /\ 0 < tp_size env
                     /\ models s0 = stage_shards env p v)
                 /\ Forall (built m schema) msgs).
  { intros s0 e Q T A. split; [exact A|]. split; [discriminate|].
    exists []. cbn. rewrite app_nil_r, Nat.add_0_r.
    repeat split; auto; try lia; discriminate. }
  intros H. apply mbind_inv in H.
  destruct H as [(cache & s1 & H1 & H) | [(e & H1 & ->) | (c & H1 & ->)]];
    apply gets_inv in H1; destruct H1 as [-> D]; try discriminate.
  injection D as ->; try clear D.
  apply mbind_inv in H.
  destruct H as [(stage & s1 & H1 & H) | [(e & H1 & ->) | (c & H1 & ->)]];
    apply lift_inv in H1; destruct H1 as [-> D];
    [ | apply Hnothing; reflexivity
      | destruct (list_index (all_models s) p); discriminate ].
  destruct (list_index (all_models s) p) as [x|] eqn:Estage; [|discriminate].
  injection D as ->; try clear D. rewrite Hcache in Estage.
  apply list_index_map_seq in Estage. destruct Estage as [-> Hp].
  apply mbind_inv in H.
  destruct H as [(ms & s1 & H1 & H) | [(e & H1 & ->) | (c & H1 & ->)]];
    apply lift_inv in H1; destruct H1 as [-> D];
    [ | apply Hnothing; reflexivity
      | destruct (list_index (shard_matrix env p) v); discriminate ].
  destruct (list_index (shard_matrix env p) v) as [x|] eqn:Emodels; [|discriminate].
  injection D as ->; try clear D. unfold shard_matrix, matrix_upto in Emodels.
  apply list_index_map_seq in Emodels. destruct Emodels as [-> Hv].
  fold (stage_shards env p v) in *.
  apply mbind_inv in H.
  destruct H as [(u & s1 & H1 & H) | [(e & H1 & ->) | (c & H1 & ->)]];
    apply modify_inv in H1; destruct H1 as [-> D]; try discriminate; clear D.
  apply mbind_inv in H.
  destruct H as [(model0 & s1 & H1 & H) | [(e & H1 & ->) | (c & H1 & ->)]];
    apply lift_inv in H1; destruct H1 as [-> D];
    [ | apply Hnothing; destruct s; reflexivity
      | destruct (list_index (stage_shards env p v) 0); discriminate ].
  destruct (list_index (stage_shards env p v) 0) as [x|] eqn:Emodel0; [|discriminate].
  injection D as ->; try clear D. unfold stage_shards, shards_upto in Emodel0.
  apply list_index_map_seq in Emodel0. destruct Emodel0 as [-> Htp].
  apply mbind_inv in H.
  destruct H as [(n & s1 & H1 & H) | [(e & H1 & ->) | (c & H1 & ->)]];
    apply lift_inv in H1; destruct H1 as [-> D];
    [ | apply Hnothing; destruct s; reflexivity
      | destruct (get_num_layers schema (model_provider env p 0 v)); discriminate ].
  destruct (get_num_layers schema (model_provider env p 0 v)) as [x|] eqn:En;
    [|discriminate].
  injection D as <-; try clear D.
  assert (Hn : layers_with env schema p v = n).
  { unfold layers_with. rewrite En. reflexivity. }
  unfold for_range in H. apply layer_loop_spec in H.
  destruct H as (A & Ms & N & msgs & Q & T & L & R & B).
  destruct s as [q ct cv p0 am ms tl md0]. state_simpl.
  split; [exact A|]. split; [exact N|].
  exists msgs. split; [exact Q|]. split; [exact T|].
  rewrite length_seq in L. split; [lia|].
  split; [|exact B].
  intros Ho. unfold stage_messages. rewrite Hn.
  split; [exact (R Ho)|]. repeat split; try assumption.
Qed.

(** One (pipeline, virtual-pipeline) group: the stage is loaded if this
    is its first visit, then its layers are sent. *)
Lemma send_stage_spec (v p k : nat) (s s' : state) (o : outcome unit) :
  all_models s = map (shard_matrix env) (seq 0 k) ->
  (v = 0 -> k = Nat.max 1 p) ->
  send_stage env m schema v p s = (s', o) ->
  (forall c, o <> SysExit c)
  /\ exists msgs,
       queue s' = queue s ++ number_from (total_layer_num s) msgs
       /\ total_layer_num s' = total_layer_num s + length msgs
       /\ length msgs <= layers_with env schema p v
       /\ (o = Ret tt ->
           all_models s'
           = map (shard_matrix env)
               (seq 0 (if Nat.eqb v 0 then Nat.max 1 (S p) else k))
           /\ stage_messages env m schema v p = Ok msgs)
       /\ Forall (built m schema) msgs.
Proof.
  intros Hcache Hk H. unfold send_stage in H. apply mbind_inv in H.
  destruct H as [(u & s1 & H1 & H) | [(e & H1 & ->) | (c & H1 & ->)]];
    apply (load_stage_spec v p k _ _ _ Hcache Hk) in H1;
    destruct H1 as (Q1 & T1 & [D | (D & A1)]); try discriminate.
  - apply (send_group_spec v p _ _ _ _ A1) in H.
    destruct H as (A & N & msgs & Q & T & L & R & B).
    split; [exact N|]. exists msgs. rewrite Q, T, Q1, T1.
    split; [reflexivity|]. split; [reflexivity|]. split; [exact L|].
    split; [|exact B].
    intros Ho. split; [rewrite A; exact A1 | apply (R Ho)].
  - split; [discriminate|]. exists []. cbn. rewrite app_nil_r, Nat.add_0_r.
    repeat split; auto; try lia; discriminate.
Qed.

(** One pass over the stages [a .. a+n-1] at virtual-pipeline rank [v]. *)
Lemma pass_spec (v n : nat) :
  forall (a k : nat) (s s' : state) (o : outcome unit),
    all_models s = map (shard_matrix env) (seq 0 k) ->
    (v = 0 -> k = Nat.max 1 a) ->
    for_each (seq a n) (send_stage env m schema v) s = (s', o) ->
    (forall c, o <> SysExit c)
    /\ exists msgs,
         queue s' = queue s ++ number_from (total_layer_num s) msgs
         /\ total_layer_num s' = total_layer_num s + length msgs
         /\ length msgs
            <= list_sum (map (fun q => layers_with env schema q v) (seq a n))
         /\ (o = Ret tt ->
             all_models s'
             = map (shard_matrix env)
                 (seq 0 (if Nat.eqb v 0 then Nat.max 1 (a + n) else k))
             /\ pass_messages env m schema (seq a n) v = Ok msgs)
         /\ Forall (built m schema) msgs.
Proof.
  induction n as [|n IH]; intros a k s s' o Hcache Hk H.
  - cbn in H. inversion H; subst. split; [discriminate|].
    exists []. cbn. rewrite app_nil_r, !Nat.add_0_r.
    repeat split; auto.
    rewrite Hcache. destruct (Nat.eqb_spec v 0) as [Hv|Hv]; [|reflexivity].
    rewrite (Hk Hv). reflexivity.
  - cbn [seq for_each] in H. apply mbind_inv in H.
    destruct H as [(u & s1 & H1 & H) | [(e & H1 & ->) | (c & H1 & ->)]];
      apply (send_stage_spec v a k _ _ _ Hcache Hk) in H1;
      destruct H1 as (N1 & msgs1 & Q1 & T1 & L1 & R1 & B1).
    + destruct u. destruct (R1 eq_refl) as (A1 & M1).
      apply (IH (S a) _ _ _ _ A1) in H.
      2: { intros Hv. rewrite Hv. reflexivity. }
      destruct H as (N2 & msgs2 & Q2 & T2 & L2 & R2 & B2).
      split; [exact N2|]. exists (msgs1 ++ msgs2).
      rewrite number_from_app, length_app, Q2, T2, Q1, T1, <- app_assoc.
      split; [reflexivity|]. split; [lia|].
      cbn [seq map list_sum fold_right].
      split; [unfold list_sum in *; lia|].
      split; [|apply Forall_app; split; assumption].
      intros Ho. destruct (R2 Ho) as (A2 & M2).
      split.
      * rewrite A2. destruct (Nat.eqb_spec v 0); [|reflexivity].
        do 3 f_equal. lia.
      * unfold pass_messages in *. cbn [seq oflat_map]. rewrite M1, M2. reflexivity.
    + split; [discriminate|]. exists msgs1.
      split; [exact Q1|]. split; [exact T1|].
      cbn [seq map list_sum fold_right].
      split; [unfold list_sum in *; lia|]. split; [discriminate | exact B1].
    + exfalso. exact (N1 c eq_refl).
Qed.

Hypothesis pp_of_m : md.previous_pipeline_parallel_size m = pp_size env.

(** The passes [b .. b+n-1], each over every stage. *)
Lemma passes_spec (n : nat) :
  forall (b k : nat) (s s' : state) (o : outcome unit),
    all_models s = map (shard_matrix env) (seq 0 k) ->
    (b = 0 -> k = 1) ->
    (b <> 0 -> k = Nat.max 1 (pp_size env)) ->
    for_each (seq b n)
      (fun v => for_range (md.previous_pipeline_parallel_size m)
                  (send_stage env m schema v)) s = (s', o) ->
    (forall c, o <> SysExit c)
    /\ exists msgs,
         queue s' = queue s ++ number_from (total_layer_num s) msgs
         /\ total_layer_num s' = total_layer_num s + length msgs
         /\ (o = Ret tt ->
             all_models s'
             = map (shard_matrix env)
                 (seq 0 (if Nat.eqb n 0 then k else Nat.max 1 (pp_size env)))
             /\ oflat_map (pass_messages env m schema (seq 0 (pp_size env)))
                  (seq b n) = Ok msgs)
         /\ Forall (built m schema) msgs.
Proof.
  rewrite pp_of_m.
  induction n as [|n IH]; intros b k s s' o Hcache Hb0 Hb1 H.
  - cbn in H. inversion H; subst. split; [discriminate|].
    exists []. cbn. rewrite app_nil_r, !Nat.add_0_r. repeat split; auto.
  - cbn [seq for_each] in H. apply mbind_inv in H.
    destruct H as [(u & s1 & H1 & H) | [(e & H1 & ->) | (c & H1 & ->)]];
      unfold for_range in H1;
      apply (pass_spec b (pp_size env) 0 k _ _ _ Hcache) in H1;
      try (intros Hv; rewrite (Hb0 Hv); reflexivity);
      destruct H1 as (N1 & msgs1 & Q1 & T1 & L1 & R1 & B1).
    + destruct u. destruct (R1 eq_refl) as (A1 & M1).
      assert (A1' : all_models s1
                    = map (shard_matrix env) (seq 0 (Nat.max 1 (pp_size env)))).
      { rewrite A1. destruct (Nat.eqb_spec b 0) as [Hv|Hv]; [reflexivity|].
        rewrite (Hb1 Hv). reflexivity. }
      apply (IH (S b) _ _ _ _ A1') in H; [|discriminate|reflexivity].
      destruct H as (N2 & msgs2 & Q2 & T2 & R2 & B2).
      split; [exact N2|]. exists (msgs1 ++ msgs2).
      rewrite number_from_app, length_app, Q2, T2, Q1, T1, <- app_assoc.
      split; [reflexivity|]. split; [lia|].
      split; [|apply Forall_app; split; assumption].
      intros Ho. destruct (R2 Ho) as (A2 & M2).
      split.
      * rewrite A2. destruct (Nat.eqb n 0); reflexivity.
      * cbn [seq oflat_map]. rewrite M1, M2. reflexivity.
    + split; [discriminate|]. exists msgs1.
      split; [exact Q1|]. split; [exact T1|]. split; [discriminate | exact B1].
    + exfalso. exact (N1 c eq_refl).
Qed.

(** The whole traversal, started with only the first stage cached: the
    messages are numbered from 0 in traversal order, and when it returns
    the cache holds every stage. *)
Lemma send_layers_spec (s s' : state) (o : outcome unit) :
  all_models s = [shard_matrix env 0] ->
  send_layers env m schema s = (s', o) ->
  (forall c, o <> SysExit c)
  /\ exists msgs,
       queue s' = queue s ++ number_from 0 msgs
       /\ (o = Ret tt ->
           total_layer_num s' = length msgs
           /\ all_models s'
              = map (shard_matrix env)
                  (seq 0 (if Nat.eqb (vp_size env) 0 then 1
                          else Nat.max 1 (pp_size env)))
           /\ traversal_messages env m schema = Ok msgs)
       /\ Forall (built m schema) msgs.
Proof.
  intros Hcache H. unfold send_layers in H. apply mbind_inv in H.
  destruct H as [(u & s1 & H1 & H) | [(e & H1 & ->) | (c & H1 & ->)]];
    apply modify_inv in H1; destruct H1 as [-> D]; try discriminate.
  unfold for_range in H.
  apply (passes_spec (model_array_len env) 0 1) in H;
    [ | destruct s; exact Hcache | reflexivity | congruence ].
  destruct H as (N & msgs & Q & T & R & B).
  split; [exact N|]. exists msgs.
  destruct s as [q ct cv p0 am ms tl md0]. state_simpl.
  split; [exact Q|]. split; [|exact B].
  intros Ho. destruct (R Ho) as (A & Ms).
  split; [exact T|]. split; [exact A | exact Ms].
Qed.

End Layers.

(* ================================================================== *)
(** ** The single-message emitters *)

Lemma dict_find_set_same {V} (d : dict V) (k : string) (v : V) :
  dict_find (dict_set d k v) k = Some v.
Proof.
  induction d as [|[k' v'] d IH]; simpl.
  - rewrite String.eqb_refl. reflexivity.
  - destruct (String.eqb k' k) eqn:E; simpl; rewrite E; [reflexivity | exact IH].
Qed.

Lemma dict_find_set_other {V} (d : dict V) (k k' : string) (v : V) :
  k <> k' -> dict_find (dict_set d k v) k' = dict_find d k'.
Proof.
  intros Hne. induction d as [|[k0 v0] d IH]; simpl.
  - destruct (String.eqb_spec k k'); [contradiction | reflexivity].
  - destruct (String.eqb_spec k0 k) as [->|Hk]; simpl.
    + destruct (String.eqb_spec k k'); [contradiction | reflexivity].
    + destruct (String.eqb_spec k0 k'); [reflexivity | exact IH].
Qed.

Lemma message_name_named (msg : dict pyval) (name : string) :
  message_name (dict_set msg "name" (PStr name)) = Some name.
Proof. unfold message_name. rewrite dict_find_set_same. reflexivity. Qed.

Lemma tag_of_named_item (nm : string * dict pyval) :
  tag_of (named_item nm) = Named (fst nm).
Proof. unfold named_item, tag_of. rewrite message_name_named. reflexivity. Qed.

(** A builder followed by [queue_put]: either the message is sent under its
    name, or the builder raises and the state is untouched. *)
Lemma send_message_spec (name : string)
    (builder : list ModelShard -> result (dict pyval))
    (s s' : state) (o : outcome unit) :
  mbind (gets models)
    (fun ms => mbind (lift (builder ms)) (fun message => queue_put name message)) s
  = (s', o) ->
  (exists msg, builder (models s) = Ok msg /\ o = Ret tt
               /\ s' = set_queue (queue s ++ [named_item (name, msg)]) s)
  \/ (exists e, builder (models s) = Error e /\ o = Raise e /\ s' = s).
Proof.
  unfold mbind, gets, lift, queue_put, put, modify.
  destruct (builder (models s)) as [msg|e]; intros H; inversion H; subst.
  - left. exists msg. repeat split.
  - right. exists e. repeat split.
Qed.

(** Equal states that differ in how the queue is parenthesised. *)
Ltac queue_eq :=
  unfold set_queue, named_item; state_simpl; cbn [map fst snd app];
  repeat (rewrite <- app_assoc; cbn [app]);
  rewrite ?app_nil_r; reflexivity.

Section Emitters.

Variable env : environment.
Variable m : md.t.
Variable schema : ModelSchema.

Lemma send_embeddings_spec (s s' : state) (o : outcome unit) :
  send_embeddings m schema s = (s', o) ->
  (exists msg, embeddings_message m schema (models s) = Ok msg /\ o = Ret tt
               /\ s' = set_queue (queue s ++ [named_item ("embeddings", msg)]) s)
  \/ (exists e, o = Raise e /\ s' = s).
Proof.
  intros H. apply send_message_spec in H.
  destruct H as [H | (e & _ & H)]; [left; exact H | right; exists e; exact H].
Qed.

(** Everything after the layers, when it returns: the named messages in
    their order, then ["done"]; the cache is not touched. *)
Lemma send_tail_ret (s s' : state) :
  send_tail env m schema s = (s', Ret tt) ->
  exists named,
    queue s' = queue s ++ map named_item named ++ [QStr "done"]
    /\ map fst named = tail_names m (args.test_logits (env_args env))
    /\ all_models s' = all_models s.
Proof.
  unfold send_tail, send_final_norm, send_output_layer, send_bert, send_logits.
  intros H.
  (* final norm *)
  apply mbind_ret_inv in H. destruct H as (u & s1 & H1 & H).
  apply send_message_spec in H1.
  destruct H1 as [(fn & _ & _ & ->) | (e & _ & D & _)]; [|discriminate].
  (* output layer *)
  apply mbind_ret_inv in H. destruct H as (u1 & s2 & H2 & H).
  assert (Hout : exists named,
             s2 = set_queue (queue s ++ [named_item ("final norm", fn)]
                             ++ map named_item named) s
             /\ map fst named = if md.output_layer m then ["output layer"] else []).
  { destruct (md.output_layer m).
    - apply send_message_spec in H2.
      destruct H2 as [(ol & _ & _ & ->) | (e & _ & D & _)]; [|discriminate].
      exists [("output layer", ol)]. split; [destruct s; queue_eq | reflexivity].
    - apply mret_inv in H2. destruct H2 as [-> _].
      exists []. split; [destruct s; queue_eq | reflexivity]. }
  destruct Hout as (n_out & -> & Hn_out). clear H2.
  (* task heads *)
  apply mbind_ret_inv in H. destruct H as (u2 & s3 & H3 & H).
  assert (Hbert : exists named,
             s3 = set_queue (queue s ++ [named_item ("final norm", fn)]
                             ++ map named_item n_out ++ map named_item named) s
             /\ map fst named
                = if String.eqb (md.model_type m) "BERT"
                  then ["pooler"; "lm head"]
                       ++ (if md.bert_binary_head m then ["binary head"] else [])
                  else []).
  { destruct (String.eqb (md.model_type m) "BERT").
    - apply mbind_ret_inv in H3. destruct H3 as (ms & s4 & H4 & H3).
      apply gets_inv in H4. destruct H4 as [-> H4]. injection H4 as ->.
      apply mbind_ret_inv in H3. destruct H3 as (po & s4 & H4 & H3).
      apply lift_ret_inv in H4. destruct H4 as [-> _].
      apply mbind_ret_inv in H3. destruct H3 as (u3 & s4 & H4 & H3).
      unfold queue_put, put in H4. apply modify_inv in H4. destruct H4 as [-> _].
      apply mbind_ret_inv in H3. destruct H3 as (lm & s4 & H4 & H3).
      apply lift_ret_inv in H4. destruct H4 as [-> _].
      apply mbind_ret_inv in H3. destruct H3 as (u4 & s4 & H4 & H3).
      unfold queue_put, put in H4. apply modify_inv in H4. destruct H4 as [-> _].
      destruct (md.bert_binary_head m).
      + apply mbind_ret_inv in H3. destruct H3 as (bh & s4 & H4 & H3).
        apply lift_ret_inv in H4. destruct H4 as [-> _].
        unfold queue_put, put in H3. apply modify_inv in H3. destruct H3 as [-> _].
        exists [("pooler", po); ("lm head", lm); ("binary head", bh)].
        split; [destruct s; queue_eq | reflexivity].
      + apply mret_inv in H3. destruct H3 as [-> _].
        exists [("pooler", po); ("lm head", lm)].
        split; [destruct s; queue_eq | reflexivity].
    - apply mret_inv in H3. destruct H3 as [-> _].
      exists []. split; [destruct s; queue_eq | reflexivity]. }
  destruct Hbert as (n_bert & -> & Hn_bert). clear H3.
  (* logits check *)
  apply mbind_ret_inv in H. destruct H as (u3 & s4 & H4 & H).
  assert (Hlog : exists named,
             s4 = set_queue (queue s ++ [named_item ("final norm", fn)]
                             ++ map named_item n_out ++ map named_item n_bert
                             ++ map named_item named)
                    s
             /\ map fst named
                = if args.test_logits (env_args env) then ["logits_check"] else []).
  { destruct (args.test_logits (env_args env)).
    - apply mbind_ret_inv in H4. destruct H4 as (b & s5 & H5 & H4).
      apply gets_inv in H5. destruct H5 as [-> _].
      apply mbind_ret_inv in H4. destruct H4 as (lg & s5 & H5 & H4).
      apply lift_ret_inv in H5. destruct H5 as [-> _].
      unfold queue_put, put in H4. apply modify_inv in H4. destruct H4 as [-> _].
      exists [("logits_check", lg)].
      split; [destruct s; queue_eq | reflexivity].
    - apply mret_inv in H4. destruct H4 as [-> _].
      exists []. split; [destruct s; queue_eq | reflexivity]. }
  destruct Hlog as (n_log & -> & Hn_log). clear H4.
  unfold put in H. apply modify_inv in H. destruct H as [-> _].
  exists (("final norm", fn) :: n_out ++ n_bert ++ n_log).
  split; [|split].
  - destruct s. unfold set_queue, named_item. state_simpl.
    cbn [map fst snd app]. rewrite !map_app.
    repeat (rewrite <- app_assoc; cbn [app]). reflexivity.
  - unfold tail_names. cbn [map fst app]. rewrite !map_app.
    rewrite Hn_out, Hn_bert, Hn_log. reflexivity.
  - destruct s. reflexivity.
Qed.

End Emitters.

(* ================================================================== *)
(** ** Before the layers: first stage, metadata, schema, embeddings *)

Lemma is_layer_item_named (name : string) (msg : dict pyval) :
  is_layer_item (named_item (name, msg)) = String.prefix "transformer layer " name.
Proof. unfold is_layer_item, named_item. cbn [fst snd]. rewrite message_name_named. reflexivity. Qed.

Lemma layer_items_app (xs ys : list qitem) :
  layer_items (xs ++ ys) = layer_items xs ++ layer_items ys.
Proof. unfold layer_items. apply filter_app. Qed.

Lemma layer_items_length (xs : list qitem) : length (layer_items xs) <= length xs.
Proof. unfold layer_items. apply filter_length_le. Qed.

Section Head.

Variable env : environment.
Variable m : md.t.

Hypothesis tp_of_m : md.previous_tensor_parallel_size m = tp_size env.

(** When the head returns: the first stage is cached, every one of its
    tensor-parallel ranks reported the counters now in the metadata, and
    the queue has gained the metadata and the embeddings message. *)
Lemma send_head_ret (s s' : state) (r : md.t * ModelSchema) :
  send_head env m s = (s', Ret r) ->
  exists emb,
    fst r = md.with_consumed m (consumed_train_samples s') (consumed_valid_samples s')
    /\ get_model_schema (md.model_type m)
         (args.loader_transformer_impl (env_args env))
         (margs.num_experts (env_margs env))
         (Some (margs.expert_model_parallel_size (env_margs env))) = Ok (snd r)
    /\ embeddings_message (fst r) (snd r) (stage_shards env 0 0) = Ok emb
    /\ queue s' = queue s ++ [QMetadata (fst r); named_item ("embeddings", emb)]
    /\ all_models s' = [shard_matrix env 0]
    /\ 0 < vp_size env
    /\ (forall t, t < tp_size env ->
          consumed_train_samples s'
          = Some (loaded_consumed_train_samples env 0 t)
          /\ consumed_valid_samples s'
             = Some (loaded_consumed_valid_samples env 0 t)).
Proof.
  unfold send_head. intros H.
  apply mbind_ret_inv in H. destruct H as (u & s1 & H1 & H).
  apply modify_inv in H1. destruct H1 as [-> _].
  apply mbind_ret_inv in H. destruct H as (stage & s1 & H1 & H).
  apply get_models_spec in H1. destruct H1 as (L & [D | (D & Hall)]); [discriminate|].
  injection D as ->.
  apply mbind_ret_inv in H. destruct H as (u1 & s2 & H2 & H).
  apply modify_inv in H2. destruct H2 as [-> _].
  apply mbind_ret_inv in H. destruct H as (cache & s2 & H2 & H).
  apply gets_inv in H2. destruct H2 as [-> D]. injection D as ->.
  apply mbind_ret_inv in H. destruct H as (stage0 & s2 & H2 & H).
  apply lift_ret_inv in H2. destruct H2 as [-> H2].
  state_simpl. cbn in H2. injection H2 as <-.
  apply mbind_ret_inv in H. destruct H as (ms & s2 & H2 & H).
  apply lift_ret_inv in H2. destruct H2 as [-> H2].
  unfold matrix_upto in H2. apply list_index_map_seq in H2.
  destruct H2 as [-> Hvp].
  apply mbind_ret_inv in H. destruct H as (u2 & s2 & H2 & H).
  apply modify_inv in H2. destruct H2 as [-> _].
  apply mbind_ret_inv in H. destruct H as (train & s2 & H2 & H).
  apply gets_inv in H2. destruct H2 as [-> D]. injection D as ->.
  apply mbind_ret_inv in H. destruct H as (valid & s2 & H2 & H).
  apply gets_inv in H2. destruct H2 as [-> D]. injection D as ->.
  apply mbind_ret_inv in H. destruct H as (u3 & s2 & H2 & H).
  unfold put in H2. apply modify_inv in H2. destruct H2 as [-> _].
  apply mbind_ret_inv in H. destruct H as (schema & s2 & H2 & H).
  apply lift_ret_inv in H2. destruct H2 as [-> Hschema].
  apply mbind_ret_inv in H. destruct H as (u4 & s2 & H2 & H).
  apply send_embeddings_spec in H2.
  destruct H2 as [(emb & Hemb & _ & ->) | (e & D & _)]; [|discriminate].
  apply mret_inv in H. destruct H as [-> D]. injection D as ->.
  destruct L as (Lq & La & Lt & Lp & Lm).
  destruct s as [q ct cv p0 am ms0 tl md0]. destruct s1 as [q1 ct1 cv1 p1 am1 ms1 tl1 md1].
  state_simpl. subst. cbn [fst snd] in *.
  rewrite tp_of_m in *.
  exists emb. split; [reflexivity|]. split; [exact Hschema|].
  split; [exact Hemb|].
  split; [rewrite <- app_assoc; reflexivity|].
  split; [reflexivity|]. split; [exact Hvp|]. exact Hall.
Qed.

(** Whatever its outcome, the head sends no transformer-layer message. *)
Lemma send_head_no_layers (s s' : state) (o : outcome (md.t * ModelSchema)) :
  send_head env m s = (s', o) ->
  exists items, queue s' = queue s ++ items /\ layer_items items = [].
Proof.
  unfold send_head. intros H.
  assert (Hnil : forall s0 : state, queue s0 = queue s ->
            exists items, queue s0 = queue s ++ items /\ layer_items items = []).
  { intros s0 Q. exists []. rewrite app_nil_r. split; [exact Q | reflexivity]. }
  apply mbind_inv in H.
  destruct H as [(u & s1 & H1 & H) | [(e & H1 & ->) | (c & H1 & ->)]];
    apply modify_inv in H1; destruct H1 as [-> D]; try discriminate; clear D.
  apply mbind_inv in H.
  destruct H as [(stage & s1 & H1 & H) | [(e & H1 & ->) | (c & H1 & ->)]];
    apply get_models_spec in H1; destruct H1 as ((Lq & _) & _);
    [ | apply Hnil; destruct s; exact Lq | apply Hnil; destruct s; exact Lq ].
  apply mbind_inv in H.
  destruct H as [(u1 & s2 & H2 & H) | [(e & H2 & ->) | (c & H2 & ->)]];
    apply modify_inv in H2; destruct H2 as [-> D]; try discriminate; clear D.
  apply mbind_inv in H.
  destruct H as [(cache & s2 & H2 & H) | [(e & H2 & ->) | (c & H2 & ->)]];
    apply gets_inv in H2; destruct H2 as [-> D]; try discriminate; clear D.
  apply mbind_inv in H.
  destruct H as [(stage0 & s2 & H2 & H) | [(e & H2 & ->) | (c & H2 & ->)]];
    apply lift_inv in H2; destruct H2 as [-> D];
    [ | apply Hnil; destruct s, s1; exact Lq | apply Hnil; destruct s, s1; exact Lq ].
  clear D. apply mbind_inv in H.
  destruct H as [(ms & s2 & H2 & H) | [(e & H2 & ->) | (c & H2 & ->)]];
    apply lift_inv in H2; destruct H2 as [-> D];
    [ | apply Hnil; destruct s, s1; exact Lq | apply Hnil; destruct s, s1; exact Lq ].
  clear D. apply mbind_inv in H.
  destruct H as [(u2 & s2 & H2 & H) | [(e & H2 & ->) | (c & H2 & ->)]];
    apply modify_inv in H2; destruct H2 as [-> D]; try discriminate; clear D.
  apply mbind_inv in H.
  destruct H as [(train & s2 & H2 & H) | [(e & H2 & ->) | (c & H2 & ->)]];
    apply gets_inv in H2; destruct H2 as [-> D]; try discriminate; clear D.
  apply mbind_inv in H.
  destruct H as [(valid & s2 & H2 & H) | [(e & H2 & ->) | (c & H2 & ->)]];
    apply gets_inv in H2; destruct H2 as [-> D]; try discriminate; clear D.
  apply mbind_inv in H.
  destruct H as [(u3 & s2 & H2 & H) | [(e & H2 & ->) | (c & H2 & ->)]];
    unfold put in H2; apply modify_inv in H2; destruct H2 as [-> D];
    try discriminate; clear D.
  assert (Hmd : forall s0 : state,
            queue s0 = queue s ++ [QMetadata
              (md.with_consumed m train valid)] ->
            exists items, queue s0 = queue s ++ items /\ layer_items items = []).
  { intros s0 Q. eexists. split; [exact Q | reflexivity]. }
  apply mbind_inv in H.
  destruct H as [(schema & s2 & H2 & H) | [(e & H2 & ->) | (c & H2 & ->)]];
    apply lift_inv in H2; destruct H2 as [-> D];
    [ | apply Hmd; destruct s, s1; state_simpl; subst; reflexivity
      | apply Hmd; destruct s, s1; state_simpl; subst; reflexivity ].
  clear D. apply mbind_inv in H.
  destruct H as [(u4 & s2 & H2 & H) | [(e & H2 & ->) | (c & H2 & ->)]];
    apply send_embeddings_spec in H2.
  - destruct H2 as [(emb & _ & _ & ->) | (e & D & _)]; [|discriminate].
    apply mret_inv in H. destruct H as [-> _].
    exists [QMetadata (md.with_consumed m train valid);
            named_item ("embeddings", emb)].
    split.
    + destruct s, s1. state_simpl. subst. rewrite <- app_assoc. reflexivity.
    + unfold layer_items. cbn [filter is_layer_item].
      change (match message_name (dict_set emb "name" (PStr "embeddings")) with
              | Some n => String.prefix "transformer layer " n
              | None => false
              end) with (is_layer_item (named_item ("embeddings", emb))).
      rewrite is_layer_item_named. reflexivity.
  - destruct H2 as [(emb & _ & D & _) | (e0 & _ & ->)]; [discriminate|].
    apply Hmd. destruct s, s1. state_simpl. subst. reflexivity.
  - destruct H2 as [(emb & _ & D & _) | (e0 & D & _)]; discriminate.
Qed.

End Head.

(* ================================================================== *)
(** ** A run that returns *)

Lemma schema_of_md_of (env : environment) (ct cv : option Z) :
  get_model_schema (md.model_type (md.with_consumed (md_of env) ct cv))
    (args.loader_transformer_impl (env_args env))
    (margs.num_experts (env_margs env))
    (Some (margs.expert_model_parallel_size (env_margs env)))
  = schema_of env.
Proof. reflexivity. Qed.

(** The whole queue of a run that returns, and the cache it ends with. *)
Lemma run_ret (env : environment) (s' : state) :
  run env = (s', Ret tt) ->
  prepare_checks env = true
  /\ exists ct cv schema emb msgs named,
       let m := md.with_consumed (md_of env) ct cv in
       schema_of env = Ok schema
       /\ (forall t, t < tp_size env ->
             ct = Some (loaded_consumed_train_samples env 0 t)
             /\ cv = Some (loaded_consumed_valid_samples env 0 t))
       /\ embeddings_message m schema (stage_shards env 0 0) = Ok emb
       /\ traversal_messages env m schema = Ok msgs
       /\ map fst named = tail_names m (args.test_logits (env_args env))
       /\ queue s'
          = [QMetadata m; named_item ("embeddings", emb)]
            ++ number_from 0 msgs ++ map named_item named ++ [QStr "done"]
       /\ all_models s'
          = map (shard_matrix env) (seq 0 (Nat.max 1 (pp_size env)))
       /\ 0 < vp_size env.
Proof.
  rewrite run_unfold.
  destruct (prepare_cases env) as [[Hc Hp] | [_ [(e & Hp) | Hp]]]; rewrite Hp;
    [ | discriminate | discriminate ].
  destruct (send_all env (md_of env) initial_state) as [s2 o2] eqn:Hs.
  intros H. assert (o2 = Ret tt /\ s2 = s') as [-> ->].
  { destruct o2; inversion H; subst; split; reflexivity. }
  clear H. split; [exact Hc|].
  unfold send_all in Hs.
  apply mbind_ret_inv in Hs. destruct Hs as (r & s1 & H1 & H).
  apply send_head_ret in H1; [|reflexivity].
  destruct H1 as (emb & Hr & Hschema & Hemb & Q1 & A1 & Hvp & Hall).
  apply mbind_ret_inv in H. destruct H as (u & s3 & H3 & H).
  apply send_layers_spec in H3; [ | rewrite Hr; reflexivity | rewrite Hr; reflexivity | exact A1 ].
  destruct H3 as (_ & msgs & Q3 & R3 & _). destruct u.
  destruct (R3 eq_refl) as (_ & A3 & M3).
  apply send_tail_ret in H. destruct H as (named & Q & Hnames & A).
  exists (consumed_train_samples s1), (consumed_valid_samples s1), (snd r), emb, msgs, named.
  cbv zeta. rewrite <- Hr.
  split; [exact Hschema|]. split; [exact Hall|]. split; [exact Hemb|].
  split; [exact M3|]. split; [exact Hnames|].
  split.
  - rewrite Q, Q3, Q1. cbn [queue initial_state app]. rewrite <- ?app_assoc. reflexivity.
  - split; [|exact Hvp]. rewrite A, A3.
    destruct (Nat.eqb_spec (vp_size env) 0); [lia | reflexivity].
Qed.

(* ================================================================== *)
(** ** Shards that disagree on the consumed-sample counters *)

Section Diverging.

Variable env : environment.
Variable m : md.t.
Variable schema : ModelSchema.
Variables p i j : nat.

Hypothesis tp_of_m : md.previous_tensor_parallel_size m = tp_size env.
Hypothesis pp_of_m : md.previous_pipeline_parallel_size m = pp_size env.
Hypothesis i_in_range : i < tp_size env.
Hypothesis j_in_range : j < tp_size env.
Hypothesis counters_differ :
  loaded_consumed_train_samples env p i <> loaded_consumed_train_samples env p j
  \/ loaded_consumed_valid_samples env p i <> loaded_consumed_valid_samples env p j.

(** Reaching the diverging stage for the first time fails at once. *)
Lemma send_stage_diverging (s s' : state) (o : outcome unit) :
  0 < p ->
  send_stage env m schema 0 p s = (s', o) ->
  o = Raise AssertionError /\ queue s' = queue s.
Proof.
  intros Hp. unfold send_stage, load_stage.
  destruct (Nat.ltb_spec 0 p) as [_|]; [|lia]. cbn [Nat.eqb].
  rewrite tp_of_m.
  destruct (get_models_diverging env (tp_size env) i j (set_mpu_pipeline_rank p s)
              i_in_range j_in_range) as (s1 & Hg & L).
  { destruct s. exact counters_differ. }
  unfold mbind at 1 2 3. unfold modify at 1. rewrite Hg.
  intros H. inversion H; subst. split; [reflexivity|].
  destruct L as (Lq & _). rewrite Lq. destruct s. reflexivity.
Qed.

(** The first pass stops at the diverging stage: it fails, having sent at
    most the layers of the stages before it. *)
Lemma pass_diverging (n : nat) :
  forall (a : nat) (s s' : state) (o : outcome unit),
    0 < p -> a <= p < a + n ->
    all_models s = map (shard_matrix env) (seq 0 (Nat.max 1 a)) ->
    for_each (seq a n) (send_stage env m schema 0) s = (s', o) ->
    o <> Ret tt
    /\ exists items,
         queue s' = queue s ++ items
         /\ length items
            <= list_sum (map (fun q => layers_with env schema q 0) (seq a (p - a))).
Proof.
  induction n as [|n IH]; intros a s s' o Hp Ha Hcache H; [lia|].
  cbn [seq for_each] in H.
  destruct (Nat.eq_dec a p) as [->|Hne].
  - apply mbind_inv in H.
    destruct H as [(u & s1 & H1 & H) | [(e & H1 & ->) | (c & H1 & ->)]];
      apply (send_stage_diverging _ _ _ Hp) in H1; destruct H1 as [D Q];
      try discriminate.
    split; [discriminate|]. exists []. rewrite app_nil_r. split; [exact Q|].
    cbn. lia.
  - replace (p - a) with (S (p - S a)) by lia. cbn [seq map list_sum fold_right].
    apply mbind_inv in H.
    destruct H as [(u & s1 & H1 & H) | [(e & H1 & ->) | (c & H1 & ->)]];
      apply (send_stage_spec env m schema tp_of_m 0 a _ _ _ _ Hcache) in H1;
      try reflexivity;
      destruct H1 as (N1 & msgs1 & Q1 & T1 & L1 & R1 & _).
    + destruct u. destruct (R1 eq_refl) as (A1 & _). cbn [Nat.eqb] in A1.
      apply (IH (S a)) in H; [ | exact Hp | lia | exact A1 ].
      destruct H as (Ho & items & Q & L).
      split; [exact Ho|]. exists (number_from (total_layer_num s) msgs1 ++ items).
      rewrite Q, Q1, <- app_assoc. split; [reflexivity|].
      rewrite length_app, length_number_from. unfold list_sum in *. lia.
    + split; [discriminate|]. exists (number_from (total_layer_num s) msgs1).
      split; [exact Q1|]. rewrite length_number_from. unfold list_sum in *. lia.
    + exfalso. exact (N1 c eq_refl).
Qed.

(** The layer traversal fails before any layer of the diverging stage. *)
Lemma send_layers_diverging (s s' : state) (o : outcome unit) :
  0 < p -> p < pp_size env -> 0 < vp_size env ->
  all_models s = [shard_matrix env 0] ->
  send_layers env m schema s = (s', o) ->
  o <> Ret tt
  /\ exists items,
       queue s' = queue s ++ items
       /\ length items
          <= list_sum (map (fun q => layers_with env schema q 0) (seq 0 p)).
Proof.
  intros Hp Hpp Hvp Hcache H. unfold send_layers in H.
  apply mbind_inv in H.
  destruct H as [(u & s1 & H1 & H) | [(e & H1 & ->) | (c & H1 & ->)]];
    apply modify_inv in H1; destruct H1 as [-> D]; try discriminate; clear D.
  unfold for_range in H. unfold vp_size in Hvp.
  destruct (model_array_len env) as [|vp]; [lia|].
  cbn [seq for_each] in H. rewrite pp_of_m in H.
  apply mbind_inv in H.
  destruct H as [(u1 & s1 & H1 & H) | [(e & H1 & ->) | (c & H1 & ->)]];
    unfold for_range in H1;
    apply (pass_diverging (pp_size env) 0) in H1;
    try (destruct s; exact Hcache); try lia;
    destruct H1 as (Ho & items & Q & L).
  - exfalso. apply Ho. destruct u1. reflexivity.
  - split; [discriminate|]. exists items. rewrite Nat.sub_0_r in L.
    split; [destruct s; exact Q | exact L].
  - split; [discriminate|]. exists items. rewrite Nat.sub_0_r in L.
    split; [destruct s; exact Q | exact L].
Qed.

End Diverging.

(* ================================================================== *)
(** ** Enumerations with failure *)

Lemma omap_In {A B} (f : A -> result B) (xs : list A) (ys : list B) (y : B) :
  omap f xs = Ok ys -> In y ys -> exists x, In x xs /\ f x = Ok y.
Proof.
  revert ys. induction xs as [|x xs IH]; intros ys H Hy; simpl in H.
  - injection H as <-. contradiction.
  - destruct (f x) as [z|] eqn:Ez; [|discriminate].
    destruct (omap f xs) as [zs|] eqn:Ezs; [|discriminate].
    injection H as <-. destruct Hy as [<- | Hy].
    + exists x. split; [left; reflexivity | exact Ez].
    + destruct (IH zs eq_refl Hy) as (x' & Hin & Hf).
      exists x'. split; [right; exact Hin | exact Hf].
Qed.

Lemma omap_nth {A B} (f : A -> result B) (xs : list A) (ys : list B) (i : nat) (x : A) :
  omap f xs = Ok ys -> nth_error xs i = Some x ->
  exists y, f x = Ok y /\ nth_error ys i = Some y.
Proof.
  revert ys i. induction xs as [|x0 xs IH]; intros ys i H Hx; simpl in H.
  - destruct i; discriminate.
  - destruct (f x0) as [z|] eqn:Ez; [|discriminate].
    destruct (omap f xs) as [zs|] eqn:Ezs; [|discriminate].
    injection H as <-. destruct i as [|i]; simpl in *.
    + injection Hx as ->. exists z. split; [exact Ez | reflexivity].
    + apply (IH zs i eq_refl Hx).
Qed.

Lemma oflat_map_In {A B} (f : A -> result (list B)) (xs : list A) (ys : list B) (y : B) :
  oflat_map f xs = Ok ys -> In y ys ->
  exists x zs, In x xs /\ f x = Ok zs /\ In y zs.
Proof.
  revert ys. induction xs as [|x xs IH]; intros ys H Hy; simpl in H.
  - injection H as <-. contradiction.
  - destruct (f x) as [z|] eqn:Ez; [|discriminate].
    destruct (oflat_map f xs) as [zs|] eqn:Ezs; [|discriminate].
    injection H as <-. apply in_app_or in Hy. destruct Hy as [Hy | Hy].
    + exists x, z. split; [left; reflexivity|]. split; [exact Ez | exact Hy].
    + destruct (IH zs eq_refl Hy) as (x' & zs' & Hin & Hf & Hz).
      exists x', zs'. split; [right; exact Hin|]. split; [exact Hf | exact Hz].
Qed.

(** When every block has [c] elements, element [j] of block [i] sits at
    position [i * c + j] of the flattened list. *)
Lemma oflat_map_nth {A B} (f : A -> result (list B)) (c : nat) (xs : list A) :
  forall (ys : list B) (i j : nat) (x : A),
    oflat_map f xs = Ok ys ->
    (forall x' zs, In x' xs -> f x' = Ok zs -> length zs = c) ->
    nth_error xs i = Some x -> j < c ->
    exists zs, f x = Ok zs /\ nth_error ys (i * c + j) = nth_error zs j.
Proof.
  induction xs as [|x0 xs IH]; intros ys i j x H Hlen Hx Hj; simpl in H.
  - destruct i; discriminate.
  - destruct (f x0) as [z|] eqn:Ez; [|discriminate].
    destruct (oflat_map f xs) as [zs|] eqn:Ezs; [|discriminate].
    injection H as <-.
    assert (Hz : length z = c) by (apply (Hlen x0 z); [left; reflexivity | exact Ez]).
    destruct i as [|i]; simpl in Hx.
    + injection Hx as ->. exists z. split; [exact Ez|].
      cbn [Nat.mul Nat.add]. apply nth_error_app1. lia.
    + destruct (IH zs i j x eq_refl) as (zs' & Hf & Hn); try assumption.
      { intros x' zs' Hin Hf. apply (Hlen x' zs'); [right; exact Hin | exact Hf]. }
      exists zs'. split; [exact Hf|]. rewrite <- Hn.
      rewrite nth_error_app2 by lia. f_equal. lia.
Qed.

Lemma oflat_map_length {A B} (f : A -> result (list B)) (g : A -> nat) (xs : list A) :
  forall ys : list B,
    oflat_map f xs = Ok ys ->
    (forall x zs, In x xs -> f x = Ok zs -> length zs = g x) ->
    length ys = list_sum (map g xs).
Proof.
  induction xs as [|x xs IH]; intros ys H Hlen; simpl in H.
  - injection H as <-. reflexivity.
  - destruct (f x) as [z|] eqn:Ez; [|discriminate].
    destruct (oflat_map f xs) as [zs|] eqn:Ezs; [|discriminate].
    injection H as <-. rewrite length_app. cbn [map list_sum fold_right].
    rewrite (Hlen x z (or_introl eq_refl) Ez).
    rewrite (IH zs eq_refl); [reflexivity|].
    intros x' zs' Hin Hf. apply (Hlen x' zs'); [right; exact Hin | exact Hf].
Qed.

Lemma NoDup_map_injective {A B} (f : A -> B) (l : list A) :
  (forall a b, f a = f b -> a = b) -> NoDup l -> NoDup (map f l).
Proof.
  intros Hinj Hl. induction Hl as [|x l Hx Hl IH]; simpl; constructor.
  - intros Hin. apply in_map_iff in Hin. destruct Hin as (y & Hy & Hyl).
    apply Hinj in Hy. subst y. exact (Hx Hyl).
  - exact IH.
Qed.

(* ================================================================== *)
(** ** Names *)

Lemma prefix_append (s t : string) : String.prefix s (s ^^ t) = true.
Proof.
  induction s as [|c s IH]; simpl.
  - destruct t; reflexivity.
  - destruct (Ascii.ascii_dec c c); [exact IH | contradiction].
Qed.

Lemma append_inj_l (s a b : string) : s ^^ a = s ^^ b -> a = b.
Proof.
  induction s as [|c s IH]; simpl; intros H; [exact H|].
  injection H as H. apply IH. exact H.
Qed.

Lemma str_of_nat_inj (a b : nat) : str_of_nat a = str_of_nat b -> a = b.
Proof.
  unfold str_of_nat. intros H.
  assert (Hu : Nat.to_uint a = Nat.to_uint b).
  { apply (f_equal NilEmpty.uint_of_string) in H.
    rewrite !NilEmpty.usu in H. injection H as H. exact H. }
  apply (f_equal Nat.of_uint) in Hu.
  rewrite !DecimalNat.Unsigned.of_to in Hu. exact Hu.
Qed.

Lemma layer_name_inj (a b : nat) : layer_name a = layer_name b -> a = b.
Proof. unfold layer_name. intros H. apply append_inj_l in H. apply str_of_nat_inj, H. Qed.

Lemma is_layer_item_named_layer (n : nat) (msg : dict pyval) :
  is_layer_item (named_layer n msg) = true.
Proof.
  unfold named_layer, is_layer_item. rewrite message_name_named.
  apply prefix_append.
Qed.

Lemma tag_of_named_layer (n : nat) (msg : dict pyval) :
  tag_of (named_layer n msg) = Named (layer_name n).
Proof. unfold named_layer, tag_of. rewrite message_name_named. reflexivity. Qed.

Lemma layer_items_number_from (n : nat) (msgs : list (dict pyval)) :
  layer_items (number_from n msgs) = number_from n msgs.
Proof.
  unfold layer_items. apply filter_all. revert n.
  induction msgs as [|msg msgs IH]; intros n x Hx; simpl in Hx; [contradiction|].
  destruct Hx as [<- | Hx]; [apply is_layer_item_named_layer | apply (IH (S n) x Hx)].
Qed.

Lemma tags_number_from (n : nat) (msgs : list (dict pyval)) :
  map tag_of (number_from n msgs)
  = map (fun k => Named (layer_name k)) (seq n (length msgs)).
Proof.
  revert n. induction msgs as [|msg msgs IH]; intros n;
    cbn [number_from map length seq]; [reflexivity|].
  rewrite IH, tag_of_named_layer. reflexivity.
Qed.

Lemma nth_error_number_from (n i : nat) (msgs : list (dict pyval)) (msg : dict pyval) :
  nth_error msgs i = Some msg ->
  nth_error (number_from n msgs) i = Some (named_layer (n + i) msg).
Proof.
  revert n i. induction msgs as [|x msgs IH]; intros n i H; destruct i; simpl in *;
    try discriminate.
  - injection H as ->. rewrite Nat.add_0_r. reflexivity.
  - rewrite (IH (S n) i H). do 2 f_equal. lia.
Qed.

Lemma In_number_from (n : nat) (msgs : list (dict pyval)) (item : qitem) :
  In item (number_from n msgs) ->
  exists k msg, In msg msgs /\ item = named_layer k msg.
Proof.
  revert n. induction msgs as [|x msgs IH]; intros n H; simpl in H; [contradiction|].
  destruct H as [<- | H].
  - exists n, x. split; [left; reflexivity | reflexivity].
  - destruct (IH (S n) H) as (k & msg & Hin & ->).
    exists k, msg. split; [right; exact Hin | reflexivity].
Qed.

(** The names sent after the layers are not layer names. *)
Lemma tail_names_not_layers (m : md.t) (logits : bool) (named : list (string * dict pyval)) :
  map fst named = tail_names m logits ->
  layer_items (map named_item named) = [].
Proof.
  intros H. unfold layer_items. apply filter_none.
  intros item Hitem. apply in_map_iff in Hitem. destruct Hitem as ([name msg] & <- & Hin).
  rewrite is_layer_item_named.
  assert (Hname : In name (tail_names m logits)).
  { rewrite <- H. apply (in_map fst named (name, msg) Hin). }
  unfold tail_names in Hname.
  destruct (md.output_layer m), (String.eqb (md.model_type m) "BERT"),
    (md.bert_binary_head m), logits; cbn in Hname;
    repeat (destruct Hname as [<- | Hname]; [reflexivity|]); contradiction.
Qed.

(* ================================================================== *)
(** ** The traversal, enumerated *)

Lemma layers_at_with (env : environment) (schema : ModelSchema) (p v : nat) :
  schema_of env = Ok schema -> layers_at env p v = layers_with env schema p v.
Proof. intros H. unfold layers_at. rewrite H. reflexivity. Qed.

Lemma stage_messages_length (env : environment) (m : md.t) (schema : ModelSchema)
    (v p : nat) (msgs : list (dict pyval)) :
  stage_messages env m schema v p = Ok msgs ->
  length msgs = layers_with env schema p v.
Proof.
  unfold stage_messages. intros H. apply omap_length in H.
  rewrite H, length_seq. reflexivity.
Qed.

(** With [lps] layers in every group, the message of layer [l] of the group
    at [(p, v)] is the one at position [v * pp * lps + p * lps + l]. *)
Lemma traversal_uniform (env : environment) (m : md.t) (schema : ModelSchema)
    (lps : nat) (msgs : list (dict pyval)) :
  (forall p v, p < pp_size env -> v < vp_size env ->
               layers_with env schema p v = lps) ->
  traversal_messages env m schema = Ok msgs ->
  length msgs = vp_size env * pp_size env * lps
  /\ forall v p l,
       v < vp_size env -> p < pp_size env -> l < lps ->
       exists msg,
         layer_message m schema (stage_shards env p v) l = Ok msg
         /\ nth_error msgs (v * pp_size env * lps + p * lps + l) = Some msg.
Proof.
  intros Hlps H. unfold traversal_messages in H.
  assert (Hstage : forall v p zs, v < vp_size env -> In p (seq 0 (pp_size env)) ->
            stage_messages env m schema v p = Ok zs -> length zs = lps).
  { intros v p zs Hv Hp Hz. apply in_seq in Hp.
    rewrite (stage_messages_length _ _ _ _ _ _ Hz). apply Hlps; lia. }
  assert (Hpass : forall v zs, In v (seq 0 (vp_size env)) ->
            pass_messages env m schema (seq 0 (pp_size env)) v = Ok zs ->
            length zs = pp_size env * lps).
  { intros v zs Hv Hz. apply in_seq in Hv. unfold pass_messages in Hz.
    rewrite (oflat_map_length _ (fun _ => lps) _ _ Hz).
    - rewrite (list_sum_const (fun _ => lps) lps); [|reflexivity].
      rewrite length_seq. reflexivity.
    - intros p zs' Hp Hz'. apply (Hstage v p zs'); [lia | exact Hp | exact Hz']. }
  split.
  - rewrite (oflat_map_length _ (fun _ => pp_size env * lps) _ _ H Hpass).
    rewrite (list_sum_const (fun _ => pp_size env * lps) (pp_size env * lps));
      [|reflexivity].
    rewrite length_seq. lia.
  - intros v p l Hv Hp Hl.
    assert (Hj : p * lps + l < pp_size env * lps) by nia.
    destruct (oflat_map_nth _ (pp_size env * lps) _ msgs v (p * lps + l) v H Hpass)
      as (zs & Hzs & Hn); [ | exact Hj | ].
    { rewrite nth_error_seq. destruct (Nat.ltb_spec v (vp_size env)); [reflexivity | lia]. }
    unfold pass_messages in Hzs.
    destruct (oflat_map_nth _ lps _ zs p l p Hzs) as (zs' & Hzs' & Hn'); [ | | exact Hl | ].
    { intros p' zs'' Hp' Hz''. apply (Hstage v p' zs''); assumption. }
    { rewrite nth_error_seq. destruct (Nat.ltb_spec p (pp_size env)); [reflexivity | lia]. }
    unfold stage_messages in Hzs'.
    destruct (omap_nth _ _ zs' l l Hzs') as (msg & Hmsg & Hnth).
    { rewrite nth_error_seq.
      rewrite (Hlps p v Hp Hv).
      destruct (Nat.ltb_spec l lps); [reflexivity | lia]. }
    exists msg. split; [exact Hmsg|].
    replace (v * pp_size env * lps + p * lps + l)
      with (v * (pp_size env * lps) + (p * lps + l)) by lia.
    rewrite Hn, Hn'. exact Hnth.
Qed.

(** Every message of the traversal is the message of some layer of some
    group. *)
Lemma traversal_In (env : environment) (m : md.t) (schema : ModelSchema)
    (msgs : list (dict pyval)) (msg : dict pyval) :
  traversal_messages env m schema = Ok msgs ->
  In msg msgs ->
  exists v p l,
    v < vp_size env /\ p < pp_size env
    /\ layer_message m schema (stage_shards env p v) l = Ok msg.
Proof.
  intros H Hin. unfold traversal_messages in H.
  destruct (oflat_map_In _ _ _ _ H Hin) as (v & zs & Hv & Hzs & Hin1).
  unfold pass_messages in Hzs.
  destruct (oflat_map_In _ _ _ _ Hzs Hin1) as (p & zs' & Hp & Hzs' & Hin2).
  unfold stage_messages in Hzs'.
  destruct (omap_In _ _ _ _ Hzs' Hin2) as (l & _ & Hl).
  apply in_seq in Hv, Hp. exists v, p, l. repeat split; try lia. exact Hl.
Qed.

(** The transformer-layer messages of a run that returns are exactly the
    messages of the traversal, numbered from 0. *)
Lemma run_ret_layer_items (env : environment) (s' : state) :
  run env = (s', Ret tt) ->
  exists ct cv schema msgs,
    schema_of env = Ok schema
    /\ traversal_messages env (md.with_consumed (md_of env) ct cv) schema = Ok msgs
    /\ layer_items (queue s') = number_from 0 msgs.
Proof.
  intros H. apply run_ret in H.
  destruct H as (_ & ct & cv & schema & emb & msgs & named & H). cbv zeta in H.
  destruct H as (Hs & _ & _ & Hm & Hn & Q & _).
  exists ct, cv, schema, msgs. split; [exact Hs|]. split; [exact Hm|].
  rewrite Q. rewrite !layer_items_app.
  rewrite layer_items_number_from, (tail_names_not_layers _ _ _ Hn).
  unfold layer_items at 1. cbn [filter is_layer_item].
  change (match message_name (dict_set emb "name" (PStr "embeddings")) with
          | Some n => String.prefix "transformer layer " n
          | None => false
          end) with (is_layer_item (named_item ("embeddings", emb))).
  rewrite is_layer_item_named. cbn. rewrite app_nil_r. reflexivity.
Qed.

(* ================================================================== *)
(** ** What every selected schema looks like *)

Lemma CoreSchema_inv (model_type : string) (layer_schema : dict string)
    (schema : ModelSchema) :
  CoreSchema model_type layer_schema = Ok schema ->
  embeddings schema = core_embeddings
  /\ layer schema = layer_schema
  /\ lm_head schema = core_lm_head.
Proof.
  unfold CoreSchema. destruct (get_core_transformer_block_key model_type) as [bk|];
    cbn [obind]; intros H; [|discriminate].
  injection H as <-. repeat split.
Qed.

(** The selected schema is a core schema over the dense layer table or over
    a mixture-of-experts layer table. *)
Lemma get_model_schema_inv (model_type impl : string) (ne ep : option Z)
    (schema : ModelSchema) :
  get_model_schema model_type impl ne ep = Ok schema ->
  exists layer_schema,
    CoreSchema model_type layer_schema = Ok schema
    /\ (layer_schema = dense_layer_schema
        \/ exists n, layer_schema = moe_layer_schema n).
Proof.
  unfold get_model_schema.
  assert (Hdense :
    (ctor <- dict_get [("local", CoreLocalSchema); ("transformer_engine", CoreTESchema)] impl ;;
     ctor model_type)%pure = Ok schema ->
    exists layer_schema,
      CoreSchema model_type layer_schema = Ok schema
      /\ (layer_schema = dense_layer_schema
          \/ exists n, layer_schema = moe_layer_schema n)).
  { unfold dict_get. cbn [dict_find].
    destruct (String.eqb "local" impl); cbn [obind].
    - intros H. exists dense_layer_schema. split; [exact H | left; reflexivity].
    - destruct (String.eqb "transformer_engine" impl); cbn [obind]; [|discriminate].
      intros H. exists dense_layer_schema. split; [exact H | left; reflexivity]. }
  destruct ne as [n|]; [|exact Hdense].
  destruct (Z.ltb 0 n); [|exact Hdense].
  destruct (String.eqb impl "transformer_engine"); cbn [py_assert obind]; [|discriminate].
  destruct ep as [e|]; [|discriminate].
  unfold CoreMoETESchema.
  destruct (num_local_experts_of n e) as [k|]; cbn [obind]; [|discriminate].
  intros H. exists (moe_layer_schema (Z.to_nat k)).
  split; [exact H | right; eexists; reflexivity].
Qed.

Lemma schema_of_embeddings (env : environment) (schema : ModelSchema) :
  schema_of env = Ok schema -> embeddings schema = core_embeddings.
Proof.
  unfold schema_of. intros H. apply get_model_schema_inv in H.
  destruct H as (ls & H & _). apply CoreSchema_inv in H. apply H.
Qed.

(** The embeddings message: the word tables of the shards concatenated
    along axis 0, and the position table of rank 0 exactly when the position
    embedding is learned; otherwise that table is asserted absent. *)
Lemma embeddings_message_spec (m : md.t) (schema : ModelSchema)
    (models : list ModelShard) (emb : dict pyval) :
  embeddings schema = core_embeddings ->
  embeddings_message m schema models = Ok emb ->
  exists model0 rest w,
    models = model0 :: rest
    /\ torch_cat0 (map word_table models) = Ok w
    /\ ((String.eqb (md.position_embedding_type m) "learned_absolute" = true
         /\ emb = [("word embeddings", w);
                   ("position embeddings", position_table model0)])
        \/ (String.eqb (md.position_embedding_type m) "learned_absolute" = false
            /\ emb = [("word embeddings", w)]
            /\ position_table model0 = PNone)).
Proof.
  intros Hemb. unfold embeddings_message.
  rewrite (omap_map _ (fun model => [("pos", position_table model);
                                     ("word", word_table model)])).
  2: { intros model _. unfold get, section_of, dict_get. cbn [dict_find String.eqb].
       cbn. rewrite Hemb. reflexivity. }
  cbn [obind].
  assert (Hwords :
            omap (fun e => dict_get e "word")
              (map (fun model => [("pos", position_table model);
                                  ("word", word_table model)]) models)
            = Ok (map word_table models)).
  { clear. induction models as [|x xs IH]; [reflexivity|].
    cbn [map omap]. rewrite IH. reflexivity. }
  rewrite Hwords. cbn [obind].
  destruct (torch_cat0 (map word_table models)) as [w|] eqn:Ew; cbn [obind]; [|discriminate].
  destruct models as [|model0 rest].
  { cbv in Ew. discriminate. }
  cbn [map list_index nth_error obind dict_get dict_find].
  intros H. exists model0, rest, w. split; [reflexivity|]. split; [reflexivity|].
  destruct (String.eqb (md.position_embedding_type m) "learned_absolute").
  - left. split; [reflexivity|]. cbn in H. injection H as <-. reflexivity.
  - right. split; [reflexivity|].
    destruct (position_table model0) eqn:Ep; cbn in H; try discriminate.
    injection H as <-. split; reflexivity.
Qed.

(* ================================================================== *)
(** ** The fields of a layer message *)

Lemma writes_preserves (labels : list string) (d d' : dict pyval) (k : string) :
  writes labels d d' -> ~ In k labels -> dict_find d' k = dict_find d k.
Proof.
  intros W Hk. induction W as [|d' k' v Hin W IH]; [reflexivity|].
  rewrite dict_find_set_other; [exact IH|].
  intros ->. exact (Hk Hin).
Qed.

Lemma dict_keys_set {V} (d : dict V) (k x : string) (v : V) :
  In x (dict_keys (dict_set d k v)) -> x = k \/ In x (dict_keys d).
Proof.
  unfold dict_keys. induction d as [|[k' v'] d IH]; simpl.
  - intros [<- | []]. left. reflexivity.
  - destruct (String.eqb_spec k' k) as [->|Hne]; simpl.
    + intros [<- | H]; [left; reflexivity | right; right; exact H].
    + intros [<- | H]; [right; left; reflexivity|].
      destruct (IH H) as [-> | H']; [left; reflexivity | right; right; exact H'].
Qed.

Lemma writes_keys (labels : list string) (d d' : dict pyval) (x : string) :
  writes labels d d' -> In x (dict_keys d') -> In x (dict_keys d) \/ In x labels.
Proof.
  intros W. induction W as [|d' k v Hin W IH]; intros Hx; [left; exact Hx|].
  apply dict_keys_set in Hx. destruct Hx as [-> | Hx]; [right; exact Hin | exact (IH Hx)].
Qed.

Lemma writes_trans (labels : list string) (d1 d2 d3 : dict pyval) :
  writes labels d1 d2 -> writes labels d2 d3 -> writes labels d1 d3.
Proof.
  intros W12 W23. induction W23 as [|d' k v Hin W IH]; [exact W12|].
  apply writes_more; assumption.
Qed.

Lemma writes_weaken (l1 l2 : list string) (d d' : dict pyval) :
  incl l1 l2 -> writes l1 d d' -> writes l2 d d'.
Proof.
  intros Hincl W. induction W as [|d' k v Hin W IH]; [apply writes_nothing|].
  apply writes_more; [apply Hincl, Hin | exact IH].
Qed.

Lemma dict_get_ok {V} (d : dict V) (k : string) (v : V) :
  dict_get d k = Ok v -> dict_find d k = Some v.
Proof. unfold dict_get. destruct (dict_find d k); intros H; inversion H. reflexivity. Qed.

(** Invert a successful pure computation, one binding at a time. *)
Ltac inv_res :=
  repeat match goal with
         | H : Error _ = Ok _ |- _ => discriminate H
         | H : Ok _ = Ok _ |- _ => injection H as H; subst
         | H : copy_field _ _ _ _ = Ok _ |- _ => unfold copy_field in H
         | H : obind ?x _ = Ok _ |- _ =>
             let E := fresh "E" in
             destruct x eqn:E; cbn [obind] in H; [|discriminate H]
         | H : (if ?c then _ else _) = Ok _ |- _ => destruct c eqn:?
         end.

Ltac in_labels := cbv [dense_labels parallel_labels In]; tauto.

Ltac writes_tac :=
  repeat (apply writes_more; [in_labels|]); apply writes_nothing.

(** Every key of a dictionary built by assignments is one of the labels. *)
Ltac keys_tac :=
  let x := fresh "x" in
  let Hx := fresh "Hx" in
  intros x Hx;
  repeat (apply dict_keys_set in Hx; destruct Hx as [-> | Hx]; [in_labels|]);
  cbn [dict_keys map fst In] in Hx;
  repeat (destruct Hx as [<- | Hx]; [in_labels|]);
  contradiction.

Ltac find_tac :=
  repeat first [ rewrite dict_find_set_same
               | rewrite dict_find_set_other by discriminate ].

Section Fields.

Variable m : md.t.

(** The replicated fields: only dense labels are written, and with
    linear bias the two bias fields hold the layer's own entries. *)
Lemma non_parallel_fields_spec (layer msg : dict pyval) :
  non_parallel_fields m layer = Ok msg ->
  (forall x, In x (dict_keys msg) -> In x dense_labels)
  /\ (md.linear_bias m = true ->
      exists b1 b2,
        dict_find layer "self_attn_proj_bias" = Some b1
        /\ dict_find layer "mlp_fc2_bias" = Some b2
        /\ dict_find msg "dense bias" = Some b1
        /\ dict_find msg "mlp l1 bias" = Some b2).
Proof.
  unfold non_parallel_fields. intros H.
  destruct (md.linear_bias m) eqn:Elb.
  - inv_res;
      (split; [keys_tac|]; intros _;
       repeat match goal with
              | E : dict_get _ _ = Ok _ |- _ => apply dict_get_ok in E
              end;
       eexists; eexists;
       split; [eassumption|]; split; [eassumption|];
       split; find_tac; reflexivity).
  - inv_res; (split; [keys_tac | discriminate]).
Qed.

(** The merged fields are written under the parallel labels only. *)
Lemma parallel_fields_spec (message msg : dict pyval) (p : parallel_tensors) :
  parallel_fields m message p = Ok msg -> writes parallel_labels message msg.
Proof.
  unfold parallel_fields. intros H. inv_res; writes_tac.
Qed.

End Fields.

Lemma parallel_in_dense : incl parallel_labels dense_labels.
Proof. intros x Hx. cbv [parallel_labels In] in Hx. in_labels. Qed.

(** A layer message: its labels are dense labels, and with linear bias the
    two bias fields are the entries of the layer of tensor-parallel rank 0. *)
Lemma layer_message_spec (m : md.t) (schema : ModelSchema)
    (models : list ModelShard) (l : nat) (msg : dict pyval) :
  layer_message m schema models l = Ok msg ->
  exists model0 layer,
    list_index models 0 = Ok model0
    /\ get_layer schema model0 l = Ok layer
    /\ (forall x, In x (dict_keys msg) -> In x dense_labels)
    /\ (md.linear_bias m = true ->
        exists b1 b2,
          dict_find layer "self_attn_proj_bias" = Some b1
          /\ dict_find layer "mlp_fc2_bias" = Some b2
          /\ dict_find msg "dense bias" = Some b1
          /\ dict_find msg "mlp l1 bias" = Some b2).
Proof.
  unfold layer_message. intros H.
  destruct (list_index models 0) as [model0|] eqn:E0; cbn [obind] in H; [|discriminate].
  destruct (get_layer schema model0 l) as [layer|] eqn:El; cbn [obind] in H; [|discriminate].
  destruct (non_parallel_fields m layer) as [msg0|] eqn:En; cbn [obind] in H; [|discriminate].
  destruct (ofold models (grab_parallel m schema l) (mkParallel [] [] [] [] [] []))
    as [p|] eqn:Ep; cbn [obind] in H; [|discriminate].
  apply non_parallel_fields_spec in En. destruct En as (Hkeys & Hbias).
  apply parallel_fields_spec in H.
  exists model0, layer. split; [reflexivity|]. split; [exact El|]. split.
  - intros x Hx. destruct (writes_keys _ _ _ _ H Hx) as [Hx' | Hx'].
    + apply Hkeys, Hx'.
    + apply parallel_in_dense, Hx'.
  - intros Hlb. destruct (Hbias Hlb) as (b1 & b2 & H1 & H2 & H3 & H4).
    exists b1, b2. split; [exact H1|]. split; [exact H2|].
    rewrite !(writes_preserves _ _ _ _ H).
    + split; assumption.
    + cbv [parallel_labels In]. intros Hin.
      repeat (destruct Hin as [Hin | Hin]; [discriminate Hin|]). exact Hin.
    + cbv [parallel_labels In]. intros Hin.
      repeat (destruct Hin as [Hin | Hin]; [discriminate Hin|]). exact Hin.
Qed.

(* ================================================================== *)
(** ** The gated branch of the merged fields *)

(** When the chunks and their two concatenations are known and the plain
    concatenations succeed, the message is built and holds them under the
    [W] and [V] labels. *)
Lemma parallel_fields_gated (m : md.t) (message : dict pyval)
    (p : parallel_tensors) (chunks : list pyval) (w v : pyval) :
  md.swiglu m = true ->
  chunk_each (md.previous_tensor_parallel_size m) (mlp_l0_weight p) = Ok chunks ->
  cat_halves 0 chunks = Ok w ->
  cat_halves 1 chunks = Ok v ->
  plain_merges m p ->
  (md.linear_bias m = true ->
   exists bchunks bw bv,
     chunk_each (md.previous_tensor_parallel_size m) (mlp_l0_bias p) = Ok bchunks
     /\ cat_halves 0 bchunks = Ok bw /\ cat_halves 1 bchunks = Ok bv) ->
  exists msg,
    parallel_fields m message p = Ok msg
    /\ dict_find msg "mlp l0 weight W" = Some w
    /\ dict_find msg "mlp l0 weight V" = Some v
    /\ (forall bchunks bw bv,
          md.linear_bias m = true ->
          chunk_each (md.previous_tensor_parallel_size m) (mlp_l0_bias p) = Ok bchunks ->
          cat_halves 0 bchunks = Ok bw -> cat_halves 1 bchunks = Ok bv ->
          dict_find msg "mlp l0 bias W" = Some bw
          /\ dict_find msg "mlp l0 bias V" = Some bv).
Proof.
  intros Hs Hc Hw Hv ((q & Hq) & (d & Hd) & (l & Hl) & Hqb) Hb.
  unfold parallel_fields. rewrite Hs, Hc. cbn [obind]. rewrite Hw. cbn [obind].
  rewrite Hv. cbn [obind]. rewrite Hq. cbn [obind]. rewrite Hd. cbn [obind].
  rewrite Hl. cbn [obind].
  assert (Hqb' : md.qkv_bias m = true -> exists qb, torch_cat0 (qkv_bias p) = Ok qb)
    by exact Hqb.
  destruct (md.qkv_bias m);
    [destruct (Hqb' eq_refl) as (qb & Eqb); rewrite Eqb; cbn [obind] | ];
    (destruct (md.linear_bias m);
     [ destruct (Hb eq_refl) as (bc & bw & bv & Hbc & Hbw & Hbv);
       rewrite Hbc; cbn [obind]; rewrite Hbw; cbn [obind]; rewrite Hbv; cbn [obind];
       eexists; split; [reflexivity|];
       split; [find_tac; reflexivity|];
       split; [find_tac; reflexivity|];
       intros bc' bw' bv' _ Hbc' Hbw' Hbv';
       rewrite ?Hbc in Hbc'; injection Hbc' as Ec; subst bc';
       rewrite Hbw in Hbw'; injection Hbw' as Ew; subst bw';
       rewrite Hbv in Hbv'; injection Hbv' as Ev; subst bv';
       split; find_tac; reflexivity
     | eexists; split; [reflexivity|];
       split; [find_tac; reflexivity|];
       split; [find_tac; reflexivity|];
       intros; discriminate ]).
Qed.

(* ================================================================== *)
(** ** The transformer-layer messages of a run *)

(** C1, as amended.  For every rank geometry in which each (pipeline,
    virtual-pipeline) group hosts [lps] layers and the declared layer count
    is [vp * pp * lps], every run that completes without a fault emits
    exactly [num_layers] transformer-layer messages; their names carry the
    indices 0, 1, ..., [num_layers - 1] in this order, without gap or
    repeat; and the message at global index
    [vp_rank * pp * lps + pp_rank * lps + l] is the message of layer [l] of
    the group at [(pp_rank, vp_rank)]. *)
Theorem layer_messages_contiguous (env : environment) (lps : nat) (s' : state) :
  (forall p v, p < pp_size env -> v < vp_size env -> layers_at env p v = lps) ->
  margs.num_layers (env_margs env) = Some (vp_size env * pp_size env * lps) ->
  run env = (s', Ret tt) ->
  length (layer_items (queue s')) = md.num_layers (md_of env)
  /\ map tag_of (layer_items (queue s'))
     = map (fun k => Named (layer_name k)) (seq 0 (md.num_layers (md_of env)))
  /\ NoDup (map tag_of (layer_items (queue s')))
  /\ forall v p l,
       v < vp_size env -> p < pp_size env -> l < lps ->
       exists ct cv schema msg,
         schema_of env = Ok schema
         /\ layer_message (md.with_consumed (md_of env) ct cv) schema
              (stage_shards env p v) l = Ok msg
         /\ nth_error (layer_items (queue s'))
              (v * pp_size env * lps + p * lps + l)
            = Some (named_layer (v * pp_size env * lps + p * lps + l) msg).
Proof.
  intros Hlps Hnum Hrun.
  destruct (run_ret_layer_items env s' Hrun) as (ct & cv & schema & msgs & Hs & Hm & Hitems).
  assert (Hlps' : forall p v, p < pp_size env -> v < vp_size env ->
                    layers_with env schema p v = lps).
  { intros p v Hp Hv. rewrite <- (layers_at_with env schema p v Hs). apply Hlps; assumption. }
  destruct (traversal_uniform env _ schema lps msgs Hlps' Hm) as (Hlen & Hnth).
  assert (Hn : md.num_layers (md_of env) = vp_size env * pp_size env * lps).
  { unfold md_of. cbn [md.num_layers]. rewrite Hnum. reflexivity. }
  rewrite Hitems, Hn.
  split; [rewrite length_number_from; exact Hlen|].
  assert (Htags : map tag_of (number_from 0 msgs)
                  = map (fun k => Named (layer_name k))
                      (seq 0 (vp_size env * pp_size env * lps))).
  { rewrite tags_number_from, Hlen. reflexivity. }
  split; [exact Htags|].
  split.
  - rewrite Htags. apply NoDup_map_injective; [|apply seq_NoDup].
    intros a b Hab. apply layer_name_inj. congruence.
  - intros v p l Hv Hp Hl.
    destruct (Hnth v p l Hv Hp Hl) as (msg & Hmsg & Hi).
    exists ct, cv, schema, msg. split; [exact Hs|]. split; [exact Hmsg|].
    apply (nth_error_number_from 0) in Hi. exact Hi.
Qed.

Lemma layer_messages_contiguous_witness :
  map tag_of (layer_items (queue (fst (run Examples.interleaved))))
  = [Named "transformer layer 0"; Named "transformer layer 1";
     Named "transformer layer 2"; Named "transformer layer 3"].
Proof.
  destruct (layer_messages_contiguous Examples.interleaved 1
              (fst (run Examples.interleaved))) as (_ & H & _).
  - intros p v _ _. reflexivity.
  - reflexivity.
  - assert (Hret : snd (run Examples.interleaved) = Ret tt)
      by (vm_compute; reflexivity).
    rewrite <- Hret. apply surjective_pairing.
  - rewrite H. vm_compute. reflexivity.
Defined.

(** C1, as stated, fails for the mixture-of-experts variant.  The geometry
    is valid (one stage, one pass, one layer, [num_layers = 1]) and every
    argument check passes, but the loader reads the dense role
    [mlp_fc1_weight], which the mixture-of-experts layer table does not
    have: the run raises on the first layer and emits no transformer-layer
    message at all. *)
Lemma moe_run_emits_no_layer :
  let env := Examples.moe 1 in
  pp_size env = 1 /\ vp_size env = 1 /\ layers_at env 0 0 = 1
  /\ margs.num_layers (env_margs env) = Some 1
  /\ prepare_checks env = true
  /\ snd (run env) = Raise (KeyError "mlp_fc1_weight")
  /\ map tag_of (queue (fst (run env)))
     = [Metadata; Named "embeddings"; Sentinel "exit"]
  /\ length (layer_items (queue (fst (run env)))) <> 1.
Proof.
  cbv zeta. repeat split; vm_compute; try reflexivity. discriminate.
Qed.

(* ================================================================== *)
(** ** The emission order *)

Lemma traversal_length (env : environment) (m : md.t) (schema : ModelSchema)
    (msgs : list (dict pyval)) :
  schema_of env = Ok schema ->
  traversal_messages env m schema = Ok msgs ->
  length msgs = total_layers env.
Proof.
  intros Hs H. unfold traversal_messages in H. unfold total_layers.
  apply (oflat_map_length _ _ _ _ H).
  intros v zs _ Hz. unfold pass_messages in Hz.
  apply (oflat_map_length _ _ _ _ Hz).
  intros p zs' _ Hz'. rewrite (layers_at_with env schema p v Hs).
  apply (stage_messages_length _ _ _ _ _ _ Hz').
Qed.

Lemma tags_named_items (named : list (string * dict pyval)) :
  map tag_of (map named_item named) = map Named (map fst named).
Proof.
  rewrite !map_map. apply map_ext. intros nm. apply tag_of_named_item.
Qed.

(** C2.  For every run that completes without a fault the queue holds, in
    this order: the metadata record; the embeddings message, whose word
    table is the axis-0 concatenation of the shards' word tables and which
    has a position-embeddings field exactly when the position-embedding type
    is learned_absolute (the position table being absent otherwise); one
    message per transformer layer in increasing global index; the final-norm
    message; the output-layer message exactly when embeddings and output
    weights are untied; for BERT only, the pooler and lm-head messages and,
    with the binary-head flag, the binary-head message; the logits_check
    message exactly when requested; and ["done"]. *)
Theorem emission_order (env : environment) (s' : state) :
  run env = (s', Ret tt) ->
  map tag_of (queue s') = expected_order env (total_layers env)
  /\ exists msg w,
       nth_error (queue s') 1 = Some (QMessage msg)
       /\ torch_cat0 (map word_table (stage_shards env 0 0)) = Ok w
       /\ dict_find msg "word embeddings" = Some w
       /\ (String.eqb (md.position_embedding_type (md_of env)) "learned_absolute" = true ->
           dict_find msg "position embeddings"
           = Some (position_table (model_provider env 0 0 0)))
       /\ (String.eqb (md.position_embedding_type (md_of env)) "learned_absolute" = false ->
           dict_find msg "position embeddings" = None
           /\ position_table (model_provider env 0 0 0) = PNone).
Proof.
  intros H. apply run_ret in H.
  destruct H as (_ & ct & cv & schema & emb & msgs & named & H). cbv zeta in H.
  destruct H as (Hs & _ & Hemb & Hm & Hn & Q & _).
  split.
  - rewrite Q, !map_app, tags_named_items, Hn, tags_number_from.
    rewrite (traversal_length env _ schema msgs Hs Hm).
    cbn [map tag_of]. rewrite tag_of_named_item. cbn [fst].
    unfold expected_order, tail_names.
    cbn [md.output_layer md.model_type md.bert_binary_head md.with_consumed md_of].
    unfold or_default.
    destruct (margs.untie_embeddings_and_output_weights (env_margs env)),
      (String.eqb (args.model_type (env_args env)) "BERT"),
      (margs.bert_binary_head (env_margs env)) as [[|]|],
      (args.test_logits (env_args env)); reflexivity.
  - apply (embeddings_message_spec _ _ _ _ (schema_of_embeddings env schema Hs)) in Hemb.
    destruct Hemb as (model0 & rest & w & Hmodels & Hw & Hpos).
    assert (Hm0 : model0 = model_provider env 0 0 0).
    { unfold stage_shards, shards_upto in Hmodels.
      destruct (tp_size env); cbn in Hmodels; [discriminate|].
      injection Hmodels as <- _. reflexivity. }
    subst model0.
    exists (dict_set emb "name" (PStr "embeddings")), w.
    split; [rewrite Q; reflexivity|]. split; [exact Hw|].
    rewrite !dict_find_set_other by discriminate.
    change (md.position_embedding_type (md.with_consumed (md_of env) ct cv))
      with (md.position_embedding_type (md_of env)) in Hpos.
    destruct Hpos as [(Hl & ->) | (Hl & -> & Hnone)]; rewrite Hl.
    + split; [reflexivity|]. split; [reflexivity | discriminate].
    + split; [reflexivity|]. split; [discriminate|].
      intros _. split; [reflexivity | exact Hnone].
Qed.

Lemma emission_order_witness :
  map tag_of (queue (fst (run Examples.bert)))
  = [Metadata; Named "embeddings"; Named "transformer layer 0";
     Named "transformer layer 1"; Named "final norm"; Named "pooler";
     Named "lm head"; Named "binary head"; Sentinel "done"].
Proof.
  destruct (emission_order Examples.bert (fst (run Examples.bert))) as (H & _).
  - assert (Hret : snd (run Examples.bert) = Ret tt) by (vm_compute; reflexivity).
    rewrite <- Hret. apply surjective_pairing.
  - rewrite H. vm_compute. reflexivity.
Defined.

(* ================================================================== *)
(** ** Consumed-sample counters that disagree *)

Lemma send_head_diverging (env : environment) (m : md.t) (i j : nat)
    (s s' : state) (o : outcome (md.t * ModelSchema)) :
  md.previous_tensor_parallel_size m = tp_size env ->
  i < tp_size env -> j < tp_size env ->
  loaded_consumed_train_samples env 0 i <> loaded_consumed_train_samples env 0 j
  \/ loaded_consumed_valid_samples env 0 i <> loaded_consumed_valid_samples env 0 j ->
  send_head env m s = (s', o) ->
  o = Raise AssertionError /\ queue s' = queue s.
Proof.
  intros Htp Hi Hj Hdiff. unfold send_head. rewrite Htp.
  destruct (get_models_diverging env (tp_size env) i j (set_mpu_pipeline_rank 0 s) Hi Hj)
    as (s1 & Hg & L).
  { destruct s. exact Hdiff. }
  unfold mbind at 1 2. unfold modify at 1. rewrite Hg.
  intros H. inversion H; subst. split; [reflexivity|].
  destruct L as (Lq & _). rewrite Lq. destruct s. reflexivity.
Qed.

Lemma layers_before_with (env : environment) (schema : ModelSchema) (p : nat) :
  schema_of env = Ok schema ->
  list_sum (map (fun q => layers_with env schema q 0) (seq 0 p)) = layers_before env p.
Proof.
  intros Hs. unfold layers_before. f_equal. apply map_ext.
  intros q. symmetry. apply layers_at_with, Hs.
Qed.

(** The stream, once the argument checks have passed, when two shards of
    stage [p] disagree. *)
Lemma send_all_diverging (env : environment) (p i j : nat) (s' : state)
    (o : outcome unit) :
  p < pp_size env -> i < tp_size env -> j < tp_size env ->
  loaded_consumed_train_samples env p i <> loaded_consumed_train_samples env p j
  \/ loaded_consumed_valid_samples env p i <> loaded_consumed_valid_samples env p j ->
  send_all env (md_of env) initial_state = (s', o) ->
  (exists e, o = Raise e)
  /\ length (layer_items (queue s')) <= layers_before env p
  /\ (p = 0 -> o = Raise AssertionError /\ queue s' = []).
Proof.
  intros Hp Hi Hj Hdiff H. unfold send_all in H. apply mbind_inv in H.
  destruct H as [(r & s1 & H1 & H) | [(e & H1 & ->) | (c & H1 & ->)]].
  - pose proof (send_head_no_layers env _ _ _ _ H1) as (items0 & Q0 & L0).
    apply send_head_ret in H1; [|reflexivity].
    destruct H1 as (emb & Hr & Hschema & _ & _ & A1 & Hvp & Hall).
    destruct (Nat.eq_dec p 0) as [->|Hp0].
    { exfalso. destruct (Hall i Hi) as [Ti Vi]. destruct (Hall j Hj) as [Tj Vj].
      destruct Hdiff as [D | D]; apply D; congruence. }
    assert (Hls : forall s3 o3,
              send_layers env (fst r) (snd r) s1 = (s3, o3) ->
              o3 <> Ret tt
              /\ exists items,
                   queue s3 = queue s1 ++ items
                   /\ length items
                      <= list_sum (map (fun q => layers_with env (snd r) q 0) (seq 0 p))).
    { intros s3 o3 H3.
      apply (send_layers_diverging env (fst r) (snd r) p i j) in H3; try assumption;
        try (rewrite Hr; reflexivity); lia. }
    rewrite (layers_before_with env (snd r) p Hschema) in Hls.
    assert (Hcount : forall s3 items, queue s3 = queue s1 ++ items ->
              length items <= layers_before env p ->
              length (layer_items (queue s3)) <= layers_before env p).
    { intros s3 items Q3 L3. rewrite Q3, Q0. cbn [queue initial_state app].
      rewrite layer_items_app, L0. cbn [app].
      pose proof (layer_items_length items). lia. }
    apply mbind_inv in H.
    destruct H as [(u & s3 & H3 & H) | [(e & H3 & ->) | (c & H3 & ->)]].
    + exfalso. destruct (Hls _ _ H3) as (Ho & _). apply Ho. destruct u. reflexivity.
    + destruct (Hls _ _ H3) as (_ & items & Q3 & L3).
      split; [exists e; reflexivity|]. split; [exact (Hcount _ _ Q3 L3) | lia].
    + exfalso. destruct (tame_send_layers env _ _ _ _ _ H3) as (_ & N).
      exact (N c eq_refl).
  - pose proof (send_head_no_layers env _ _ _ _ H1) as (items0 & Q0 & L0).
    split; [exists e; reflexivity|]. split.
    + rewrite Q0. cbn [queue initial_state app]. rewrite L0. cbn. lia.
    + intros ->. apply (send_head_diverging env _ i j) in H1; try assumption;
        [|reflexivity].
      destruct H1 as (D & Q). injection D as ->. split; [reflexivity | exact Q].
  - exfalso. destruct (tame_send_head env _ _ _ _ H1) as (_ & N). exact (N c eq_refl).
Qed.

(** C4.  When the argument checks have passed and two tensor-parallel
    shards of pipeline stage [p] report different consumed-train-sample or
    consumed-valid-sample counters, loading that stage fails an assertion
    with nothing added to the queue; the run raises, the queue ends with
    ["exit"] and holds no ["done"], and it holds at most the
    transformer-layer messages of the stages before [p]: none of stage [p].
    For the first stage the exception is the assertion's and ["exit"] is
    the only item. *)
Theorem consumed_sample_mismatch_is_fatal (env : environment) (p i j : nat)
    (s' : state) (o : outcome unit) :
  prepare_checks env = true ->
  p < pp_size env -> i < tp_size env -> j < tp_size env ->
  loaded_consumed_train_samples env p i <> loaded_consumed_train_samples env p j
  \/ loaded_consumed_valid_samples env p i <> loaded_consumed_valid_samples env p j ->
  run env = (s', o) ->
  (forall s, mpu_pipeline_rank s = p ->
     exists s1, get_models env (tp_size env) s = (s1, Raise AssertionError)
                /\ queue s1 = queue s)
  /\ (exists e, o = Raise e)
  /\ (exists items, queue s' = items ++ [QStr "exit"] /\ Forall is_payload items)
  /\ ~ In (QStr "done") (queue s')
  /\ length (layer_items (queue s')) <= layers_before env p
  /\ (p = 0 -> o = Raise AssertionError /\ queue s' = [QStr "exit"]).
Proof.
  intros Hc Hp Hi Hj Hdiff Hrun.
  split.
  { intros s Hs. subst p.
    destruct (get_models_diverging env (tp_size env) i j s Hi Hj Hdiff) as (s1 & Hg & L).
    exists s1. split; [exact Hg | apply L]. }
  pose proof (run_shape env s' o Hrun) as (items & Pitems & Hshape).
  rewrite run_unfold in Hrun.
  destruct (prepare_cases env) as [[_ Hprep] | [Hc' _]]; [|congruence].
  rewrite Hprep in Hrun.
  destruct (send_all env (md_of env) initial_state) as [s2 o2] eqn:Hs.
  destruct (send_all_diverging env p i j s2 o2 Hp Hi Hj Hdiff Hs)
    as ((e & ->) & Hcount & Hzero).
  inversion Hrun; subst. clear Hrun.
  split; [exists e; reflexivity|].
  destruct Hshape as [(D & _) | (_ & Q)]; [discriminate|].
  split; [exists items; split; [exact Q | exact Pitems]|].
  split.
  - rewrite Q. intros Hin. apply in_app_or in Hin. destruct Hin as [Hin | Hin].
    + rewrite Forall_forall in Pitems. exact (Pitems _ Hin).
    + destruct Hin as [Hin | []]. discriminate.
  - split.
    + rewrite queue_set_queue, layer_items_app. cbn. rewrite app_nil_r. exact Hcount.
    + intros Hp0. destruct (Hzero Hp0) as (D & Q0).
      split; [exact D|]. rewrite queue_set_queue, Q0. reflexivity.
Qed.

Lemma consumed_sample_mismatch_is_fatal_witness :
  snd (run Examples.diverging) = Raise AssertionError
  /\ map tag_of (queue (fst (run Examples.diverging)))
     = [Metadata; Named "embeddings"; Named "transformer layer 0";
        Named "transformer layer 1"; Sentinel "exit"]
  /\ length (layer_items (queue (fst (run Examples.diverging))))
     <= layers_before Examples.diverging 1.
Proof.
  destruct (consumed_sample_mismatch_is_fatal Examples.diverging 1 0 1
              (fst (run Examples.diverging)) (snd (run Examples.diverging)))
    as (_ & _ & _ & _ & H & _).
  - reflexivity.
  - vm_compute. lia.
  - vm_compute. lia.
  - vm_compute. lia.
  - left. vm_compute. discriminate.
  - apply surjective_pairing.
  - split; [vm_compute; reflexivity|]. split; [vm_compute; reflexivity | exact H].
Defined.

(* ================================================================== *)
(** ** Gated activation: the merge step against the sharding *)

(** C5, as amended.  With gated activation, when tensor-parallel rank [i]
    holds the [i]-th equal row shard of the gate stacked over the [i]-th
    equal row shard of the value, the merged fields of the loader (each
    shard chunked in two along axis 0, the first pieces concatenated into
    ["mlp l0 weight W"], the second pieces into ["mlp l0 weight V"]) are
    built and hold the gate and the value exactly; with linear bias the
    same holds of the bias under ["mlp l0 bias W"] and ["mlp l0 bias V"].
    The tensors may have any number of dimensions. *)
Theorem gated_merge_round_trip (m : md.t) (message : dict pyval)
    (p : parallel_tensors) (gate value bgate bvalue : tensor) :
  md.swiglu m = true ->
  0 < md.previous_tensor_parallel_size m ->
  gated_pair (md.previous_tensor_parallel_size m) gate value ->
  mlp_l0_weight p
  = map PTensor (gated_shards (md.previous_tensor_parallel_size m) gate value) ->
  (md.linear_bias m = true ->
   gated_pair (md.previous_tensor_parallel_size m) bgate bvalue
   /\ mlp_l0_bias p
      = map PTensor (gated_shards (md.previous_tensor_parallel_size m) bgate bvalue)) ->
  plain_merges m p ->
  exists msg,
    parallel_fields m message p = Ok msg
    /\ dict_find msg "mlp l0 weight W" = Some (PTensor gate)
    /\ dict_find msg "mlp l0 weight V" = Some (PTensor value)
    /\ (md.linear_bias m = true ->
        dict_find msg "mlp l0 bias W" = Some (PTensor bgate)
        /\ dict_find msg "mlp l0 bias V" = Some (PTensor bvalue)).
Proof.
  intros Hs Htp Hpair Hl0 Hbias Hplain.
  destruct (gated_halves _ gate value Htp Hpair) as (chunks & Hc & Hw & Hv).
  rewrite <- Hl0 in Hc.
  assert (Hb : md.linear_bias m = true ->
               exists bchunks,
                 chunk_each (md.previous_tensor_parallel_size m) (mlp_l0_bias p)
                 = Ok bchunks
                 /\ cat_halves 0 bchunks = Ok (PTensor bgate)
                 /\ cat_halves 1 bchunks = Ok (PTensor bvalue)).
  { intros Hlb. destruct (Hbias Hlb) as (Hbpair & Hb0).
    destruct (gated_halves _ bgate bvalue Htp Hbpair) as (bchunks & Hbc & Hbw & Hbv).
    exists bchunks. rewrite Hb0. repeat split; assumption. }
  destruct (parallel_fields_gated m message p chunks _ _ Hs Hc Hw Hv Hplain)
    as (msg & Hmsg & HW & HV & HB).
  { intros Hlb. destruct (Hb Hlb) as (bchunks & Hbc & Hbw & Hbv).
    exists bchunks, (PTensor bgate), (PTensor bvalue). repeat split; assumption. }
  exists msg. split; [exact Hmsg|]. split; [exact HW|]. split; [exact HV|].
  intros Hlb. destruct (Hb Hlb) as (bchunks & Hbc & Hbw & Hbv).
  exact (HB bchunks _ _ Hlb Hbc Hbw Hbv).
Qed.

Lemma gated_merge_round_trip_witness :
  let gate := Examples.mat 2 2 [1; 2; 3; 4]%Z in
  let value := Examples.mat 2 2 [5; 6; 7; 8]%Z in
  let bgate := Examples.vec [9; 10]%Z in
  let bvalue := Examples.vec [11; 12]%Z in
  exists msg,
    parallel_fields (md_of Examples.interleaved) []
      (Examples.gathered (gated_shards 2 gate value) (gated_shards 2 bgate bvalue))
    = Ok msg
    /\ dict_find msg "mlp l0 weight W" = Some (PTensor gate)
    /\ dict_find msg "mlp l0 weight V" = Some (PTensor value)
    /\ (md.linear_bias (md_of Examples.interleaved) = true ->
        dict_find msg "mlp l0 bias W" = Some (PTensor bgate)
        /\ dict_find msg "mlp l0 bias V" = Some (PTensor bvalue)).
Proof.
  cbv zeta.
  apply (gated_merge_round_trip (md_of Examples.interleaved) []
           (Examples.gathered
              (gated_shards 2 (Examples.mat 2 2 [1; 2; 3; 4]%Z)
                 (Examples.mat 2 2 [5; 6; 7; 8]%Z))
              (gated_shards 2 (Examples.vec [9; 10]%Z) (Examples.vec [11; 12]%Z)))).
  - reflexivity.
  - vm_compute. lia.
  - repeat split; try reflexivity. discriminate.
  - reflexivity.
  - intros _. split; [|reflexivity]. repeat split; try reflexivity. discriminate.
  - repeat split; try (intros _); eexists; vm_compute; reflexivity.
Defined.

(** C5, as stated, fails.  Cutting the axis-0 concatenation of gate and
    value into two equal row shards puts the whole gate on rank 0 and the
    whole value on rank 1.  On two shards holding these as their first MLP
    weight, the layer message of the loader mixes them: its
    ["mlp l0 weight W"] is the first half of the gate over the first half of
    the value, not the gate. *)
Lemma gated_split_of_concatenation_mixes :
  let gate := Examples.mat 2 2 [1; 2; 3; 4]%Z in
  let value := Examples.mat 2 2 [5; 6; 7; 8]%Z in
  wf gate /\ wf value
  /\ row_shards 2 (stack gate value) = [gate; value]
  /\ md.swiglu (md_of Examples.gated_plain) = true
  /\ md.previous_tensor_parallel_size (md_of Examples.gated_plain) = 2
  /\ exists schema msg,
       schema_of Examples.gated_plain = Ok schema
       /\ layer_message (md_of Examples.gated_plain) schema
            (Examples.shards_with_fc1 (row_shards 2 (stack gate value))) 0
          = Ok msg
       /\ dict_find msg "mlp l0 weight W"
          = Some (PTensor (Examples.mat 2 2 [1; 2; 5; 6]%Z))
       /\ dict_find msg "mlp l0 weight V"
          = Some (PTensor (Examples.mat 2 2 [3; 4; 7; 8]%Z))
       /\ dict_find msg "mlp l0 weight W" <> Some (PTensor gate)
       /\ dict_find msg "mlp l0 weight V" <> Some (PTensor value).
Proof.
  cbv zeta. split; [reflexivity|]. split; [reflexivity|].
  split; [reflexivity|]. split; [reflexivity|]. split; [reflexivity|].
  eexists. eexists. split; [vm_compute; reflexivity|].
  split; [vm_compute; reflexivity|].
  split; [vm_compute; reflexivity|]. split; [vm_compute; reflexivity|].
  split; vm_compute; discriminate.
Qed.

(* ================================================================== *)
(** ** The cache of loaded stages *)

(** C7, as amended.  A pipeline stage's shard set is appended to the
    walker's cache when the stage is first visited and is never released:
    when a run completes, the cache holds the shard sets of all pipeline
    stages at once, in stage order. *)
Theorem stage_shards_retained (env : environment) (s' : state) :
  run env = (s', Ret tt) ->
  all_models s' = map (shard_matrix env) (seq 0 (Nat.max 1 (pp_size env)))
  /\ forall p, p < pp_size env ->
       nth_error (all_models s') p = Some (shard_matrix env p).
Proof.
  intros H. apply run_ret in H.
  destruct H as (_ & ct & cv & schema & emb & msgs & named & H). cbv zeta in H.
  destruct H as (_ & _ & _ & _ & _ & _ & A & _).
  split; [exact A|]. intros p Hp. rewrite A.
  rewrite nth_error_map, nth_error_seq.
  destruct (Nat.ltb_spec p (Nat.max 1 (pp_size env))); [reflexivity | lia].
Qed.

Lemma stage_shards_retained_witness :
  length (all_models (fst (run Examples.with_logits))) = 2.
Proof.
  destruct (stage_shards_retained Examples.with_logits
              (fst (run Examples.with_logits))) as (H & _).
  - assert (Hret : snd (run Examples.with_logits) = Ret tt)
      by (vm_compute; reflexivity).
    rewrite <- Hret. apply surjective_pairing.
  - rewrite H. reflexivity.
Defined.

(** C7, as stated, fails.  With two pipeline stages, the cache at the end of
    the run (after every message has been sent) still holds the shard sets
    of both stages, and they are distinct. *)
Lemma two_stages_held_together :
  let env := Examples.with_logits in
  snd (run env) = Ret tt
  /\ all_models (fst (run env)) = [shard_matrix env 0; shard_matrix env 1]
  /\ shard_matrix env 0 <> shard_matrix env 1.
Proof.
  cbv zeta. split; [vm_compute; reflexivity|].
  split; [vm_compute; reflexivity|].
  vm_compute. discriminate.
Qed.

(* ================================================================== *)
(** ** The biases taken from tensor-parallel rank 0 *)



(* ================================================================== *)
(** ** The set-up, outcome by outcome *)

(** What [prepare] does, in the order of its checks. *)
Lemma prepare_outcome (env : environment) :
  prepare env initial_state =
  if negb (megatron_importable env) then (exit_state, SysExit 1%Z)
  else if negb (sizes_present env) then (initial_state, Raise TypeError)
  else if negb (required_arguments env) then (exit_state, SysExit 1%Z)
  else if negb (known_model_type env)
  then (initial_state,
        Raise (PlainException
                 ("unrecognized model type: " ^^ args.model_type (env_args env))))
  else if args.test_logits (env_args env) && negb (logits_assertions env)
  then (initial_state, Raise AssertionError)
  else (initial_state, Ret (md_of env)).
Proof.
  destruct env as [a ma ca imp prov tr va tok pos mask fwd].
  destruct a as [mt tvs vf impl tl].
  destruct ma as [tp pp vp ep ne nl hs sl nh mp pet tt it bbh dbl pd sw xi
                    untie abl aqb mv].
  unfold sizes_present, required_arguments, known_model_type, logits_assertions,
    prepare, md_of, tp_size, pp_size, vp_size, model_array_len, exit_state.
  rewrite !check_for_arg_default.
  cbn [env_args env_margs env_checkpoint_args megatron_importable
       args.model_type args.true_vocab_size args.vocab_file args.test_logits
       margs.tensor_model_parallel_size margs.pipeline_model_parallel_size
       margs.virtual_pipeline_model_parallel_size margs.num_layers
       margs.hidden_size margs.seq_length margs.num_attention_heads
       margs.max_position_embeddings margs.position_embedding_type
       margs.tokenizer_type margs.iteration margs.bert_binary_head
       margs.disable_bias_linear margs.params_dtype margs.swiglu margs.xielu
       margs.untie_embeddings_and_output_weights margs.add_bias_linear
       margs.add_qkv_bias margs.make_vocab_size_divisible_by].
  destruct imp; [|reflexivity].
  destruct tp as [tp|]; [|reflexivity].
  destruct pp as [pp|]; [|reflexivity].
  destruct nl as [nl|]; [|reflexivity].
  destruct hs as [hs|]; [|reflexivity].
  destruct sl as [sl|]; [|reflexivity].
  destruct nh as [nh|]; [|reflexivity].
  destruct mp as [mp|]; [|reflexivity].
  destruct pet as [pet|]; [|reflexivity].
  destruct tt as [tt|]; [|reflexivity].
  destruct it as [it|]; [|reflexivity].
  destruct bbh as [bbh|]; [|reflexivity].
  destruct pd as [pd|]; [|reflexivity].
  cbn [is_some andb negb check_for_arg mbind mret lift].
  destruct (String.eqb mt "GPT") eqn:Egpt; cbn [orb negb].
  - destruct tl; cbn [andb].
    + destruct (Nat.eqb tp (match vp with Some n => n | None => 1 end)
                && Nat.eqb (match vp with Some n => n | None => 1 end)
                     (match vp with Some n => n | None => 1 end)
                && Nat.eqb (match vp with Some n => n | None => 1 end) 1) eqn:Eassert;
        cbn [andb negb py_assert];
        (destruct tvs; [reflexivity|]; destruct vf; reflexivity).
    + destruct tvs; [reflexivity|]. destruct vf; reflexivity.
  - destruct (String.eqb mt "BERT") eqn:Ebert; cbn [negb].
    + destruct tl; cbn [andb].
      * rewrite andb_false_r. cbn [negb].
        destruct (Nat.eqb tp (match vp with Some n => n | None => 1 end)
                  && Nat.eqb (match vp with Some n => n | None => 1 end)
                       (match vp with Some n => n | None => 1 end)
                  && Nat.eqb (match vp with Some n => n | None => 1 end) 1);
          (destruct tvs; [reflexivity|]; destruct vf; reflexivity).
      * destruct tvs; [reflexivity|]. destruct vf; reflexivity.
    + reflexivity.
Qed.

(** After the set-up nothing leaves through [exit]. *)
Lemma send_all_never_exits (env : environment) (m : md.t) (s s' : state)
    (o : outcome unit) :
  send_all env m s = (s', o) -> forall c, o <> SysExit c.
Proof.
  intros H c. destruct (send_all_ends_with_done env m s s' o H)
    as (items & _ & [[-> _] | [(e & ->) _]]); discriminate.
Qed.

(* ================================================================== *)
(** ** Lookups in the layer tables *)

Lemma dict_find_app {V} (d1 d2 : dict V) (k : string) :
  dict_find (d1 ++ d2) k
  = match dict_find d1 k with
    | Some v => Some v
    | None => dict_find d2 k
    end.
Proof.
  induction d1 as [|[k' v'] d1 IH]; simpl; [reflexivity|].
  destruct (String.eqb k' k); [reflexivity | exact IH].
Qed.

Lemma length_expert_entries (role leaf : string) (n : nat) :
  length (expert_entries role leaf n) = n.
Proof. unfold expert_entries. rewrite length_map, length_seq. reflexivity. Qed.

Lemma expert_key_eqb (role : string) (i j : nat) :
  String.eqb (role ^^ "." ^^ str_of_nat i) (role ^^ "." ^^ str_of_nat j)
  = Nat.eqb i j.
Proof.
  destruct (Nat.eqb_spec i j) as [->|Hne].
  - apply String.eqb_refl.
  - apply String.eqb_neq. intros H. apply Hne.
    apply append_inj_l in H. apply (append_inj_l ".") in H.
    apply str_of_nat_inj. exact H.
Qed.

(** The entry of local expert [i]: present below the local count, absent
    from it on. *)
Lemma dict_find_expert_entries (role leaf : string) (n i : nat) :
  dict_find (expert_entries role leaf n) (role ^^ "." ^^ str_of_nat i)
  = if Nat.ltb i n then Some (expert_path i leaf) else None.
Proof.
  unfold expert_entries.
  assert (H : forall a,
             dict_find
               (map (fun expert_idx =>
                       (role ^^ "." ^^ str_of_nat expert_idx,
                        "mlp.experts.local_experts." ^^ str_of_nat expert_idx
                          ^^ "." ^^ leaf)) (seq a n))
               (role ^^ "." ^^ str_of_nat i)
             = if Nat.leb a i && Nat.ltb i (a + n)
               then Some (expert_path i leaf) else None).
  { induction n as [|n IH]; intros a.
    - cbn [seq map dict_find].
      destruct (Nat.leb_spec a i), (Nat.ltb_spec i (a + 0)); try reflexivity. lia.
    - cbn [seq map dict_find]. rewrite expert_key_eqb, IH.
      destruct (Nat.eqb_spec a i) as [->|Hne].
      + destruct (Nat.leb_spec i i), (Nat.ltb_spec i (i + S n)); try lia. reflexivity.
      + destruct (Nat.leb_spec (S a) i), (Nat.ltb_spec i (S a + n)),
          (Nat.leb_spec a i), (Nat.ltb_spec i (a + S n)); try reflexivity; lia. }
  rewrite H. cbn [Nat.leb andb Nat.add]. reflexivity.
Qed.

(** A key that no entry of the block can equal is not found in it. *)
Lemma dict_find_expert_entries_other (role leaf k : string) (n : nat) :
  (forall x, String.eqb (role ^^ "." ^^ x) k = false) ->
  dict_find (expert_entries role leaf n) k = None.
Proof.
  intros Hk. unfold expert_entries. induction (seq 0 n) as [|a l IH]; [reflexivity|].
  cbn [map dict_find]. rewrite Hk. exact IH.
Qed.

Ltac other_role :=
  apply dict_find_expert_entries_other; intros ?; reflexivity.

(** The four per-expert roles of the mixture-of-experts layer table. *)
Lemma moe_layer_schema_lookup (n i : nat) :
  dict_find (moe_layer_schema n) ("mlp_fc1_weight." ^^ str_of_nat i)
  = (if Nat.ltb i n then Some (expert_path i "linear_fc1.weight") else None)
  /\ dict_find (moe_layer_schema n) ("mlp_fc2_weight." ^^ str_of_nat i)
     = (if Nat.ltb i n then Some (expert_path i "linear_fc2.weight") else None)
  /\ dict_find (moe_layer_schema n) ("mlp_xielu_alpha_p." ^^ str_of_nat i)
     = (if Nat.ltb i n
        then Some (expert_path i "activation_func.alpha_p.weight") else None)
  /\ dict_find (moe_layer_schema n) ("mlp_xielu_alpha_n." ^^ str_of_nat i)
     = (if Nat.ltb i n
        then Some (expert_path i "activation_func.alpha_n.weight") else None).
Proof.
  unfold moe_layer_schema. rewrite !dict_find_app.
  repeat split.
  - change ("mlp_fc1_weight." ^^ str_of_nat i)
      with ("mlp_fc1_weight" ^^ "." ^^ str_of_nat i).
    rewrite dict_find_expert_entries.
    destruct (Nat.ltb i n); [reflexivity|].
    rewrite !dict_find_expert_entries_other by (intros ?; reflexivity).
    reflexivity.
  - change ("mlp_fc2_weight." ^^ str_of_nat i)
      with ("mlp_fc2_weight" ^^ "." ^^ str_of_nat i).
    rewrite (dict_find_expert_entries "mlp_fc2_weight").
    rewrite !dict_find_expert_entries_other by (intros ?; reflexivity).
    destruct (Nat.ltb i n); reflexivity.
  - change ("mlp_xielu_alpha_p." ^^ str_of_nat i)
      with ("mlp_xielu_alpha_p" ^^ "." ^^ str_of_nat i).
    rewrite (dict_find_expert_entries "mlp_xielu_alpha_p").
    rewrite !dict_find_expert_entries_other by (intros ?; reflexivity).
    destruct (Nat.ltb i n); reflexivity.
  - change ("mlp_xielu_alpha_n." ^^ str_of_nat i)
      with ("mlp_xielu_alpha_n" ^^ "." ^^ str_of_nat i).
    rewrite (dict_find_expert_entries "mlp_xielu_alpha_n").
    rewrite !dict_find_expert_entries_other by (intros ?; reflexivity).
    destruct (Nat.ltb i n); reflexivity.
Qed.

(** The dense MLP roles are not roles of the mixture-of-experts table. *)
Lemma moe_layer_schema_no_dense_mlp (n : nat) :
  dict_find (moe_layer_schema n) "mlp_fc1_weight" = None
  /\ dict_find (moe_layer_schema n) "mlp_fc2_weight" = None.
Proof.
  unfold moe_layer_schema. rewrite !dict_find_app.
  rewrite !dict_find_expert_entries_other by (intros ?; reflexivity).
  split; reflexivity.
Qed.

(** *** Which selections succeed *)

Lemma block_key_cases (mt : string) :
  (mt = "GPT" /\ get_core_transformer_block_key mt = Ok "decoder")
  \/ (mt = "BERT" /\ get_core_transformer_block_key mt = Ok "encoder")
  \/ (mt <> "GPT" /\ mt <> "BERT"
      /\ get_core_transformer_block_key mt = Error (KeyError mt)).
Proof.
  unfold get_core_transformer_block_key, dict_get. cbn [dict_find].
  destruct (String.eqb_spec "GPT" mt) as [<-|Hg]; [left; split; reflexivity|].
  destruct (String.eqb_spec "BERT" mt) as [<-|Hb];
    [right; left; split; reflexivity|].
  right. right. repeat split; congruence.
Qed.

Lemma CoreSchema_cases (mt : string) (ls : dict string) :
  ((mt = "GPT" \/ mt = "BERT")
   /\ exists schema, CoreSchema mt ls = Ok schema /\ layer schema = ls)
  \/ (mt <> "GPT" /\ mt <> "BERT" /\ CoreSchema mt ls = Error (KeyError mt)).
Proof.
  unfold CoreSchema.
  destruct (block_key_cases mt) as [(Hm & ->) | [(Hm & ->) | (Hg & Hb & ->)]];
    cbn [obind].
  - left. split; [left; exact Hm|]. eexists. split; reflexivity.
  - left. split; [right; exact Hm|]. eexists. split; reflexivity.
  - right. repeat split; assumption.
Qed.

(** The constructor the dense selection looks up. *)
Lemma dense_selection (mt impl : string) :
  ((impl = "local" \/ impl = "transformer_engine")
   /\ (ctor <- dict_get [("local", CoreLocalSchema);
                         ("transformer_engine", CoreTESchema)] impl ;;
       ctor mt)%pure = CoreSchema mt dense_layer_schema)
  \/ (impl <> "local" /\ impl <> "transformer_engine"
      /\ (ctor <- dict_get [("local", CoreLocalSchema);
                            ("transformer_engine", CoreTESchema)] impl ;;
          ctor mt)%pure = Error (KeyError impl)).
Proof.
  unfold dict_get. cbn [dict_find].
  destruct (String.eqb_spec "local" impl) as [<-|Hl];
    [left; split; [left; reflexivity | reflexivity]|].
  destruct (String.eqb_spec "transformer_engine" impl) as [<-|Ht];
    [left; split; [right; reflexivity | reflexivity]|].
  right. repeat split; congruence.
Qed.

(** The tables outside the layers, for a schema that was selected. *)
Lemma selected_schema_tables (mt impl : string) (ne ep : option Z)
    (schema : ModelSchema) :
  get_model_schema mt impl ne ep = Ok schema ->
  exists block,
    get_core_transformer_block_key mt = Ok block
    /\ layer_prefix schema = block ^^ ".layers"
    /\ final_norm schema
       = [("weight", block ^^ ".final_layernorm.weight");
          ("bias", block ^^ ".final_layernorm.bias")]
    /\ output_layer schema = [("weight", "output_layer.weight")].
Proof.
  intros H. apply get_model_schema_inv in H. destruct H as (ls & H & _).
  unfold CoreSchema in H.
  destruct (get_core_transformer_block_key mt) as [block|]; cbn [obind] in H;
    [|discriminate].
  injection H as <-. exists block. repeat split.
Qed.

(* ================================================================== *)
(** ** The transformer-layer messages of any run *)

Lemma quiet_mret {A} (a : A) : quiet (mret a).
Proof.
  intros s s' o H. apply mret_inv in H. destruct H as [-> _].
  exists []. rewrite app_nil_r. split; reflexivity.
Qed.

Lemma quiet_lift {A} (r : result A) : quiet (lift r).
Proof.
  intros s s' o H. apply lift_inv in H. destruct H as [-> _].
  exists []. rewrite app_nil_r. split; reflexivity.
Qed.

Lemma quiet_gets {A} (f : state -> A) : quiet (gets f).
Proof.
  intros s s' o H. apply gets_inv in H. destruct H as [-> _].
  exists []. rewrite app_nil_r. split; reflexivity.
Qed.

Lemma quiet_put (item : qitem) : is_layer_item item = false -> quiet (put item).
Proof.
  intros Hi s s' o H. unfold put in H. apply modify_inv in H. destruct H as [-> _].
  exists [item]. split; [reflexivity|].
  unfold layer_items. cbn [filter]. rewrite Hi. reflexivity.
Qed.

Lemma quiet_queue_put (name : string) (msg : dict pyval) :
  String.prefix "transformer layer " name = false -> quiet (queue_put name msg).
Proof.
  intros Hn. apply quiet_put.
  change (QMessage (dict_set msg "name" (PStr name))) with (named_item (name, msg)).
  rewrite is_layer_item_named. exact Hn.
Qed.

Lemma quiet_mbind {A B} (m : M A) (k : A -> M B) :
  quiet m -> (forall a, quiet (k a)) -> quiet (mbind m k).
Proof.
  intros Hm Hk s s' o H. apply mbind_inv in H.
  destruct H as [(a & s1 & H1 & H2) | [(e & H1 & ->) | (c & H1 & ->)]].
  - destruct (Hm _ _ _ H1) as (i1 & Q1 & L1).
    destruct (Hk a _ _ _ H2) as (i2 & Q2 & L2).
    exists (i1 ++ i2). rewrite Q2, Q1, app_assoc. split; [reflexivity|].
    rewrite layer_items_app, L1, L2. reflexivity.
  - exact (Hm _ _ _ H1).
  - exact (Hm _ _ _ H1).
Qed.

Lemma quiet_if {A} (b : bool) (c1 c2 : M A) :
  quiet c1 -> quiet c2 -> quiet (if b then c1 else c2).
Proof. destruct b; intros; assumption. Qed.

Ltac quiet_tac :=
  repeat first
    [ apply quiet_mret
    | apply quiet_lift
    | apply quiet_gets
    | apply quiet_queue_put; reflexivity
    | apply quiet_put; reflexivity
    | apply quiet_mbind; [ | intros ? ]
    | apply quiet_if ].

(** Nothing sent after the layers is a transformer-layer message. *)
Lemma quiet_send_tail (env : environment) (m : md.t) (schema : ModelSchema) :
  quiet (send_tail env m schema).
Proof.
  unfold send_tail, send_final_norm, send_output_layer, send_bert, send_logits.
  quiet_tac.
Qed.

(** The handler of [load_checkpoint] adds no transformer-layer message. *)
Lemma handler_layer_items (s2 s' : state) (o2 o : outcome unit) :
  match o2 with
  | Raise e => (set_queue (queue s2 ++ [QStr "exit"]) s2, Raise e)
  | _ => (s2, o2)
  end = (s', o) ->
  layer_items (queue s') = layer_items (queue s2).
Proof.
  destruct o2; intros H; inversion H; subst; try reflexivity.
  rewrite queue_set_queue, layer_items_app. cbn. apply app_nil_r.
Qed.

(** Whatever the outcome of a run, its transformer-layer messages are
    messages the layer builder returned under the selected schema, numbered
    from 0. *)
Lemma run_layer_items_built (env : environment) (s' : state) (o : outcome unit) :
  run env = (s', o) ->
  layer_items (queue s') = []
  \/ exists ct cv schema msgs,
       schema_of env = Ok schema
       /\ layer_items (queue s') = number_from 0 msgs
       /\ Forall (built (md.with_consumed (md_of env) ct cv) schema) msgs.
Proof.
  rewrite run_unfold, prepare_outcome.
  destruct (negb (megatron_importable env));
    [intros H; inversion H; subst; left; reflexivity|].
  destruct (negb (sizes_present env));
    [intros H; inversion H; subst; left; reflexivity|].
  destruct (negb (required_arguments env));
    [intros H; inversion H; subst; left; reflexivity|].
  destruct (negb (known_model_type env));
    [intros H; inversion H; subst; left; reflexivity|].
  destruct (args.test_logits (env_args env) && negb (logits_assertions env));
    [intros H; inversion H; subst; left; reflexivity|].
  destruct (send_all env (md_of env) initial_state) as [s2 o2] eqn:Hs.
  intros H.
  assert (Hq : layer_items (queue s') = layer_items (queue s2)).
  { apply (handler_layer_items s2 s' o2 o). destruct o2; exact H. }
  rewrite Hq. clear H Hq.
  unfold send_all in Hs. apply mbind_inv in Hs.
  destruct Hs as [(r & s1 & H1 & H) | [(e & H1 & ->) | (c & H1 & ->)]].
  - apply send_head_ret in H1; [|reflexivity].
    destruct H1 as (emb & Hr & Hschema & _ & Q1 & A1 & _).
    assert (Hhead : layer_items (queue s1) = []).
    { rewrite Q1. cbn [queue initial_state app].
      unfold layer_items. cbn [filter is_layer_item].
      change (match message_name (dict_set emb "name" (PStr "embeddings")) with
              | Some n => String.prefix "transformer layer " n
              | None => false
              end) with (is_layer_item (named_item ("embeddings", emb))).
      rewrite is_layer_item_named. reflexivity. }
    right.
    exists (consumed_train_samples s1), (consumed_valid_samples s1), (snd r).
    rewrite <- Hr.
    apply mbind_inv in H.
    destruct H as [(u & s3 & H3 & H) | [(e & H3 & ->) | (c & H3 & ->)]];
      apply send_layers_spec in H3;
      try (rewrite Hr; reflexivity); try exact A1;
      destruct H3 as (N3 & msgs & Q3 & _ & B3).
    + destruct (quiet_send_tail env _ _ _ _ _ H) as (items & Qt & Lt).
      exists msgs. split; [exact Hschema|]. split; [|exact B3].
      rewrite Qt, Q3, !layer_items_app, Hhead, Lt, layer_items_number_from.
      cbn [app]. apply app_nil_r.
    + exists msgs. split; [exact Hschema|]. split; [|exact B3].
      rewrite Q3, layer_items_app, Hhead, layer_items_number_from. reflexivity.
    + exfalso. exact (N3 c eq_refl).
  - left. apply send_head_no_layers in H1. destruct H1 as (items & Q & L).
    rewrite Q. cbn [queue initial_state app]. exact L.
  - left. apply send_head_no_layers in H1. destruct H1 as (items & Q & L).
    rewrite Q. cbn [queue initial_state app]. exact L.
Qed.

(** *** A layer under the mixture-of-experts table *)

Lemma dict_find_resolve (table : dict string) (obj : dict tensor) (k : string) :
  dict_find (resolve table obj) k
  = match dict_find table k with
    | Some path => Some (get_deep_attr obj path)
    | None => None
    end.
Proof.
  unfold resolve. induction table as [|[k' p] table IH]; [reflexivity|].
  cbn [map dict_find fst snd]. destruct (String.eqb k' k); [reflexivity | exact IH].
Qed.

Lemma get_layer_resolve (schema : ModelSchema) (model : ModelShard) (l : nat)
    (layer : dict pyval) :
  get_layer schema model l = Ok layer ->
  exists x, layer = resolve (Schema.layer schema) x.
Proof.
  unfold get_layer.
  destruct (get_layers schema model) as [layers|]; cbn [obind]; [|discriminate].
  destruct (list_index layers l) as [x|]; cbn [obind]; [|discriminate].
  intros H. injection H as <-. exists x. reflexivity.
Qed.

(** The layer builder reads the dense role [mlp_fc1_weight] of every
    shard, so under a table without it no layer message is built. *)
Lemma layer_message_needs_dense_mlp (m : md.t) (schema : ModelSchema)
    (models : list ModelShard) (l : nat) (msg : dict pyval) :
  dict_find (Schema.layer schema) "mlp_fc1_weight" = None ->
  layer_message m schema models l = Ok msg -> False.
Proof.
  intros Hnone. unfold layer_message.
  destruct models as [|model0 rest]; [discriminate|].
  cbn [list_index nth_error obind].
  destruct (get_layer schema model0 l) as [layer|] eqn:El; cbn [obind]; [|discriminate].
  destruct (non_parallel_fields m layer); cbn [obind]; [|discriminate].
  cbn [ofold]. unfold grab_parallel at 1. rewrite El. cbn [obind].
  destruct (get_layer_resolve _ _ _ _ El) as (x & ->).
  destruct (dict_get (resolve (Schema.layer schema) x) "self_attn_qkv_weight");
    cbn [obind]; [|discriminate].
  destruct (dict_get (resolve (Schema.layer schema) x) "self_attn_proj_weight");
    cbn [obind]; [|discriminate].
  unfold dict_get at 1. rewrite dict_find_resolve, Hnone. cbn [obind]. discriminate.
Qed.

(** The schema selected for a mixture of experts has the
    mixture-of-experts layer table. *)
Lemma moe_schema_layer (env : environment) (schema : ModelSchema) :
  is_moe (margs.num_experts (env_margs env)) = true ->
  schema_of env = Ok schema ->
  exists n, Schema.layer schema = moe_layer_schema n.
Proof.
  unfold schema_of, get_model_schema, is_moe.
  destruct (margs.num_experts (env_margs env)) as [ne|]; [|discriminate].
  intros ->.
  destruct (String.eqb (args.loader_transformer_impl (env_args env))
              "transformer_engine"); cbn [py_assert obind]; [|discriminate].
  unfold CoreMoETESchema.
  destruct (num_local_experts_of ne (margs.expert_model_parallel_size (env_margs env)))
    as [k|]; cbn [obind]; [|discriminate].
  intros H. apply CoreSchema_inv in H. exists (Z.to_nat k). apply H.
Qed.

(* ================================================================== *)
(** ** More on the rank walker *)

Lemma nth_error_map_seq {A} (f : nat -> A) (k i : nat) :
  i < k -> nth_error (map f (seq 0 k)) i = Some (f i).
Proof.
  intros Hi. rewrite nth_error_map, nth_error_seq.
  destruct (Nat.ltb_spec i k); [reflexivity | lia].
Qed.

Lemma nth_error_map_seq_ok {A} (f : nat -> A) (k i : nat) :
  i < k ->
  nth_error (map f (seq 0 k)) i = Some (f i)
  /\ list_index (map f (seq 0 k)) i = Ok (f i).
Proof.
  intros Hi. unfold list_index. rewrite (nth_error_map_seq f k i Hi).
  split; reflexivity.
Qed.

(** [get_models] never overwrites a counter that is set, and when it
    returns every rank it loaded reported the counters now held. *)
Lemma get_models_counters (env : environment) (count : nat) (s s' : state)
    (o : outcome (list (list ModelShard))) :
  get_models env count s = (s', o) ->
  same_locals s s'
  /\ (forall c, consumed_train_samples s = Some c -> consumed_train_samples s' = Some c)
  /\ (forall c, consumed_valid_samples s = Some c -> consumed_valid_samples s' = Some c)
  /\ (o = Raise AssertionError
      \/ (o = Ret (matrix_upto env count (mpu_pipeline_rank s))
          /\ forall t, t < count ->
               consumed_train_samples s'
               = Some (loaded_consumed_train_samples env (mpu_pipeline_rank s) t)
               /\ consumed_valid_samples s'
                  = Some (loaded_consumed_valid_samples env (mpu_pipeline_rank s) t))).
Proof.
  unfold get_models. rewrite <- (matrix_upto_0 env (mpu_pipeline_rank s)).
  intros H. apply get_models_from in H.
  destruct H as (L & T & V & [D | (D & Hall)]).
  - split; [exact L|]. split; [exact T|]. split; [exact V|]. left. exact D.
  - split; [exact L|]. split; [exact T|]. split; [exact V|].
    right. split; [exact D|]. intros t Ht. apply Hall. lia.
Qed.

(* ================================================================== *)
(** ** The consumed-sample counters along a run *)

Lemma keeps_mret {A} (a : A) : keeps_counters (mret a).
Proof. intros s s' o H. apply mret_inv in H. destruct H as [-> _]. split; reflexivity. Qed.

Lemma keeps_lift {A} (r : result A) : keeps_counters (lift r).
Proof. intros s s' o H. apply lift_inv in H. destruct H as [-> _]. split; reflexivity. Qed.

Lemma keeps_gets {A} (f : state -> A) : keeps_counters (gets f).
Proof. intros s s' o H. apply gets_inv in H. destruct H as [-> _]. split; reflexivity. Qed.

Lemma keeps_modify (f : state -> state) :
  (forall s, consumed_train_samples (f s) = consumed_train_samples s
             /\ consumed_valid_samples (f s) = consumed_valid_samples s) ->
  keeps_counters (modify f).
Proof. intros Hf s s' o H. apply modify_inv in H. destruct H as [-> _]. apply Hf. Qed.

Lemma keeps_queue_put (name : string) (msg : dict pyval) :
  keeps_counters (queue_put name msg).
Proof. apply keeps_modify. intros []. split; reflexivity. Qed.

Lemma keeps_mbind {A B} (m : M A) (k : A -> M B) :
  keeps_counters m -> (forall a, keeps_counters (k a)) -> keeps_counters (mbind m k).
Proof.
  intros Hm Hk s s' o H. apply mbind_inv in H.
  destruct H as [(a & s1 & H1 & H2) | [(e & H1 & ->) | (c & H1 & ->)]].
  - destruct (Hm _ _ _ H1) as (T1 & V1). destruct (Hk a _ _ _ H2) as (T2 & V2).
    split; congruence.
  - exact (Hm _ _ _ H1).
  - exact (Hm _ _ _ H1).
Qed.

Lemma keeps_for_each {A} (xs : list A) (body : A -> M unit) :
  (forall x, keeps_counters (body x)) -> keeps_counters (for_each xs body).
Proof.
  intros Hb. induction xs as [|x xs IH]; simpl.
  - apply keeps_mret.
  - apply keeps_mbind; [apply Hb | intros _; exact IH].
Qed.

Ltac keeps_tac :=
  repeat first
    [ apply keeps_mret
    | apply keeps_lift
    | apply keeps_gets
    | apply keeps_queue_put
    | apply keeps_modify; intros []; split; reflexivity
    | apply keeps_for_each; intros ?
    | apply keeps_mbind; [ | intros ? ] ].

Section Counters.

Variable env : environment.
Variable m : md.t.
Variable schema : ModelSchema.
Variables ct cv : Z.

Hypothesis tp_of_m : md.previous_tensor_parallel_size m = tp_size env.

Lemma keeps_send_group (v p : nat) : keeps_counters (send_group m schema v p).
Proof. unfold send_group, for_range, send_layer. keeps_tac. Qed.

(** The stage loaded on a first visit reports, on every tensor-parallel
    rank, the counters already held. *)
Lemma load_stage_counters (v p : nat) (s s' : state) :
  consumed_train_samples s = Some ct ->
  consumed_valid_samples s = Some cv ->
  load_stage env m v p s = (s', Ret tt) ->
  consumed_train_samples s' = Some ct
  /\ consumed_valid_samples s' = Some cv
  /\ (v = 0 -> 0 < p ->
      forall t, t < tp_size env ->
        loaded_consumed_train_samples env p t = ct
        /\ loaded_consumed_valid_samples env p t = cv).
Proof.
  intros Ht Hv. unfold load_stage.
  destruct (Nat.ltb_spec 0 p) as [Hp|Hp].
  - intros H. apply mbind_ret_inv in H. destruct H as (u & s1 & H1 & H).
    apply modify_inv in H1. destruct H1 as [-> _].
    destruct (Nat.eqb_spec v 0) as [Hv0|Hv0].
    + apply mbind_ret_inv in H. destruct H as (stage & s2 & H2 & H).
      apply get_models_counters in H2.
      destruct H2 as (_ & T & V & [D | (_ & Hall)]); [discriminate|].
      apply modify_inv in H. destruct H as [-> _].
      assert (Ht2 : consumed_train_samples s2 = Some ct).
      { apply T. destruct s. exact Ht. }
      assert (Hv2 : consumed_valid_samples s2 = Some cv).
      { apply V. destruct s. exact Hv. }
      split; [destruct s2; exact Ht2|]. split; [destruct s2; exact Hv2|].
      intros _ _ t Htp. rewrite tp_of_m in Hall.
      destruct (Hall t Htp) as (A & B).
      assert (Hrank : mpu_pipeline_rank (set_mpu_pipeline_rank p s) = p)
        by (destruct s; reflexivity).
      rewrite Hrank in A, B. split; congruence.
    + apply mret_inv in H. destruct H as [-> _].
      split; [destruct s; exact Ht|]. split; [destruct s; exact Hv|].
      intros Hv1. contradiction.
  - intros H. apply mret_inv in H. destruct H as [-> _].
    split; [exact Ht|]. split; [exact Hv|]. intros _ Hp'. lia.
Qed.

(** The first pass over the stages [a .. a+n-1]. *)
Lemma first_pass_counters (n : nat) :
  forall (a : nat) (s s' : state),
    consumed_train_samples s = Some ct ->
    consumed_valid_samples s = Some cv ->
    for_each (seq a n) (send_stage env m schema 0) s = (s', Ret tt) ->
    consumed_train_samples s' = Some ct
    /\ consumed_valid_samples s' = Some cv
    /\ forall p, a <= p < a + n -> 0 < p ->
         forall t, t < tp_size env ->
           loaded_consumed_train_samples env p t = ct
           /\ loaded_consumed_valid_samples env p t = cv.
Proof.
  induction n as [|n IH]; intros a s s' Ht Hv H.
  - cbn in H. inversion H; subst. split; [exact Ht|]. split; [exact Hv|].
    intros p Hp. lia.
  - cbn [seq for_each] in H.
    apply mbind_ret_inv in H. destruct H as (u & s1 & H1 & H).
    unfold send_stage in H1.
    apply mbind_ret_inv in H1. destruct H1 as (u1 & s2 & H2 & H1).
    destruct u1. apply (load_stage_counters 0 a _ _ Ht Hv) in H2.
    destruct H2 as (Ht2 & Hv2 & Hstage).
    destruct (keeps_send_group 0 a _ _ _ H1) as (Tk & Vk).
    rewrite Ht2 in Tk. rewrite Hv2 in Vk.
    apply (IH (S a) _ _ Tk Vk) in H. destruct H as (Ht' & Hv' & Hrest).
    split; [exact Ht'|]. split; [exact Hv'|].
    intros p Hp Hpos t Htp.
    destruct (Nat.eq_dec p a) as [->|Hne].
    + apply Hstage; [reflexivity | exact Hpos | exact Htp].
    + apply Hrest; [lia | exact Hpos | exact Htp].
Qed.

Hypothesis pp_of_m : md.previous_pipeline_parallel_size m = pp_size env.

(** A traversal that returns has loaded every later stage against the
    counters it started with. *)
Lemma send_layers_counters (s s' : state) :
  0 < vp_size env ->
  consumed_train_samples s = Some ct ->
  consumed_valid_samples s = Some cv ->
  send_layers env m schema s = (s', Ret tt) ->
  forall p, 0 < p < pp_size env ->
    forall t, t < tp_size env ->
      loaded_consumed_train_samples env p t = ct
      /\ loaded_consumed_valid_samples env p t = cv.
Proof.
  intros Hvp Ht Hv H. unfold send_layers in H.
  apply mbind_ret_inv in H. destruct H as (u & s1 & H1 & H).
  apply modify_inv in H1. destruct H1 as [-> _].
  unfold for_range in H. unfold vp_size in Hvp.
  destruct (model_array_len env) as [|vp]; [lia|].
  cbn [seq for_each] in H.
  apply mbind_ret_inv in H. destruct H as (u1 & s2 & H2 & H).
  rewrite pp_of_m in H2. unfold for_range in H2. destruct u1.
  apply first_pass_counters in H2;
    [ | destruct s; exact Ht | destruct s; exact Hv ].
  destruct H2 as (_ & _ & Hall).
  intros p Hp t Htp. apply Hall; [lia | lia | exact Htp].
Qed.

End Counters.

(** In a run that returns, every shard of every pipeline stage reported
    the counters of the first shard, and there is a first shard. *)
Lemma run_ret_counters (env : environment) (s' : state) :
  run env = (s', Ret tt) ->
  0 < tp_size env
  /\ forall p t, p < pp_size env -> t < tp_size env ->
       loaded_consumed_train_samples env p t = loaded_consumed_train_samples env 0 0
       /\ loaded_consumed_valid_samples env p t
          = loaded_consumed_valid_samples env 0 0.
Proof.
  rewrite run_unfold.
  destruct (prepare_cases env) as [[Hc Hp] | [_ [(e & Hp) | Hp]]]; rewrite Hp;
    [ | discriminate | discriminate ].
  destruct (send_all env (md_of env) initial_state) as [s2 o2] eqn:Hs.
  intros H. assert (o2 = Ret tt /\ s2 = s') as [-> ->].
  { destruct o2; inversion H; subst; split; reflexivity. }
  clear H. unfold send_all in Hs.
  apply mbind_ret_inv in Hs. destruct Hs as (r & s1 & H1 & H).
  apply send_head_ret in H1; [|reflexivity].
  destruct H1 as (emb & Hr & Hschema & Hemb & _ & _ & Hvp & Hall).
  assert (Htp : 0 < tp_size env).
  { apply embeddings_message_spec in Hemb.
    - destruct Hemb as (model0 & rest & _ & Hmodels & _).
      unfold stage_shards, shards_upto in Hmodels.
      destruct (tp_size env); [discriminate | lia].
    - apply (schema_of_embeddings env). exact Hschema. }
  split; [exact Htp|].
  destruct (Hall 0 Htp) as (Ht0 & Hv0).
  apply mbind_ret_inv in H. destruct H as (u & s3 & H3 & _). destruct u.
  intros p t Hlt Ht.
  destruct (Nat.eq_dec p 0) as [->|Hne].
  - destruct (Hall t Ht) as (A & B). split; congruence.
  - apply (send_layers_counters env (fst r) (snd r) _ _
             ltac:(rewrite Hr; reflexivity) ltac:(rewrite Hr; reflexivity)
             s1 s3 Hvp Ht0 Hv0 H3 p ltac:(lia) t Ht).
Qed.

(* ================================================================== *)
(** ** The labels of a layer message, in order *)

Lemma dict_keys_set_fresh {V} (d : dict V) (k : string) (v : V) :
  ~ In k (dict_keys d) -> dict_keys (dict_set d k v) = dict_keys d ++ [k].
Proof.
  unfold dict_keys. induction d as [|[k' v'] d IH]; intros Hk; [reflexivity|].
  cbn [dict_set]. destruct (String.eqb_spec k' k) as [->|Hne].
  - exfalso. apply Hk. left. reflexivity.
  - cbn [map fst app]. rewrite IH; [reflexivity|].
    intros Hin. apply Hk. right. exact Hin.
Qed.

(** The keys of a dictionary built by assignments of fresh labels, read off
    the term from the inside out. *)
Ltac keys_walk keys_step fresh_tac d :=
  lazymatch d with
  | dict_set ?d' ?k ?v =>
      keys_walk keys_step fresh_tac d';
      match goal with
      | Hprev : dict_keys d' = ?base ++ ?done |- _ =>
          let K := fresh "K" in
          assert (K : dict_keys d = base ++ (done ++ [k]))
            by (apply (keys_step d' k v base done Hprev);
                [ fresh_tac
                | cbn [In app]; let Hin := fresh "Hin" in intros Hin;
                  repeat (destruct Hin as [Hin | Hin]; [discriminate Hin|]);
                  exact Hin ]);
          cbn [app] in K
      end
  | _ => idtac
  end.

Section Labels.

Variable m : md.t.

Lemma non_parallel_fields_labels (layer msg : dict pyval) :
  non_parallel_fields m layer = Ok msg ->
  dict_keys msg = replicated_labels m layer.
Proof.
  unfold non_parallel_fields, replicated_labels, has_entry. intros H.
  destruct (md.norm_has_bias m), (md.linear_bias m);
    destruct (negb (is_none (dict_get_or_none layer "self_attn_q_layernorm_weight")));
    destruct (negb (is_none (dict_get_or_none layer "self_attn_k_layernorm_weight")));
    destruct (negb (is_none (dict_get_or_none layer "mlp_xielu_alpha_p")));
    destruct (negb (is_none (dict_get_or_none layer "mlp_xielu_alpha_n")));
    inv_res; reflexivity.
Qed.

Lemma replicated_not_merged (layer : dict pyval) (k : string) :
  In k (replicated_labels m layer) -> ~ In k parallel_labels.
Proof.
  unfold replicated_labels.
  destruct (md.norm_has_bias m), (md.linear_bias m),
    (has_entry layer "self_attn_q_layernorm_weight"),
    (has_entry layer "self_attn_k_layernorm_weight"),
    (has_entry layer "mlp_xielu_alpha_p"),
    (has_entry layer "mlp_xielu_alpha_n");
    cbn [app In]; intros Hk;
    repeat (destruct Hk as [<- | Hk];
            [cbv [parallel_labels In]; intros Hin;
             repeat (destruct Hin as [Hin | Hin]; [discriminate Hin|]); exact Hin|]);
    contradiction.
Qed.

(** Appending a fresh label. *)
Lemma keys_step (d : dict pyval) (k : string) (v : pyval) (base done : list string) :
  dict_keys d = base ++ done ->
  ~ In k base -> ~ In k done ->
  dict_keys (dict_set d k v) = base ++ (done ++ [k]).
Proof.
  intros Hd Hb Hn. rewrite dict_keys_set_fresh.
  - rewrite Hd, app_assoc. reflexivity.
  - rewrite Hd. intros Hin. apply in_app_or in Hin. destruct Hin; contradiction.
Qed.

Lemma parallel_fields_labels (message msg : dict pyval) (p : parallel_tensors) :
  (forall k, In k parallel_labels -> ~ In k (dict_keys message)) ->
  parallel_fields m message p = Ok msg ->
  dict_keys msg = dict_keys message ++ merged_labels m.
Proof.
  intros Hfresh. unfold parallel_fields, merged_labels. intros H.
  assert (H0 : dict_keys message = dict_keys message ++ []) by (rewrite app_nil_r; reflexivity).
  destruct (md.swiglu m), (md.qkv_bias m), (md.linear_bias m); inv_res;
    cbn [app];
    match goal with
    | |- dict_keys ?d = _ =>
        keys_walk keys_step
          ltac:(apply Hfresh; cbv [parallel_labels In]; tauto) d
    end;
    assumption.
Qed.

End Labels.

(* ================================================================== *)
(** ** What the merged fields hold *)

Lemma omap_app_one {A B} (f : A -> result B) (xs : list A) (x : A)
    (ys : list B) (y : B) :
  omap f xs = Ok ys -> f x = Ok y -> omap f (xs ++ [x]) = Ok (ys ++ [y]).
Proof.
  revert ys. induction xs as [|a xs IH]; intros ys Hxs Hx; cbn [app omap] in *.
  - injection Hxs as <-. rewrite Hx. reflexivity.
  - destruct (f a) as [b|]; [|discriminate].
    destruct (omap f xs) as [bs|]; [|discriminate]. injection Hxs as <-.
    rewrite (IH bs eq_refl Hx). reflexivity.
Qed.

Section Merge.

Variable m : md.t.
Variable schema : ModelSchema.
Variable l : nat.

(** The lists gathered over the shards [done ++ todo], once [done] has
    been gathered. *)
Lemma grab_fold (todo : list ModelShard) :
  forall (done : list ModelShard) (acc p : parallel_tensors),
    rank_entries schema done l "self_attn_qkv_weight" = Ok (qkv_weight acc) ->
    rank_entries schema done l "self_attn_proj_weight" = Ok (dense_weight acc) ->
    rank_entries schema done l "mlp_fc1_weight" = Ok (mlp_l0_weight acc) ->
    rank_entries schema done l "mlp_fc2_weight" = Ok (mlp_l1_weight acc) ->
    (if md.qkv_bias m
     then rank_entries schema done l "self_attn_qkv_bias" = Ok (qkv_bias acc)
     else qkv_bias acc = []) ->
    (if md.linear_bias m
     then rank_entries schema done l "mlp_fc1_bias" = Ok (mlp_l0_bias acc)
     else mlp_l0_bias acc = []) ->
    ofold todo (grab_parallel m schema l) acc = Ok p ->
    rank_entries schema (done ++ todo) l "self_attn_qkv_weight" = Ok (qkv_weight p)
    /\ rank_entries schema (done ++ todo) l "self_attn_proj_weight"
       = Ok (dense_weight p)
    /\ rank_entries schema (done ++ todo) l "mlp_fc1_weight" = Ok (mlp_l0_weight p)
    /\ rank_entries schema (done ++ todo) l "mlp_fc2_weight" = Ok (mlp_l1_weight p)
    /\ (if md.qkv_bias m
        then rank_entries schema (done ++ todo) l "self_attn_qkv_bias"
             = Ok (qkv_bias p)
        else qkv_bias p = [])
    /\ (if md.linear_bias m
        then rank_entries schema (done ++ todo) l "mlp_fc1_bias"
             = Ok (mlp_l0_bias p)
        else mlp_l0_bias p = []).
Proof.
  induction todo as [|x todo IH]; intros done acc p Hq Hd H0 H1 Hqb Hlb H.
  - cbn in H. injection H as <-. rewrite app_nil_r. repeat split; assumption.
  - cbn [ofold] in H.
    destruct (grab_parallel m schema l x acc) as [acc'|] eqn:Eg;
      cbn [obind] in H; [|discriminate].
    replace (done ++ x :: todo) with ((done ++ [x]) ++ todo)
      by (rewrite <- app_assoc; reflexivity).
    unfold grab_parallel in Eg.
    destruct (get_layer schema x l) as [layer|] eqn:El; cbn [obind] in Eg;
      [|discriminate].
    destruct (dict_get layer "self_attn_qkv_weight") as [qkv_w|] eqn:E1;
      cbn [obind] in Eg; [|discriminate].
    destruct (dict_get layer "self_attn_proj_weight") as [dense_w|] eqn:E2;
      cbn [obind] in Eg; [|discriminate].
    destruct (dict_get layer "mlp_fc1_weight") as [l0_w|] eqn:E3;
      cbn [obind] in Eg; [|discriminate].
    destruct (dict_get layer "mlp_fc2_weight") as [l1_w|] eqn:E4;
      cbn [obind] in Eg; [|discriminate].
    assert (Hentry : forall key v,
              dict_get layer key = Ok v ->
              (layer <- get_layer schema x l ;; dict_get layer key)%pure = Ok v).
    { intros key v Hv. rewrite El. exact Hv. }
    unfold rank_entries in *.
    destruct (md.qkv_bias m), (md.linear_bias m);
      cbn [obind] in Eg; inv_res;
      refine (IH (done ++ [x]) _ p _ _ _ _ _ _ H);
      cbn [qkv_weight qkv_bias dense_weight
           mlp_l0_weight mlp_l0_bias mlp_l1_weight];
      try (apply omap_app_one; [assumption | apply Hentry; assumption]);
      try assumption.
Qed.

(** The lists gathered over all the shards. *)
Lemma grab_all (models : list ModelShard) (p : parallel_tensors) :
  ofold models (grab_parallel m schema l) (mkParallel [] [] [] [] [] []) = Ok p ->
  rank_entries schema models l "self_attn_qkv_weight" = Ok (qkv_weight p)
  /\ rank_entries schema models l "self_attn_proj_weight" = Ok (dense_weight p)
  /\ rank_entries schema models l "mlp_fc1_weight" = Ok (mlp_l0_weight p)
  /\ rank_entries schema models l "mlp_fc2_weight" = Ok (mlp_l1_weight p)
  /\ (if md.qkv_bias m
      then rank_entries schema models l "self_attn_qkv_bias" = Ok (qkv_bias p)
      else qkv_bias p = [])
  /\ (if md.linear_bias m
      then rank_entries schema models l "mlp_fc1_bias" = Ok (mlp_l0_bias p)
      else mlp_l0_bias p = []).
Proof.
  intros H. apply (grab_fold models [] _ p) in H; try reflexivity.
  - exact H.
  - destruct (md.qkv_bias m); reflexivity.
  - destruct (md.linear_bias m); reflexivity.
Qed.

(** The merged fields: which concatenation each label holds. *)
Lemma parallel_fields_content (message msg : dict pyval) (p : parallel_tensors) :
  parallel_fields m message p = Ok msg ->
  (exists v, torch_cat0 (qkv_weight p) = Ok v
             /\ dict_find msg "qkv weight" = Some v)
  /\ (exists v, torch_cat1 (dense_weight p) = Ok v
                /\ dict_find msg "dense weight" = Some v)
  /\ (exists v, torch_cat1 (mlp_l1_weight p) = Ok v
                /\ dict_find msg "mlp l1 weight" = Some v)
  /\ (md.swiglu m = false ->
      exists v, torch_cat0 (mlp_l0_weight p) = Ok v
                /\ dict_find msg "mlp l0 weight" = Some v)
  /\ (md.swiglu m = true ->
      exists chunks w v,
        chunk_each (md.previous_tensor_parallel_size m) (mlp_l0_weight p) = Ok chunks
        /\ cat_halves 0 chunks = Ok w /\ cat_halves 1 chunks = Ok v
        /\ dict_find msg "mlp l0 weight W" = Some w
        /\ dict_find msg "mlp l0 weight V" = Some v)
  /\ (md.qkv_bias m = true ->
      exists v, torch_cat0 (qkv_bias p) = Ok v
                /\ dict_find msg "qkv bias" = Some v)
  /\ (md.linear_bias m = true -> md.swiglu m = false ->
      exists v, torch_cat0 (mlp_l0_bias p) = Ok v
                /\ dict_find msg "mlp l0 bias" = Some v)
  /\ (md.linear_bias m = true -> md.swiglu m = true ->
      exists chunks w v,
        chunk_each (md.previous_tensor_parallel_size m) (mlp_l0_bias p) = Ok chunks
        /\ cat_halves 0 chunks = Ok w /\ cat_halves 1 chunks = Ok v
        /\ dict_find msg "mlp l0 bias W" = Some w
        /\ dict_find msg "mlp l0 bias V" = Some v).
Proof.
  unfold parallel_fields. intros H.
  destruct (md.swiglu m), (md.qkv_bias m), (md.linear_bias m); inv_res;
    repeat split; try (intros; discriminate); intros;
    repeat eexists; try eassumption; find_tac; reflexivity.
Qed.

End Merge.

(* ================================================================== *)
(** ** The shards the traversal ends on *)

Section LastGroup.

Variable env : environment.
Variable m : md.t.
Variable schema : ModelSchema.

Hypothesis tp_of_m : md.previous_tensor_parallel_size m = tp_size env.

Lemma send_stage_models (v p k : nat) (s s' : state) :
  all_models s = map (shard_matrix env) (seq 0 k) ->
  (v = 0 -> k = Nat.max 1 p) ->
  send_stage env m schema v p s = (s', Ret tt) ->
  models s' = stage_shards env p v.
Proof.
  intros Hcache Hk H. unfold send_stage in H.
  apply mbind_ret_inv in H. destruct H as (u & s1 & H1 & H).
  apply (load_stage_spec env m tp_of_m v p k _ _ _ Hcache Hk) in H1.
  destruct H1 as (_ & _ & [D | (_ & A1)]); [discriminate|].
  apply (send_group_spec env m schema tp_of_m v p _ _ _ _ A1) in H.
  destruct H as (_ & _ & msgs & _ & _ & _ & R & _).
  apply (R eq_refl).
Qed.

Lemma pass_models (v n : nat) :
  forall (a k : nat) (s s' : state),
    all_models s = map (shard_matrix env) (seq 0 k) ->
    (v = 0 -> k = Nat.max 1 a) ->
    for_each (seq a n) (send_stage env m schema v) s = (s', Ret tt) ->
    0 < n ->
    models s' = stage_shards env (a + n - 1) v.
Proof.
  induction n as [|n IH]; intros a k s s' Hcache Hk H Hn; [lia|].
  cbn [seq for_each] in H.
  apply mbind_ret_inv in H. destruct H as (u & s1 & H1 & H). destruct u.
  pose proof (send_stage_models v a k _ _ Hcache Hk H1) as Hm.
  apply (send_stage_spec env m schema tp_of_m v a k _ _ _ Hcache Hk) in H1.
  destruct H1 as (_ & msgs & _ & _ & _ & R & _).
  destruct (R eq_refl) as (A1 & _).
  destruct n as [|n].
  - cbn in H. inversion H; subst. rewrite Hm. f_equal. lia.
  - apply (IH (S a) _ _ _ A1) in H; [ | intros Hv; rewrite Hv; reflexivity | lia ].
    rewrite H. f_equal. lia.
Qed.

Hypothesis pp_of_m : md.previous_pipeline_parallel_size m = pp_size env.

Lemma passes_models (n : nat) :
  forall (b k : nat) (s s' : state),
    all_models s = map (shard_matrix env) (seq 0 k) ->
    (b = 0 -> k = 1) ->
    (b <> 0 -> k = Nat.max 1 (pp_size env)) ->
    for_each (seq b n)
      (fun v => for_range (md.previous_pipeline_parallel_size m)
                  (send_stage env m schema v)) s = (s', Ret tt) ->
    0 < n -> 0 < pp_size env ->
    models s' = stage_shards env (pp_size env - 1) (b + n - 1).
Proof.
  rewrite pp_of_m.
  induction n as [|n IH]; intros b k s s' Hcache Hb0 Hb1 H Hn Hpp; [lia|].
  cbn [seq for_each] in H.
  apply mbind_ret_inv in H. destruct H as (u & s1 & H1 & H). destruct u.
  unfold for_range in H1.
  assert (Hk : b = 0 -> k = Nat.max 1 0).
  { intros Hv. rewrite (Hb0 Hv). reflexivity. }
  pose proof (pass_models b (pp_size env) 0 k _ _ Hcache Hk H1 Hpp) as Hm.
  apply (pass_spec env m schema tp_of_m b (pp_size env) 0 k _ _ _ Hcache Hk) in H1.
  destruct H1 as (_ & msgs & _ & _ & _ & R & _).
  destruct (R eq_refl) as (A1 & _).
  assert (A1' : all_models s1
                = map (shard_matrix env) (seq 0 (Nat.max 1 (pp_size env)))).
  { rewrite A1. destruct (Nat.eqb_spec b 0) as [Hv|Hv]; [reflexivity|].
    rewrite (Hb1 Hv). reflexivity. }
  destruct n as [|n].
  - cbn in H. inversion H; subst. rewrite Hm. f_equal; lia.
  - apply (IH (S b) _ _ _ A1') in H; [ | discriminate | reflexivity | lia | exact Hpp ].
    rewrite H. f_equal. lia.
Qed.

(** A traversal that returns leaves [models] on the last group. *)
Lemma send_layers_models (s s' : state) :
  all_models s = [shard_matrix env 0] ->
  send_layers env m schema s = (s', Ret tt) ->
  0 < vp_size env -> 0 < pp_size env ->
  models s' = stage_shards env (pp_size env - 1) (vp_size env - 1).
Proof.
  intros Hcache H Hvp Hpp. unfold send_layers in H.
  apply mbind_ret_inv in H. destruct H as (u & s1 & H1 & H).
  apply modify_inv in H1. destruct H1 as [-> _].
  unfold for_range in H.
  apply (passes_models (model_array_len env) 0 1) in H;
    [ | destruct s; exact Hcache | reflexivity | congruence | exact Hvp | exact Hpp ].
  exact H.
Qed.

End LastGroup.

(* ================================================================== *)
(** ** What is sent after the layers *)

Lemma tame_queue_grows {A} (c : M A) (s s' : state) (o : outcome A) (item : qitem) :
  tame c -> c s = (s', o) -> In item (queue s) -> In item (queue s').
Proof.
  intros Hc H Hin. destruct (Hc _ _ _ H) as ((items & Q & _) & _).
  rewrite Q. apply in_or_app. left. exact Hin.
Qed.

Section Tail.

Variable env : environment.
Variable m : md.t.
Variable schema : ModelSchema.

(** A builder followed by [queue_put], when it returns. *)
Lemma send_message_ret (name : string)
    (builder : list ModelShard -> result (dict pyval)) (s s' : state) :
  mbind (gets models)
    (fun ms => mbind (lift (builder ms)) (fun message => queue_put name message)) s
  = (s', Ret tt) ->
  models s' = models s
  /\ exists msg, builder (models s) = Ok msg
                 /\ In (named_item (name, msg)) (queue s').
Proof.
  intros H. apply send_message_spec in H.
  destruct H as [(msg & Hb & _ & ->) | (e & _ & D & _)]; [|discriminate].
  split; [destruct s; reflexivity|].
  exists msg. split; [exact Hb|].
  rewrite queue_set_queue. apply in_or_app. right. left. reflexivity.
Qed.

Lemma send_bert_ret (s s' : state) :
  send_bert m schema s = (s', Ret tt) ->
  models s' = models s
  /\ (String.eqb (md.model_type m) "BERT" = true ->
      exists po lm,
        pooler_message schema (models s) = Ok po
        /\ lm_head_message m schema (models s) = Ok lm
        /\ In (named_item ("pooler", po)) (queue s')
        /\ In (named_item ("lm head", lm)) (queue s')
        /\ (md.bert_binary_head m = true ->
            exists bh,
              binary_head_message schema (models s) = Ok bh
              /\ In (named_item ("binary head", bh)) (queue s'))).
Proof.
  unfold send_bert. destruct (String.eqb (md.model_type m) "BERT").
  - intros H.
    apply mbind_ret_inv in H. destruct H as (ms & s1 & H1 & H).
    apply gets_inv in H1. destruct H1 as [-> H1]. injection H1 as ->.
    apply mbind_ret_inv in H. destruct H as (po & s1 & H1 & H).
    apply lift_ret_inv in H1. destruct H1 as [-> Hpo].
    apply mbind_ret_inv in H. destruct H as (u & s1 & H1 & H).
    unfold queue_put, put in H1. apply modify_inv in H1. destruct H1 as [-> _].
    apply mbind_ret_inv in H. destruct H as (lm & s1 & H1 & H).
    apply lift_ret_inv in H1. destruct H1 as [-> Hlm].
    apply mbind_ret_inv in H. destruct H as (u1 & s1 & H1 & H).
    unfold queue_put, put in H1. apply modify_inv in H1. destruct H1 as [-> _].
    destruct (md.bert_binary_head m).
    + apply mbind_ret_inv in H. destruct H as (bh & s1 & H1 & H).
      apply lift_ret_inv in H1. destruct H1 as [-> Hbh].
      unfold queue_put, put in H. apply modify_inv in H. destruct H as [-> _].
      destruct s as [q ct cv p0 am ms tl md0]. state_simpl.
      split; [reflexivity|]. intros _. exists po, lm.
      split; [exact Hpo|]. split; [exact Hlm|].
      split; [apply in_or_app; left; apply in_or_app; left;
              apply in_or_app; right; left; reflexivity|].
      split; [apply in_or_app; left; apply in_or_app; right; left; reflexivity|].
      intros _. exists bh. split; [exact Hbh|].
      apply in_or_app. right. left. reflexivity.
    + apply mret_inv in H. destruct H as [-> _].
      destruct s as [q ct cv p0 am ms tl md0]. state_simpl.
      split; [reflexivity|]. intros _. exists po, lm.
      split; [exact Hpo|]. split; [exact Hlm|].
      split; [apply in_or_app; left; apply in_or_app; right; left; reflexivity|].
      split; [apply in_or_app; right; left; reflexivity|].
      discriminate.
  - intros H. apply mret_inv in H. destruct H as [-> _].
    split; [reflexivity | discriminate].
Qed.

(** Everything after the layers is built from the shards [models] holds
    when the traversal ends. *)
Lemma send_tail_content (s s' : state) :
  send_tail env m schema s = (s', Ret tt) ->
  (exists fn,
     final_norm_message m schema (models s) = Ok fn
     /\ In (named_item ("final norm", fn)) (queue s'))
  /\ (md.output_layer m = true ->
      exists ol,
        output_layer_message schema (models s) = Ok ol
        /\ In (named_item ("output layer", ol)) (queue s'))
  /\ (String.eqb (md.model_type m) "BERT" = true ->
      exists po lm,
        pooler_message schema (models s) = Ok po
        /\ lm_head_message m schema (models s) = Ok lm
        /\ In (named_item ("pooler", po)) (queue s')
        /\ In (named_item ("lm head", lm)) (queue s')
        /\ (md.bert_binary_head m = true ->
            exists bh,
              binary_head_message schema (models s) = Ok bh
              /\ In (named_item ("binary head", bh)) (queue s'))).
Proof.
  unfold send_tail. intros H.
  apply mbind_ret_inv in H. destruct H as (u & s1 & H1 & H). destruct u.
  unfold send_final_norm in H1. apply send_message_ret in H1.
  destruct H1 as (M1 & fn & Hfn & In1).
  apply mbind_ret_inv in H. destruct H as (u & s2 & H2 & H). destruct u.
  assert (Hout : models s2 = models s1
                 /\ (md.output_layer m = true ->
                     exists ol,
                       output_layer_message schema (models s1) = Ok ol
                       /\ In (named_item ("output layer", ol)) (queue s2))).
  { unfold send_output_layer in H2. destruct (md.output_layer m).
    - apply send_message_ret in H2. destruct H2 as (M2 & ol & Hol & In2).
      split; [exact M2|]. intros _. exists ol. split; assumption.
    - apply mret_inv in H2. destruct H2 as [-> _].
      split; [reflexivity | discriminate]. }
  destruct Hout as (M2 & Hol).
  assert (Hgrow2 : forall item, In item (queue s1) -> In item (queue s2)).
  { intros item. apply (tame_queue_grows _ _ _ _ _ (tame_send_output_layer m schema) H2). }
  apply mbind_ret_inv in H. destruct H as (u & s3 & H3 & H). destruct u.
  assert (Hgrow3 : forall item, In item (queue s2) -> In item (queue s3)).
  { intros item. apply (tame_queue_grows _ _ _ _ _ (tame_send_bert m schema) H3). }
  apply send_bert_ret in H3. destruct H3 as (M3 & Hbert).
  apply mbind_ret_inv in H. destruct H as (u & s4 & H4 & H). destruct u.
  assert (Hgrow4 : forall item, In item (queue s3) -> In item (queue s4)).
  { intros item. apply (tame_queue_grows _ _ _ _ _ (tame_send_logits env) H4). }
  unfold put in H. apply modify_inv in H. destruct H as [-> _].
  assert (Hgrow5 : forall item, In item (queue s4) ->
                     In item (queue (set_queue (queue s4 ++ [QStr "done"]) s4))).
  { intros item Hin. rewrite queue_set_queue. apply in_or_app. left. exact Hin. }
  split; [exists fn; split; [exact Hfn | auto]|].
  split.
  - intros Ho. destruct (Hol Ho) as (ol & Hb & Hin).
    exists ol. rewrite <- M1. split; [exact Hb | auto].
  - intros Hb. rewrite M2, M1 in Hbert.
    destruct (Hbert Hb) as (po & lm & Hpo & Hlm & Ipo & Ilm & Hbin).
    exists po, lm. split; [exact Hpo|]. split; [exact Hlm|].
    split; [auto|]. split; [auto|].
    intros Hbh. destruct (Hbin Hbh) as (bh & Hbhm & Ibh).
    exists bh. split; [exact Hbhm | auto].
Qed.

End Tail.

(* ================================================================== *)
(** ** The first stage, when its shards agree *)

Section Agreeing.

Variable env : environment.
Variables ct cv : Z.

(** A rank whose counters are the expected ones loads without failing. *)
Lemma get_models_rank_agree (rank : nat) (s : state) :
  loaded_consumed_train_samples env (mpu_pipeline_rank s) rank = ct ->
  loaded_consumed_valid_samples env (mpu_pipeline_rank s) rank = cv ->
  consumed_train_samples s = None \/ consumed_train_samples s = Some ct ->
  consumed_valid_samples s = None \/ consumed_valid_samples s = Some cv ->
  exists s',
    get_models_rank env rank (matrix_upto env rank (mpu_pipeline_rank s)) s
    = (s', Ret (matrix_upto env (S rank) (mpu_pipeline_rank s)))
    /\ same_locals s s'
    /\ consumed_train_samples s' = Some ct
    /\ consumed_valid_samples s' = Some cv.
Proof.
  destruct s as [q t v p am ms tl md0].
  cbn [mpu_pipeline_rank consumed_train_samples consumed_valid_samples].
  intros Ht Hv Hst Hsv.
  unfold get_models_rank, mbind, gets, modify, lift, same_locals.
  cbn [mpu_pipeline_rank consumed_train_samples consumed_valid_samples].
  rewrite loaded_models, (append_rank env rank p), Ht, Hv.
  destruct Hst as [-> | ->]; destruct Hsv as [-> | ->]; cbn;
    rewrite ?Z.eqb_refl; cbn;
    eexists; (split; [reflexivity|]); cbn; repeat split.
Qed.

(** The ranks [a .. a+n-1], all reporting the expected counters. *)
Lemma get_models_from_agree (n : nat) :
  forall (a : nat) (s : state),
    (forall t, a <= t < a + n ->
       loaded_consumed_train_samples env (mpu_pipeline_rank s) t = ct
       /\ loaded_consumed_valid_samples env (mpu_pipeline_rank s) t = cv) ->
    consumed_train_samples s = None \/ consumed_train_samples s = Some ct ->
    consumed_valid_samples s = None \/ consumed_valid_samples s = Some cv ->
    exists s',
      mfold (seq a n) (get_models_rank env)
        (matrix_upto env a (mpu_pipeline_rank s)) s
      = (s', Ret (matrix_upto env (a + n) (mpu_pipeline_rank s)))
      /\ same_locals s s'
      /\ (0 < n -> consumed_train_samples s' = Some ct
                   /\ consumed_valid_samples s' = Some cv).
Proof.
  induction n as [|n IH]; intros a s Hall Hst Hsv.
  - exists s. rewrite Nat.add_0_r. split; [reflexivity|].
    split; [apply same_locals_refl | lia].
  - destruct (Hall a ltac:(lia)) as (Ha1 & Ha2).
    destruct (get_models_rank_agree a s Ha1 Ha2 Hst Hsv) as (s1 & H1 & L1 & T1 & V1).
    assert (Hp : mpu_pipeline_rank s1 = mpu_pipeline_rank s) by apply L1.
    destruct (IH (S a) s1) as (s' & H2 & L2 & _).
    + intros t Ht. rewrite Hp. apply Hall. lia.
    + right. exact T1.
    + right. exact V1.
    + exists s'. cbn [seq mfold]. unfold mbind. rewrite H1.
      rewrite Hp in H2. rewrite H2.
      replace (S a + n) with (a + S n) by lia.
      split; [reflexivity|].
      split; [eapply same_locals_trans; eassumption|].
      intros _.
      destruct (get_models_from env n (S a) s1 s' _
                  ltac:(rewrite Hp; exact H2)) as (_ & T & V & _).
      split; [apply T, T1 | apply V, V1].
Qed.

Lemma get_models_agree (count : nat) (s : state) :
  0 < count ->
  (forall t, t < count ->
     loaded_consumed_train_samples env (mpu_pipeline_rank s) t = ct
     /\ loaded_consumed_valid_samples env (mpu_pipeline_rank s) t = cv) ->
  consumed_train_samples s = None \/ consumed_train_samples s = Some ct ->
  consumed_valid_samples s = None \/ consumed_valid_samples s = Some cv ->
  exists s',
    get_models env count s
    = (s', Ret (matrix_upto env count (mpu_pipeline_rank s)))
    /\ same_locals s s'
    /\ consumed_train_samples s' = Some ct
    /\ consumed_valid_samples s' = Some cv.
Proof.
  intros Hc Hall Hst Hsv.
  destruct (get_models_from_agree count 0 s) as (s' & H & L & C); try assumption.
  - intros t Ht. apply Hall. lia.
  - exists s'. unfold get_models. rewrite <- (matrix_upto_0 env (mpu_pipeline_rank s)).
    split; [exact H|]. split; [exact L | exact (C Hc)].
Qed.

End Agreeing.

(** With a first stage whose shards agree, the head sends the metadata and
    then selects the schema and sends the embeddings from the state [s1]. *)
Lemma send_head_sends_metadata (env : environment) :
  0 < tp_size env -> 0 < vp_size env ->
  (forall t, t < tp_size env ->
     loaded_consumed_train_samples env 0 t = loaded_consumed_train_samples env 0 0
     /\ loaded_consumed_valid_samples env 0 t
        = loaded_consumed_valid_samples env 0 0) ->
  let m := md.with_consumed (md_of env)
             (Some (loaded_consumed_train_samples env 0 0))
             (Some (loaded_consumed_valid_samples env 0 0)) in
  exists s1,
    queue s1 = [QMetadata m]
    /\ models s1 = stage_shards env 0 0
    /\ send_head env (md_of env) initial_state
       = mbind (lift (schema_of env))
           (fun schema =>
              mbind (send_embeddings m schema) (fun _ => mret (m, schema))) s1.
Proof.
  intros Htp Hvp Hall. cbv zeta.
  destruct (get_models_agree env _ _ (tp_size env)
              (set_mpu_pipeline_rank 0 initial_state) Htp Hall
              (or_introl eq_refl) (or_introl eq_refl))
    as (s0 & Hg & (Lq & La & Lt & Lp & Lm) & Ct & Cv).
  destruct s0 as [q0 ct0 cv0 p0 am0 ms0 tl0 md0].
  cbn [queue all_models total_layer_num mpu_pipeline_rank models
       consumed_train_samples consumed_valid_samples initial_state
       set_mpu_pipeline_rank] in *.
  subst.
  eexists. split; [|split].
  3: { unfold send_head.
       change (md.previous_tensor_parallel_size (md_of env)) with (tp_size env).
       unfold mbind at 1. unfold modify at 1. cbv beta iota.
       unfold mbind at 1. rewrite Hg. cbv beta iota.
       unfold mbind at 1. unfold modify at 1. cbv beta iota.
       unfold mbind at 1. unfold gets at 1. cbv beta iota.
       cbn [all_models set_all_models queue consumed_train_samples
            consumed_valid_samples mpu_pipeline_rank models total_layer_num model].
       unfold mbind at 1. unfold lift at 1.
       cbn [list_index nth_error]. cbv beta iota.
       unfold mbind at 1. unfold lift at 1.
       unfold matrix_upto at 1. unfold vp_size in Hvp.
       rewrite (proj2 (nth_error_map_seq_ok _ _ _ Hvp)).
       cbv beta iota.
       unfold mbind at 1. unfold modify at 1. cbv beta iota.
       unfold mbind at 1. unfold gets at 1. cbv beta iota.
       unfold mbind at 1. unfold gets at 1. cbv beta iota.
       cbn [all_models set_all_models set_models queue consumed_train_samples
            consumed_valid_samples mpu_pipeline_rank models total_layer_num model].
       unfold mbind at 1. unfold put at 1. unfold modify at 1. cbv beta iota.
       cbn [all_models set_all_models set_models set_queue queue
            consumed_train_samples consumed_valid_samples mpu_pipeline_rank
            models total_layer_num model app].
       reflexivity. }
  - reflexivity.
  - reflexivity.
Qed.

(** When the schema selection or the embeddings builder raises, the run
    has sent the metadata and nothing else. *)
Lemma run_fails_after_metadata (env : environment) (e : exn) :
  prepare_checks env = true ->
  0 < tp_size env -> 0 < vp_size env ->
  (forall t, t < tp_size env ->
     loaded_consumed_train_samples env 0 t = loaded_consumed_train_samples env 0 0
     /\ loaded_consumed_valid_samples env 0 t
        = loaded_consumed_valid_samples env 0 0) ->
  let m := md.with_consumed (md_of env)
             (Some (loaded_consumed_train_samples env 0 0))
             (Some (loaded_consumed_valid_samples env 0 0)) in
  schema_of env = Error e
  \/ (exists schema,
        schema_of env = Ok schema
        /\ embeddings_message m schema (stage_shards env 0 0) = Error e) ->
  queue (fst (run env)) = [QMetadata m; QStr "exit"]
  /\ snd (run env) = Raise e.
Proof.
  intros Hc Htp Hvp Hall. cbv zeta. intros Hfail.
  destruct (send_head_sends_metadata env Htp Hvp Hall) as (s1 & Q1 & M1 & Hh).
  cbv zeta in Hh.
  assert (Hhead : exists s2,
             send_head env (md_of env) initial_state = (s2, Raise e)
             /\ queue s2 = queue s1).
  { rewrite Hh. destruct Hfail as [Hs | (schema & Hs & Hemb)].
    - exists s1. unfold mbind, lift. rewrite Hs. split; reflexivity.
    - exists s1. unfold mbind at 1. unfold lift at 1. rewrite Hs. cbv beta iota.
      unfold send_embeddings, mbind, gets, lift. rewrite M1, Hemb.
      split; reflexivity. }
  destruct Hhead as (s2 & Hhead & Q2).
  rewrite run_unfold.
  destruct (prepare_cases env) as [[_ Hp] | [Hc' _]]; [|congruence].
  rewrite Hp. unfold send_all, mbind. rewrite Hhead. cbn [fst snd].
  rewrite queue_set_queue, Q2, Q1. split; reflexivity.
Qed.

(** The embeddings builder on shards whose word tables concatenate. *)
Lemma embeddings_message_eval (m : md.t) (schema : ModelSchema)
    (model0 : ModelShard) (rest : list ModelShard) (w : pyval) :
  embeddings schema = core_embeddings ->
  torch_cat0 (map word_table (model0 :: rest)) = Ok w ->
  embeddings_message m schema (model0 :: rest)
  = if String.eqb (md.position_embedding_type m) "learned_absolute"
    then Ok [("word embeddings", w); ("position embeddings", position_table model0)]
    else if is_none (position_table model0)
         then Ok [("word embeddings", w)]
         else Error AssertionError.
Proof.
  intros Hemb Hw. unfold embeddings_message.
  rewrite (omap_map _ (fun model => [("pos", position_table model);
                                     ("word", word_table model)])).
  2: { intros model _. unfold get, section_of, dict_get. cbn [dict_find String.eqb].
       cbn. rewrite Hemb. reflexivity. }
  cbn [obind].
  assert (Hwords : forall ms,
            omap (fun e => dict_get e "word")
              (map (fun model => [("pos", position_table model);
                                  ("word", word_table model)]) ms)
            = Ok (map word_table ms)).
  { intros ms. induction ms as [|x xs IH]; [reflexivity|].
    cbn [map omap]. rewrite IH. reflexivity. }
  rewrite Hwords. cbn [obind]. rewrite Hw.
  cbn [obind map list_index nth_error dict_get dict_find].
  cbn. destruct (String.eqb (md.position_embedding_type m) "learned_absolute");
    [reflexivity|].
  destruct (position_table model0); reflexivity.
Qed.

(* ================================================================== *)
(** ** The gated merge on shards of one shape *)

Lemma chunk_each_map (tp : nat) (g : pyval -> pyval) (xs : list pyval) :
  length xs = tp ->
  (forall x, In x xs -> torch_chunk2 x = Ok (g x)) ->
  chunk_each tp xs = Ok (map g xs).
Proof.
  intros Hlen Hg. unfold chunk_each.
  pose proof (ofold_assign_map torch_chunk2 g xs [] Hg) as Hfold.
  cbn [length app] in Hfold. rewrite Hlen in Hfold. exact Hfold.
Qed.

(** Picking piece [j] of every tuple and concatenating. *)
Lemma cat_halves_tuples {A} (j : nat) (pieces : A -> list tensor)
    (pick : A -> tensor) (l : list A) (t : tensor) :
  (forall x, In x l -> nth_error (pieces x) j = Some (pick x)) ->
  cat0 (map pick l) = Ok t ->
  cat_halves j (map (fun x => PTuple (map PTensor (pieces x))) l) = Ok (PTensor t).
Proof.
  intros Hpick. unfold cat_halves.
  assert (Homap : omap (fun w => py_index w j)
                    (map (fun x => PTuple (map PTensor (pieces x))) l)
                  = Ok (map PTensor (map pick l))).
  { induction l as [|x l IH]; [reflexivity|].
    cbn [map omap py_index]. unfold list_index.
    rewrite nth_error_map, (Hpick x (or_introl eq_refl)). cbn [option_map].
    rewrite IH; [reflexivity|]. intros y Hy. apply Hpick. right. exact Hy. }
  intros Hcat. rewrite Homap. cbn [obind]. apply torch_cat0_tensors. exact Hcat.
Qed.

Lemma concat_map_data {A} (f : A -> tensor) (l : list A) :
  concat (map data (map f l)) = concat (map (fun x => data (f x)) l).
Proof. rewrite map_map. reflexivity. Qed.

(* ================================================================== *)
(** ** The loop variable [model] *)

Lemma keeps_model_mret {A} (a : A) : keeps_model (mret a).
Proof. intros s s' o H. apply mret_inv in H. destruct H as [-> _]. reflexivity. Qed.

Lemma keeps_model_lift {A} (r : result A) : keeps_model (lift r).
Proof. intros s s' o H. apply lift_inv in H. destruct H as [-> _]. reflexivity. Qed.

Lemma keeps_model_gets {A} (f : state -> A) : keeps_model (gets f).
Proof. intros s s' o H. apply gets_inv in H. destruct H as [-> _]. reflexivity. Qed.

Lemma keeps_model_queue_put (name : string) (msg : dict pyval) :
  keeps_model (queue_put name msg).
Proof.
  intros s s' o H. unfold queue_put, put in H. apply modify_inv in H.
  destruct H as [-> _]. destruct s. reflexivity.
Qed.

Lemma keeps_model_mbind {A B} (m : M A) (k : A -> M B) :
  keeps_model m -> (forall a, keeps_model (k a)) -> keeps_model (mbind m k).
Proof.
  intros Hm Hk s s' o H. apply mbind_inv in H.
  destruct H as [(a & s1 & H1 & H2) | [(e & H1 & ->) | (c & H1 & ->)]].
  - rewrite (Hk a _ _ _ H2). exact (Hm _ _ _ H1).
  - exact (Hm _ _ _ H1).
  - exact (Hm _ _ _ H1).
Qed.

Lemma keeps_model_if {A} (b : bool) (c1 c2 : M A) :
  keeps_model c1 -> keeps_model c2 -> keeps_model (if b then c1 else c2).
Proof. destruct b; intros; assumption. Qed.

Lemma keeps_model_ok {A} (c : M A) (s s' : state) (o : outcome A) :
  keeps_model c -> c s = (s', o) -> model s' = model s.
Proof. intros Hc H. exact (Hc _ _ _ H). Qed.

Ltac keeps_model_tac :=
  repeat first
    [ apply keeps_model_mret
    | apply keeps_model_lift
    | apply keeps_model_gets
    | apply keeps_model_queue_put
    | apply keeps_model_mbind; [ | intros ? ]
    | apply keeps_model_if ].

Lemma for_each_snoc {A} (xs : list A) (x : A) (body : A -> M unit) :
  forall (s s' : state),
    for_each (xs ++ [x]) body s = (s', Ret tt) ->
    exists s1, for_each xs body s = (s1, Ret tt) /\ body x s1 = (s', Ret tt).
Proof.
  induction xs as [|y xs IH]; intros s s' H; cbn [app for_each] in H.
  - apply mbind_ret_inv in H. destruct H as (u & s1 & H1 & H).
    apply mret_inv in H. destruct H as [-> _]. destruct u.
    exists s. split; [reflexivity | exact H1].
  - apply mbind_ret_inv in H. destruct H as (u & s1 & H1 & H).
    destruct (IH _ _ H) as (s2 & H2 & H3).
    exists s2. split; [|exact H3].
    cbn [for_each]. unfold mbind. rewrite H1. exact H2.
Qed.

Section Model.

Variable env : environment.
Variable m : md.t.
Variable schema : ModelSchema.

Hypothesis tp_of_m : md.previous_tensor_parallel_size m = tp_size env.

Lemma send_layer_model (l : nat) (s s' : state) :
  send_layer m schema l s = (s', Ret tt) ->
  model s' = Some (last (models s) no_shard) /\ models s' = models s.
Proof.
  destruct s as [q ct cv p am ms tl md0].
  unfold send_layer, queue_put, put, mbind, gets, lift, modify. cbn.
  destruct (layer_message m schema ms l) as [msg|e]; cbn;
    intros H; inversion H; subst; cbn.
  split; reflexivity.
Qed.

Lemma layer_loop_model (ls : list nat) :
  forall (s s' : state),
    for_each ls (send_layer m schema) s = (s', Ret tt) ->
    ls <> [] ->
    model s' = Some (last (models s) no_shard).
Proof.
  induction ls as [|l ls IH]; intros s s' H Hne; [congruence|].
  cbn [for_each] in H.
  apply mbind_ret_inv in H. destruct H as (u & s1 & H1 & H). destruct u.
  apply send_layer_model in H1. destruct H1 as (Hm1 & Hms1).
  destruct ls as [|l' ls].
  - cbn in H. inversion H; subst. exact Hm1.
  - rewrite <- Hms1. apply IH; [exact H | discriminate].
Qed.

(** A group that hosts a layer leaves [model] on its last shard. *)
Lemma send_group_model (v p k : nat) (s s' : state) :
  all_models s = map (shard_matrix env) (seq 0 k) ->
  send_group m schema v p s = (s', Ret tt) ->
  0 < layers_with env schema p v ->
  model s' = Some (last (stage_shards env p v) no_shard).
Proof.
  intros Hcache H Hl. unfold send_group in H.
  apply mbind_ret_inv in H. destruct H as (cache & s1 & H1 & H).
  apply gets_inv in H1. destruct H1 as [-> D]. injection D as ->.
  apply mbind_ret_inv in H. destruct H as (stage & s1 & H1 & H).
  apply lift_ret_inv in H1. destruct H1 as [-> Estage].
  rewrite Hcache in Estage. apply list_index_map_seq in Estage.
  destruct Estage as [-> Hp].
  apply mbind_ret_inv in H. destruct H as (ms & s1 & H1 & H).
  apply lift_ret_inv in H1. destruct H1 as [-> Emodels].
  unfold shard_matrix, matrix_upto in Emodels.
  apply list_index_map_seq in Emodels. destruct Emodels as [-> Hv].
  fold (stage_shards env p v) in *.
  apply mbind_ret_inv in H. destruct H as (u & s1 & H1 & H).
  apply modify_inv in H1. destruct H1 as [-> _].
  apply mbind_ret_inv in H. destruct H as (model0 & s1 & H1 & H).
  apply lift_ret_inv in H1. destruct H1 as [-> Emodel0].
  unfold stage_shards, shards_upto in Emodel0.
  apply list_index_map_seq in Emodel0. destruct Emodel0 as [-> Htp].
  apply mbind_ret_inv in H. destruct H as (n & s1 & H1 & H).
  apply lift_ret_inv in H1. destruct H1 as [-> En].
  assert (Hn : layers_with env schema p v = n).
  { unfold layers_with. rewrite En. reflexivity. }
  unfold for_range in H. apply layer_loop_model in H.
  - rewrite H. destruct s. reflexivity.
  - rewrite <- Hn. destruct (layers_with env schema p v); [lia | discriminate].
Qed.

Lemma send_stage_model (v p k : nat) (s s' : state) :
  all_models s = map (shard_matrix env) (seq 0 k) ->
  (v = 0 -> k = Nat.max 1 p) ->
  send_stage env m schema v p s = (s', Ret tt) ->
  0 < layers_with env schema p v ->
  model s' = Some (last (stage_shards env p v) no_shard).
Proof.
  intros Hcache Hk H Hl. unfold send_stage in H.
  apply mbind_ret_inv in H. destruct H as (u & s1 & H1 & H). destruct u.
  apply (load_stage_spec env m tp_of_m v p k _ _ _ Hcache Hk) in H1.
  destruct H1 as (_ & _ & [D | (_ & A1)]); [discriminate|].
  exact (send_group_model v p _ _ _ A1 H Hl).
Qed.

(** A pass whose last stage hosts a layer. *)
Lemma pass_model (v n a k : nat) (s s' : state) :
  all_models s = map (shard_matrix env) (seq 0 k) ->
  (v = 0 -> k = Nat.max 1 a) ->
  for_each (seq a (S n)) (send_stage env m schema v) s = (s', Ret tt) ->
  0 < layers_with env schema (a + n) v ->
  model s' = Some (last (stage_shards env (a + n) v) no_shard).
Proof.
  intros Hcache Hk H Hl. rewrite seq_S in H.
  apply for_each_snoc in H. destruct H as (s1 & H1 & H).
  apply (pass_spec env m schema tp_of_m v n a k _ _ _ Hcache Hk) in H1.
  destruct H1 as (_ & msgs & _ & _ & _ & R & _).
  destruct (R eq_refl) as (A1 & _).
  apply (send_stage_model v (a + n) _ _ _ A1); [|exact H | exact Hl].
  intros Hv. rewrite Hv. reflexivity.
Qed.

Hypothesis pp_of_m : md.previous_pipeline_parallel_size m = pp_size env.

(** A traversal whose last group hosts a layer leaves [model] on the last
    shard of that group. *)
Lemma send_layers_model (s s' : state) :
  all_models s = [shard_matrix env 0] ->
  send_layers env m schema s = (s', Ret tt) ->
  0 < vp_size env -> 0 < pp_size env ->
  0 < layers_with env schema (pp_size env - 1) (vp_size env - 1) ->
  model s'
  = Some (last (stage_shards env (pp_size env - 1) (vp_size env - 1)) no_shard).
Proof.
  intros Hcache H Hvp Hpp Hl. unfold send_layers in H.
  apply mbind_ret_inv in H. destruct H as (u & s1 & H1 & H).
  apply modify_inv in H1. destruct H1 as [-> _].
  unfold for_range at 1 in H. unfold vp_size in *.
  destruct (model_array_len env) as [|vp]; [lia|].
  replace (S vp - 1) with vp in * by lia.
  rewrite seq_S in H. apply for_each_snoc in H. destruct H as (s2 & H2 & H).
  apply (passes_spec env m schema tp_of_m pp_of_m vp 0 1) in H2;
    [ | destruct s; exact Hcache | reflexivity | congruence ].
  destruct H2 as (_ & msgs & _ & _ & R & _).
  destruct (R eq_refl) as (A2 & _).
  cbn [Nat.add] in H. unfold for_range in H. rewrite pp_of_m in H.
  replace (pp_size env) with (S (pp_size env - 1)) in H by lia.
  apply (pass_model vp (pp_size env - 1) 0 _ _ _ A2); [|exact H | exact Hl].
  intros ->. reflexivity.
Qed.

(** The logits check runs the shard [model] holds after the layers. *)
Lemma send_tail_logits (s s' : state) :
  send_tail env m schema s = (s', Ret tt) ->
  args.test_logits (env_args env) = true ->
  exists lg,
    logits_message env (model s) = Ok lg
    /\ In (named_item ("logits_check", lg)) (queue s').
Proof.
  unfold send_tail. intros H Hlogits.
  apply mbind_ret_inv in H. destruct H as (u & s1 & H1 & H). destruct u.
  assert (K1 : model s1 = model s).
  { revert H1. apply (keeps_model_ok (send_final_norm m schema)).
    unfold send_final_norm. keeps_model_tac. }
  apply mbind_ret_inv in H. destruct H as (u & s2 & H2 & H). destruct u.
  assert (K2 : model s2 = model s1).
  { revert H2. apply (keeps_model_ok (send_output_layer m schema)).
    unfold send_output_layer. keeps_model_tac. }
  apply mbind_ret_inv in H. destruct H as (u & s3 & H3 & H). destruct u.
  assert (K3 : model s3 = model s2).
  { revert H3. apply (keeps_model_ok (send_bert m schema)).
    unfold send_bert. keeps_model_tac. }
  apply mbind_ret_inv in H. destruct H as (u & s4 & H4 & H). destruct u.
  unfold send_logits in H4. rewrite Hlogits in H4.
  apply mbind_ret_inv in H4. destruct H4 as (b & s5 & H5 & H4).
  apply gets_inv in H5. destruct H5 as [-> D]. injection D as ->.
  apply mbind_ret_inv in H4. destruct H4 as (lg & s5 & H5 & H4).
  apply lift_ret_inv in H5. destruct H5 as [-> Hlg].
  unfold queue_put, put in H4. apply modify_inv in H4. destruct H4 as [-> _].
  unfold put in H. apply modify_inv in H. destruct H as [-> _].
  exists lg. rewrite <- K1, <- K2, <- K3. split; [exact Hlg|].
  rewrite !queue_set_queue. apply in_or_app. left.
  apply in_or_app. right. left. reflexivity.
Qed.

End Model.

(* ================================================================== *)
(** ** Chunking shards of one shape *)

(** The first pieces of shards with a single row concatenate, and there is
    no second piece to read. *)
Lemma single_row_chunks (rest : list nat) (shards : list tensor) :
  shards <> [] ->
  (forall t, In t shards -> shape t = 1 :: rest) ->
  exists chunks w,
    chunk_each (length shards) (map PTensor shards) = Ok chunks
    /\ cat_halves 0 chunks = Ok w
    /\ cat_halves 1 chunks = Error IndexError.
Proof.
  intros Hne Hshape.
  pose (one := fun t : tensor => mkTensor (1 :: rest) (firstn (numel rest) (data t))).
  exists (map (fun v => match v with
                        | PTensor t => PTuple (map PTensor [one t])
                        | _ => v
                        end) (map PTensor shards)).
  eexists. split; [|split].
  - apply chunk_each_map; [apply length_map|].
    intros x Hx. apply in_map_iff in Hx. destruct Hx as (t & <- & Ht).
    unfold torch_chunk2. cbn [as_tensor obind]. unfold chunk2.
    rewrite (Hshape t Ht). reflexivity.
  - rewrite map_map.
    apply (cat_halves_tuples 0 (fun t => [one t]) one shards).
    + intros x _. reflexivity.
    + rewrite (cat0_uniform 1 rest (map one shards)).
      * reflexivity.
      * intros H. apply map_eq_nil in H. exact (Hne H).
      * intros u Hu. apply in_map_iff in Hu. destruct Hu as (t & <- & _). reflexivity.
      * intros H. injection H as H. discriminate H.
  - rewrite map_map. destruct shards as [|t shards]; [congruence|]. reflexivity.
Qed.

(** The pieces of shards with [n >= 2] rows: the first pieces have
    [ceil(n/2)] rows each, the second pieces the rest. *)
Lemma uneven_chunks (n : nat) (rest : list nat) (shards : list tensor) :
  shards <> [] ->
  (forall t, In t shards -> shape t = n :: rest) ->
  2 <= n ->
  exists chunks,
    chunk_each (length shards) (map PTensor shards) = Ok chunks
    /\ cat_halves 0 chunks
       = Ok (PTensor
               (mkTensor (length shards * ((n + 1) / 2) :: rest)
                  (concat (map (fun t => firstn ((n + 1) / 2 * numel rest) (data t))
                             shards))))
    /\ cat_halves 1 chunks
       = Ok (PTensor
               (mkTensor (length shards * (n - (n + 1) / 2) :: rest)
                  (concat (map (fun t => skipn ((n + 1) / 2 * numel rest) (data t))
                             shards)))).
Proof.
  intros Hne Hshape Hn.
  assert (Hcat : forall (k : nat) (f : tensor -> tensor),
            1 <= k ->
            (forall t, shape (f t) = k :: rest) ->
            cat0 (map f shards)
            = Ok (mkTensor (length shards * k :: rest)
                    (concat (map (fun t => data (f t)) shards)))).
  { intros k f Hk Hf.
    rewrite (cat0_uniform k rest (map f shards)).
    - rewrite length_map, concat_map_data. reflexivity.
    - intros H. apply map_eq_nil in H. exact (Hne H).
    - intros u Hu. apply in_map_iff in Hu. destruct Hu as (t & <- & _). apply Hf.
    - intros H. injection H as H _. lia. }
  pose (lo := fun t : tensor =>
                mkTensor ((n + 1) / 2 :: rest)
                  (firstn ((n + 1) / 2 * numel rest) (data t))).
  pose (hi := fun t : tensor =>
                mkTensor (n - (n + 1) / 2 :: rest)
                  (skipn ((n + 1) / 2 * numel rest) (data t))).
  assert (Hhalf : 1 <= (n + 1) / 2 /\ 1 <= n - (n + 1) / 2).
  { pose proof (Nat.div_mod_eq (n + 1) 2) as Hd.
    pose proof (Nat.mod_upper_bound (n + 1) 2 ltac:(lia)). lia. }
  exists (map (fun v => match v with
                        | PTensor t => PTuple (map PTensor [lo t; hi t])
                        | _ => v
                        end) (map PTensor shards)).
  split; [|split].
  - apply chunk_each_map; [apply length_map|].
    intros x Hx. apply in_map_iff in Hx. destruct Hx as (t & <- & Ht).
    unfold torch_chunk2. cbn [as_tensor obind].
    destruct t as [sh d]. pose proof (Hshape _ Ht) as Hs.
    cbn [shape] in Hs. subst sh. rewrite (chunk2_general n rest d Hn). reflexivity.
  - rewrite map_map.
    apply (cat_halves_tuples 0 (fun t => [lo t; hi t]) lo shards).
    + intros x _. reflexivity.
    + apply (Hcat _ lo (proj1 Hhalf)). intros t. reflexivity.
  - rewrite map_map.
    apply (cat_halves_tuples 1 (fun t => [lo t; hi t]) hi shards).
    + intros x _. reflexivity.
    + apply (Hcat _ hi (proj2 Hhalf)). intros t. reflexivity.
Qed.

(* ================================================================== *)
(** ** The LM head of a completed BERT run *)

(** The LM-head message of a completed BERT run is the one built from the
    shards of the last group. *)
Lemma run_ret_lm_head (env : environment) (s' : state) :
  run env = (s', Ret tt) ->
  0 < pp_size env ->
  String.eqb (args.model_type (env_args env)) "BERT" = true ->
  exists ct cv schema lm,
    schema_of env = Ok schema
    /\ lm_head_message (md.with_consumed (md_of env) ct cv) schema
         (stage_shards env (pp_size env - 1) (vp_size env - 1)) = Ok lm
    /\ In (named_item ("lm head", lm)) (queue s').
Proof.
  rewrite run_unfold.
  destruct (prepare_cases env) as [[Hc Hp] | [_ [(e & Hp) | Hp]]]; rewrite Hp;
    [ | discriminate | discriminate ].
  destruct (send_all env (md_of env) initial_state) as [s2 o2] eqn:Hs.
  intros H Hpp Hbert. assert (o2 = Ret tt /\ s2 = s') as [-> ->].
  { destruct o2; inversion H; subst; split; reflexivity. }
  clear H. unfold send_all in Hs.
  apply mbind_ret_inv in Hs. destruct Hs as (r & s1 & H1 & H).
  apply send_head_ret in H1; [|reflexivity].
  destruct H1 as (emb & Hr & Hschema & _ & _ & A1 & Hvp & _).
  apply mbind_ret_inv in H. destruct H as (u & s3 & H3 & H). destruct u.
  apply send_layers_models in H3;
    [ | rewrite Hr; reflexivity | rewrite Hr; reflexivity | exact A1
      | exact Hvp | exact Hpp ].
  apply send_tail_content in H. rewrite H3, Hr in H.
  destruct H as (_ & _ & Hb).
  destruct (Hb Hbert) as (po & lm & _ & Hlm & _ & Hin & _).
  exists (consumed_train_samples s1), (consumed_valid_samples s1), (snd r), lm.
  split; [exact Hschema|]. split; [exact Hlm | exact Hin].
Qed.

(** The norm fields of the LM-head message. *)
Lemma lm_head_message_norm_fields (mt impl : string) (ne ep : option Z)
    (schema : ModelSchema) (m : md.t) (models : list ModelShard)
    (msg : dict pyval) :
  get_model_schema mt impl ne ep = Ok schema ->
  lm_head_message m schema models = Ok msg ->
  md.norm_has_bias m = true ->
  exists model0,
    list_index models 0 = Ok model0
    /\ dict_find msg "norm weight"
       = Some (get_deep_attr (named_tensors model0) "lm_head.layer_norm.weight")
    /\ dict_find msg "norm bias"
       = Some (PTuple [get_deep_attr (named_tensors model0)
                         "lm_head.layer_norm.bias"]).
Proof.
  intros Hs H Hnb. apply get_model_schema_inv in Hs. destruct Hs as (ls & Hs & _).
  apply CoreSchema_inv in Hs. destruct Hs as (_ & _ & Hlm).
  unfold lm_head_message in H.
  destruct models as [|model0 rest]; [discriminate|].
  cbn [list_index nth_error obind] in H.
  unfold get, section_of, dict_get in H. cbn [dict_find String.eqb Ascii.eqb Bool.eqb] in H.
  cbn [obind] in H. rewrite Hlm in H. unfold core_lm_head, resolve in H.
  cbn [map fst snd dict_find String.eqb Ascii.eqb Bool.eqb obind] in H.
  exists model0. split; [reflexivity|].
  rewrite Hnb in H. injection H as <-. split; reflexivity.
Qed.

(** The argument checks do not look at the pipeline-parallel size beyond
    its presence. *)
Lemma argument_checks_pipeline_size (env : environment) (pp : nat) :
  argument_checks env = true ->
  argument_checks (with_pipeline_size env pp) = true.
Proof.
  destruct env as [a ma ca imp prov tr va tok pos mask fwd].
  destruct ma as [tp pp0 vp ep ne nl hs sl nh mp pet tt it bbh dbl pd sw xi
                    untie abl aqb mv].
  unfold argument_checks, with_pipeline_size.
  cbn [env_args env_margs env_checkpoint_args megatron_importable
       margs.tensor_model_parallel_size margs.pipeline_model_parallel_size
       margs.virtual_pipeline_model_parallel_size margs.num_layers
       margs.hidden_size margs.seq_length margs.num_attention_heads
       margs.max_position_embeddings margs.position_embedding_type
       margs.tokenizer_type margs.iteration margs.bert_binary_head
       margs.params_dtype args.model_type].
  destruct imp, tp, pp0; cbn [is_some andb]; try discriminate. intros H; exact H.
Qed.

(* ================================================================== *)
(** ** Properties of the set-up (lines 34-253) and of the top-level handler *)

(** X1.  A run leaves through [exit(1)] exactly when Megatron cannot be
    imported or, both parallel sizes being specified, one of the ten
    arguments required without a default is missing.  It has then pushed
    ["exit"] once and nothing else: the handler of [load_checkpoint] does
    not see [SystemExit].  In particular the missing defaults
    ([disable_bias_linear], [swiglu], [xielu]) and the vocabulary-size
    comparison never end a run this way. *)
Theorem leaves_through_exit_iff (env : environment) :
  if exits env
  then run env = (exit_state, SysExit 1%Z)
  else forall c, snd (run env) <> SysExit c.
Proof.
  rewrite run_unfold, prepare_outcome. unfold exits.
  destruct (megatron_importable env); cbn [negb orb]; [|reflexivity].
  destruct (sizes_present env); cbn [negb andb].
  - destruct (required_arguments env); cbn [negb]; [|reflexivity].
    destruct (known_model_type env); cbn [negb]; [|discriminate].
    destruct (args.test_logits (env_args env) && negb (logits_assertions env));
      [discriminate|].
    intros c.
    destruct (send_all env (md_of env) initial_state) as [s2 o2] eqn:Hs.
    pose proof (send_all_never_exits env _ _ _ _ Hs) as Hn.
    destruct o2; cbn [snd]; try discriminate. apply Hn.
  - discriminate.
Qed.

(** X2.  With the set-up arguments in place, a model type other than GPT
    and BERT raises the loader's own exception before anything is sent;
    the handler pushes ["exit"] and the exception propagates. *)
Theorem unrecognized_model_type_raises (env : environment) :
  megatron_importable env = true ->
  sizes_present env = true ->
  required_arguments env = true ->
  known_model_type env = false ->
  run env
  = (exit_state,
     Raise (PlainException
              ("unrecognized model type: " ^^ args.model_type (env_args env)))).
Proof.
  intros Hi Hs Hr Hk. rewrite run_unfold, prepare_outcome, Hi, Hs, Hr, Hk.
  reflexivity.
Qed.

Lemma unrecognized_model_type_raises_witness :
  run Examples.unknown_type
  = (exit_state, Raise (PlainException "unrecognized model type: T5")).
Proof.
  apply (unrecognized_model_type_raises Examples.unknown_type); reflexivity.
Defined.

(** X3.  When the logits check is requested, the set-up asserts that the
    tensor-parallel and virtual-pipeline sizes are 1 and that the model is
    GPT: if one of them fails the run raises [AssertionError] with only
    ["exit"] on the queue, and if all hold the set-up returns the metadata
    whatever the pipeline-parallel size is. *)
Theorem logits_check_assertions (env : environment) :
  megatron_importable env = true ->
  sizes_present env = true ->
  required_arguments env = true ->
  known_model_type env = true ->
  args.test_logits (env_args env) = true ->
  (tp_size env = 1 /\ vp_size env = 1 /\ args.model_type (env_args env) = "GPT" ->
   forall pp,
     prepare (with_pipeline_size env pp) initial_state
     = (initial_state, Ret (md_of (with_pipeline_size env pp))))
  /\ (tp_size env <> 1 \/ vp_size env <> 1
      \/ args.model_type (env_args env) <> "GPT" ->
      run env = (exit_state, Raise AssertionError)).
Proof.
  intros Hi Hs Hr Hk Hl. split.
  - intros (Htp & Hvp & Hmt) pp. rewrite prepare_outcome.
    assert (Hs' : sizes_present (with_pipeline_size env pp) = true).
    { unfold sizes_present in *. cbn. apply andb_true_iff in Hs.
      rewrite (proj1 Hs). reflexivity. }
    assert (Ha : logits_assertions (with_pipeline_size env pp) = true).
    { unfold logits_assertions.
      change (tp_size (with_pipeline_size env pp)) with (tp_size env).
      change (vp_size (with_pipeline_size env pp)) with (vp_size env).
      change (args.model_type (env_args (with_pipeline_size env pp)))
        with (args.model_type (env_args env)).
      rewrite Htp, Hvp, Hmt. reflexivity. }
    change (megatron_importable (with_pipeline_size env pp))
      with (megatron_importable env).
    change (required_arguments (with_pipeline_size env pp))
      with (required_arguments env).
    change (known_model_type (with_pipeline_size env pp))
      with (known_model_type env).
    change (args.test_logits (env_args (with_pipeline_size env pp)))
      with (args.test_logits (env_args env)).
    rewrite Hi, Hs', Hr, Hk, Hl, Ha. reflexivity.
  - intros Hfail. rewrite run_unfold, prepare_outcome, Hi, Hs, Hr, Hk, Hl.
    assert (Ha : logits_assertions env = false).
    { unfold logits_assertions.
      destruct (Nat.eqb_spec (vp_size env) 1) as [Hvp|Hvp].
      - destruct (Nat.eqb_spec (tp_size env) (vp_size env)) as [Htp|Htp].
        + destruct (String.eqb_spec (args.model_type (env_args env)) "GPT") as [Hmt|Hmt].
          * exfalso. destruct Hfail as [F | [F | F]]; [apply F; congruence | apply F; exact Hvp | apply F; exact Hmt].
          * rewrite andb_false_r. reflexivity.
        + reflexivity.
      - rewrite andb_false_r. reflexivity. }
    rewrite Ha. reflexivity.
Qed.

Lemma logits_check_assertions_witness :
  run Examples.logits_tp2 = (exit_state, Raise AssertionError).
Proof.
  apply (logits_check_assertions Examples.logits_tp2);
    [reflexivity | reflexivity | reflexivity | reflexivity | reflexivity |].
  left. vm_compute. lia.
Defined.

(** X4.  When [--true-vocab-size] is given the vocabulary file is never
    consulted: the run is the same with any vocabulary file or none, so a
    file whose size disagrees with the given size changes nothing. *)
Theorem explicit_vocab_size_ignores_file (env : environment)
    (vocab : option (list string)) :
  is_some (args.true_vocab_size (env_args env)) = true ->
  run (with_vocab_file env vocab) = run env.
Proof.
  destruct env as [a ma ca imp prov tr va tok pos mask fwd].
  destruct a as [mt tvs vf impl tl].
  destruct tvs as [v|]; [|discriminate].
  intros _. reflexivity.
Qed.

Lemma explicit_vocab_size_ignores_file_witness :
  run (with_vocab_file Examples.vocab_clash None) = run Examples.vocab_clash
  /\ map tag_of (queue (fst (run Examples.vocab_clash)))
     = [Metadata; Named "embeddings"; Named "transformer layer 0";
        Named "final norm"; Sentinel "done"].
Proof.
  split.
  - apply (explicit_vocab_size_ignores_file Examples.vocab_clash None).
    reflexivity.
  - vm_compute. reflexivity.
Defined.

(** X5.  Whatever happens, the queue of a run is closed by exactly one
    sentinel, which comes last: ["done"] when the run returns and ["exit"]
    when it raises or exits; everything before it is metadata or a
    message. *)
Theorem queue_closed_by_one_sentinel (env : environment) :
  exists items,
    Forall is_payload items
    /\ ((snd (run env) = Ret tt /\ queue (fst (run env)) = items ++ [QStr "done"])
        \/ (snd (run env) <> Ret tt
            /\ queue (fst (run env)) = items ++ [QStr "exit"])).
Proof.
  apply (run_shape env (fst (run env)) (snd (run env))).
  apply surjective_pairing.
Qed.

(* ================================================================== *)
(** ** Properties of the schema registry ([schema_core.py]) *)

(** X6.  [get_model_schema] returns a schema exactly when the model type is
    GPT or BERT and, for a mixture of experts ([num_experts > 0]), the
    implementation is transformer_engine and the expert-parallel size is not
    zero, or else the implementation is local or transformer_engine. *)
Theorem get_model_schema_succeeds_iff (mt impl : string) (ne : option Z) (ep : Z) :
  (exists schema, get_model_schema mt impl ne (Some ep) = Ok schema)
  <-> (mt = "GPT" \/ mt = "BERT")
      /\ (if is_moe ne
          then impl = "transformer_engine" /\ ep <> 0%Z
          else impl = "local" \/ impl = "transformer_engine").
Proof.
  assert (Hdense :
    (exists schema,
       (ctor <- dict_get [("local", CoreLocalSchema);
                          ("transformer_engine", CoreTESchema)] impl ;;
        ctor mt)%pure = Ok schema)
    <-> (mt = "GPT" \/ mt = "BERT")
        /\ (impl = "local" \/ impl = "transformer_engine")).
  { destruct (dense_selection mt impl) as [(Hi & ->) | (Hl & Ht & ->)].
    - destruct (CoreSchema_cases mt dense_layer_schema)
        as [(Hm & s & -> & _) | (Hg & Hb & ->)].
      + split; [intros _; split; assumption | intros _; exists s; reflexivity].
      + split; [intros (s & D); discriminate | intros ([?|?] & _); contradiction].
    - split; [intros (s & D); discriminate | intros (_ & [?|?]); contradiction]. }
  unfold get_model_schema, is_moe.
  destruct ne as [n|]; [|exact Hdense].
  destruct (Z.ltb 0 n); [|exact Hdense].
  destruct (String.eqb_spec impl "transformer_engine") as [->|Hi];
    cbn [py_assert obind].
  - unfold CoreMoETESchema, num_local_experts_of.
    destruct (Z.eqb_spec ep 0) as [->|Hep]; cbn [obind].
    + split; [intros (s & D); discriminate | intros (_ & _ & F); contradiction].
    + destruct (CoreSchema_cases mt (moe_layer_schema (Z.to_nat (n / ep))))
        as [(Hm & s & -> & _) | (Hg & Hb & ->)].
      * split; [intros _; repeat split; assumption | intros _; exists s; reflexivity].
      * split; [intros (s & D); discriminate | intros ([?|?] & _); contradiction].
  - split; [intros (s & D); discriminate | intros (_ & F & _); contradiction].
Qed.

(** X7.  How a selection fails.  A mixture of experts with another
    implementation than transformer_engine fails the assertion, whatever the
    model type; with an expert-parallel size of zero it divides by zero;
    a dense selection with an unknown implementation is a [KeyError] on the
    implementation; and an unknown model type is a [KeyError] on the model
    type once the rest of the selection is valid. *)
Theorem get_model_schema_errors (mt impl : string) (ne : option Z) (ep : Z) :
  (is_moe ne = true -> impl <> "transformer_engine" ->
   get_model_schema mt impl ne (Some ep) = Error AssertionError)
  /\ (is_moe ne = true -> impl = "transformer_engine" -> ep = 0%Z ->
      get_model_schema mt impl ne (Some ep) = Error ZeroDivisionError)
  /\ (is_moe ne = false -> impl <> "local" -> impl <> "transformer_engine" ->
      get_model_schema mt impl ne (Some ep) = Error (KeyError impl))
  /\ (mt <> "GPT" -> mt <> "BERT" ->
      (if is_moe ne
       then impl = "transformer_engine" /\ ep <> 0%Z
       else impl = "local" \/ impl = "transformer_engine") ->
      get_model_schema mt impl ne (Some ep) = Error (KeyError mt)).
Proof.
  assert (Hdense_impl :
    impl <> "local" -> impl <> "transformer_engine" ->
    (ctor <- dict_get [("local", CoreLocalSchema);
                       ("transformer_engine", CoreTESchema)] impl ;;
     ctor mt)%pure = Error (KeyError impl)).
  { intros Hl Ht.
    destruct (dense_selection mt impl) as [([?|?] & _) | (_ & _ & ->)];
      [contradiction | contradiction | reflexivity]. }
  assert (Hdense_mt :
    mt <> "GPT" -> mt <> "BERT" -> impl = "local" \/ impl = "transformer_engine" ->
    (ctor <- dict_get [("local", CoreLocalSchema);
                       ("transformer_engine", CoreTESchema)] impl ;;
     ctor mt)%pure = Error (KeyError mt)).
  { intros Hg Hb Hi.
    destruct (dense_selection mt impl) as [(_ & ->) | (Hl & Ht & _)].
    - destruct (CoreSchema_cases mt dense_layer_schema)
        as [([?|?] & _) | (_ & _ & ->)]; [contradiction | contradiction | reflexivity].
    - destruct Hi; contradiction. }
  unfold get_model_schema, is_moe.
  destruct ne as [n|].
  - destruct (Z.ltb 0 n).
    + split; [|split; [|split]].
      * intros _ Hi. destruct (String.eqb_spec impl "transformer_engine");
          [contradiction | reflexivity].
      * intros _ -> ->. reflexivity.
      * discriminate.
      * intros Hg Hb (-> & Hep).
        rewrite String.eqb_refl. cbn [py_assert obind].
        unfold CoreMoETESchema, num_local_experts_of.
        destruct (Z.eqb_spec ep 0); [contradiction|]. cbn [obind].
        destruct (CoreSchema_cases mt (moe_layer_schema (Z.to_nat (n / ep))))
          as [([?|?] & _) | (_ & _ & ->)];
          [contradiction | contradiction | reflexivity].
    + split; [discriminate|]. split; [discriminate|].
      split; [intros _; exact Hdense_impl | exact Hdense_mt].
  - split; [discriminate|]. split; [discriminate|].
    split; [intros _; exact Hdense_impl | exact Hdense_mt].
Qed.

Lemma get_model_schema_errors_witness :
  get_model_schema "GPT" "local" (Some 4%Z) (Some 2%Z) = Error AssertionError
  /\ get_model_schema "GPT" "transformer_engine" (Some 4%Z) (Some 0%Z)
     = Error ZeroDivisionError
  /\ get_model_schema "GPT" "legacy" None (Some 1%Z) = Error (KeyError "legacy")
  /\ get_model_schema "T5" "local" None (Some 1%Z) = Error (KeyError "T5").
Proof.
  split; [|split; [|split]].
  - apply (get_model_schema_errors "GPT" "local" (Some 4%Z) 2%Z).
    + reflexivity.
    + vm_compute. discriminate.
  - apply (get_model_schema_errors "GPT" "transformer_engine" (Some 4%Z) 0%Z);
      reflexivity.
  - apply (get_model_schema_errors "GPT" "legacy" None 1%Z).
    + reflexivity.
    + vm_compute. discriminate.
    + vm_compute. discriminate.
  - apply (get_model_schema_errors "T5" "local" None 1%Z).
    + vm_compute. discriminate.
    + vm_compute. discriminate.
    + left. reflexivity.
Defined.

(** X8.  In the mixture-of-experts schema the number of local experts is
    the floor of [num_experts / expert_model_parallel_size]; each of the four
    per-expert roles has one entry per local expert index, the index being
    part of the role key and of the storage path, and no entry from the
    local count on.  The table has thirteen shared roles besides, and the
    dense roles [mlp_fc1_weight] and [mlp_fc2_weight] are not among them. *)
Theorem moe_schema_expert_roles (mt : string) (ne ep : Z) (schema : ModelSchema) :
  (0 < ne)%Z ->
  get_model_schema mt "transformer_engine" (Some ne) (Some ep) = Ok schema ->
  let n := Z.to_nat (ne / ep) in
  (forall i,
     dict_find (layer schema) ("mlp_fc1_weight." ^^ str_of_nat i)
     = (if Nat.ltb i n then Some (expert_path i "linear_fc1.weight") else None)
     /\ dict_find (layer schema) ("mlp_fc2_weight." ^^ str_of_nat i)
        = (if Nat.ltb i n then Some (expert_path i "linear_fc2.weight") else None)
     /\ dict_find (layer schema) ("mlp_xielu_alpha_p." ^^ str_of_nat i)
        = (if Nat.ltb i n
           then Some (expert_path i "activation_func.alpha_p.weight") else None)
     /\ dict_find (layer schema) ("mlp_xielu_alpha_n." ^^ str_of_nat i)
        = (if Nat.ltb i n
           then Some (expert_path i "activation_func.alpha_n.weight") else None))
  /\ length (layer schema) = 13 + 4 * n
  /\ dict_find (layer schema) "mlp_fc1_weight" = None
  /\ dict_find (layer schema) "mlp_fc2_weight" = None.
Proof.
  intros Hne H. unfold get_model_schema in H.
  destruct (Z.ltb_spec 0 ne) as [_|]; [|lia].
  rewrite String.eqb_refl in H. cbn [py_assert obind] in H.
  unfold CoreMoETESchema, num_local_experts_of in H.
  destruct (Z.eqb ep 0); cbn [obind] in H; [discriminate|].
  apply CoreSchema_inv in H. destruct H as (_ & -> & _).
  cbv zeta. split; [intros i; apply moe_layer_schema_lookup|].
  split.
  - unfold moe_layer_schema. rewrite !length_app, !length_expert_entries.
    cbn [length]. lia.
  - apply moe_layer_schema_no_dense_mlp.
Qed.

Lemma moe_schema_expert_roles_witness :
  exists schema,
    get_model_schema "GPT" "transformer_engine" (Some 5%Z) (Some 2%Z) = Ok schema
    /\ dict_find (layer schema) "mlp_fc2_weight.1"
       = Some "mlp.experts.local_experts.1.linear_fc2.weight"
    /\ dict_find (layer schema) "mlp_fc2_weight.2" = None
    /\ length (layer schema) = 21.
Proof.
  eexists. split; [vm_compute; reflexivity|].
  match goal with
  | |- dict_find (layer ?s) _ = _ /\ _ =>
      destruct (moe_schema_expert_roles "GPT" 5%Z 2%Z s) as (Hl & Hn & _);
        [lia | vm_compute; reflexivity |]
  end.
  split; [exact (proj1 (proj2 (Hl 1)))|].
  split; [exact (proj1 (proj2 (Hl 2))) | exact Hn].
Defined.

(* ================================================================== *)
(** ** Properties of the transformer-layer messages (lines 288-375) *)

(** X9.  Whatever the outcome of a run, every transformer-layer message on
    its queue carries, besides its name, only labels among the twenty-two
    the layer loop writes: no role of the layer table reaches a message
    under another label, and no per-expert or router role reaches one at
    all. *)
Theorem layer_messages_carry_dense_labels (env : environment) (item : qitem) :
  In item (queue (fst (run env))) ->
  is_layer_item item = true ->
  exists d,
    item = QMessage d
    /\ forall k, In k (dict_keys d) -> k = "name" \/ In k dense_labels.
Proof.
  intros Hin Hlayer.
  assert (Hitem : In item (layer_items (queue (fst (run env))))).
  { unfold layer_items. apply filter_In. split; assumption. }
  destruct (run_layer_items_built env (fst (run env)) (snd (run env)))
    as [Hnil | (ct & cv & schema & msgs & _ & Hq & Hb)].
  - apply surjective_pairing.
  - rewrite Hnil in Hitem. contradiction.
  - rewrite Hq in Hitem. apply In_number_from in Hitem.
    destruct Hitem as (n & msg & Hmsg & ->).
    rewrite Forall_forall in Hb. destruct (Hb msg Hmsg) as (models & l & Hbuilt).
    apply layer_message_spec in Hbuilt.
    destruct Hbuilt as (_ & _ & _ & _ & Hkeys & _).
    exists (dict_set msg "name" (PStr (layer_name n))).
    split; [reflexivity|].
    intros k Hk. apply dict_keys_set in Hk.
    destruct Hk as [-> | Hk]; [left; reflexivity | right; apply Hkeys, Hk].
Qed.

Lemma layer_messages_carry_dense_labels_witness :
  exists d,
    nth 2 (queue (fst (run Examples.dense_tp2))) (QStr "") = QMessage d
    /\ forall k, In k (dict_keys d) -> k = "name" \/ In k dense_labels.
Proof.
  apply (layer_messages_carry_dense_labels Examples.dense_tp2).
  - apply nth_In. vm_compute. lia.
  - vm_compute. reflexivity.
Defined.

(** X10.  A run on a mixture-of-experts checkpoint ([num_experts > 0])
    never sends a transformer-layer message: the layer loop reads the dense
    role [mlp_fc1_weight], which the mixture-of-experts layer table does not
    have.  Such a run can only return when no group hosts a layer. *)
Theorem moe_run_sends_no_layer (env : environment) :
  is_moe (margs.num_experts (env_margs env)) = true ->
  layer_items (queue (fst (run env))) = []
  /\ (snd (run env) = Ret tt -> total_layers env = 0).
Proof.
  intros Hmoe.
  assert (Hnone : forall ct cv schema msgs,
            schema_of env = Ok schema ->
            Forall (built (md.with_consumed (md_of env) ct cv) schema) msgs ->
            msgs = []).
  { intros ct cv schema msgs Hs Hb.
    destruct msgs as [|msg msgs]; [reflexivity|]. exfalso.
    inversion Hb as [|? ? (models & l & Hbuilt) _]; subst.
    destruct (moe_schema_layer env schema Hmoe Hs) as (n & Hn).
    apply (layer_message_needs_dense_mlp _ _ _ _ _ (eq_trans
             (f_equal (fun t => dict_find t "mlp_fc1_weight") Hn)
             (proj1 (moe_layer_schema_no_dense_mlp n))) Hbuilt). }
  split.
  - destruct (run_layer_items_built env (fst (run env)) (snd (run env)))
      as [Hnil | (ct & cv & schema & msgs & Hs & Hq & Hb)].
    + apply surjective_pairing.
    + exact Hnil.
    + rewrite Hq, (Hnone ct cv schema msgs Hs Hb). reflexivity.
  - intros Hret.
    destruct (run_ret_layer_items env (fst (run env)))
      as (ct & cv & schema & msgs & Hs & Hm & _).
    + rewrite <- Hret. apply surjective_pairing.
    + rewrite <- (traversal_length env _ schema msgs Hs Hm).
      assert (Hb : Forall (built (md.with_consumed (md_of env) ct cv) schema) msgs).
      { apply Forall_forall. intros msg Hin.
        destruct (traversal_In env _ schema msgs msg Hm Hin) as (v & p & l & _ & _ & Hl).
        exists (stage_shards env p v), l. exact Hl. }
      rewrite (Hnone ct cv schema msgs Hs Hb). reflexivity.
Qed.

Lemma moe_run_sends_no_layer_witness :
  layer_items (queue (fst (run (Examples.moe 2)))) = []
  /\ snd (run (Examples.moe 2)) = Raise (KeyError "mlp_fc1_weight").
Proof.
  split.
  - apply (moe_run_sends_no_layer (Examples.moe 2)). reflexivity.
  - vm_compute. reflexivity.
Defined.

(* ================================================================== *)
(** ** Properties of the rank walker ([get_models], lines 143-190) *)

(** X11.  [get_models(count)] does not touch the queue or the cache, and a
    counter that was already set keeps its value.  When it returns, the
    result has one row per virtual-pipeline rank, each with [count] shards,
    the shard at row [v] and column [t] being the one loaded for the current
    pipeline rank, tensor-parallel rank [t] and virtual-pipeline rank [v],
    and every loaded rank reported the counters now held. *)
Theorem get_models_returns_matrix (env : environment) (count : nat)
    (s s' : state) (o : outcome (list (list ModelShard))) :
  get_models env count s = (s', o) ->
  queue s' = queue s /\ all_models s' = all_models s
  /\ (forall c, consumed_train_samples s = Some c -> consumed_train_samples s' = Some c)
  /\ (forall c, consumed_valid_samples s = Some c -> consumed_valid_samples s' = Some c)
  /\ (forall ms,
        o = Ret ms ->
        length ms = model_array_len env
        /\ (forall v, v < model_array_len env ->
              exists row,
                nth_error ms v = Some row
                /\ length row = count
                /\ forall t, t < count ->
                     nth_error row t
                     = Some (model_provider env (mpu_pipeline_rank s) t v))
        /\ (forall t, t < count ->
              consumed_train_samples s'
              = Some (loaded_consumed_train_samples env (mpu_pipeline_rank s) t)
              /\ consumed_valid_samples s'
                 = Some (loaded_consumed_valid_samples env (mpu_pipeline_rank s) t))).
Proof.
  intros H. apply get_models_counters in H.
  destruct H as ((Lq & La & _) & T & V & R).
  split; [exact Lq|]. split; [exact La|]. split; [exact T|]. split; [exact V|].
  intros ms Hms.
  destruct R as [-> | (-> & Hall)]; [discriminate Hms|].
  injection Hms as <-.
  split; [apply length_matrix_upto|].
  split; [|exact Hall].
  intros v Hv. exists (shards_upto env count (mpu_pipeline_rank s) v).
  split; [unfold matrix_upto; apply nth_error_map_seq; exact Hv|].
  split; [unfold shards_upto; rewrite length_map, length_seq; reflexivity|].
  intros t Ht. unfold shards_upto.
  apply (nth_error_map_seq (fun tp_rank => model_provider env (mpu_pipeline_rank s) tp_rank v)).
  exact Ht.
Qed.

Lemma get_models_returns_matrix_witness :
  queue (fst (get_models Examples.interleaved 2 initial_state)) = []
  /\ exists ms,
       snd (get_models Examples.interleaved 2 initial_state) = Ret ms
       /\ length ms = model_array_len Examples.interleaved
       /\ consumed_train_samples (fst (get_models Examples.interleaved 2 initial_state))
          = Some (loaded_consumed_train_samples Examples.interleaved 0 1).
Proof.
  destruct (get_models_returns_matrix Examples.interleaved 2 initial_state
              (fst (get_models Examples.interleaved 2 initial_state))
              (snd (get_models Examples.interleaved 2 initial_state)))
    as (Hq & _ & _ & _ & Hret).
  - apply surjective_pairing.
  - split; [exact Hq|].
    eexists. split; [vm_compute; reflexivity|].
    match goal with
    | |- length ?ms = _ /\ _ =>
        destruct (Hret ms) as (Hlen & _ & Hc); [vm_compute; reflexivity|]
    end.
    split; [exact Hlen|]. exact (proj1 (Hc 1 ltac:(lia))).
Defined.

(** X12.  A run that returns has checked every shard it loaded against the
    counters of the first one: all tensor-parallel ranks of all pipeline
    stages reported the same consumed-train-sample and consumed-valid-sample
    counts, and these are the counts the metadata record, the first item of
    the queue, carries. *)
Theorem completed_run_counters_agree (env : environment) (s' : state) :
  run env = (s', Ret tt) ->
  exists ct cv,
    hd_error (queue s')
    = Some (QMetadata (md.with_consumed (md_of env) (Some ct) (Some cv)))
    /\ forall p t, p < pp_size env -> t < tp_size env ->
         loaded_consumed_train_samples env p t = ct
         /\ loaded_consumed_valid_samples env p t = cv.
Proof.
  intros Hrun. destruct (run_ret_counters env s' Hrun) as (Htp & Hall).
  apply run_ret in Hrun.
  destruct Hrun as (_ & ct & cv & schema & emb & msgs & named & H). cbv zeta in H.
  destruct H as (_ & H0 & _ & _ & _ & Q & _).
  destruct (H0 0 Htp) as (-> & ->).
  exists (loaded_consumed_train_samples env 0 0),
         (loaded_consumed_valid_samples env 0 0).
  split; [rewrite Q; reflexivity | exact Hall].
Qed.

Lemma completed_run_counters_agree_witness :
  exists ct cv,
    hd_error (queue (fst (run Examples.interleaved)))
    = Some (QMetadata (md.with_consumed (md_of Examples.interleaved)
                         (Some ct) (Some cv)))
    /\ forall p t, p < pp_size Examples.interleaved -> t < tp_size Examples.interleaved ->
         loaded_consumed_train_samples Examples.interleaved p t = ct
         /\ loaded_consumed_valid_samples Examples.interleaved p t = cv.
Proof.
  apply (completed_run_counters_agree Examples.interleaved).
  assert (Hret : snd (run Examples.interleaved) = Ret tt) by (vm_compute; reflexivity).
  rewrite <- Hret. apply surjective_pairing.
Defined.

(* ================================================================== *)
(** ** Properties of the layer builder (lines 299-371) *)

(** X13.  The labels of a layer message, and their order, are fixed by the
    flags of the metadata and by which optional tensors (query and key
    layer norms, xIELU parameters) the layer of tensor-parallel rank 0 has:
    the replicated labels come first, then the merged ones; the gated
    labels ["mlp l0 weight W"] and ["mlp l0 weight V"] replace
    ["mlp l0 weight"] exactly when swiglu is set, and every bias label is
    present exactly when its flag is set. *)
Theorem layer_message_labels (m : md.t) (schema : ModelSchema)
    (models : list ModelShard) (l : nat) (msg : dict pyval) :
  layer_message m schema models l = Ok msg ->
  exists model0 layer,
    list_index models 0 = Ok model0
    /\ get_layer schema model0 l = Ok layer
    /\ dict_keys msg = replicated_labels m layer ++ merged_labels m.
Proof.
  unfold layer_message. intros H.
  destruct (list_index models 0) as [model0|] eqn:E0; cbn [obind] in H; [|discriminate].
  destruct (get_layer schema model0 l) as [layer|] eqn:El; cbn [obind] in H; [|discriminate].
  destruct (non_parallel_fields m layer) as [msg0|] eqn:En; cbn [obind] in H; [|discriminate].
  destruct (ofold models (grab_parallel m schema l) (mkParallel [] [] [] [] [] []))
    as [p|] eqn:Ep; cbn [obind] in H; [|discriminate].
  apply non_parallel_fields_labels in En.
  apply parallel_fields_labels in H.
  - exists model0, layer. split; [reflexivity|]. split; [exact El|].
    rewrite H, En. reflexivity.
  - intros k Hk Hin. rewrite En in Hin.
    exact (replicated_not_merged m layer k Hin Hk).
Qed.

Lemma layer_message_labels_witness :
  exists msg,
    nth_error (queue (fst (run Examples.interleaved))) 2 = Some (QMessage msg)
    /\ dict_keys msg
       = ["input norm weight"; "post norm weight"; "input norm bias";
          "post norm bias"; "dense bias"; "mlp l1 bias"; "mlp l0 weight W";
          "mlp l0 weight V"; "qkv weight"; "dense weight"; "mlp l1 weight";
          "qkv bias"; "mlp l0 bias W"; "mlp l0 bias V"; "name"].
Proof.
  destruct (layer_message (md_of Examples.interleaved)
              (mkSchema core_embeddings "decoder.layers" dense_layer_schema [] [] [] [] [])
              (stage_shards Examples.interleaved 0 0) 0) as [msg|] eqn:E;
    [|vm_compute in E; discriminate E].
  destruct (layer_message_labels _ _ _ _ _ E) as (model0 & layer & E0 & El & Hk).
  exists (dict_set msg "name" (PStr "transformer layer 0")).
  split.
  - vm_compute in E. injection E as <-. vm_compute. reflexivity.
  - rewrite dict_keys_set_fresh.
    + rewrite Hk. vm_compute in E0. injection E0 as <-.
      vm_compute in El. injection El as <-. vm_compute. reflexivity.
    + rewrite Hk. vm_compute in E0. injection E0 as <-.
      vm_compute in El. injection El as <-. vm_compute.
      intros Hin. repeat (destruct Hin as [Hin | Hin]; [discriminate Hin|]). exact Hin.
Defined.

(** X14.  In a layer message the merged fields hold the tensors of all
    tensor-parallel ranks, in rank order, concatenated along a fixed axis:
    ["qkv weight"] along axis 0, ["dense weight"] and ["mlp l1 weight"]
    along axis 1, ["qkv bias"] (with qkv bias) along axis 0, and without
    gated activation ["mlp l0 weight"] and (with linear bias)
    ["mlp l0 bias"] along axis 0.  With gated activation every rank's first
    MLP weight (and bias) is first cut in two along axis 0, and the first
    and second pieces are concatenated separately into the [W] and [V]
    fields. *)
Theorem layer_message_merges (m : md.t) (schema : ModelSchema)
    (models : list ModelShard) (l : nat) (msg : dict pyval) :
  layer_message m schema models l = Ok msg ->
  (exists xs v,
     rank_entries schema models l "self_attn_qkv_weight" = Ok xs
     /\ torch_cat0 xs = Ok v /\ dict_find msg "qkv weight" = Some v)
  /\ (exists xs v,
        rank_entries schema models l "self_attn_proj_weight" = Ok xs
        /\ torch_cat1 xs = Ok v /\ dict_find msg "dense weight" = Some v)
  /\ (exists xs v,
        rank_entries schema models l "mlp_fc2_weight" = Ok xs
        /\ torch_cat1 xs = Ok v /\ dict_find msg "mlp l1 weight" = Some v)
  /\ (md.qkv_bias m = true ->
      exists xs v,
        rank_entries schema models l "self_attn_qkv_bias" = Ok xs
        /\ torch_cat0 xs = Ok v /\ dict_find msg "qkv bias" = Some v)
  /\ (md.swiglu m = false ->
      (exists xs v,
         rank_entries schema models l "mlp_fc1_weight" = Ok xs
         /\ torch_cat0 xs = Ok v /\ dict_find msg "mlp l0 weight" = Some v)
      /\ (md.linear_bias m = true ->
          exists xs v,
            rank_entries schema models l "mlp_fc1_bias" = Ok xs
            /\ torch_cat0 xs = Ok v /\ dict_find msg "mlp l0 bias" = Some v))
  /\ (md.swiglu m = true ->
      (exists xs chunks w v,
         rank_entries schema models l "mlp_fc1_weight" = Ok xs
         /\ chunk_each (md.previous_tensor_parallel_size m) xs = Ok chunks
         /\ cat_halves 0 chunks = Ok w /\ cat_halves 1 chunks = Ok v
         /\ dict_find msg "mlp l0 weight W" = Some w
         /\ dict_find msg "mlp l0 weight V" = Some v)
      /\ (md.linear_bias m = true ->
          exists xs chunks w v,
            rank_entries schema models l "mlp_fc1_bias" = Ok xs
            /\ chunk_each (md.previous_tensor_parallel_size m) xs = Ok chunks
            /\ cat_halves 0 chunks = Ok w /\ cat_halves 1 chunks = Ok v
            /\ dict_find msg "mlp l0 bias W" = Some w
            /\ dict_find msg "mlp l0 bias V" = Some v)).
Proof.
  unfold layer_message. intros H.
  destruct (list_index models 0) as [model0|] eqn:E0; cbn [obind] in H; [|discriminate].
  destruct (get_layer schema model0 l) as [layer|] eqn:El; cbn [obind] in H; [|discriminate].
  destruct (non_parallel_fields m layer) as [msg0|] eqn:En; cbn [obind] in H; [|discriminate].
  destruct (ofold models (grab_parallel m schema l) (mkParallel [] [] [] [] [] []))
    as [p|] eqn:Ep; cbn [obind] in H; [|discriminate].
  apply grab_all in Ep. destruct Ep as (Gq & Gd & G0 & G1 & Gqb & Glb).
  apply parallel_fields_content in H.
  destruct H as ((vq & Cq & Fq) & (vd & Cd & Fd) & (v1 & C1 & F1)
                 & P0 & Pg & Pqb & Pb & Pgb).
  split; [exists (qkv_weight p), vq; repeat split; assumption|].
  split; [exists (dense_weight p), vd; repeat split; assumption|].
  split; [exists (mlp_l1_weight p), v1; repeat split; assumption|].
  split.
  { intros Hqb. rewrite Hqb in Gqb. destruct (Pqb Hqb) as (v & C & F).
    exists (qkv_bias p), v. repeat split; assumption. }
  split.
  - intros Hs. split.
    + destruct (P0 Hs) as (v & C & F).
      exists (mlp_l0_weight p), v. repeat split; assumption.
    + intros Hlb. rewrite Hlb in Glb. destruct (Pb Hlb Hs) as (v & C & F).
      exists (mlp_l0_bias p), v. repeat split; assumption.
  - intros Hs. split.
    + destruct (Pg Hs) as (chunks & w & v & C & Cw & Cv & Fw & Fv).
      exists (mlp_l0_weight p), chunks, w, v. repeat split; assumption.
    + intros Hlb. rewrite Hlb in Glb.
      destruct (Pgb Hlb Hs) as (chunks & w & v & C & Cw & Cv & Fw & Fv).
      exists (mlp_l0_bias p), chunks, w, v. repeat split; assumption.
Qed.

Lemma layer_message_merges_witness :
  exists msg t,
    nth_error (queue (fst (run Examples.dense_tp2))) 2 = Some (QMessage msg)
    /\ dict_find msg "qkv weight" = Some (PTensor t)
    /\ shape t = [6; 2].
Proof.
  destruct (layer_message (md_of Examples.dense_tp2)
              (mkSchema core_embeddings "decoder.layers" dense_layer_schema [] [] [] [] [])
              (stage_shards Examples.dense_tp2 0 0) 0) as [msg|] eqn:E;
    [|vm_compute in E; discriminate E].
  destruct (layer_message_merges _ _ _ _ _ E) as ((xs & v & Hxs & Hv & Hf) & _).
  exists (dict_set msg "name" (PStr "transformer layer 0")).
  vm_compute in Hxs. injection Hxs as <-.
  vm_compute in Hv. injection Hv as <-.
  eexists. split; [|split].
  - vm_compute in E. injection E as <-. vm_compute. reflexivity.
  - rewrite dict_find_set_other by discriminate. exact Hf.
  - reflexivity.
Defined.

(* ================================================================== *)
(** ** Properties of the messages after the layers (lines 377-423) *)

(** X15.  In a run that returns over at least one pipeline stage, the
    final-norm message, the output-layer message (sent with untied
    embeddings) and the BERT head messages are all built from the shards of
    the group the traversal visited last: the last pipeline stage at the
    last virtual-pipeline rank. *)
Theorem heads_read_from_last_group (env : environment) (s' : state) :
  run env = (s', Ret tt) ->
  0 < pp_size env ->
  exists ct cv schema,
    let m := md.with_consumed (md_of env) ct cv in
    let last := stage_shards env (pp_size env - 1) (vp_size env - 1) in
    schema_of env = Ok schema
    /\ (exists fn,
          final_norm_message m schema last = Ok fn
          /\ In (named_item ("final norm", fn)) (queue s'))
    /\ (margs.untie_embeddings_and_output_weights (env_margs env) = true ->
        exists ol,
          output_layer_message schema last = Ok ol
          /\ In (named_item ("output layer", ol)) (queue s'))
    /\ (String.eqb (args.model_type (env_args env)) "BERT" = true ->
        exists po lm,
          pooler_message schema last = Ok po
          /\ lm_head_message m schema last = Ok lm
          /\ In (named_item ("pooler", po)) (queue s')
          /\ In (named_item ("lm head", lm)) (queue s')
          /\ (md.bert_binary_head (md_of env) = true ->
              exists bh,
                binary_head_message schema last = Ok bh
                /\ In (named_item ("binary head", bh)) (queue s'))).
Proof.
  rewrite run_unfold.
  destruct (prepare_cases env) as [[Hc Hp] | [_ [(e & Hp) | Hp]]]; rewrite Hp;
    [ | discriminate | discriminate ].
  destruct (send_all env (md_of env) initial_state) as [s2 o2] eqn:Hs.
  intros H Hpp. assert (o2 = Ret tt /\ s2 = s') as [-> ->].
  { destruct o2; inversion H; subst; split; reflexivity. }
  clear H. unfold send_all in Hs.
  apply mbind_ret_inv in Hs. destruct Hs as (r & s1 & H1 & H).
  apply send_head_ret in H1; [|reflexivity].
  destruct H1 as (emb & Hr & Hschema & _ & _ & A1 & Hvp & _).
  apply mbind_ret_inv in H. destruct H as (u & s3 & H3 & H). destruct u.
  apply send_layers_models in H3;
    [ | rewrite Hr; reflexivity | rewrite Hr; reflexivity | exact A1
      | exact Hvp | exact Hpp ].
  apply send_tail_content in H. rewrite H3, Hr in H.
  exists (consumed_train_samples s1), (consumed_valid_samples s1), (snd r).
  cbv zeta. split; [exact Hschema | exact H].
Qed.

Lemma heads_read_from_last_group_witness :
  exists fn,
    final_norm_message (md_of Examples.bert)
      (mkSchema [] "" [] [("weight", "encoder.final_layernorm.weight");
                         ("bias", "encoder.final_layernorm.bias")] [] [] [] [])
      [Examples.provider "encoder" Examples.dense_layer true 1 1 0 0] = Ok fn
    /\ In (named_item ("final norm", fn)) (queue (fst (run Examples.bert))).
Proof.
  destruct (heads_read_from_last_group Examples.bert (fst (run Examples.bert)))
    as (ct & cv & schema & Hs & (fn & Hfn & Hin) & _).
  - assert (Hret : snd (run Examples.bert) = Ret tt) by (vm_compute; reflexivity).
    rewrite <- Hret. apply surjective_pairing.
  - vm_compute. lia.
  - vm_compute in Hs. injection Hs as <-.
    exists fn. split; [|exact Hin].
    vm_compute in Hfn. vm_compute. exact Hfn.
Defined.

(** X16.  The LM-head message holds the dense weight, dense bias and norm
    weight of tensor-parallel rank 0 as they are; with a norm bias, the
    ["norm bias"] field is not that tensor but a one-element tuple holding
    it (the assignment ends in a comma), and without one the field is
    absent. *)
Theorem lm_head_norm_bias_is_a_tuple (mt impl : string) (ne ep : option Z)
    (schema : ModelSchema) (m : md.t) (models : list ModelShard)
    (msg : dict pyval) :
  get_model_schema mt impl ne ep = Ok schema ->
  lm_head_message m schema models = Ok msg ->
  exists model0,
    list_index models 0 = Ok model0
    /\ dict_find msg "dense weight"
       = Some (get_deep_attr (named_tensors model0) "lm_head.dense.weight")
    /\ dict_find msg "dense bias"
       = Some (get_deep_attr (named_tensors model0) "lm_head.dense.bias")
    /\ dict_find msg "norm weight"
       = Some (get_deep_attr (named_tensors model0) "lm_head.layer_norm.weight")
    /\ dict_find msg "norm bias"
       = (if md.norm_has_bias m
          then Some (PTuple [get_deep_attr (named_tensors model0)
                               "lm_head.layer_norm.bias"])
          else None).
Proof.
  intros Hs H. apply get_model_schema_inv in Hs. destruct Hs as (ls & Hs & _).
  apply CoreSchema_inv in Hs. destruct Hs as (_ & _ & Hlm).
  unfold lm_head_message in H.
  destruct models as [|model0 rest]; [discriminate|].
  cbn [list_index nth_error obind] in H.
  unfold get, section_of, dict_get in H. cbn [dict_find String.eqb Ascii.eqb Bool.eqb] in H.
  cbn [obind] in H. rewrite Hlm in H. unfold core_lm_head, resolve in H.
  cbn [map fst snd dict_find String.eqb Ascii.eqb Bool.eqb obind] in H.
  exists model0. split; [reflexivity|].
  destruct (md.norm_has_bias m); injection H as <-; repeat split.
Qed.

Lemma lm_head_norm_bias_is_a_tuple_witness :
  exists msg t,
    nth_error (queue (fst (run Examples.bert))) 6 = Some (QMessage msg)
    /\ dict_find msg "name" = Some (PStr "lm head")
    /\ dict_find msg "norm bias" = Some (PTuple [PTensor t]).
Proof.
  destruct (get_model_schema "BERT" "transformer_engine" None (Some 1%Z))
    as [schema|] eqn:Es; [|vm_compute in Es; discriminate Es].
  destruct (lm_head_message (md_of Examples.bert) schema
              (stage_shards Examples.bert 1 0)) as [msg|] eqn:E;
    [|vm_compute in Es; injection Es as <-; vm_compute in E; discriminate E].
  destruct (lm_head_norm_bias_is_a_tuple _ _ _ _ _ _ _ _ Es E)
    as (model0 & E0 & _ & _ & _ & Hnb).
  exists (dict_set msg "name" (PStr "lm head")).
  vm_compute in E0. injection E0 as <-.
  eexists. split; [|split].
  - vm_compute in Es. injection Es as <-.
    vm_compute in E. injection E as <-. vm_compute. reflexivity.
  - apply dict_find_set_same.
  - rewrite dict_find_set_other by discriminate. rewrite Hnb. vm_compute. reflexivity.
Defined.

(** X20.  The logits check runs the forward pass on the shard the loop
    variable [model] was last bound to.  In a run that returns with the
    check requested (so with one tensor-parallel and one virtual-pipeline
    rank) and whose last pipeline stage hosts a layer, that is the shard of
    the last pipeline stage alone: the ["logits_check"] message carries the
    fabricated batch and the output of that shard on it. *)
Theorem logits_check_runs_last_stage (env : environment) (s' : state) :
  run env = (s', Ret tt) ->
  args.test_logits (env_args env) = true ->
  0 < pp_size env ->
  0 < layers_at env (pp_size env - 1) 0 ->
  In (named_item
        ("logits_check",
         [("tokens", PTensor (mock_tokens env));
          ("position_ids", PTensor (mock_position_ids env));
          ("attention_mask", PTensor (mock_attention_mask env));
          ("output",
           PTensor (forward env (model_provider env (pp_size env - 1) 0 0)))]))
     (queue s').
Proof.
  rewrite run_unfold.
  destruct (prepare_cases env) as [[Hc Hp] | [_ [(e & Hp) | Hp]]]; rewrite Hp;
    [ | discriminate | discriminate ].
  destruct (send_all env (md_of env) initial_state) as [s2 o2] eqn:Hs.
  intros H Hlogits Hpp Hl. assert (o2 = Ret tt /\ s2 = s') as [-> ->].
  { destruct o2; inversion H; subst; split; reflexivity. }
  clear H.
  assert (Hsizes : tp_size env = 1 /\ vp_size env = 1).
  { unfold prepare_checks in Hc. rewrite Hlogits in Hc.
    apply andb_true_iff in Hc. destruct Hc as (_ & Ha).
    unfold logits_assertions in Ha.
    apply andb_true_iff in Ha. destruct Ha as (Ha & _).
    apply andb_true_iff in Ha. destruct Ha as (Ha & Hv).
    apply andb_true_iff in Ha. destruct Ha as (Ht & _).
    apply Nat.eqb_eq in Hv, Ht. split; congruence. }
  destruct Hsizes as (Htp & Hvp1).
  unfold send_all in Hs.
  apply mbind_ret_inv in Hs. destruct Hs as (r & s1 & H1 & H).
  apply send_head_ret in H1; [|reflexivity].
  destruct H1 as (emb & Hr & Hschema & _ & _ & A1 & Hvp & _).
  apply mbind_ret_inv in H. destruct H as (u & s3 & H3 & H). destruct u.
  apply send_layers_model in H3;
    [ | rewrite Hr; reflexivity | rewrite Hr; reflexivity | exact A1
      | exact Hvp | exact Hpp | ].
  - apply (send_tail_logits env _ _ _ _) in H; [|exact Hlogits].
    destruct H as (lg & Hlg & Hin).
    rewrite H3, Hvp1 in Hlg. unfold stage_shards, shards_upto in Hlg.
    rewrite Htp in Hlg. cbn [seq map last Nat.sub] in Hlg.
    unfold logits_message in Hlg. cbn [obind] in Hlg. injection Hlg as <-.
    exact Hin.
  - rewrite Hvp1. cbn [Nat.sub].
    rewrite <- (layers_at_with env (snd r) _ _ Hschema). exact Hl.
Qed.

Lemma logits_check_runs_last_stage_witness :
  In (named_item
        ("logits_check",
         [("tokens", PTensor (mock_tokens Examples.with_logits));
          ("position_ids", PTensor (mock_position_ids Examples.with_logits));
          ("attention_mask", PTensor (mock_attention_mask Examples.with_logits));
          ("output",
           PTensor (forward Examples.with_logits
                      (model_provider Examples.with_logits 1 0 0)))]))
     (queue (fst (run Examples.with_logits))).
Proof.
  apply (logits_check_runs_last_stage Examples.with_logits).
  - assert (Hret : snd (run Examples.with_logits) = Ret tt) by (vm_compute; reflexivity).
    rewrite <- Hret. apply surjective_pairing.
  - reflexivity.
  - vm_compute. lia.
  - vm_compute. lia.
Defined.

(** X21.  Under a selected schema, the final-norm message holds the tensors
    tensor-parallel rank 0 stores under [<block>.final_layernorm.weight]
    and, with a norm bias, [<block>.final_layernorm.bias] (no bias field
    otherwise), where [<block>] is [decoder] for GPT and [encoder] for BERT;
    the output-layer message holds the axis-0 concatenation of the tensors
    all ranks store under [output_layer.weight], in rank order. *)
Theorem final_norm_and_output_layer_sources (mt impl : string) (ne ep : option Z)
    (schema : ModelSchema) (m : md.t) (models : list ModelShard) :
  get_model_schema mt impl ne ep = Ok schema ->
  exists block,
    get_core_transformer_block_key mt = Ok block
    /\ (forall fn,
          final_norm_message m schema models = Ok fn ->
          exists model0,
            list_index models 0 = Ok model0
            /\ fn = ("weight",
                     get_deep_attr (named_tensors model0)
                       (block ^^ ".final_layernorm.weight"))
                    :: (if md.norm_has_bias m
                        then [("bias",
                               get_deep_attr (named_tensors model0)
                                 (block ^^ ".final_layernorm.bias"))]
                        else []))
    /\ (forall ol,
          output_layer_message schema models = Ok ol ->
          exists v,
            torch_cat0
              (map (fun model =>
                      get_deep_attr (named_tensors model) "output_layer.weight")
                 models) = Ok v
            /\ ol = [("weight", v)]).
Proof.
  intros Hs. destruct (selected_schema_tables _ _ _ _ _ Hs) as (block & Hb & _ & Hfn & Hol).
  exists block. split; [exact Hb|]. split.
  - intros fn H. unfold final_norm_message in H.
    destruct models as [|model0 rest]; [discriminate|].
    cbn [list_index nth_error obind] in H.
    unfold get, section_of, dict_get in H.
    cbn [dict_find String.eqb Ascii.eqb Bool.eqb obind] in H.
    rewrite Hfn in H. unfold resolve, copy_field, dict_get in H.
    cbn [map fst snd dict_find String.eqb Ascii.eqb Bool.eqb obind dict_set] in H.
    exists model0. split; [reflexivity|].
    destruct (md.norm_has_bias m); injection H as <-; reflexivity.
  - intros ol H. unfold output_layer_message in H.
    rewrite (omap_map _ (fun model =>
                           [("weight",
                             get_deep_attr (named_tensors model) "output_layer.weight")]))
      in H.
    2: { intros model _. unfold get, section_of, dict_get.
         cbn [dict_find String.eqb Ascii.eqb Bool.eqb obind].
         rewrite Hol. reflexivity. }
    cbn [obind] in H.
    assert (Hws : forall ms,
              omap (fun r => dict_get r "weight")
                (map (fun model =>
                        [("weight",
                          get_deep_attr (named_tensors model) "output_layer.weight")])
                   ms)
              = Ok (map (fun model =>
                           get_deep_attr (named_tensors model) "output_layer.weight")
                      ms)).
    { intros ms. induction ms as [|x xs IH]; [reflexivity|].
      cbn [map omap]. rewrite IH. reflexivity. }
    rewrite Hws in H. cbn [obind] in H.
    destruct (torch_cat0 _) as [v|]; cbn [obind] in H; [|discriminate].
    injection H as <-. exists v. split; reflexivity.
Qed.

Lemma final_norm_and_output_layer_sources_witness :
  exists schema fn,
    get_model_schema "BERT" "local" None (Some 1%Z) = Ok schema
    /\ final_norm_message (md_of Examples.bert) schema
         (stage_shards Examples.bert 1 0) = Ok fn
    /\ fn = [("weight", PTensor (Examples.vec [100008; 100009]%Z));
             ("bias", PTensor (Examples.vec [100010; 100011]%Z))].
Proof.
  destruct (get_model_schema "BERT" "local" None (Some 1%Z)) as [schema|] eqn:Es;
    [|vm_compute in Es; discriminate Es].
  destruct (final_norm_message (md_of Examples.bert) schema
              (stage_shards Examples.bert 1 0)) as [fn|] eqn:E;
    [|vm_compute in Es; injection Es as <-; vm_compute in E; discriminate E].
  exists schema, fn. split; [reflexivity|]. split; [exact E|].
  destruct (final_norm_and_output_layer_sources _ _ _ _ schema (md_of Examples.bert)
              (stage_shards Examples.bert 1 0) Es) as (block & Hb & Hfn & _).
  destruct (Hfn fn E) as (model0 & E0 & ->).
  vm_compute in Hb. injection Hb as <-.
  vm_compute in E0. injection E0 as <-.
  vm_compute. reflexivity.
Defined.

(* ================================================================== *)
(** ** Properties of the head of the stream (lines 255-286) *)

(** X17.  The metadata is sent before the schema is selected: when the
    first stage loads (its tensor-parallel shards agree on the counters)
    and [get_model_schema] raises, the consumer has received the metadata
    record, with the counters of the first shard, followed by ["exit"], and
    the exception propagates. *)
Theorem metadata_precedes_schema_selection (env : environment) (e : exn) :
  prepare_checks env = true ->
  0 < tp_size env -> 0 < vp_size env ->
  (forall t, t < tp_size env ->
     loaded_consumed_train_samples env 0 t = loaded_consumed_train_samples env 0 0
     /\ loaded_consumed_valid_samples env 0 t
        = loaded_consumed_valid_samples env 0 0) ->
  get_model_schema (args.model_type (env_args env))
    (args.loader_transformer_impl (env_args env))
    (margs.num_experts (env_margs env))
    (Some (margs.expert_model_parallel_size (env_margs env))) = Error e ->
  queue (fst (run env))
  = [QMetadata (md.with_consumed (md_of env)
                  (Some (loaded_consumed_train_samples env 0 0))
                  (Some (loaded_consumed_valid_samples env 0 0)));
     QStr "exit"]
  /\ snd (run env) = Raise e.
Proof.
  intros Hc Htp Hvp Hall Hs.
  apply (run_fails_after_metadata env e Hc Htp Hvp Hall). left. exact Hs.
Qed.

Lemma metadata_precedes_schema_selection_witness :
  map tag_of (queue (fst (run Examples.unknown_impl))) = [Metadata; Sentinel "exit"]
  /\ snd (run Examples.unknown_impl) = Raise (KeyError "legacy").
Proof.
  destruct (metadata_precedes_schema_selection Examples.unknown_impl (KeyError "legacy"))
    as (Hq & Ho).
  - reflexivity.
  - vm_compute. lia.
  - vm_compute. lia.
  - intros t _. split; reflexivity.
  - vm_compute. reflexivity.
  - rewrite Hq. split; [reflexivity | exact Ho].
Defined.

(** X18.  A checkpoint whose position embedding is not learned_absolute
    must not hold a learned position table on tensor-parallel rank 0 of the
    first stage: if it does (the word tables concatenating), the embeddings
    are not sent; the run raises [AssertionError] with the metadata and
    ["exit"] on the queue. *)
Theorem stray_position_table_is_fatal (env : environment) (schema : ModelSchema)
    (w : pyval) :
  prepare_checks env = true ->
  0 < tp_size env -> 0 < vp_size env ->
  (forall t, t < tp_size env ->
     loaded_consumed_train_samples env 0 t = loaded_consumed_train_samples env 0 0
     /\ loaded_consumed_valid_samples env 0 t
        = loaded_consumed_valid_samples env 0 0) ->
  schema_of env = Ok schema ->
  torch_cat0 (map word_table (stage_shards env 0 0)) = Ok w ->
  String.eqb (md.position_embedding_type (md_of env)) "learned_absolute" = false ->
  is_none (position_table (model_provider env 0 0 0)) = false ->
  map tag_of (queue (fst (run env))) = [Metadata; Sentinel "exit"]
  /\ snd (run env) = Raise AssertionError.
Proof.
  intros Hc Htp Hvp Hall Hs Hw Hrope Hpos.
  destruct (run_fails_after_metadata env AssertionError Hc Htp Hvp Hall) as (Hq & Ho).
  - right. exists schema. split; [exact Hs|].
    unfold stage_shards, shards_upto in *.
    destruct (tp_size env) as [|tp]; [lia|].
    cbn [seq map] in *.
    rewrite (embeddings_message_eval _ _ _ _ w (schema_of_embeddings env schema Hs) Hw).
    change (md.position_embedding_type (md.with_consumed (md_of env) _ _))
      with (md.position_embedding_type (md_of env)).
    rewrite Hrope, Hpos. reflexivity.
  - rewrite Hq. split; [reflexivity | exact Ho].
Qed.

Lemma stray_position_table_is_fatal_witness :
  map tag_of (queue (fst (run Examples.rope_with_table))) = [Metadata; Sentinel "exit"]
  /\ snd (run Examples.rope_with_table) = Raise AssertionError.
Proof.
  destruct (schema_of Examples.rope_with_table) as [schema|] eqn:Es;
    [|vm_compute in Es; discriminate Es].
  destruct (torch_cat0 (map word_table (stage_shards Examples.rope_with_table 0 0)))
    as [w|] eqn:Ew; [|vm_compute in Ew; discriminate Ew].
  apply (stray_position_table_is_fatal Examples.rope_with_table schema w).
  - reflexivity.
  - vm_compute. lia.
  - vm_compute. lia.
  - intros t _. split; reflexivity.
  - exact Es.
  - exact Ew.
  - reflexivity.
  - reflexivity.
Defined.

(* ================================================================== *)
(** ** Properties of the gated merge (lines 349-354 and 365-369) *)

(** X19.  The gated merge of the loader does not check that a shard splits
    evenly.  Let gated activation be on and the first MLP weights gathered
    from the tensor-parallel ranks all have [n] rows along axis 0.  With
    [n = 1] each shard chunks into a single piece, and building the merged
    fields raises [IndexError] at the read of the second piece.  With
    [n >= 2], when the remaining concatenations succeed, the merged fields
    are built, ["mlp l0 weight W"] has [ceil(n/2)] rows per shard and
    ["mlp l0 weight V"] the remaining [floor(n/2)], so the two differ in
    size whenever [n] is odd. *)
Theorem gated_merge_on_uniform_shards (m : md.t) (message : dict pyval)
    (p : parallel_tensors) (n : nat) (rest : list nat) (shards : list tensor) :
  md.swiglu m = true ->
  shards <> [] ->
  length shards = md.previous_tensor_parallel_size m ->
  (forall t, In t shards -> shape t = n :: rest) ->
  mlp_l0_weight p = map PTensor shards ->
  (n = 1 -> parallel_fields m message p = Error IndexError)
  /\ (2 <= n ->
      plain_merges m p ->
      (md.linear_bias m = true ->
       exists bchunks bw bv,
         chunk_each (md.previous_tensor_parallel_size m) (mlp_l0_bias p) = Ok bchunks
         /\ cat_halves 0 bchunks = Ok bw /\ cat_halves 1 bchunks = Ok bv) ->
      exists msg,
        parallel_fields m message p = Ok msg
        /\ dict_find msg "mlp l0 weight W"
           = Some (PTensor
                     (mkTensor (length shards * ((n + 1) / 2) :: rest)
                        (concat (map (fun t => firstn ((n + 1) / 2 * numel rest) (data t))
                                   shards))))
        /\ dict_find msg "mlp l0 weight V"
           = Some (PTensor
                     (mkTensor (length shards * (n - (n + 1) / 2) :: rest)
                        (concat (map (fun t => skipn ((n + 1) / 2 * numel rest) (data t))
                                   shards))))).
Proof.
  intros Hs Hne Hlen Hshape Hl0. split.
  - intros ->.
    destruct (single_row_chunks rest shards Hne Hshape) as (chunks & w & Hc & Hw & Hv).
    rewrite Hlen, <- Hl0 in Hc.
    unfold parallel_fields. rewrite Hs, Hc. cbn [obind]. rewrite Hw. cbn [obind].
    rewrite Hv. reflexivity.
  - intros Hn Hplain Hb.
    destruct (uneven_chunks n rest shards Hne Hshape Hn) as (chunks & Hc & Hw & Hv).
    rewrite Hlen, <- Hl0 in Hc.
    destruct (parallel_fields_gated m message p chunks _ _ Hs Hc Hw Hv Hplain Hb)
      as (msg & Hmsg & HW & HV & _).
    exists msg. split; [exact Hmsg|]. split; [exact HW | exact HV].
Qed.

Lemma gated_merge_on_uniform_shards_witness :
  parallel_fields (md_of Examples.gated_plain) []
    (Examples.gathered [Examples.mat 1 2 [1; 2]%Z; Examples.mat 1 2 [3; 4]%Z] [])
  = Error IndexError
  /\ exists msg,
       parallel_fields (md_of Examples.gated_plain) []
         (Examples.gathered
            [Examples.mat 3 1 [1; 2; 3]%Z; Examples.mat 3 1 [4; 5; 6]%Z] [])
       = Ok msg
       /\ dict_find msg "mlp l0 weight W"
          = Some (PTensor (Examples.mat 4 1 [1; 2; 4; 5]%Z))
       /\ dict_find msg "mlp l0 weight V"
          = Some (PTensor (Examples.mat 2 1 [3; 6]%Z)).
Proof.
  split.
  - apply (gated_merge_on_uniform_shards (md_of Examples.gated_plain) []
             (Examples.gathered [Examples.mat 1 2 [1; 2]%Z; Examples.mat 1 2 [3; 4]%Z] [])
             1 [2] [Examples.mat 1 2 [1; 2]%Z; Examples.mat 1 2 [3; 4]%Z]).
    + reflexivity.
    + discriminate.
    + reflexivity.
    + intros t [<- | [<- | []]]; reflexivity.
    + reflexivity.
    + reflexivity.
  - apply (gated_merge_on_uniform_shards (md_of Examples.gated_plain) []
             (Examples.gathered
                [Examples.mat 3 1 [1; 2; 3]%Z; Examples.mat 3 1 [4; 5; 6]%Z] [])
             3 [1] [Examples.mat 3 1 [1; 2; 3]%Z; Examples.mat 3 1 [4; 5; 6]%Z]).
    + reflexivity.
    + discriminate.
    + reflexivity.
    + intros t [<- | [<- | []]]; reflexivity.
    + reflexivity.
    + lia.
    + repeat split; try (intros _); try discriminate; eexists; vm_compute; reflexivity.
    + intros H. vm_compute in H. discriminate H.
Defined.

(* ================================================================== *)
(** ** The assertions of the logits check (lines 219-221) *)

(** C10.  When the logits check is requested, the run asserts before it
    sends anything that the tensor-parallel size is 1, the virtual-pipeline
    size is 1 and the model type is GPT: metadata or a message is on the
    queue only if all three hold.  The pipeline-parallel size is not
    constrained: when the three hold and the other argument checks pass,
    the set-up returns for every pipeline-parallel size. *)
Theorem logits_check_asserted_before_messages (env : environment) :
  args.test_logits (env_args env) = true ->
  (forall item,
     In item (queue (fst (run env))) -> is_payload item ->
     tp_size env = 1 /\ vp_size env = 1 /\ args.model_type (env_args env) = "GPT")
  /\ (argument_checks env = true ->
      tp_size env = 1 -> vp_size env = 1 -> args.model_type (env_args env) = "GPT" ->
      forall pp,
        prepare (with_pipeline_size env pp) initial_state
        = (initial_state, Ret (md_of (with_pipeline_size env pp)))).
Proof.
  intros Hl. split.
  - intros item. rewrite run_unfold, prepare_outcome.
    destruct (negb (megatron_importable env));
      [cbn; intros [<- | []] []|].
    destruct (negb (sizes_present env));
      [cbn; intros [<- | []] []|].
    destruct (negb (required_arguments env));
      [cbn; intros [<- | []] []|].
    destruct (negb (known_model_type env));
      [cbn; intros [<- | []] []|].
    rewrite Hl. cbn [andb].
    destruct (logits_assertions env) eqn:Ea; cbn [negb];
      [|cbn; intros [<- | []] []].
    intros _ _. unfold logits_assertions in Ea.
    apply andb_true_iff in Ea. destruct Ea as (Ea & Hm).
    apply andb_true_iff in Ea. destruct Ea as (Ea & Hv).
    apply andb_true_iff in Ea. destruct Ea as (Ht & _).
    apply Nat.eqb_eq in Ht, Hv. apply String.eqb_eq in Hm.
    split; [congruence|]. split; assumption.
  - intros Ha Htp Hvp Hmt pp.
    destruct (prepare_cases (with_pipeline_size env pp)) as [[_ Hp] | [Hc _]];
      [exact Hp|].
    exfalso. unfold prepare_checks in Hc.
    rewrite (argument_checks_pipeline_size env pp Ha) in Hc.
    change (args.test_logits (env_args (with_pipeline_size env pp)))
      with (args.test_logits (env_args env)) in Hc.
    rewrite Hl in Hc. unfold logits_assertions in Hc.
    change (tp_size (with_pipeline_size env pp)) with (tp_size env) in Hc.
    change (vp_size (with_pipeline_size env pp)) with (vp_size env) in Hc.
    change (args.model_type (env_args (with_pipeline_size env pp)))
      with (args.model_type (env_args env)) in Hc.
    rewrite Htp, Hvp, Hmt in Hc. discriminate Hc.
Qed.

Lemma logits_check_asserted_before_messages_witness :
  (tp_size Examples.with_logits = 1 /\ vp_size Examples.with_logits = 1
   /\ args.model_type (env_args Examples.with_logits) = "GPT")
  /\ pp_size Examples.with_logits = 2
  /\ snd (run Examples.with_logits) = Ret tt.
Proof.
  split; [|split; vm_compute; reflexivity].
  destruct (logits_check_asserted_before_messages Examples.with_logits) as (H & _).
  - reflexivity.
  - apply (H (nth 0 (queue (fst (run Examples.with_logits))) (QStr ""))).
    + apply nth_In. vm_compute. lia.
    + vm_compute. exact I.
Defined.

(* ================================================================== *)
(** ** The vocabulary size check (lines 199-210) *)

(** C3.  The comparison of the vocabulary file's size with
    [--true-vocab-size] sits in the branch taken only when
    [--true-vocab-size] is not given, so it never fires.  When both are given
    and the sizes disagree, and the other argument checks pass, the set-up
    returns the metadata with the given size and nothing on the queue; the
    run never leaves through [exit(1)], the only ["exit"] it can push is the
    handler's after a later exception, and when it returns the queue starts
    with the metadata record carrying the given size and ends with
    ["done"]. *)
Theorem vocab_size_mismatch_goes_unnoticed (env : environment) (v : Z)
    (vocab : list string) :
  args.true_vocab_size (env_args env) = Some v ->
  args.vocab_file (env_args env) = Some vocab ->
  Z.of_nat (length vocab) <> v ->
  prepare_checks env = true ->
  prepare env initial_state = (initial_state, Ret (md_of env))
  /\ md.true_vocab_size (md_of env) = Some v
  /\ (forall c, snd (run env) <> SysExit c)
  /\ (forall s', run env = (s', Ret tt) ->
      (exists m, hd_error (queue s') = Some (QMetadata m)
                 /\ md.true_vocab_size m = Some v)
      /\ last (queue s') (QStr "exit") = QStr "done"
      /\ ~ In (QStr "exit") (queue s')).
Proof.
  intros Hv Hf Hne Hc.
  destruct (prepare_cases env) as [[_ Hp] | [Hc' _]]; [|congruence].
  split; [exact Hp|].
  assert (Hmd : md.true_vocab_size (md_of env) = Some v).
  { unfold md_of. cbn [md.true_vocab_size]. rewrite Hv. reflexivity. }
  split; [exact Hmd|]. split.
  - intros c. rewrite run_unfold, Hp.
    destruct (send_all env (md_of env) initial_state) as [s2 o2] eqn:Hs.
    pose proof (send_all_never_exits env _ _ _ _ Hs c) as Hn.
    destruct o2; cbn [snd]; [discriminate | discriminate | exact Hn].
  - intros s' Hrun.
    pose proof (run_shape env s' (Ret tt) Hrun) as (items & Pitems & Hshape).
    apply run_ret in Hrun.
    destruct Hrun as (_ & ct & cv & schema & emb & msgs & named & H). cbv zeta in H.
    destruct H as (_ & _ & _ & _ & _ & Q & _).
    split.
    + exists (md.with_consumed (md_of env) ct cv). rewrite Q.
      split; [reflexivity | exact Hmd].
    + destruct Hshape as [(_ & Q') | (Hno & _)]; [|congruence].
      rewrite Q'. split; [apply last_last|].
      intros Hin. apply in_app_or in Hin. destruct Hin as [Hin | [Hin | []]].
      * rewrite Forall_forall in Pitems. exact (Pitems _ Hin).
      * discriminate Hin.
Qed.

Lemma vocab_size_mismatch_goes_unnoticed_witness :
  args.true_vocab_size (env_args Examples.vocab_clash) = Some 100%Z
  /\ option_map (@length string) (args.vocab_file (env_args Examples.vocab_clash))
     = Some 3
  /\ snd (run Examples.vocab_clash) = Ret tt
  /\ last (queue (fst (run Examples.vocab_clash))) (QStr "exit") = QStr "done"
  /\ ~ In (QStr "exit") (queue (fst (run Examples.vocab_clash))).
Proof.
  assert (Hret : snd (run Examples.vocab_clash) = Ret tt) by (vm_compute; reflexivity).
  split; [reflexivity|]. split; [reflexivity|]. split; [exact Hret|].
  destruct (vocab_size_mismatch_goes_unnoticed Examples.vocab_clash 100%Z
              ["a"; "b"; "c"]%string) as (_ & _ & _ & H).
  - reflexivity.
  - reflexivity.
  - vm_compute. discriminate.
  - reflexivity.
  - apply (H (fst (run Examples.vocab_clash))).
    rewrite <- Hret. apply surjective_pairing.
Defined.

(* ================================================================== *)
(** ** Four experts over two expert-parallel ranks *)




(* ================================================================== *)
(** ** The fields of the LM-head message *)

(** C9.  In a BERT run that completes with a norm bias, the queue holds the
    ["lm head"] message, and its ["norm bias"] field is not the LM head's
    layer-norm bias tensor but a one-element tuple holding it (the
    assignment of line 413 ends in a comma), while ["norm weight"] next to
    it holds the tensor itself.  The shard read is tensor-parallel rank 0 of
    the last group. *)
Theorem lm_head_norm_bias_sent_as_tuple (env : environment) (s' : state) :
  run env = (s', Ret tt) ->
  0 < pp_size env ->
  args.model_type (env_args env) = "BERT" ->
  md.norm_has_bias (md_of env) = true ->
  let model0 := model_provider env (pp_size env - 1) 0 (vp_size env - 1) in
  exists msg,
    In (QMessage msg) (queue s')
    /\ dict_find msg "name" = Some (PStr "lm head")
    /\ dict_find msg "norm weight"
       = Some (get_deep_attr (named_tensors model0) "lm_head.layer_norm.weight")
    /\ dict_find msg "norm bias"
       = Some (PTuple [get_deep_attr (named_tensors model0)
                         "lm_head.layer_norm.bias"]).
Proof.
  intros Hrun Hpp Hbert Hnb. cbv zeta.
  assert (Hb : String.eqb (args.model_type (env_args env)) "BERT" = true)
    by (rewrite Hbert; reflexivity).
  destruct (run_ret_lm_head env s' Hrun Hpp Hb) as (ct & cv & schema & lm & Hs & Hlm & Hin).
  destruct (lm_head_message_norm_fields _ _ _ _ _ _ _ _ Hs Hlm Hnb)
    as (model0 & H0 & Hw & Hbias).
  unfold stage_shards, shards_upto in H0. apply list_index_map_seq in H0.
  destruct H0 as (-> & _).
  exists (dict_set lm "name" (PStr "lm head")).
  split; [exact Hin|]. split; [apply dict_find_set_same|].
  rewrite !dict_find_set_other by discriminate. split; assumption.
Qed.

Lemma lm_head_norm_bias_sent_as_tuple_witness :
  exists msg,
    In (QMessage msg) (queue (fst (run Examples.bert)))
    /\ dict_find msg "name" = Some (PStr "lm head")
    /\ dict_find msg "norm weight"
       = Some (get_deep_attr
                 (named_tensors (model_provider Examples.bert 1 0 0))
                 "lm_head.layer_norm.weight")
    /\ dict_find msg "norm bias"
       = Some (PTuple [get_deep_attr
                         (named_tensors (model_provider Examples.bert 1 0 0))
                         "lm_head.layer_norm.bias"]).
Proof.
  apply (lm_head_norm_bias_sent_as_tuple Examples.bert (fst (run Examples.bert))).
  - assert (Hret : snd (run Examples.bert) = Ret tt) by (vm_compute; reflexivity).
    rewrite <- Hret. apply surjective_pairing.
  - vm_compute. lia.
  - reflexivity.
  - reflexivity.
Defined.
